(* ===== verification/_CoqProject ===== *)
-Q . S2P
Prelude.v
Model.v
Config.v
Topo.v
Crypto.v
Fmt.v
Verify.v
Files.v
Backend.v
Dependable.v
Metrics.v
Trace.v
World.v
Store.v
TrustMeta.v
MetricsText.v
Payload.v
Migration.v
Throttle.v
Download.v
Relay.v
RelayPool.v
Campaign.v
SiteLink.v
Rauc.v
Engine.v
EngineFrame.v
EngineSpec.v
Refine.v
RefineEngine.v
FleetRef.v
Fleet.v
LabServer.v
API.v
Client.v
Otlp.v
StatusView.v
Cli.v
System.v
Typed.v
Commands.v
Progress.v
Accept.v
Measure.v
Outcomes.v
Sweep.v
Stability.v
Justified.v
Remote.v
Daemon.v
Host.v
Scenario.v
Witness.v
Peers.v
