(* ===== verification/Prelude.v ===== *)
(** * Zyvor OTA: a verification library of the update agent

    Zyvor OTA is an over-the-air update agent for devices with two root file
    system slots.  The daemon (cmd/zyvor-otad) owns one [Engine]
    (internal/ota/engine.go).  An assignment, which names a job and carries a
    signed release, arrives over the local HTTP API or from Fleet and is
    handed to [Engine.Submit]; a loop calls [Engine.Step], which drives the
    one active job: download the artifacts, verify them, apply side payloads,
    install the bundle into the other slot through a [Backend] (RAUC over
    D-Bus, or a file-backed simulator), reboot, check health for a while, and
    commit or roll back.  Every transition is a transaction of the [Store]
    (internal/ota/store.go), a single-writer SQLite journal with an outbox of
    events; the process may die between any two operations and continues from
    the journal.  Around the agent: the command line and a Go client call its
    API; Fleet, for which internal/fleetref is the reference server, takes its
    events and hands out assignments; a site relay (internal/relay) caches
    artifacts; campaigns carry them on removable media; spans go to an OTLP
    collector.

    ** Files

    - Prelude: errors, the state-and-error monad [M] in which a computation
      returns, fails or dies with the process, 64-bit arithmetic, the [keeps]
      rules (what a computation leaves alone) and their hint database, Go map
      iteration order as a class [MapRange].
    - Model, Config: model.go.  The structs as records, [State] as an
      inductive, [Config.Validate], [DownloadJitter], [DownloadAllowed],
      [parseClock]; [validateRelay] and [validateOTLP] of trace.go.
    - Topo: [topoTargets] (verify.go) and [orderedTargets] (payload.go).
    - Crypto: SHA-256, hex and base64 executable; Ed25519 as a class.
    - Fmt: the formats [%d], [%g] and [%q]: float64 arithmetic, the shortest
      decimal that rounds back, quoting and its inverse, and the text whose
      quoted form has the three escapes of the metrics format only.
    - Verify: [VerifyEnvelope], [SignRelease], [Fingerprint] (verify.go),
      [releaseArtifacts] (campaign.go), [StrictJSON] over an abstract decoder.
    - Files, World: the file system, the state of process and device, and the
      oracle [Env].
    - Backend: the [Backend] interface as a class and the simulator as its
      instance (backend.go).  Dependable: what a device in working order
      promises to the engine, as a class, with the simulator as an instance.
    - Metrics, Trace: the counters (metrics.go) and spans (trace.go) that the
      engine updates while it works.  MetricsText: [WriteMetrics], a reader
      of the text format it announces, and the series the page should show.
    - Store: store.go.  [validateDatabase], [compactHot], [Update], [persist],
      [load], [OpenStore], [Backup], [ExportArchive].  Migration: starts on a
      state.json of an earlier agent.
    - TrustMeta: trustmeta.go.  Threshold-signed root, timestamp, snapshot and
      targets metadata, delegations, the transparency log.
    - Payload: payload.go and health.go.
    - Download: download.go.  Local media, relay and origin, resumption.
      Throttle: its bandwidth limit, as a reader.
    - Relay: internal/relay and cmd/zyvor-relay, over a world of its own.
      RelayPool: concurrent requests as threads that take turns under the fill
      mutex.  SiteLink: an agent whose network ends at a relay.
    - Campaign: campaign.go and [AtomicWrite] of store.go.
    - Rauc: rauc.go, the other instance of [Backend], over a bus.
    - Engine: engine.go and boot.go.  [Submit], every branch of [Step],
      [RequestReboot], [RecoverAbort], [Ack], [GC], [confirmNormalBoot].
    - EngineFrame: what the helpers leave alone.
    - EngineSpec: the abstract machine over journal snapshots and backend
      actions, and its theorems.  Refine, RefineEngine: the engine's code
      simulates it.
    - FleetRef: internal/fleetref and the registration of cmd/zyvor-fleet-ref.
      Fleet: fleet.go.  LabServer: the rest of cmd/zyvor-fleet-ref, its
      certificate and PEM files, and a device set up for it.
    - API: the routes of api.go.  Client: internal/otaclient, and that client
      against the agent.  Otlp: the document and the exporter of trace.go.
      StatusView, Cli: cmd/zyvor-ota.
    - System: the transition system of commands (API requests and Fleet
      synchronisations among them), crashes, restarts and outside changes, and
      the claims that hold in all its executions.  Typed: the types of what
      the journal holds.
    - Progress, Accept: an assignment on a device in working order is driven
      to its end.
    - Measure: scripts/measure.
    - Commands, Outcomes, Remote: what single calls do, and what the callers
      of API and Fleet can rely on.
    - Sweep: what every operation keeps, for any relation of class [Kept].
      Stability: how the start of the healthy period moves, and what the
      stability test before a commit means.  Justified: every mark and reboot
      with its reason.
    - Daemon: cmd/zyvor-otad and [ListenUnix]: start-up and the loops, whose
      calls are executions of System.  Host: any number of processes of it on
      one state directory, launched, killed and shut down in any order, with
      the lock of [OpenStore], the deferred calls of [run], [Store.Close] and
      the socket clients dial.
    - Scenario, Witness, Peers: a concrete device on which an update is
      executed, concrete peers, and every claim applied to a concrete case.

    ** Correspondence

    A method of [Engine] or [Store] is a computation over [World]: memory
    ([w_data], [w_poisoned], [w_healthySince], [w_mu], counters, spans), the
    two SQLite tables ([w_disk]), the device behind the backend ([w_dev]), the
    files ([w_fs]), and a trace of what became visible outside: committed
    snapshots and calls of Install, Mark and Reboot.  What the process does
    not decide (clock, failing system calls, short copies, free space, the
    outcome of a transaction, health probes, random bytes, the network, the
    instant of a crash) is read from an oracle at a position that every
    consultation advances; theorems hold for all oracles.  A crash is a third
    outcome, [Died], that no handler catches, and leaves the engine's mutex
    held, so that only a restart follows.  A transaction ends committed,
    rolled back, or committed with an error reported ([TxLost]).

    Integers are [Z] with the wrap-around of their width written where the
    code computes with them ([u64], [s64], [w32]).  A Go map is a [gmap]; where the
    code ranges over one, the order is the parameter [MapRange], known only to
    be a permutation.  Code outside the repository enters as a class with the
    documented laws the proofs use: JSON codecs ([Codec]: what is marshalled
    is read back), Ed25519 verification (an arbitrary predicate),
    URL parsing, HTTP, the local time zone.

    ** What the theorems show

    - All executions (System): the agent refines the abstract machine;
      releases reach the backend with strictly increasing sequence numbers,
      only verified, and only after being journalled; jobs follow the state
      machine; the outbox loses nothing and the numbers in it never wrap;
      accepted sequences never decrease; a restart finds a valid, well-typed
      journal.
    - All executions (Stability, Justified): a commit needs every check to
      pass in its own step, a whole stability period after the last failed
      one; each mark and each reboot has its reason in the job or boot of the
      journal, in what the backend reported and in the actions the same
      command performed before it.
    - Progress (Progress, Accept): an assignment on an idle device in working
      order ends, after finitely many steps, committed on the other slot when
      the checks pass and rolled back when they fail.  The calls up to the
      reboot are counted (33 and those of the download) and the clock is
      inside the assignment's window for that many; the steps of the health
      window are paced against its timeout.  Both are proved against
      [Dependable] and hold on the simulator.
    - Single calls (Commands, Outcomes): refused, repeated and conflicting
      assignments; an interrupted installation; operator abort; the checks of
      a step; needs-recovery blocks.
    - Journal (Store, Migration): atomic update, exact validation,
      compaction; an imported journal is never lost.
    - Inputs (Verify, TrustMeta, Topo, Download, Payload, Config, Backend):
      an envelope is accepted exactly when its signature and the whole release
      are in order for the device; supply-chain metadata checks are sound;
      dependency orders are correct and exist exactly when accepted; a fetched artifact has its signed
      digest, and the throttle does not change what is copied; failed payload
      sets are restored; the download window is a cyclic interval.
    - Peers (Remote, Fleet, FleetRef, Relay, Campaign, Rauc, Client, Cli,
      Daemon, Host, LabServer, Otlp): an accepted assignment is durable; an event leaves the
      outbox only when the server has recorded it; what the server
      acknowledged is contiguous and never lost, and its loop ends; the relay
      serves only what hashes to the digest asked for, from allowed origins,
      also to concurrent requests, which it all answers and for which it
      fetches an artifact once; an agent behind it gets its artifacts there;
      RAUC reports success exactly for a completed installation and names the
      other slot; what a campaign exports is imported; a file is replaced
      atomically; a key pair generated and used by the command line is accepted by
      the agent; the client waits for a busy engine without effect; of all
      processes on a state directory only the owner of its lock answers on the
      socket, launches beside it go unnoticed, what they all do is an execution
      of System, and on a working machine the owner shuts down cleanly and a
      successor starts, whatever became of the last one; a device with the lab
      server's certificate and token is handed its assignment; the exporter
      drains in order; a reader of the metrics format finds exactly the series
      the counters stand for; the relay measurement reports
      one fetch for its hundred clients, and the measurements of updates end
      with a report of a job that reached the state they name, or an error.
    - Runs (Witness): on the simulator an update runs to [Committed], and with
      a failing health endpoint it rolls back.

    ** Fuel

    [compact_loop] gets as many iterations as there are jobs, each archives
    one ([compact_loop_spec]); [topo_loop] and [order_loop] get as many as
    there are targets ([topo_loop_enough], [order_loop_ok]); in all three
    running out is a separate result that the lemmas exclude.  [advance] of the
    reference server gets as many rounds as events are stored
    ([advance_enough]); [do_loop] and [cli_loop] count the 25 attempts
    of their source.  [until] of scripts/measure gets any number of rounds
    beyond the instant at which the clock passes its deadline ([until_ends]);
    [io_copy] one more than the bytes to copy ([io_copy_copied]);
    [shortest_from] as many as the exact decimal has digits
    ([shortest_rounds]); [unquote_runes] and [read_labels] the length of what
    they read.  [pemLines] gets the number of characters to break into lines
    ([pemLines_filter]), [countCopy] one more than the bytes to read
    ([countCopy_all]).  [dec_digits] gets the number of binary digits, [blocks] of
    SHA-256 the number of words.

    ** Not modelled

    TLS connections and the cryptography of certificates, which are
    parameters; the listener of the relay; byte ranges of the relay's answers;
    logging; of scripts/measure the size of the whole state directory and the
    printing of the report.  A signal to the agent is a choice of Host; the
    release of the lock and the exit of the process are one step there, so a
    request that outlasts both is cut off.  The table of printable characters above Latin-1 is a
    parameter ([Unicode]).  A conversion of a float64 out of the range of
    int64, which Go leaves to the machine, is not used in a theorem.  JSON is
    abstract throughout: what is needed of an encoding is a law of its class
    or a hypothesis.  Calls on one engine are serialised by its mutex, so operations
    are whole steps of the transition system, with acknowledgements between
    them; the configuration stays the same across restarts; the import of a
    state.json of an older version is the subject of Migration, and the
    executions of System start without one. *)
From stdpp Require Import base tactics gmap strings list numbers option.
From Stdlib Require Import ZArith Lia Ascii.

(** ** Errors

    A Go [error] value: its message, and the sentinel or typed error the
    code recognises with [errors.Is] / [errors.As]. *)
Inductive sentinel :=
  | SentErrDeferred
  | SentErrJitter
  | SentNotExist
  | SentHealthError (name : string).

Record error := mkError { err_msg : string; err_is : option sentinel }.

Definition errors_New (msg : string) : error := mkError msg None.

(** [fmt.Errorf("prefix: %w", err)] keeps the wrapped error's identity. *)
Definition wrap_error (prefix : string) (e : error) : error :=
  mkError (prefix +:+ err_msg e) (err_is e).

(** The pair [(value, error)] of a pure Go function. *)
Inductive result (A : Type) :=
  | Ok (a : A)
  | Err (e : error).
Arguments Ok {A} a.
Arguments Err {A} e.

Global Instance result_ret : MRet result := fun A a => Ok a.
Global Instance result_bind : MBind result := fun A B k r =>
  match r with Ok a => k a | Err e => Err e end.
Global Instance result_fmap : FMap result := fun A B f r =>
  match r with Ok a => Ok (f a) | Err e => Err e end.

Definition errorf {A} (msg : string) : result A := Err (errors_New msg).

(** [if cond { return errors.New(msg) }] *)
Definition reject_if (cond : bool) (msg : string) : result unit :=
  if cond then errorf msg else Ok tt.

Definition is_ok {A} (r : result A) : bool :=
  match r with Ok _ => true | Err _ => false end.

Lemma result_bind_ok {A B} (r : result A) (k : A → result B) b :
  (r ≫= k) = Ok b → ∃ a, r = Ok a ∧ k a = Ok b.
Proof. destruct r; simpl; [eauto | discriminate]. Qed.

Lemma reject_if_ok b msg u : reject_if b msg = Ok u → b = false.
Proof. destruct b; [discriminate | done]. Qed.

Lemma reject_if_false b msg : b = false → reject_if b msg = Ok tt.
Proof. by intros ->. Qed.

Lemma reject_if_iff b msg : reject_if b msg = Ok tt ↔ b = false.
Proof. split; [apply reject_if_ok | apply reject_if_false]. Qed.

Lemma bind_ok_iff {B} (m : result unit) (k : result B) b : (_ ← m; k) = Ok b ↔ m = Ok tt ∧ k = Ok b.
Proof. destruct m as [[]|e]; simpl; [tauto|]. split; [done|]. by intros [? _]. Qed.

(** ** Effectful code

    The agent's methods run in a state monad over a world [W].  A Go method
    returns normally ([Ret]), returns an error ([Fail]), or the process dies
    in the middle of it ([Died]: power loss, SIGKILL); in every case the
    effects performed so far stay performed. *)
Inductive outcome (A : Type) :=
  | Ret (a : A)
  | Fail (e : error)
  | Died.
Arguments Ret {A} a.
Arguments Fail {A} e.
Arguments Died {A}.

Definition M (W A : Type) : Type := W → outcome A * W.

Global Instance M_ret W : MRet (M W) := fun A a w => (Ret a, w).
Global Instance M_bind W : MBind (M W) := fun A B k m w =>
  match m w with
  | (Ret a, w') => k a w'
  | (Fail e, w') => (Fail e, w')
  | (Died, w') => (Died, w')
  end.

Section monad.
Context {W : Type}.

Definition fail {A} (e : error) : M W A := fun w => (Fail e, w).
Definition die {A} : M W A := fun w => (Died, w).
Definition get : M W W := fun w => (Ret w, w).
Definition modify (f : W → W) : M W unit := fun w => (Ret tt, f w).

Definition lift {A} (r : result A) : M W A :=
  match r with Ok a => mret a | Err e => fail e end.

(** Run [m] and hand its error to the caller as a value
    ([v, err := m(); ...]); process death is not an error value. *)
Definition try {A} (m : M W A) : M W (result A) := fun w =>
  match m w with
  | (Ret a, w') => (Ret (Ok a), w')
  | (Fail e, w') => (Ret (Err e), w')
  | (Died, w') => (Died, w')
  end.

(** [_ = m()] *)
Definition ignore {A} (m : M W A) : M W unit := _ ← try m; mret tt.

(** [if cond() { m1 } else { m2 }] *)
Definition ifM {A} (cond : M W bool) (m1 m2 : M W A) : M W A :=
  cond ≫= fun b : bool => if b then m1 else m2.

Definition when (b : bool) (m : M W unit) : M W unit :=
  if b then m else mret tt.

End monad.

(** Inversion of a bind, and of [v, err := m()], that returned. *)
Lemma bind_returns {W A B} (m : M W A) (k : A → M W B) w y w' :
  (m ≫= k) w = (Ret y, w') → ∃ x w1, m w = (Ret x, w1) ∧ k x w1 = (Ret y, w').
Proof. unfold mbind, M_bind. destruct (m w) as [[x|e|] w1]; [eauto|done..]. Qed.

Lemma try_returns {W A} (m : M W A) w x w' : try m w = (Ret (Ok x), w') → m w = (Ret x, w').
Proof. unfold try. destruct (m w) as [[?|?|] ?]; naive_solver. Qed.

(** ** Relations kept by effectful code

    [keeps R m]: whatever [m] returns, and wherever the process dies inside
    it, the world before and the world after are related by [R].  For a
    preorder [R] the rules are compositional; database [keeps] collects
    them so that a whole handler is discharged from its primitives. *)
Definition keeps {W A} (R : W → W → Prop) (m : M W A) : Prop :=
  ∀ w, R w (m w).2.

Create HintDb keeps.

Section keeps.
Context {W : Type} (R : W → W → Prop) `{!PreOrder R}.

Lemma keeps_ret {A} (a : A) : keeps R (mret a : M W A).
Proof. intros w. reflexivity. Qed.

Lemma keeps_fail {A} e : keeps R (fail e : M W A).
Proof. intros w. reflexivity. Qed.

Lemma keeps_die {A} : keeps R (die : M W A).
Proof. intros w. reflexivity. Qed.

Lemma keeps_get : keeps R (get : M W W).
Proof. intros w. reflexivity. Qed.

Lemma keeps_lift {A} (r : result A) : keeps R (lift r : M W A).
Proof. intros w. destruct r; reflexivity. Qed.

Lemma keeps_bind {A B} (m : M W A) (k : A → M W B) :
  keeps R m → (∀ a, keeps R (k a)) → keeps R (m ≫= k).
Proof.
  intros Hm Hk w. specialize (Hm w). unfold mbind, M_bind.
  destruct (m w) as [[a|e|] w']; simpl in *; [|done..].
  etrans; [exact Hm | apply Hk].
Qed.

(** The continuation may rely on the value it was handed. *)
Lemma keeps_bind_at {A B} (m : M W A) (k : A → M W B) :
  keeps R m → (∀ w a w1, m w = (Ret a, w1) → R w1 (k a w1).2) → keeps R (m ≫= k).
Proof.
  intros Hm Hk w. specialize (Hm w). unfold mbind, M_bind.
  destruct (m w) as [[a|e|] w'] eqn:E; simpl in *; [|done..].
  etrans; [exact Hm | by eapply Hk].
Qed.

Lemma keeps_try {A} (m : M W A) : keeps R m → keeps R (try m).
Proof.
  intros Hm w. specialize (Hm w). unfold try.
  by destruct (m w) as [[a|e|] w'].
Qed.

Lemma keeps_ignore {A} (m : M W A) : keeps R m → keeps R (ignore m).
Proof. intros Hm. apply keeps_bind; [by apply keeps_try | intros; apply keeps_ret]. Qed.

Lemma keeps_ifM {A} c (m1 m2 : M W A) :
  keeps R c → keeps R m1 → keeps R m2 → keeps R (ifM c m1 m2).
Proof. intros. by apply keeps_bind; [|intros []]. Qed.

Lemma keeps_when b (m : M W unit) : keeps R m → keeps R (when b m).
Proof. destruct b; [done | intros; apply keeps_ret]. Qed.

End keeps.

(** Discharge a [keeps] goal by following the structure of the code. *)
Ltac keeps_step :=
  match goal with
  | |- keeps _ (mret _) => apply keeps_ret; apply _
  | |- keeps _ (fail _) => apply keeps_fail; apply _
  | |- keeps _ die => apply keeps_die; apply _
  | |- keeps _ get => apply keeps_get; apply _
  | |- keeps _ (lift _) => apply keeps_lift; apply _
  | |- keeps _ (_ ≫= _) => apply keeps_bind; [apply _ | | intros ?]
  | |- keeps _ (try _) => apply keeps_try
  | |- keeps _ (ignore _) => apply keeps_ignore; [apply _ |]
  | |- keeps _ (ifM _ _ _) => apply keeps_ifM; [apply _ | | |]
  | |- keeps _ (when _ _) => apply keeps_when; [apply _ |]
  | |- keeps _ (if ?b then _ else _) => destruct b eqn:?
  | |- keeps _ (match ?x with _ => _ end) => destruct x eqn:?
  | |- keeps _ (let '_ := ?x in _) => destruct x eqn:?
  | |- keeps _ _ => solve [eauto with keeps]
  end.
Ltac keeps_auto := repeat keeps_step.

(** ** Hoare triples

    [hoare P m Q]: from a world satisfying [P], running [m] ends with an
    outcome and world satisfying [Q]. *)
Definition hoare {W A} (P : W → Prop) (m : M W A) (Q : outcome A → W → Prop) : Prop :=
  ∀ w, P w → Q (m w).1 (m w).2.

(** ** Time and machine integers

    A [time.Time] is its instant in nanoseconds since Go's zero time
    (January 1, year 1, 00:00 UTC), so [IsZero] is equality with 0. *)
Abbreviation time := Z.
Abbreviation duration := Z.

Definition After (t u : time) : bool := (u <? t)%Z.
Definition Before (t u : time) : bool := (t <? u)%Z.
Definition IsZero (t : time) : bool := (t =? 0)%Z.

Definition s64 (z : Z) : Z := ((z + 2 ^ 63) mod 2 ^ 64 - 2 ^ 63)%Z.
Definition u64 (z : Z) : Z := (z mod 2 ^ 64)%Z.
Definition u32 (z : Z) : Z := (z mod 2 ^ 32)%Z.

Definition Second : duration := 1000000000%Z.

(** [time.Duration(n) * time.Second], an int64 product. *)
Definition seconds (n : Z) : duration := s64 (n * Second).

(** [t.Sub(u)] saturates at the int64 bounds. *)
Definition Sub (t u : time) : duration :=
  Z.max (- 2 ^ 63) (Z.min (2 ^ 63 - 1) (t - u)).

Lemma s64_small z : (- 2 ^ 63 ≤ z < 2 ^ 63)%Z → s64 z = z.
Proof. intros H. unfold s64. rewrite Z.mod_small; lia. Qed.

Lemma u64_small z : (0 ≤ z < 2 ^ 64)%Z → u64 z = z.
Proof. intros H. unfold u64. by apply Z.mod_small. Qed.

Lemma seconds_small n : (0 ≤ n ≤ 3600)%Z → seconds n = (n * Second)%Z.
Proof. intros H. unfold seconds, Second. apply s64_small. lia. Qed.

(** ** Strings and bytes *)
Abbreviation bytes := (list Byte.byte).

Global Instance byte_eq_dec : EqDecision Byte.byte := Byte.byte_eq_dec.

Definition to_bytes : string → bytes := String.list_byte_of_string.
Definition of_bytes : bytes → string := String.string_of_list_byte.

(** [s == t] on strings. *)
Definition eqs (s t : string) : bool := bool_decide (s = t).

Lemma eqs_true s t : eqs s t = true ↔ s = t.
Proof. apply bool_decide_eq_true. Qed.

Lemma eqs_false s t : eqs s t = false ↔ s ≠ t.
Proof. apply bool_decide_eq_false. Qed.

Lemma eqs_refl s : eqs s s = true.
Proof. by apply eqs_true. Qed.

Lemma ascii_app s t :
  String.list_ascii_of_string (s +:+ t) = String.list_ascii_of_string s ++ String.list_ascii_of_string t.
Proof. induction s as [|c s IH]; [done|]. simpl. f_equal. exact IH. Qed.

Lemma append_inj_suffix s t u : s +:+ u = t +:+ u → s = t.
Proof.
  intros E. apply (f_equal String.list_ascii_of_string) in E. rewrite !ascii_app in E.
  apply app_inv_tail in E. rewrite <- (String.string_of_list_ascii_of_string s), E.
  apply String.string_of_list_ascii_of_string.
Qed.

Definition slen (s : string) : Z := Z.of_nat (String.length s).
Definition blen (b : bytes) : Z := Z.of_nat (length b).

(** [strings.TrimSpace(string(b))] on ASCII text. *)
Definition ascii_space (b : Byte.byte) : bool :=
  match b with
  | Byte.x09 | Byte.x0a | Byte.x0b | Byte.x0c | Byte.x0d | Byte.x20 => true | _ => false end.
Fixpoint trim_left (b : bytes) : bytes :=
  match b with x :: b' => if ascii_space x then trim_left b' else b | [] => [] end.
Definition TrimSpace (b : bytes) : string := of_bytes (rev (trim_left (rev (trim_left b)))).

(** [strings.Split(s, ",")] *)
Fixpoint split_at (sep : Ascii.ascii) (l cur : list Ascii.ascii) : list string :=
  match l with
  | [] => [String.string_of_list_ascii (rev cur)]
  | c :: l => if Ascii.eqb c sep then String.string_of_list_ascii (rev cur) :: split_at sep l []
              else split_at sep l (c :: cur)
  end.
Definition split_comma (s : string) : list string :=
  split_at ","%char (String.list_ascii_of_string s) [].

(** [io.ReadAll(io.LimitReader(r, limit))] of a body; [limit_err]: an error of
    the reader that ends the body is met before the limit. *)
Definition limit_read (limit : Z) (b : bytes) : bytes :=
  if (blen b <=? limit)%Z then b else take (Z.to_nat limit) b.
Definition limit_err (limit : Z) (b : bytes) (err : bool) : bool := err && (blen b <? limit)%Z.

(** [containsString] / [containsCap]: a linear scan. *)
Fixpoint scan (l : list string) (want : string) : bool :=
  match l with
  | [] => false
  | v :: l => if eqs v want then true else scan l want
  end.

Lemma scan_spec l want : scan l want = true ↔ want ∈ l.
Proof.
  induction l as [|v l IH]; simpl.
  - split; [done | intros H; inversion H].
  - destruct (eqs v want) eqn:E.
    + apply eqs_true in E as ->. split; [left | done].
    + apply eqs_false in E. rewrite IH. split; [by right|].
      intros H. inversion H; [by subst | done].
Qed.

(** ** Ranging over a Go map

    The iteration order of [for k, v := range m] is unspecified; a
    [MapRange] is any choice of it. *)
Class MapRange := {
  map_range : ∀ {A}, gmap string A → list (string * A);
  map_range_perm : ∀ {A} (m : gmap string A), map_range m ≡ₚ map_to_list m;
}.

Definition sorted_range : MapRange :=
  {| map_range := fun A m => map_to_list m; map_range_perm := fun A m => reflexivity _ |}.

Lemma elem_of_map_range `{MapRange} {A} (m : gmap string A) k v :
  (k, v) ∈ map_range m ↔ m !! k = Some v.
Proof. rewrite map_range_perm. apply elem_of_map_to_list. Qed.

Lemma length_map_range `{MapRange} {A} (m : gmap string A) :
  length (map_range m) = size m.
Proof. rewrite map_range_perm. apply length_map_to_list. Qed.

(** Case analysis on the conditions of a hypothesis, keeping the equations. *)
Ltac destruct_result H :=
  repeat match type of H with
  | (_ ≫= _) = Ok _ => apply result_bind_ok in H as (? & ? & H)
  end.

(** Turn the boolean tests of the code into propositions. *)
Ltac reflect_bools :=
  repeat match goal with
  | H : eqs _ _ = true |- _ => apply eqs_true in H
  | H : eqs _ _ = false |- _ => apply eqs_false in H
  | H : negb _ = true |- _ => apply negb_true_iff in H
  | H : negb _ = false |- _ => apply negb_false_iff in H
  | H : (_ || _) = false |- _ => apply orb_false_elim in H as [? ?]
  | H : (_ && _) = true |- _ => apply andb_prop in H as [? ?]
  | H : reject_if _ _ = Ok _ |- _ => apply reject_if_ok in H
  end.
