(* ===== verification/Model.v ===== *)
(** * Data model (internal/ota/model.go)

    The structs that travel between the components: signed releases,
    assignments, device configuration, the job journal and its events; the
    two validation patterns; the pure helpers on them. *)
From stdpp Require Import base tactics gmap strings list.
From Stdlib Require Import ZArith Lia Ascii.
From S2P Require Import Prelude.

(** ** Patterns *)

Definition in_range (lo hi c : ascii) : bool :=
  (N_of_ascii lo <=? N_of_ascii c)%N && (N_of_ascii c <=? N_of_ascii hi)%N.

Definition is_alnum (c : ascii) : bool :=
  in_range "a" "z" c || in_range "A" "Z" c || in_range "0" "9" c.

Definition is_ident_char (c : ascii) : bool :=
  is_alnum c || Ascii.eqb c "." || Ascii.eqb c "_" || Ascii.eqb c "-".

(** [identifier.MatchString]: [^[a-zA-Z0-9][a-zA-Z0-9._-]{0,95}$]. *)
Definition identifier (s : string) : bool :=
  match String.list_ascii_of_string s with
  | [] => false
  | c :: l => is_alnum c && forallb is_ident_char l && (length l <=? 95)
  end.

Definition is_lower_hex (c : ascii) : bool := in_range "a" "f" c || in_range "0" "9" c.

(** [digestPattern.MatchString]: [^[a-f0-9]{64}$]. *)
Definition digestPattern (s : string) : bool :=
  (String.length s =? 64) && forallb is_lower_hex (String.list_ascii_of_string s).

(** ** Releases and assignments *)

Record Artifact := mkArtifact {
  a_URL : string;
  a_SHA256 : string;
  a_Size : Z;
}.

Definition zeroArtifact : Artifact := mkArtifact "" "" 0.

Record Target := mkTarget {
  t_ID : string;
  t_Type : string;
  t_Artifact : Artifact;
  t_Reboot : string;
  t_Health : string;
  t_Requires : string;
  t_DependsOn : list string;
  t_Rollback : string;
  t_StorageBytes : Z;
}.

Record Release := mkRelease {
  r_Schema : Z;
  r_ID : string;
  r_Sequence : Z;
  r_Compatible : string;
  r_Backend : string;
  r_Version : string;
  r_Expires : time;
  r_Artifact : Artifact;
  r_SBOMSHA256 : string;
  r_SBOM : Artifact;
  r_Targets : list Target;
  r_Adaptive : bool;
  r_RequiresMeasuredBoot : bool;
  r_SBOMKeyID : string;
  r_SBOMSignature : bytes;
}.

(** [r.Artifact = a] *)
Definition set_r_Artifact (a : Artifact) (r : Release) : Release :=
  let '(mkRelease sc i sq co ba ve ex _ sh sb ta ad mb kid sig) := r in
  mkRelease sc i sq co ba ve ex a sh sb ta ad mb kid sig.

(** [Release{Targets: ts}] *)
Definition releaseOf (ts : list Target) : Release :=
  mkRelease 0 "" 0 "" "" "" 0 zeroArtifact "" zeroArtifact ts false false "" [].

Record Envelope := mkEnvelope {
  env_KeyID : string;
  env_Payload : bytes;
  env_Signature : bytes;
}.

Record Assignment := mkAssignment {
  asg_JobID : string;
  asg_DeviceID : string;
  asg_Release : Envelope;
  asg_NotBefore : time;
  asg_Deadline : time;
  asg_AutoReboot : bool;
  asg_CampaignID : string;
}.

(** [Release.OSTarget]: the first target of type [os.rauc]. *)
Fixpoint first_os (ts : list Target) : option Target :=
  match ts with
  | [] => None
  | t :: ts => if eqs (t_Type t) "os.rauc" then Some t else first_os ts
  end.

Definition OSTarget (r : Release) : option Target := first_os (r_Targets r).

Definition HasOS (r : Release) : bool :=
  match OSTarget r with Some _ => true | None => (r_Schema r =? 1)%Z end.

Global Instance Artifact_eq_dec : EqDecision Artifact.
Proof. solve_decision. Defined.
Global Instance Target_eq_dec : EqDecision Target.
Proof. solve_decision. Defined.

(** ** The job journal *)

(** [type State string]: the twelve constants the package declares, and any
    other string a journal file might hold. *)
Inductive State :=
  | Accepted | Downloading | Verified | Installing | AwaitingReboot
  | CheckingHealth | Committing | Committed | RollbackPending | RolledBack
  | Failed | NeedsRecovery
  | UnknownState (s : string).

Global Instance State_eq_dec : EqDecision State.
Proof. solve_decision. Defined.

Definition State_string (s : State) : string :=
  match s with
  | Accepted => "accepted" | Downloading => "downloading" | Verified => "verified"
  | Installing => "installing" | AwaitingReboot => "awaiting_reboot"
  | CheckingHealth => "checking_health" | Committing => "committing"
  | Committed => "committed" | RollbackPending => "rollback_pending"
  | RolledBack => "rolled_back" | Failed => "failed"
  | NeedsRecovery => "needs_recovery" | UnknownState s => s
  end.

Definition Terminal (s : State) : bool :=
  match s with Committed | RolledBack | Failed => true | _ => false end.

(** The states [validateDatabase] accepts. *)
Definition knownState (s : State) : bool :=
  match s with UnknownState _ => false | _ => true end.

Record Job := mkJob {
  j_Assignment : Assignment;
  j_Release : Release;
  j_Fingerprint : string;
  j_State : State;
  j_Error : string;
  j_OldSlot : string;
  j_OldVersion : string;
  j_TargetSlot : string;
  j_BootID : string;
  j_HealthStarted : time;
  j_RebootRequested : bool;
  j_Deferred : bool;
  j_DownloadAfter : time;
  j_PayloadsApplied : bool;
  j_TraceID : string;
  j_SpanID : string;
  j_Updated : time;
}.

Definition j_JobID (j : Job) : string := asg_JobID (j_Assignment j).
Definition j_Sequence (j : Job) : Z := r_Sequence (j_Release j).

Record Event := mkEvent {
  e_Sequence : Z;
  e_JobID : string;
  e_State : State;
  e_Error : string;
  e_Time : time;
}.

Record BootCheck := mkBootCheck {
  bc_BootID : string;
  bc_Started : time;
  bc_Confirmed : bool;
}.

(** [db_JobsNil]: the [Jobs] map is nil (JSON null); it then reads as empty. *)
Record Database := mkDatabase {
  db_Schema : Z;
  db_HighSequence : Z;
  db_EventSequence : Z;
  db_JobsNil : bool;
  db_Jobs : gmap string Job;
  db_Active : string;
  db_Events : list Event;
  db_BootCheck : BootCheck;
  db_RootVersion : Z;
  db_RootPayload : bytes;
  db_SnapshotVersion : Z;
  db_SnapshotSHA : string;
}.

Definition zeroBootCheck : BootCheck := mkBootCheck "" 0 false.

(** The Go zero value, and the value [OpenStore] starts from. *)
Definition zeroDatabase : Database :=
  mkDatabase 0 0 0 true ∅ "" [] zeroBootCheck 0 [] 0 "".
Definition initialDatabase : Database :=
  mkDatabase 1 0 0 false ∅ "" [] zeroBootCheck 0 [] 0 "".

(** ** Field updates

    [set_f v x] is the Go statement [x.f = v] on a copy of [x]. *)
Definition set_j_State (v : State) (x : Job) : Job :=
  mkJob (j_Assignment x) (j_Release x) (j_Fingerprint x) v (j_Error x) (j_OldSlot x) (j_OldVersion x) (j_TargetSlot x) (j_BootID x) (j_HealthStarted x) (j_RebootRequested x) (j_Deferred x) (j_DownloadAfter x) (j_PayloadsApplied x) (j_TraceID x) (j_SpanID x) (j_Updated x).
Definition set_j_Error (v : string) (x : Job) : Job :=
  mkJob (j_Assignment x) (j_Release x) (j_Fingerprint x) (j_State x) v (j_OldSlot x) (j_OldVersion x) (j_TargetSlot x) (j_BootID x) (j_HealthStarted x) (j_RebootRequested x) (j_Deferred x) (j_DownloadAfter x) (j_PayloadsApplied x) (j_TraceID x) (j_SpanID x) (j_Updated x).
Definition set_j_OldSlot (v : string) (x : Job) : Job :=
  mkJob (j_Assignment x) (j_Release x) (j_Fingerprint x) (j_State x) (j_Error x) v (j_OldVersion x) (j_TargetSlot x) (j_BootID x) (j_HealthStarted x) (j_RebootRequested x) (j_Deferred x) (j_DownloadAfter x) (j_PayloadsApplied x) (j_TraceID x) (j_SpanID x) (j_Updated x).
Definition set_j_OldVersion (v : string) (x : Job) : Job :=
  mkJob (j_Assignment x) (j_Release x) (j_Fingerprint x) (j_State x) (j_Error x) (j_OldSlot x) v (j_TargetSlot x) (j_BootID x) (j_HealthStarted x) (j_RebootRequested x) (j_Deferred x) (j_DownloadAfter x) (j_PayloadsApplied x) (j_TraceID x) (j_SpanID x) (j_Updated x).
Definition set_j_TargetSlot (v : string) (x : Job) : Job :=
  mkJob (j_Assignment x) (j_Release x) (j_Fingerprint x) (j_State x) (j_Error x) (j_OldSlot x) (j_OldVersion x) v (j_BootID x) (j_HealthStarted x) (j_RebootRequested x) (j_Deferred x) (j_DownloadAfter x) (j_PayloadsApplied x) (j_TraceID x) (j_SpanID x) (j_Updated x).
Definition set_j_BootID (v : string) (x : Job) : Job :=
  mkJob (j_Assignment x) (j_Release x) (j_Fingerprint x) (j_State x) (j_Error x) (j_OldSlot x) (j_OldVersion x) (j_TargetSlot x) v (j_HealthStarted x) (j_RebootRequested x) (j_Deferred x) (j_DownloadAfter x) (j_PayloadsApplied x) (j_TraceID x) (j_SpanID x) (j_Updated x).
Definition set_j_HealthStarted (v : time) (x : Job) : Job :=
  mkJob (j_Assignment x) (j_Release x) (j_Fingerprint x) (j_State x) (j_Error x) (j_OldSlot x) (j_OldVersion x) (j_TargetSlot x) (j_BootID x) v (j_RebootRequested x) (j_Deferred x) (j_DownloadAfter x) (j_PayloadsApplied x) (j_TraceID x) (j_SpanID x) (j_Updated x).
Definition set_j_RebootRequested (v : bool) (x : Job) : Job :=
  mkJob (j_Assignment x) (j_Release x) (j_Fingerprint x) (j_State x) (j_Error x) (j_OldSlot x) (j_OldVersion x) (j_TargetSlot x) (j_BootID x) (j_HealthStarted x) v (j_Deferred x) (j_DownloadAfter x) (j_PayloadsApplied x) (j_TraceID x) (j_SpanID x) (j_Updated x).
Definition set_j_Deferred (v : bool) (x : Job) : Job :=
  mkJob (j_Assignment x) (j_Release x) (j_Fingerprint x) (j_State x) (j_Error x) (j_OldSlot x) (j_OldVersion x) (j_TargetSlot x) (j_BootID x) (j_HealthStarted x) (j_RebootRequested x) v (j_DownloadAfter x) (j_PayloadsApplied x) (j_TraceID x) (j_SpanID x) (j_Updated x).
Definition set_j_DownloadAfter (v : time) (x : Job) : Job :=
  mkJob (j_Assignment x) (j_Release x) (j_Fingerprint x) (j_State x) (j_Error x) (j_OldSlot x) (j_OldVersion x) (j_TargetSlot x) (j_BootID x) (j_HealthStarted x) (j_RebootRequested x) (j_Deferred x) v (j_PayloadsApplied x) (j_TraceID x) (j_SpanID x) (j_Updated x).
Definition set_j_PayloadsApplied (v : bool) (x : Job) : Job :=
  mkJob (j_Assignment x) (j_Release x) (j_Fingerprint x) (j_State x) (j_Error x) (j_OldSlot x) (j_OldVersion x) (j_TargetSlot x) (j_BootID x) (j_HealthStarted x) (j_RebootRequested x) (j_Deferred x) (j_DownloadAfter x) v (j_TraceID x) (j_SpanID x) (j_Updated x).
Definition set_j_TraceID (v : string) (x : Job) : Job :=
  mkJob (j_Assignment x) (j_Release x) (j_Fingerprint x) (j_State x) (j_Error x) (j_OldSlot x) (j_OldVersion x) (j_TargetSlot x) (j_BootID x) (j_HealthStarted x) (j_RebootRequested x) (j_Deferred x) (j_DownloadAfter x) (j_PayloadsApplied x) v (j_SpanID x) (j_Updated x).
Definition set_j_SpanID (v : string) (x : Job) : Job :=
  mkJob (j_Assignment x) (j_Release x) (j_Fingerprint x) (j_State x) (j_Error x) (j_OldSlot x) (j_OldVersion x) (j_TargetSlot x) (j_BootID x) (j_HealthStarted x) (j_RebootRequested x) (j_Deferred x) (j_DownloadAfter x) (j_PayloadsApplied x) (j_TraceID x) v (j_Updated x).
Definition set_j_Updated (v : time) (x : Job) : Job :=
  mkJob (j_Assignment x) (j_Release x) (j_Fingerprint x) (j_State x) (j_Error x) (j_OldSlot x) (j_OldVersion x) (j_TargetSlot x) (j_BootID x) (j_HealthStarted x) (j_RebootRequested x) (j_Deferred x) (j_DownloadAfter x) (j_PayloadsApplied x) (j_TraceID x) (j_SpanID x) v.
Definition set_db_HighSequence (v : Z) (x : Database) : Database :=
  mkDatabase (db_Schema x) v (db_EventSequence x) (db_JobsNil x) (db_Jobs x) (db_Active x) (db_Events x) (db_BootCheck x) (db_RootVersion x) (db_RootPayload x) (db_SnapshotVersion x) (db_SnapshotSHA x).
Definition set_db_EventSequence (v : Z) (x : Database) : Database :=
  mkDatabase (db_Schema x) (db_HighSequence x) v (db_JobsNil x) (db_Jobs x) (db_Active x) (db_Events x) (db_BootCheck x) (db_RootVersion x) (db_RootPayload x) (db_SnapshotVersion x) (db_SnapshotSHA x).
Definition set_db_Jobs (v : gmap string Job) (x : Database) : Database :=
  mkDatabase (db_Schema x) (db_HighSequence x) (db_EventSequence x) (db_JobsNil x) v (db_Active x) (db_Events x) (db_BootCheck x) (db_RootVersion x) (db_RootPayload x) (db_SnapshotVersion x) (db_SnapshotSHA x).
Definition set_db_Active (v : string) (x : Database) : Database :=
  mkDatabase (db_Schema x) (db_HighSequence x) (db_EventSequence x) (db_JobsNil x) (db_Jobs x) v (db_Events x) (db_BootCheck x) (db_RootVersion x) (db_RootPayload x) (db_SnapshotVersion x) (db_SnapshotSHA x).
Definition set_db_Events (v : list Event) (x : Database) : Database :=
  mkDatabase (db_Schema x) (db_HighSequence x) (db_EventSequence x) (db_JobsNil x) (db_Jobs x) (db_Active x) v (db_BootCheck x) (db_RootVersion x) (db_RootPayload x) (db_SnapshotVersion x) (db_SnapshotSHA x).
Definition set_db_BootCheck (v : BootCheck) (x : Database) : Database :=
  mkDatabase (db_Schema x) (db_HighSequence x) (db_EventSequence x) (db_JobsNil x) (db_Jobs x) (db_Active x) (db_Events x) v (db_RootVersion x) (db_RootPayload x) (db_SnapshotVersion x) (db_SnapshotSHA x).
Definition set_db_RootVersion (v : Z) (x : Database) : Database :=
  mkDatabase (db_Schema x) (db_HighSequence x) (db_EventSequence x) (db_JobsNil x) (db_Jobs x) (db_Active x) (db_Events x) (db_BootCheck x) v (db_RootPayload x) (db_SnapshotVersion x) (db_SnapshotSHA x).
Definition set_db_RootPayload (v : bytes) (x : Database) : Database :=
  mkDatabase (db_Schema x) (db_HighSequence x) (db_EventSequence x) (db_JobsNil x) (db_Jobs x) (db_Active x) (db_Events x) (db_BootCheck x) (db_RootVersion x) v (db_SnapshotVersion x) (db_SnapshotSHA x).
Definition set_db_SnapshotVersion (v : Z) (x : Database) : Database :=
  mkDatabase (db_Schema x) (db_HighSequence x) (db_EventSequence x) (db_JobsNil x) (db_Jobs x) (db_Active x) (db_Events x) (db_BootCheck x) (db_RootVersion x) (db_RootPayload x) v (db_SnapshotSHA x).
Definition set_db_SnapshotSHA (v : string) (x : Database) : Database :=
  mkDatabase (db_Schema x) (db_HighSequence x) (db_EventSequence x) (db_JobsNil x) (db_Jobs x) (db_Active x) (db_Events x) (db_BootCheck x) (db_RootVersion x) (db_RootPayload x) (db_SnapshotVersion x) v.
