(* ===== verification/Config.v ===== *)
(** * Device configuration (internal/ota/model.go, internal/ota/trace.go)

    [Config], its validation, the download jitter and the download window. *)
From stdpp Require Import base tactics gmap strings list.
From Stdlib Require Import ZArith Lia Ascii.
From S2P Require Import Prelude Model.
Local Open Scope Z_scope.

Record Check := mkCheck { ck_Kind : string; ck_Target : string; ck_Name : string }.

Record Config := mkConfig {
  c_DeviceID : string;
  c_Compatible : string;
  c_StateDir : string;
  c_Socket : string;
  c_Backend : string;
  c_AllowDeviceWrites : bool;
  c_TrustKeys : gmap string string;
  c_DownloadHosts : list string;
  c_MaxArtifactBytes : Z;
  c_ReserveBytes : Z;
  c_HealthTimeoutSeconds : Z;
  c_HealthStableSeconds : Z;
  c_Checks : list Check;
  c_Capabilities : list string;
  c_BandwidthBytesPerSec : Z;
  c_DownloadJitterSeconds : Z;
  c_DownloadWindowStart : string;
  c_DownloadWindowEnd : string;
  c_LocalMediaDir : string;
  c_AllowAdaptive : bool;
  c_OTLPEndpoint : string;
  c_OTLPTokenFile : string;
  c_RelayURL : string;
  c_RelayTokenFile : string;
  c_TrustDir : string;
  c_RootSHA256 : string;
  c_RequireSBOMSignature : bool;
  c_FleetURL : string;
  c_FleetTokenFile : string;
  c_FleetCA : string;
  c_FleetCert : string;
  c_FleetKey : string;
}.

(** [net/url]: the parser, and the fields and methods of [*url.URL] the
    package reads ([u_User] is [u.User != nil]). *)
Record URL := mkURL {
  u_Scheme : string;
  u_Host : string;
  u_Hostname : string;
  u_User : bool;
  u_Path : string;
  u_RawQuery : string;
  u_Fragment : string;
}.

Class NetURL := { url_Parse : string → option URL }.

(** The device's local time zone: seconds east of UTC at an instant. *)
Class LocalZone := { zone_offset : time → Z }.

(** [filepath.IsAbs] on a Unix system. *)
Definition IsAbs (p : string) : bool :=
  match p with String "/" _ => true | _ => false end.

Definition loopback (u : URL) : bool :=
  eqs (u_Hostname u) "127.0.0.1" || eqs (u_Hostname u) "::1".

(** ** The clock of the download window *)

(** The bytes [fmt] counts as one space: the ASCII ones except newline, and
    the UTF-8 encodings of the code points of [fmt]'s space table. *)
Definition skip_space1 (l : list N) : option (list N) :=
  match l with
  | 9%N :: l | 11%N :: l | 12%N :: l | 32%N :: l => Some l
  | 13%N :: 10%N :: _ => None
  | 13%N :: l => Some l
  | 194%N :: 133%N :: l | 194%N :: 160%N :: l => Some l
  | 225%N :: 154%N :: 128%N :: l | 227%N :: 128%N :: 128%N :: l
  | 226%N :: 129%N :: 159%N :: l => Some l
  | 226%N :: 128%N :: b :: l =>
      if ((128 <=? b) && (b <=? 138) || (b =? 168) || (b =? 169) || (b =? 175))%N
      then Some l else None
  | _ => None
  end.

Fixpoint skip_space (fuel : nat) (l : list N) : list N :=
  match fuel with
  | O => l
  | S fuel => match skip_space1 l with Some l' => skip_space fuel l' | None => l end
  end.

Definition digit (b : N) : bool := ((48 <=? b) && (b <=? 57))%N.

Fixpoint scan_digits (acc : Z) (l : list N) : Z * list N :=
  match l with
  | b :: l' => if digit b then scan_digits (acc * 10 + (Z.of_N b - 48)) l' else (acc, l)
  | [] => (acc, [])
  end.

(** One [%d] of [fmt.Sscanf]: leading space, an optional sign, at least one
    decimal digit. *)
Definition scan_int (l : list N) : option (Z * list N) :=
  let l := skip_space (length l) l in
  let '(sign, l) :=
    match l with 43%N :: l => (1, l) | 45%N :: l => (-1, l) | _ => (1, l) end in
  match l with
  | b :: _ => if digit b then let '(z, l) := scan_digits 0 l in Some (sign * z, l) else None
  | [] => None
  end.

(** [fmt.Sscanf(v, "%d:%d", &h, &m)]; input after the second number is not
    looked at. *)
Definition Sscanf_clock (l : list N) : option (Z * Z) :=
  match scan_int l with
  | Some (h, 58%N :: l) =>
      match scan_int l with Some (m, _) => Some (h, m) | None => None end
  | _ => None
  end.

Definition codes (s : string) : list N := map N_of_ascii (String.list_ascii_of_string s).

Definition parseClock (v : string) : result (Z * Z) :=
  match Sscanf_clock (codes v) with
  | Some (h, m) =>
      if (h <? 0) || (h >? 23) || (m <? 0) || (m >? 59) || negb (slen v =? 5)
      then errorf "download window must be HH:MM"
      else Ok (h, m)
  | None => errorf "download window must be HH:MM"
  end.

(** ** Validation *)
Section validate.
Context `{NetURL}.

Definition plain_base_url (u : URL) : bool :=
  negb (u_User u || negb (eqs (u_RawQuery u) "") || negb (eqs (u_Fragment u) "")
        || eqs (u_Host u) "").

Definition https_or_loopback (u : URL) : bool :=
  eqs (u_Scheme u) "https" || (eqs (u_Scheme u) "http" && loopback u).

Definition validateRelay (c : Config) : result unit :=
  if eqs (c_RelayURL c) "" then
    reject_if (negb (eqs (c_RelayTokenFile c) "")) "relay_token_file requires relay_url"
  else match url_Parse (c_RelayURL c) with
  | None => errorf "relay_url must be a plain base URL"
  | Some u =>
      _ ← reject_if (negb (plain_base_url u)) "relay_url must be a plain base URL";
      _ ← reject_if (negb (https_or_loopback u)) "relay_url must be HTTPS or loopback HTTP";
      _ ← reject_if (negb (eqs (u_Path u) "") && negb (eqs (u_Path u) "/"))
            "relay_url path must be empty";
      reject_if (eqs (c_RelayTokenFile c) "") "relay_url requires relay_token_file"
  end.

Definition validateOTLP (c : Config) : result unit :=
  if eqs (c_OTLPEndpoint c) "" then
    reject_if (negb (eqs (c_OTLPTokenFile c) "")) "otlp_token_file requires otlp_endpoint"
  else match url_Parse (c_OTLPEndpoint c) with
  | None => errorf "otlp_endpoint must be a plain base URL"
  | Some u =>
      _ ← reject_if (negb (plain_base_url u)) "otlp_endpoint must be a plain base URL";
      _ ← reject_if (negb (https_or_loopback u)) "otlp_endpoint must be HTTPS or loopback HTTP";
      reject_if (negb (eqs (u_Path u) "") && negb (eqs (u_Path u) "/")
                 && negb (eqs (u_Path u) "/v1/traces"))
        "otlp_endpoint path must be empty or /v1/traces"
  end.

(** One iteration of the loop over [c.Checks]: [true] is [continue]. *)
Definition validCheck (check : Check) : bool :=
  (eqs (ck_Kind check) "file" && IsAbs (ck_Target check))
  || (eqs (ck_Kind check) "systemd" && identifier (ck_Target check))
  || (eqs (ck_Kind check) "http" &&
      match url_Parse (ck_Target check) with
      | Some u => eqs (u_Scheme u) "http" && loopback u && negb (u_User u)
      | None => false
      end).

Fixpoint validateChecks (l : list Check) : result unit :=
  match l with
  | [] => Ok tt
  | check :: l =>
      if validCheck check then validateChecks l
      else errorf ("invalid health check: " +:+ ck_Kind check)
  end.

Definition validateWindow (c : Config) : result unit :=
  _ ← reject_if (xorb (eqs (c_DownloadWindowStart c) "") (eqs (c_DownloadWindowEnd c) ""))
        "download window needs both start and end";
  if negb (eqs (c_DownloadWindowStart c) "") then
    _ ← parseClock (c_DownloadWindowStart c);
    _ ← parseClock (c_DownloadWindowEnd c);
    Ok tt
  else Ok tt.

Definition validateFleet (c : Config) : result unit :=
  if negb (eqs (c_FleetURL c) "") then
    match url_Parse (c_FleetURL c) with
    | None => errorf "fleet_url must be a plain HTTPS base URL"
    | Some u =>
        _ ← reject_if (negb (eqs (u_Scheme u) "https") || eqs (u_Host u) "" || u_User u
                       || negb (eqs (u_RawQuery u) "") || negb (eqs (u_Fragment u) ""))
              "fleet_url must be a plain HTTPS base URL";
        reject_if (eqs (c_FleetTokenFile c) ""
                   && (eqs (c_FleetCert c) "" || eqs (c_FleetKey c) ""))
          "Fleet requires a token file or mTLS"
    end
  else Ok tt.

Definition Validate (c : Config) : result unit :=
  _ ← reject_if (negb (identifier (c_DeviceID c)) || negb (identifier (c_Compatible c)))
        "invalid device_id or compatible";
  _ ← reject_if (negb (IsAbs (c_StateDir c)) || negb (IsAbs (c_Socket c)))
        "state_dir and socket must be absolute";
  _ ← reject_if (negb (eqs (c_Backend c) "simulator") && negb (eqs (c_Backend c) "rauc"))
        "supported backends: simulator, rauc";
  _ ← reject_if (eqs (c_Backend c) "rauc"
                 && (negb (c_AllowDeviceWrites c) || (length (c_Checks c) =? 0)%nat))
        "RAUC requires allow_device_writes and local health checks";
  _ ← reject_if ((size (c_TrustKeys c) =? 0)%nat || (length (c_DownloadHosts c) =? 0)%nat)
        "trust_keys and download_hosts are required";
  _ ← reject_if ((c_MaxArtifactBytes c <=? 0) || (c_MaxArtifactBytes c >? 2 ^ 40))
        "max_artifact_bytes must be 1..1TiB";
  _ ← reject_if (c_ReserveBytes c >? 2 ^ 50) "reserve_bytes exceeds supported limit";
  _ ← reject_if ((c_HealthTimeoutSeconds c <? 1) || (c_HealthTimeoutSeconds c >? 3600)
                 || (c_HealthStableSeconds c <? 0)
                 || (c_HealthStableSeconds c >=? c_HealthTimeoutSeconds c))
        "invalid health timing";
  _ ← validateChecks (c_Checks c);
  _ ← reject_if (c_BandwidthBytesPerSec c <? 0) "bandwidth_bytes_per_sec must be >= 0";
  _ ← reject_if ((c_DownloadJitterSeconds c <? 0) || (c_DownloadJitterSeconds c >? 3600))
        "download_jitter_seconds must be 0..3600";
  _ ← validateWindow c;
  _ ← reject_if (negb (eqs (c_LocalMediaDir c) "") && negb (IsAbs (c_LocalMediaDir c)))
        "local_media_dir must be absolute";
  _ ← reject_if (xorb (eqs (c_TrustDir c) "") (eqs (c_RootSHA256 c) ""))
        "trust_dir and root_sha256 are set together";
  _ ← reject_if (negb (eqs (c_TrustDir c) "")
                 && (negb (IsAbs (c_TrustDir c)) || negb (digestPattern (c_RootSHA256 c))))
        "trust_dir must be absolute and root_sha256 must be a sha256";
  _ ← validateOTLP c;
  _ ← validateRelay c;
  validateFleet c.

End validate.

(** ** Download pacing *)

Definition ErrDeferred : error :=
  mkError "deferred: outside download window" (Some SentErrDeferred).
Definition ErrJitter : error :=
  mkError "deferred: download jitter" (Some SentErrJitter).

(** [fnv.New32a]: 32-bit FNV-1a. *)
Definition fnv32a (l : list N) : Z :=
  fold_left (fun h b => u32 (Z.lxor h (Z.of_N b) * 16777619)) l 2166136261.

Definition DownloadJitter (c : Config) : duration :=
  if c_DownloadJitterSeconds c <=? 0 then 0
  else s64 (fnv32a (codes (c_DeviceID c)) mod u32 (c_DownloadJitterSeconds c + 1) * Second).

Section window.
Context `{LocalZone}.

(** [now.Hour()] and [now.Minute()]: the wall clock in the local zone. *)
Definition local_seconds (now : time) : Z := (now / Second + zone_offset now) mod 86400.
Definition Hour (now : time) : Z := local_seconds now / 3600.
Definition Minute (now : time) : Z := local_seconds now mod 3600 / 60.

Definition DownloadAllowed (c : Config) (now : time) : result unit :=
  if eqs (c_DownloadWindowStart c) "" then Ok tt
  else
    '(sh, sm) ← parseClock (c_DownloadWindowStart c);
    '(eh, em) ← parseClock (c_DownloadWindowEnd c);
    let cur := Hour now * 60 + Minute now in
    let start := sh * 60 + sm in
    let stop := eh * 60 + em in
    let inside := if start <=? stop then (cur >=? start) && (cur <? stop)
                  else (cur >=? start) || (cur <? stop) in
    if negb inside then Err ErrDeferred else Ok tt.

End window.

(** ** Properties *)

Lemma parseClock_range v h m :
  parseClock v = Ok (h, m) → 0 ≤ h ≤ 23 ∧ 0 ≤ m ≤ 59 ∧ slen v = 5.
Proof.
  unfold parseClock. destruct (Sscanf_clock _) as [[h' m']|]; [|discriminate].
  destruct (_ || _) eqn:E; [discriminate|]. intros [= <- <-].
  apply orb_false_elim in E as [E E5]. apply orb_false_elim in E as [E E4].
  apply orb_false_elim in E as [E E3]. apply orb_false_elim in E as [E1 E2].
  apply negb_false_iff in E5. lia.
Qed.

(** The two-digit rendering [HH:MM]. *)
Definition render2 (n : Z) : string :=
  String (ascii_of_N (Z.to_N (48 + n / 10)))
    (String (ascii_of_N (Z.to_N (48 + n mod 10))) EmptyString).
Definition renderClock (h m : Z) : string := render2 h +:+ ":" +:+ render2 m.

Lemma parseClock_render_all :
  forallb (fun h => forallb (fun m =>
    match parseClock (renderClock (Z.of_nat h) (Z.of_nat m)) with
    | Ok (h', m') => (h' =? Z.of_nat h) && (m' =? Z.of_nat m)
    | Err _ => false
    end) (seq 0 60)) (seq 0 24) = true.
Proof. vm_compute. reflexivity. Qed.

(** Every time of day written HH:MM is read back as itself. *)
Theorem parseClock_render h m :
  0 ≤ h ≤ 23 → 0 ≤ m ≤ 59 → parseClock (renderClock h m) = Ok (h, m).
Proof.
  intros Hh Hm. pose proof parseClock_render_all as H.
  rewrite forallb_forall in H. specialize (H (Z.to_nat h)).
  rewrite forallb_forall in H. specialize (H ltac:(apply in_seq; lia) (Z.to_nat m)).
  specialize (H ltac:(apply in_seq; lia)). rewrite !Z2Nat.id in H by lia.
  destruct (parseClock _) as [[h' m']|]; [|discriminate].
  apply andb_prop in H as [?%Z.eqb_eq ?%Z.eqb_eq]. by subst.
Qed.

Lemma minute_of_day_range `{LocalZone} now : 0 ≤ Hour now * 60 + Minute now < 1440.
Proof.
  unfold Hour, Minute. assert (0 ≤ local_seconds now < 86400).
  { unfold local_seconds. apply Z.mod_pos_bound. lia. }
  revert H0. generalize (local_seconds now) as s. intros s Hs.
  pose proof (Z.div_mod s 3600 ltac:(lia)). pose proof (Z.mod_pos_bound s 3600 ltac:(lia)).
  assert (0 ≤ s mod 3600 / 60 < 60) by (split; [apply Z.div_pos | apply Z.div_lt_upper_bound]; lia).
  assert (0 ≤ s / 3600 < 24) by (split; [apply Z.div_pos | apply Z.div_lt_upper_bound]; lia).
  lia.
Qed.

Lemma mod_cycle x : -1440 < x < 1440 → x mod 1440 = if x <? 0 then x + 1440 else x.
Proof.
  intros H. destruct (x <? 0) eqn:E; [|apply Z.mod_small; lia].
  rewrite <- (Z.mod_add x 1 1440) by lia. apply Z.mod_small. lia.
Qed.

Lemma cyclic_interval cur start stop :
  0 ≤ cur < 1440 → 0 ≤ start < 1440 → 0 ≤ stop < 1440 →
  (if start <=? stop then (cur >=? start) && (cur <? stop)
   else (cur >=? start) || (cur <? stop))
  = ((cur - start) mod 1440 <? (stop - start) mod 1440).
Proof.
  intros. rewrite !mod_cycle by lia.
  destruct (start <=? stop) eqn:?, (cur - start <? 0) eqn:?, (stop - start <? 0) eqn:?; lia.
Qed.

(** A validated configuration has usable health timing (the stability
    period fits into the timeout), bounded sizes and jitter, and hardware
    backends have device writes enabled and at least one health check. *)
Theorem Validate_bounds `{NetURL} c u :
  Validate c = Ok u →
  (1 ≤ c_HealthTimeoutSeconds c ≤ 3600 ∧
   0 ≤ c_HealthStableSeconds c < c_HealthTimeoutSeconds c) ∧
  1 ≤ c_MaxArtifactBytes c ≤ 2 ^ 40 ∧ c_ReserveBytes c ≤ 2 ^ 50 ∧
  0 ≤ c_DownloadJitterSeconds c ≤ 3600 ∧
  (eqs (c_Backend c) "rauc" = true → c_AllowDeviceWrites c = true ∧ c_Checks c ≠ []).
Proof.
  unfold Validate. intros Hv. destruct_result Hv.
  repeat match goal with
  | E : reject_if _ _ = Ok _ |- _ => apply reject_if_ok in E
  end.
  repeat match goal with
  | E : (_ || _) = false |- _ => apply orb_false_elim in E as [? ?]
  end.
  split; [lia|]. split; [lia|]. split; [lia|]. split; [lia|].
  intros Hr. rewrite Hr in *. simpl in *.
  match goal with E : (negb _ || _) = false |- _ =>
    apply orb_false_elim in E as [E1%negb_false_iff E2] end.
  split; [done|]. by destruct (c_Checks c).
Qed.

(** The jitter a device waits is non-negative and at most the configured
    spread; the 32-bit hash and 64-bit duration arithmetic never leaves it. *)
Theorem DownloadJitter_range c :
  0 ≤ c_DownloadJitterSeconds c ≤ 3600 →
  0 ≤ DownloadJitter c ≤ c_DownloadJitterSeconds c * Second.
Proof.
  intros Hj. unfold DownloadJitter.
  destruct (c_DownloadJitterSeconds c <=? 0) eqn:E; [unfold Second; lia|].
  assert (Hu : u32 (c_DownloadJitterSeconds c + 1) = c_DownloadJitterSeconds c + 1).
  { unfold u32. apply Z.mod_small. lia. }
  rewrite Hu.
  pose proof (Z.mod_pos_bound (fnv32a (codes (c_DeviceID c)))
                (c_DownloadJitterSeconds c + 1) ltac:(lia)) as Hm.
  revert Hm. generalize (fnv32a (codes (c_DeviceID c)) mod (c_DownloadJitterSeconds c + 1)).
  intros z Hz. rewrite s64_small; unfold Second; lia.
Qed.

(** The download window is the half-open interval of minutes from start to
    end on the 24-hour circle, so windows across midnight work. *)
Theorem DownloadAllowed_cyclic `{LocalZone} c now sh sm eh em :
  c_DownloadWindowStart c ≠ "" →
  parseClock (c_DownloadWindowStart c) = Ok (sh, sm) →
  parseClock (c_DownloadWindowEnd c) = Ok (eh, em) →
  DownloadAllowed c now =
    if (Hour now * 60 + Minute now - (sh * 60 + sm)) mod 1440
       <? (eh * 60 + em - (sh * 60 + sm)) mod 1440
    then Ok tt else Err ErrDeferred.
Proof.
  intros Hne Hs He. unfold DownloadAllowed. rewrite (proj2 (eqs_false _ _) Hne).
  rewrite Hs, He. simpl.
  apply parseClock_range in Hs as (?&?&?). apply parseClock_range in He as (?&?&?).
  pose proof (minute_of_day_range now).
  rewrite cyclic_interval by lia. by destruct (_ <? _).
Qed.

(** The clock parser accepts more than HH:MM: trailing text after the
    minutes, a sign and leading white space all pass, with the value of the
    digits that were read. *)
Theorem parseClock_lenient :
  parseClock "12:3x" = Ok (12, 3) ∧ parseClock "+1:05" = Ok (1, 5) ∧ parseClock " 1:05" = Ok (1, 5).
Proof. repeat split; vm_compute; reflexivity. Qed.
