(* ===== verification/Topo.v ===== *)
(** * Target dependency order (internal/ota/verify.go, internal/ota/payload.go)

    [topoTargets] decides whether the targets of a schema-2 release can be
    ordered so that each one comes after everything it depends on;
    [orderedTargets] computes such an order.  The two are different
    algorithms over the same graph: the theorems relate both to one
    specification, [topo_sorted]. *)
From stdpp Require Import base tactics gmap strings list.
From Stdlib Require Import ZArith Lia.
From S2P Require Import Prelude Model.
Local Open Scope Z_scope.

(** A read of a Go [map[string]int]: a missing key reads as zero. *)
Definition geti (m : gmap string Z) (k : string) : Z := default 0 (m !! k).

(** ** topoTargets *)
Section topo.
Context `{MapRange}.

(** First loop: [byID] and the zeroed [incoming]. *)
Definition index_step (st : gmap string Z * gmap string Target) (t : Target) :=
  let '(incoming, byID) := st in
  (match incoming !! t_ID t with
   | Some _ => incoming | None => <[t_ID t := 0]> incoming end,
   <[t_ID t := t]> byID).

Definition topo_index (ts : list Target) : gmap string Z * gmap string Target :=
  fold_left index_step ts (∅, ∅).

(** Second loop: count the dependencies of each target. *)
Fixpoint count_deps (byID : gmap string Target) (id : string) (deps : list string)
    (incoming : gmap string Z) : result (gmap string Z) :=
  match deps with
  | [] => Ok incoming
  | dep :: deps =>
      match byID !! dep with
      | None => errorf "target dependency missing"
      | Some _ => count_deps byID id deps (<[id := geti incoming id + 1]> incoming)
      end
  end.

Fixpoint count_all (byID : gmap string Target) (ts : list Target)
    (incoming : gmap string Z) : result (gmap string Z) :=
  match ts with
  | [] => Ok incoming
  | t :: ts => incoming ← count_deps byID (t_ID t) (t_DependsOn t) incoming;
               count_all byID ts incoming
  end.

Definition initial_ready (incoming : gmap string Z) : list string :=
  (filter (fun p => p.2 = 0) (map_range incoming)).*1.

(** The body of the work-list loop for one popped [id]. *)
Definition release_dep (id : string) (t : Target) (st : gmap string Z * list string)
    (dep : string) : gmap string Z * list string :=
  let '(incoming, ready) := st in
  if eqs dep id then
    let n := geti incoming (t_ID t) - 1 in
    (<[t_ID t := n]> incoming, if n =? 0 then ready ++ [t_ID t] else ready)
  else st.

Definition release_target (id : string) (st : gmap string Z * list string) (t : Target) :=
  fold_left (release_dep id t) (t_DependsOn t) st.

Definition release_id (id : string) (ts : list Target) (st : gmap string Z * list string) :=
  fold_left (release_target id) ts st.

(** [for len(ready) > 0]; [None] is fuel running out. *)
Fixpoint topo_loop (fuel : nat) (ts : list Target) (incoming : gmap string Z)
    (ready : list string) (seen : nat) : option nat :=
  match ready with
  | [] => Some seen
  | id :: ready =>
      match fuel with
      | O => None
      | S fuel =>
          let '(incoming, ready) := release_id id ts (incoming, ready) in
          topo_loop fuel ts incoming ready (S seen)
      end
  end.

(** Each target enters [ready] at most once (lemma [topo_loop_enough]), so
    [length ts] iterations are enough. *)
Definition topoTargets (ts : list Target) : result unit :=
  let '(incoming, byID) := topo_index ts in
  incoming ← count_all byID ts incoming;
  match topo_loop (length ts) ts incoming (initial_ready incoming) 0 with
  | Some seen => reject_if (negb (seen =? length ts)%nat) "target dependency cycle"
  | None => errorf "target dependency cycle"
  end.

(** ** orderedTargets *)

(** [for i := range rest { for _, dep := range rest[i].DependsOn { ... } }] *)
Definition unblock (id : string) (rest : list Target) (incoming : gmap string Z) : gmap string Z :=
  fold_left (fun incoming t =>
    fold_left (fun incoming dep =>
      if eqs dep id then <[t_ID t := geti incoming (t_ID t) - 1]> incoming else incoming)
      (t_DependsOn t) incoming) rest incoming.

(** [for len(out) < len(targets)]; [None] is fuel running out. *)
Fixpoint order_loop (fuel n : nat) (incoming : gmap string Z) (left out : list Target)
    : option (result (list Target)) :=
  if (length out <? n)%nat then
    match fuel with
    | O => None
    | S fuel =>
        let ready := filter (fun t => geti incoming (t_ID t) = 0) left in
        let rest := filter (fun t => ¬ geti incoming (t_ID t) = 0) left in
        if (length ready =? 0)%nat then Some (errorf "target dependency cycle")
        else
          let incoming := fold_left (fun inc t => unblock (t_ID t) rest inc) ready incoming in
          order_loop fuel n incoming rest (out ++ ready)
    end
  else Some (Ok out).

Definition orderedTargets (ts : list Target) : result (list Target) :=
  _ ← topoTargets ts;
  let incoming := fold_left (fun inc t => <[t_ID t := Z.of_nat (length (t_DependsOn t))]> inc) ts ∅ in
  match order_loop (length ts) (length ts) incoming ts [] with
  | Some r => r
  | None => errorf "target dependency cycle"
  end.

End topo.

(** ** Specification *)

Abbreviation ids := (map t_ID).

(** Every target's dependencies occur before it. *)
Definition topo_sorted (l : list Target) : Prop :=
  ∀ l1 t l2, l = l1 ++ t :: l2 → ∀ d, d ∈ t_DependsOn t → d ∈ ids l1.

(** The targets can be ordered. *)
Definition orderable (ts : list Target) : Prop := ∃ l, l ≡ₚ ts ∧ topo_sorted l.

(** ** Counting open dependencies *)

(** Dependencies not yet in [P], and occurrences of one of them. *)
Definition opens (P deps : list string) : Z :=
  Z.of_nat (length (filter (fun d => d ∉ P) deps)).
Definition occ (id : string) (deps : list string) : Z :=
  Z.of_nat (length (filter (fun d => d = id) deps)).

Lemma opens_nil deps : opens [] deps = Z.of_nat (length deps).
Proof.
  unfold opens. induction deps as [|d deps IH]; [done|].
  rewrite filter_cons_True by set_solver. cbn [length]. lia.
Qed.

Lemma opens_snoc P id deps : id ∉ P → opens (P ++ [id]) deps = opens P deps - occ id deps.
Proof.
  intros Hid. unfold opens, occ. induction deps as [|d deps IH]; [done|].
  rewrite !filter_cons. destruct (decide (d = id)) as [->|Hne].
  - rewrite decide_False by set_solver. rewrite decide_True by done. cbn [length]; lia.
  - destruct (decide (d ∉ P)).
    + rewrite decide_True by set_solver. cbn [length]; lia.
    + rewrite decide_False by set_solver. lia.
Qed.

Lemma opens_zero P deps : opens P deps = 0 ↔ ∀ d, d ∈ deps → d ∈ P.
Proof.
  unfold opens. induction deps as [|d deps IH]; [set_solver|].
  rewrite filter_cons. destruct (decide (d ∉ P)) as [Hd|Hd]; cbn [length].
  - split; [lia|]. intros Hall. destruct Hd. apply Hall. left.
  - apply dec_stable in Hd. rewrite IH. set_solver.
Qed.

Lemma opens_nonneg P deps : 0 ≤ opens P deps.
Proof. unfold opens. lia. Qed.

Lemma occ_nonneg id deps : 0 ≤ occ id deps.
Proof. unfold occ. lia. Qed.

Lemma occ_nil id : occ id [] = 0.
Proof. reflexivity. Qed.

Lemma occ_cons_eq id deps : occ id (id :: deps) = occ id deps + 1.
Proof. unfold occ. rewrite filter_cons_True by done. cbn [length]. lia. Qed.

Lemma occ_cons_ne id d deps : d ≠ id → occ id (d :: deps) = occ id deps.
Proof. intros. unfold occ. by rewrite filter_cons_False. Qed.

Lemma geti_insert m k v k' :
  geti (<[k := v]> m) k' = if decide (k = k') then v else geti m k'.
Proof. unfold geti. rewrite lookup_insert. by case_decide. Qed.

Lemma t_ID_inj ts t1 t2 :
  NoDup (ids ts) → t1 ∈ ts → t2 ∈ ts → t_ID t1 = t_ID t2 → t1 = t2.
Proof.
  intros Hnd H1 H2 He.
  induction ts as [|t ts IH]; [inversion H1|].
  rewrite map_cons in Hnd. apply NoDup_cons in Hnd as [Hni Hnd].
  assert (∀ t', t' ∈ ts → t_ID t' ∈ ids ts) by (intros; by apply list_elem_of_fmap_2).
  inversion H1; inversion H2; subst; [done| | |by apply IH].
  - destruct Hni. rewrite He. eauto.
  - destruct Hni. rewrite <- He. eauto.
Qed.

Lemma elem_of_ids ts x : x ∈ ids ts ↔ ∃ t, t ∈ ts ∧ t_ID t = x.
Proof.
  rewrite list_elem_of_fmap. naive_solver.
Qed.

(** ** The work list *)

Lemma release_target_spec id t m q :
  let n := geti m (t_ID t) in
  let k := occ id (t_DependsOn t) in
  let st := release_target id (m, q) t in
  (∀ x, geti st.1 x = if decide (t_ID t = x) then n - k else geti m x) ∧
  st.2 = if decide (1 ≤ n ≤ k) then q ++ [t_ID t] else q.
Proof.
  unfold release_target. simpl. revert m q.
  induction (t_DependsOn t) as [|d deps IH]; intros m q; simpl.
  - rewrite occ_nil. split; [|by rewrite decide_False by lia].
    intros x. case_decide; subst; lia.
  - unfold eqs. case_bool_decide as Hd; subst.
    + rewrite occ_cons_eq. specialize (IH (<[t_ID t:=geti m (t_ID t) - 1]> m)
        (if geti m (t_ID t) - 1 =? 0 then q ++ [t_ID t] else q)) as [IH1 IH2].
      rewrite geti_insert, decide_True in IH1, IH2 by done.
      pose proof (occ_nonneg id deps). split.
      * intros x. rewrite IH1, geti_insert. repeat case_decide; subst; lia.
      * rewrite IH2. destruct (geti m (t_ID t) - 1 =? 0) eqn:E.
        -- rewrite decide_False by lia. by rewrite decide_True by lia.
        -- repeat case_decide; try lia; done.
    + rewrite occ_cons_ne by done. apply IH.
Qed.

Lemma release_id_spec id ts m q :
  NoDup (ids ts) →
  let st := release_id id ts (m, q) in
  (∀ x, x ∉ ids ts → geti st.1 x = geti m x) ∧
  (∀ t, t ∈ ts → geti st.1 (t_ID t) = geti m (t_ID t) - occ id (t_DependsOn t)) ∧
  st.2 = q ++ ids (filter (fun t => 1 ≤ geti m (t_ID t) ≤ occ id (t_DependsOn t)) ts).
Proof.
  simpl. revert m q. induction ts as [|t ts IH]; intros m q Hnd; simpl.
  { split; [done|]. split; [set_solver|]. by rewrite app_nil_r. }
  apply NoDup_cons in Hnd as [Hni Hnd].
  pose proof (release_target_spec id t m q) as [Hg Hq]. simpl in Hg, Hq.
  unfold release_id in *. simpl.
  destruct (release_target id (m, q) t) as [m1 q1] eqn:E. simpl in Hg, Hq.
  destruct (IH m1 q1 Hnd) as (IH1 & IH2 & IH3).
  assert (Hother : ∀ t', t' ∈ ts → geti m1 (t_ID t') = geti m (t_ID t')).
  { intros t' Ht'. rewrite Hg, decide_False; [done|].
    intros He. apply Hni. apply elem_of_ids. eauto. }
  split; [|split].
  - intros x Hx. rewrite IH1 by set_solver. rewrite Hg, decide_False; set_solver.
  - intros t' Ht'. inversion Ht'; subst.
    + rewrite IH1 by done. rewrite Hg. by rewrite decide_True.
    + rewrite IH2 by done. by rewrite Hother.
  - rewrite IH3, Hq, filter_cons.
    assert (Hf : filter (fun t => 1 ≤ geti m1 (t_ID t) ≤ occ id (t_DependsOn t)) ts
               = filter (fun t => 1 ≤ geti m (t_ID t) ≤ occ id (t_DependsOn t)) ts).
    { clear -Hother. induction ts as [|t' ts IH]; [done|].
      rewrite !filter_cons, Hother by left. rewrite IH; [done|].
      intros. apply Hother. by right. }
    rewrite Hf. case_decide; [by rewrite <- app_assoc|done].
Qed.

(** The state of the work list after popping [P]. *)
Record work_inv (ts : list Target) (P Q : list string) (m : gmap string Z) : Prop := {
  wi_count : ∀ t, t ∈ ts → geti m (t_ID t) = opens P (t_DependsOn t);
  wi_nodup : NoDup (P ++ Q);
  wi_known : ∀ x, x ∈ P ++ Q → x ∈ ids ts;
  wi_ready : ∀ t, t ∈ ts → (t_ID t ∈ P ++ Q ↔ opens P (t_DependsOn t) = 0);
  wi_order : ∀ P1 x P2, P = P1 ++ x :: P2 →
    ∀ t, t ∈ ts → t_ID t = x → ∀ d, d ∈ t_DependsOn t → d ∈ P1;
}.

Lemma NoDup_ids_filter (Q : Target → Prop) `{∀ t, Decision (Q t)} ts :
  NoDup (ids ts) → NoDup (ids (filter Q ts)).
Proof.
  intros Hnd. induction ts as [|t ts IH]; [done|].
  rewrite map_cons in Hnd. apply NoDup_cons in Hnd as [Hni Hnd].
  rewrite filter_cons. case_decide; [|by apply IH].
  rewrite map_cons. apply NoDup_cons. split; [|by apply IH].
  intros (t' & Ht' & He)%elem_of_ids. apply list_elem_of_filter in Ht' as [_ Ht'].
  apply Hni, elem_of_ids. eauto.
Qed.

Lemma prefix_snoc_split {A} (P : list A) id P1 x P2 :
  P ++ [id] = P1 ++ x :: P2 →
  (P2 = [] ∧ P1 = P ∧ x = id) ∨ ∃ P2', P = P1 ++ x :: P2'.
Proof.
  destruct P2 as [|y P2 _] using rev_ind.
  - intros [-> [= ->]]%app_inj_tail. by left.
  - rewrite app_comm_cons, app_assoc. intros [-> _]%app_inj_tail. right. eauto.
Qed.

Lemma work_inv_step ts P id Q m :
  NoDup (ids ts) → work_inv ts P (id :: Q) m →
  let st := release_id id ts (m, Q) in work_inv ts (P ++ [id]) st.2 st.1.
Proof.
  intros Hnd [Hc Hn Hk Hr Ho]. simpl.
  pose proof (release_id_spec id ts m Q Hnd) as (_ & Hg & Hq). simpl in Hg, Hq.
  assert (Hid : id ∉ P).
  { apply NoDup_app in Hn as (_ & Hn & _). set_solver. }
  assert (Hnew : ∀ t, t ∈ ts → (1 ≤ geti m (t_ID t) ≤ occ id (t_DependsOn t)) ↔
    opens P (t_DependsOn t) ≠ 0 ∧ opens (P ++ [id]) (t_DependsOn t) = 0).
  { intros t Ht. rewrite Hc, opens_snoc by done.
    pose proof (opens_nonneg (P ++ [id]) (t_DependsOn t)) as Hp.
    rewrite opens_snoc in Hp by done.
    pose proof (opens_nonneg P (t_DependsOn t)). lia. }
  rewrite Hq. split.
  - intros t Ht. rewrite Hg, Hc, opens_snoc by done. done.
  - rewrite <- app_assoc. simpl. rewrite app_comm_cons, app_assoc.
    apply NoDup_app. split; [done|]. split; [|by apply NoDup_ids_filter].
    intros x Hx (t & [Hf Ht]%list_elem_of_filter & <-)%elem_of_ids.
    apply Hnew in Hf as [Hf _]; [|done]. by apply Hf, Hr.
  - intros x Hx. rewrite <- app_assoc in Hx. simpl in Hx.
    rewrite app_comm_cons, app_assoc in Hx. apply elem_of_app in Hx as [Hx|Hx]; [by apply Hk|].
    apply elem_of_ids in Hx as (t & [_ Ht]%list_elem_of_filter & <-).
    apply elem_of_ids. eauto.
  - intros t Ht. rewrite <- app_assoc. simpl. rewrite app_comm_cons, app_assoc, elem_of_app.
    rewrite (Hr t Ht), elem_of_ids. split.
    + intros [H0|(t' & [Hf Ht']%list_elem_of_filter & He)].
      * apply opens_zero. intros d Hd. apply elem_of_app. left. by apply (opens_zero P _) in Hd.
      * apply (t_ID_inj ts) in He; [|done..]. subst. by apply Hnew in Hf as [_ ?].
    + intros H0. destruct (decide (opens P (t_DependsOn t) = 0)); [by left|].
      right. exists t. split; [|done]. apply list_elem_of_filter. split; [by apply Hnew|done].
  - intros P1 x P2 [(-> & -> & ->)|(P2' & ->)]%prefix_snoc_split t Ht He d Hd.
    + assert (Hz : opens P (t_DependsOn t) = 0) by (apply Hr; [done | set_solver]).
      by apply (opens_zero P _) in Hd.
    + eauto.
Qed.

Lemma work_inv_length ts P Q m :
  NoDup (ids ts) → work_inv ts P Q m → (length P + length Q ≤ length ts)%nat.
Proof.
  intros Hnd Hi. rewrite <- length_app, <- (length_map t_ID ts).
  apply submseteq_length, NoDup_submseteq; [apply Hi|]. intros x. apply Hi.
Qed.

(** Fuel [length ts] is enough, and the loop ends with an exhausted work list. *)
Lemma topo_loop_enough ts fuel m P Q :
  NoDup (ids ts) → work_inv ts P Q m → (length ts ≤ length P + fuel)%nat →
  ∃ P' m', topo_loop fuel ts m Q (length P) = Some (length P') ∧ work_inv ts P' [] m'.
Proof.
  intros Hnd. revert m P Q. induction fuel as [|fuel IH]; intros m P Q Hi Hlen.
  - pose proof (work_inv_length _ _ _ _ Hnd Hi). destruct Q; simpl in *; [eauto | lia].
  - destruct Q as [|id Q]; simpl; [eauto|].
    pose proof (work_inv_step _ _ _ _ _ Hnd Hi) as Hi'. simpl in Hi'.
    destruct (release_id id ts (m, Q)) as [m1 Q1].
    specialize (IH m1 (P ++ [id]) Q1 Hi'). rewrite length_app in IH. simpl in IH.
    rewrite Nat.add_1_r in IH. apply IH. lia.
Qed.

(** What an exhausted work list says about the graph. *)
Lemma work_done_iff ts P m :
  NoDup (ids ts) → work_inv ts P [] m → length P = length ts ↔ orderable ts.
Proof.
  intros Hnd [Hc Hn Hk Hr Ho]. rewrite app_nil_r in *. split.
  - intros Hlen. assert (Hp : P ≡ₚ ids ts).
    { apply submseteq_length_Permutation; [|by rewrite length_map, Hlen].
      by apply NoDup_submseteq. }
    apply Permutation_map_inv in Hp as (l & -> & Hl). exists l. split; [done|].
    intros l1 t l2 -> d Hd. apply (Ho (ids l1) (t_ID t) (ids l2)) with t; [by rewrite map_app| |done..].
    rewrite Hl. apply elem_of_app. right. left.
  - intros (l & Hl & Hs).
    assert (Hall : ∀ l1 l2, l = l1 ++ l2 → ∀ x, x ∈ ids l1 → x ∈ P).
    { intros l1. induction l1 as [|t l1 IH] using rev_ind; intros l2 -> x; [set_solver|].
      rewrite <- app_assoc in *. simpl in *.
      rewrite map_app, elem_of_app. intros [Hx|Hx]; [by eapply IH|].
      apply list_elem_of_singleton in Hx as ->. apply Hr.
      { rewrite <- Hl. apply elem_of_app. right. left. }
      apply opens_zero. intros d Hd. eapply IH; [done|]. by eapply Hs. }
    assert (Hsub : ids ts ⊆+ P).
    { apply NoDup_submseteq; [done|]. intros x Hx. apply (Hall l []); [by rewrite app_nil_r|].
      by rewrite Hl. }
    apply submseteq_length in Hsub. rewrite length_map in Hsub.
    assert (length P ≤ length ts)%nat; [|lia].
    rewrite <- (length_map t_ID ts). by apply submseteq_length, NoDup_submseteq.
Qed.

(** ** Initial state of the work list *)

Lemma topo_index_gen ts inc byID :
  (∀ x v, inc !! x = Some v → v = 0) →
  let st := fold_left index_step ts (inc, byID) in
  (∀ x, st.1 !! x = if decide (x ∈ ids ts) then Some 0 else inc !! x) ∧
  (∀ x, is_Some (st.2 !! x) ↔ x ∈ ids ts ∨ is_Some (byID !! x)).
Proof.
  simpl. revert inc byID. induction ts as [|t ts IH]; intros inc byID H0; simpl; [set_solver|].
  assert (Hinc : ∀ x, (match inc !! t_ID t with
    | Some _ => inc | None => <[t_ID t := 0]> inc end) !! x
    = if decide (x = t_ID t) then Some 0 else inc !! x).
  { intros x. destruct (inc !! t_ID t) eqn:E.
    - case_decide; subst; [|done]. rewrite E. f_equal. eauto.
    - rewrite lookup_insert. repeat case_decide; congruence. }
  edestruct (IH (match inc !! t_ID t with
    | Some _ => inc | None => <[t_ID t := 0]> inc end) (<[t_ID t := t]> byID)) as [IH1 IH2].
  { intros x v. rewrite Hinc. case_decide; [by intros [= <-] | apply H0]. }
  split.
  - intros x. rewrite IH1, Hinc. repeat case_decide; try done; set_solver.
  - intros x. rewrite IH2, lookup_insert. case_decide; subst.
    + split; [left; left|intros; right; eauto].
    + set_solver.
Qed.

Lemma topo_index_spec ts :
  (∀ x, (topo_index ts).1 !! x = if decide (x ∈ ids ts) then Some 0 else None) ∧
  (∀ x, is_Some ((topo_index ts).2 !! x) ↔ x ∈ ids ts).
Proof.
  destruct (topo_index_gen ts ∅ ∅) as [H1 H2].
  { intros x v. by rewrite lookup_empty. }
  split; [intros x; specialize (H1 x); by rewrite lookup_empty in H1|].
  intros x. rewrite (H2 x), lookup_empty. split; [|by left].
  intros [?|[? ?]]; done.
Qed.

Lemma count_deps_ok byID id deps inc :
  (∀ d, d ∈ deps → is_Some (byID !! d)) →
  ∃ inc', count_deps byID id deps inc = Ok inc' ∧
    ∀ x, inc' !! x = if decide (x = id ∧ deps ≠ [])
                     then Some (geti inc id + Z.of_nat (length deps)) else inc !! x.
Proof.
  revert inc. induction deps as [|d deps IH]; intros inc Hd; simpl.
  - exists inc. split; [done|]. intros x. rewrite decide_False by tauto. done.
  - destruct (Hd d) as [b ->]; [left|].
    destruct (IH (<[id := geti inc id + 1]> inc)) as (inc' & -> & Hx).
    { intros d' ?. apply Hd. by right. }
    exists inc'. split; [done|]. intros x. rewrite Hx, lookup_insert, geti_insert.
    rewrite (decide_True _ _ (eq_refl id)).
    destruct (decide (x = id)) as [->|].
    + rewrite (decide_True (P := id = id ∧ d :: deps ≠ [])) by done.
      rewrite (decide_True (P := id = id)) by done.
      destruct deps; [rewrite decide_False by tauto | rewrite decide_True by done];
        f_equal; cbn [length]; lia.
    + rewrite !decide_False by (intros ?; naive_solver). done.
Qed.

Lemma count_deps_missing byID id deps inc d :
  d ∈ deps → byID !! d = None → is_ok (count_deps byID id deps inc) = false.
Proof.
  revert inc. induction deps as [|d' deps IH]; intros inc Hd Hb; [inversion Hd|].
  simpl. destruct (byID !! d') eqn:E; [|done].
  apply IH; [|done]. inversion Hd; subst; congruence.
Qed.

Lemma count_all_ok byID ts inc :
  NoDup (ids ts) →
  (∀ t, t ∈ ts → ∀ d, d ∈ t_DependsOn t → is_Some (byID !! d)) →
  (∀ t, t ∈ ts → inc !! t_ID t = Some 0) →
  ∃ inc', count_all byID ts inc = Ok inc' ∧
    (∀ t, t ∈ ts → inc' !! t_ID t = Some (Z.of_nat (length (t_DependsOn t)))) ∧
    (∀ x, x ∉ ids ts → inc' !! x = inc !! x).
Proof.
  revert inc. induction ts as [|t ts IH]; intros inc Hnd Hd H0; simpl.
  { exists inc. set_solver. }
  apply NoDup_cons in Hnd as [Hni Hnd].
  destruct (count_deps_ok byID (t_ID t) (t_DependsOn t) inc) as (inc1 & -> & H1).
  { apply Hd. left. }
  assert (Ht : inc1 !! t_ID t = Some (Z.of_nat (length (t_DependsOn t)))).
  { rewrite H1. unfold geti. rewrite H0 by left. case_decide as Hc; [f_equal; simpl; lia|].
    destruct (t_DependsOn t); [done|]. destruct Hc. done. }
  assert (Hx : ∀ x, x ≠ t_ID t → inc1 !! x = inc !! x).
  { intros x Hx. rewrite H1, decide_False; [done|]. naive_solver. }
  destruct (IH inc1 Hnd) as (inc' & Hok & H2 & H3).
  { intros t' Ht'. apply Hd. by right. }
  { intros t' Ht'. rewrite Hx; [apply H0; by right|].
    intros He. apply Hni, elem_of_ids. eauto. }
  exists inc'. split; [done|]. split.
  - intros t' Ht'. inversion Ht'; subst; [by rewrite H3|by apply H2].
  - intros x Hne. rewrite H3 by set_solver. apply Hx. set_solver.
Qed.

Lemma count_all_missing byID ts inc t d :
  t ∈ ts → d ∈ t_DependsOn t → byID !! d = None → is_ok (count_all byID ts inc) = false.
Proof.
  revert inc. induction ts as [|t' ts IH]; intros inc Ht Hd Hb; [inversion Ht|]. simpl.
  destruct (count_deps byID _ _ inc) eqn:E; simpl; [|done].
  inversion Ht; subst; [|by apply IH].
  pose proof (count_deps_missing byID (t_ID t') _ inc d Hd Hb) as Hm. by rewrite E in Hm.
Qed.

Lemma initial_ready_spec `{MapRange} m :
  NoDup (initial_ready m) ∧ ∀ x, x ∈ initial_ready m ↔ m !! x = Some 0.
Proof.
  unfold initial_ready. split.
  - assert (Hnd : NoDup (map_range m).*1) by (rewrite map_range_perm; apply NoDup_fst_map_to_list).
    revert Hnd. generalize (map_range m). intros l.
    induction l as [|p l IH]; [done|]. rewrite filter_cons, fmap_cons, NoDup_cons.
    intros [Hni Hnd]. case_decide; [|by apply IH].
    rewrite fmap_cons, NoDup_cons. split; [|by apply IH].
    rewrite list_elem_of_fmap. intros (q & He & [_ Hq]%list_elem_of_filter).
    apply Hni. rewrite He. by apply list_elem_of_fmap_2.
  - intros x. rewrite list_elem_of_fmap. split.
    + intros ([x' v] & -> & [Hv Hin]%list_elem_of_filter). simpl in *. subst.
      by apply elem_of_map_range.
    + intros Hx. exists (x, 0). split; [done|]. apply list_elem_of_filter.
      split; [done|]. by apply elem_of_map_range.
Qed.

Lemma orderable_deps ts t d :
  orderable ts → t ∈ ts → d ∈ t_DependsOn t → d ∈ ids ts.
Proof.
  intros (l & Hl & Hs) Ht Hd. rewrite <- Hl in Ht |- *.
  apply list_elem_of_split in Ht as (l1 & l2 & ->).
  rewrite map_app, elem_of_app. left. by eapply Hs.
Qed.

(** [topoTargets] accepts exactly the orderable target lists, whatever the
    iteration order of Go's maps. *)
Lemma topoTargets_iff `{MapRange} ts :
  NoDup (ids ts) → topoTargets ts = Ok tt ↔ orderable ts.
Proof.
  intros Hnd. unfold topoTargets. destruct (topo_index_spec ts) as [Hi Hb].
  destruct (topo_index ts) as [inc byID]. simpl in *.
  destruct (decide (Forall (fun t => Forall (fun d => d ∈ ids ts) (t_DependsOn t)) ts))
    as [Hd|Hd]; cycle 1.
  { split; intros Hok; destruct Hd; apply Forall_forall; intros t Ht;
      apply Forall_forall; intros d Hin; [|by eapply orderable_deps].
    apply Hb.
    destruct (byID !! d) eqn:E; [done|].
    pose proof (count_all_missing byID ts inc t d Ht Hin E) as Hm.
    destruct (count_all byID ts inc); [discriminate Hm | discriminate Hok]. }
  destruct (count_all_ok byID ts inc Hnd) as (m & -> & Hm & Hx).
  { intros t Ht d Hin. apply Hb. rewrite Forall_forall in Hd.
    specialize (Hd t Ht). rewrite Forall_forall in Hd. by apply Hd. }
  { intros t Ht. rewrite Hi, decide_True; [done|]. apply elem_of_ids. eauto. }
  simpl. destruct (initial_ready_spec m) as [Hrn Hr].
  assert (Hw : work_inv ts [] (initial_ready m) m).
  { split; simpl.
    - intros t Ht. unfold geti. rewrite Hm by done. by rewrite opens_nil.
    - done.
    - intros x Hin%Hr. destruct (decide (x ∈ ids ts)) as [?|Hn]; [done|].
      rewrite Hx, Hi, decide_False in Hin by done. discriminate.
    - intros t Ht. rewrite Hr, Hm, opens_nil by done. split; [congruence|by intros ->].
    - intros P1 x P2 He. by destruct P1. }
  destruct (topo_loop_enough ts (length ts) m [] _ Hnd Hw) as (P & m' & Hl & Hw'); [simpl; lia|].
  simpl in Hl. rewrite Hl.
  rewrite <- (work_done_iff _ _ _ Hnd Hw'). unfold reject_if.
  destruct (Nat.eqb_spec (length P) (length ts)); simpl; split; congruence || done.
Qed.

(** ** orderedTargets computes an order *)

Lemma unblock_one id t inc :
  ∀ x, geti (fold_left (fun inc dep =>
      if eqs dep id then <[t_ID t := geti inc (t_ID t) - 1]> inc else inc)
      (t_DependsOn t) inc) x
    = if decide (t_ID t = x) then geti inc x - occ id (t_DependsOn t) else geti inc x.
Proof.
  revert inc. induction (t_DependsOn t) as [|d deps IH]; intros inc x; cbn [fold_left].
  - rewrite occ_nil. case_decide; lia.
  - rewrite IH. unfold eqs. case_bool_decide as Hd; subst.
    + rewrite geti_insert, occ_cons_eq. case_decide; subst; lia.
    + by rewrite occ_cons_ne.
Qed.

Lemma unblock_spec id rest inc :
  NoDup (ids rest) →
  (∀ t, t ∈ rest → geti (unblock id rest inc) (t_ID t)
                   = geti inc (t_ID t) - occ id (t_DependsOn t)) ∧
  (∀ x, x ∉ ids rest → geti (unblock id rest inc) x = geti inc x).
Proof.
  revert inc. induction rest as [|t rest IH]; intros inc Hnd; [set_solver|].
  rewrite map_cons in Hnd. apply NoDup_cons in Hnd as [Hni Hnd].
  unfold unblock in *. cbn [fold_left].
  set (inc1 := fold_left _ (t_DependsOn t) inc).
  pose proof (unblock_one id t inc) as H1. fold inc1 in H1.
  destruct (IH inc1 Hnd) as [IH1 IH2]. split.
  - intros t' Ht'. inversion Ht'; subst.
    + rewrite IH2, H1 by done. by rewrite decide_True.
    + rewrite IH1, H1 by done. rewrite decide_False; [done|].
      intros He. apply Hni, elem_of_ids. eauto.
  - intros x Hx. rewrite IH2 by set_solver. rewrite H1, decide_False; set_solver.
Qed.

Lemma unblock_all ready rest inc P :
  NoDup (ids rest) → NoDup (P ++ ids ready) →
  (∀ t, t ∈ rest → geti inc (t_ID t) = opens P (t_DependsOn t)) →
  ∀ t, t ∈ rest →
    geti (fold_left (fun inc t => unblock (t_ID t) rest inc) ready inc) (t_ID t)
    = opens (P ++ ids ready) (t_DependsOn t).
Proof.
  revert inc P. induction ready as [|r ready IH]; intros inc P Hnr Hnp Hg t Ht; simpl.
  { rewrite app_nil_r. by apply Hg. }
  rewrite (cons_middle (t_ID r) P (ids ready)), app_assoc.
  apply IH; [done | by rewrite <- app_assoc | | done].
  intros t' Ht'. rewrite (proj1 (unblock_spec (t_ID r) rest inc Hnr)) by done.
  rewrite Hg by done. rewrite opens_snoc; [done|].
  apply NoDup_app in Hnp as (_ & Hnp & _). intros Hin. apply (Hnp _ Hin). left.
Qed.

Lemma topo_sorted_app l l' :
  topo_sorted l → (∀ t, t ∈ l' → ∀ d, d ∈ t_DependsOn t → d ∈ ids l) → topo_sorted (l ++ l').
Proof.
  intros Hl Hl' l1 t l2 He d Hd.
  apply app_eq_inv in He as [(k & -> & Hk)|(k & -> & ->)].
  - destruct k as [|t' k]; simpl in Hk.
    + rewrite app_nil_r in *. rewrite <- Hk in Hl'. eapply Hl'; [left|done].
    + injection Hk as <- Hk. eapply Hl; [done|done].
  - rewrite map_app, elem_of_app. left. eapply Hl'; [|done].
    apply elem_of_app. right. left.
Qed.

(** A non-empty remainder of an orderable graph has an unblocked target. *)
Lemma progress ts out left :
  orderable ts → out ++ left ≡ₚ ts → left ≠ [] →
  ∃ t, t ∈ left ∧ opens (ids out) (t_DependsOn t) = 0.
Proof.
  intros (l & Hl & Hs) Hp Hne.
  assert (Hin : ∀ t, t ∈ l ↔ t ∈ out ∨ t ∈ left).
  { intros t. by rewrite Hl, <- Hp, elem_of_app. }
  destruct (list_find (fun t => t ∈ left) l) as [[i t]|] eqn:Hf.
  - apply list_find_Some in Hf as (Hi & Ht & Hfirst). exists t. split; [done|].
    apply opens_zero. intros d Hd. apply take_drop_middle in Hi as Hsp. symmetry in Hsp.
    pose proof (Hs _ _ _ Hsp d Hd) as (t' & Ht' & <-)%elem_of_ids.
    apply elem_of_ids. exists t'. split; [|done].
    apply list_elem_of_lookup in Ht' as [k Hk]. apply lookup_take_Some in Hk as [Hk Hlt].
    destruct (proj1 (Hin t')) as [?|Hl']; [by eapply list_elem_of_lookup_2|done|].
    by destruct (Hfirst k t' Hk Hlt).
  - destruct left as [|t left]; [done|]. apply list_find_None in Hf.
    rewrite Forall_forall in Hf. destruct (Hf t); [|left].
    apply Hin. right. left.
Qed.

(** The loop of [orderedTargets] between two rounds. *)
Record order_inv (ts left out : list Target) (inc : gmap string Z) : Prop := {
  oi_perm : out ++ left ≡ₚ ts;
  oi_sorted : topo_sorted out;
  oi_count : ∀ t, t ∈ left → geti inc (t_ID t) = opens (ids out) (t_DependsOn t);
}.

Lemma filter_split (P : Target → Prop) `{∀ t, Decision (P t)} (l : list Target) :
  filter P l ++ filter (fun t => ¬ P t) l ≡ₚ l.
Proof.
  induction l as [|t l IH]; [done|]. rewrite !filter_cons.
  destruct (decide (P t)).
  - rewrite decide_False by tauto. simpl. by rewrite IH.
  - rewrite decide_True by done. rewrite <- Permutation_middle. by rewrite IH.
Qed.

Lemma order_inv_step ts left out inc :
  NoDup (ids ts) → order_inv ts left out inc →
  let ready := filter (fun t => geti inc (t_ID t) = 0) left in
  let rest := filter (fun t => ¬ geti inc (t_ID t) = 0) left in
  order_inv ts rest (out ++ ready)
    (fold_left (fun inc t => unblock (t_ID t) rest inc) ready inc).
Proof.
  intros Hnd [Hp Hs Hc] ready rest.
  assert (Hp' : (out ++ ready) ++ rest ≡ₚ ts).
  { rewrite <- app_assoc. unfold ready, rest. by rewrite filter_split. }
  assert (Hn : NoDup (ids out ++ ids ready ++ ids rest)).
  { rewrite <- !map_app, app_assoc. by rewrite Hp'. }
  split; [done| |].
  - apply topo_sorted_app; [done|]. intros t [Hz Ht]%list_elem_of_filter.
    apply opens_zero. by rewrite <- Hc.
  - intros t Ht. rewrite map_app. apply unblock_all; [| | |done].
    + by apply NoDup_app in Hn as (_ & _ & (_ & _ & ?)%NoDup_app).
    + rewrite app_assoc in Hn. by apply NoDup_app in Hn as (? & _ & _).
    + intros t' [_ Ht']%list_elem_of_filter. by apply Hc.
Qed.

Lemma order_loop_ok fuel ts left out inc :
  NoDup (ids ts) → orderable ts → order_inv ts left out inc →
  (length ts ≤ length out + fuel)%nat →
  ∃ l, order_loop fuel (length ts) inc left out = Some (Ok l) ∧ l ≡ₚ ts ∧ topo_sorted l.
Proof.
  intros Hnd Ho. revert left out inc. induction fuel as [|fuel IH];
    intros left out inc Hi Hlen; pose proof (Permutation_length (oi_perm _ _ _ _ Hi)) as Hpl;
    rewrite length_app in Hpl; simpl; destruct (Nat.ltb_spec (length out) (length ts)) as [Hlt|Hge];
    try lia;
    try (destruct left as [|t left]; [|simpl in Hpl; lia]; exists out; split; [done|];
         split; [rewrite <- (oi_perm _ _ _ _ Hi); by rewrite app_nil_r | apply Hi]).
  pose proof (order_inv_step _ _ _ _ Hnd Hi) as Hi'. simpl in Hi'.
  destruct (progress ts out left Ho (oi_perm _ _ _ _ Hi)) as (t & Ht & Hz).
  { intros ->. simpl in Hpl. lia. }
  assert (Hr : t ∈ filter (fun t => geti inc (t_ID t) = 0) left).
  { apply list_elem_of_filter. split; [|done]. by rewrite (oi_count _ _ _ _ Hi). }
  destruct (filter (fun t => geti inc (t_ID t) = 0) left) as [|r ready] eqn:Er; [inversion Hr|].
  cbn [length Nat.eqb]. apply IH; [exact Hi'|]. rewrite length_app. simpl. lia.
Qed.

Lemma initial_incoming ts :
  NoDup (ids ts) →
  ∀ t, t ∈ ts → geti (fold_left (fun inc t =>
    <[t_ID t := Z.of_nat (length (t_DependsOn t))]> inc) ts ∅) (t_ID t)
    = opens [] (t_DependsOn t).
Proof.
  generalize (∅ : gmap string Z) as inc. induction ts as [|t ts IH]; intros inc Hnd t' Ht';
    [inversion Ht'|]. rewrite map_cons in Hnd. apply NoDup_cons in Hnd as [Hni Hnd]. simpl.
  inversion Ht' as [|? ? ? Hin]; subst; [|by apply IH].
  clear IH Ht' Hnd. revert inc. rewrite opens_nil.
  set (v := Z.of_nat _). clearbody v. set (id := t_ID t) in *. clearbody id. clear t.
  assert (Hgen : ∀ inc : gmap string Z, geti inc id = v → geti (fold_left (fun inc t =>
    <[t_ID t := Z.of_nat (length (t_DependsOn t))]> inc) ts inc) id = v).
  { induction ts as [|t ts IH]; intros inc Hinc; [done|]. simpl.
    apply IH; [set_solver|]. rewrite geti_insert, decide_False; [done|]. set_solver. }
  intros inc. apply Hgen. rewrite geti_insert. by rewrite decide_True.
Qed.

(** On a release whose dependency check passed, [orderedTargets] returns the
    targets in an order that respects every dependency. *)
Lemma orderedTargets_ok `{MapRange} ts :
  NoDup (ids ts) → topoTargets ts = Ok tt →
  ∃ l, orderedTargets ts = Ok l ∧ l ≡ₚ ts ∧ topo_sorted l.
Proof.
  intros Hnd Ht. unfold orderedTargets. rewrite Ht. simpl.
  apply topoTargets_iff in Ht; [|done].
  destruct (order_loop_ok (length ts) ts ts [] (fold_left (fun inc t =>
    <[t_ID t := Z.of_nat (length (t_DependsOn t))]> inc) ts ∅) Hnd Ht) as (l & -> & Hl); [|lia|eauto].
  split; [done| |by apply initial_incoming].
  intros l1 t l2 He. by destruct l1.
Qed.

(** ** Claims *)

(** C35: [topoTargets] accepts a target list with distinct ids if and only if the
    targets can be arranged so that every dependency precedes its dependents
    (no missing dependency, no cycle), for every iteration order of Go's maps. *)
Theorem topoTargets_correct `{MapRange} (ts : list Target) :
  NoDup (ids ts) → topoTargets ts = Ok tt ↔ orderable ts.
Proof. apply topoTargets_iff. Qed.

Definition example_target (id : string) (deps : list string) : Target :=
  mkTarget id "config.bundle" zeroArtifact "" "" "" deps "" 0.

Definition example_targets : list Target :=
  [example_target "app" ["cfg"; "model"]; example_target "cfg" [];
   example_target "model" ["cfg"]].

Lemma topoTargets_correct_witness :
  NoDup (ids example_targets) ∧ orderable example_targets.
Proof.
  assert (Hnd : NoDup (ids example_targets)) by (apply (bool_decide_unpack _); vm_compute; exact I).
  split; [exact Hnd|].
  apply (proj1 (@topoTargets_correct sorted_range example_targets Hnd)). vm_compute. reflexivity.
Defined.

(** Whenever the dependency check passes, [orderedTargets] terminates with
    a permutation of the targets in which every target comes after all of its
    dependencies; in particular its own cycle error is unreachable then. *)
Theorem orderedTargets_correct `{MapRange} (ts : list Target) :
  NoDup (ids ts) → topoTargets ts = Ok tt →
  ∃ l, orderedTargets ts = Ok l ∧ l ≡ₚ ts ∧ topo_sorted l.
Proof. apply orderedTargets_ok. Qed.

Lemma orderedTargets_correct_witness :
  ∃ l, @orderedTargets sorted_range example_targets = Ok l ∧ l ≡ₚ example_targets ∧ topo_sorted l.
Proof.
  apply (@orderedTargets_correct sorted_range example_targets).
  - apply (bool_decide_unpack _). vm_compute. exact I.
  - vm_compute. reflexivity.
Defined.
