(* ===== verification/Crypto.v ===== *)
(** * Hashing, encodings and signatures

    The parts of Go's [crypto/sha256], [encoding/hex] and [encoding/base64]
    the agent uses, executable; [crypto/ed25519] as an interface. *)
From stdpp Require Import base tactics list strings.
From Stdlib Require Import ZArith NArith Lia Ascii.
From S2P Require Import Prelude.

(** ** SHA-256 (FIPS 180-4) *)
Module SHA256.
Local Open Scope N_scope.

Definition w32 (n : N) : N := N.land n 0xFFFFFFFF.
Definition add32 (a b : N) : N := w32 (a + b).
Definition rotr (n : N) (k : N) : N := w32 (N.lor (N.shiftr n k) (N.shiftl n (32 - k))).

(** The constants as the standard derives them: the first 32 bits of the
    fractional parts of the cube roots (round constants) and square roots
    (initial hash) of the first primes. *)
Definition is_prime (n : N) : bool :=
  forallb (fun d => negb (n mod N.of_nat d =? 0)) (seq 2 (N.to_nat n - 2)).
Definition primes (upto : nat) : list N :=
  base.filter (fun n => is_prime n = true) (map N.of_nat (seq 2 (upto - 1))).
Definition cube_root (n : N) : N :=
  fold_left (fun r b => let r' := r + 2 ^ N.of_nat b in if r' * r' * r' <=? n then r' else r)
    (rev (seq 0 36)) 0.

Definition K : list N := Eval vm_compute in map (fun p => w32 (cube_root (p * 2 ^ 96))) (primes 311).
Definition H0 : list N := Eval vm_compute in map (fun p => w32 (N.sqrt (p * 2 ^ 64))) (primes 19).

Definition pad (b : bytes) : list N :=
  let l := N.of_nat (length b) in
  let zeros := N.to_nat ((119 - l mod 64) mod 64) in
  map Byte.to_N b ++ [0x80] ++ repeat 0 zeros ++
  map (fun i => N.land (N.shiftr (8 * l) (8 * N.of_nat (7 - i))) 0xff) (seq 0 8).

Fixpoint words (l : list N) : list N :=
  match l with
  | a :: b :: c :: d :: l =>
      (N.shiftl a 24 + N.shiftl b 16 + N.shiftl c 8 + d) :: words l
  | _ => []
  end.

Definition at_ (l : list N) (i : nat) : N := nth i l 0.

(** The message schedule, newest word first. *)
Fixpoint schedule (n : nat) (w : list N) : list N :=
  match n with
  | O => w
  | S n =>
      let s1 := at_ w 1 in let s0 := at_ w 14 in
      let sg1 := N.lxor (N.lxor (rotr s1 17) (rotr s1 19)) (N.shiftr s1 10) in
      let sg0 := N.lxor (N.lxor (rotr s0 7) (rotr s0 18)) (N.shiftr s0 3) in
      schedule n (add32 (add32 sg1 (at_ w 6)) (add32 sg0 (at_ w 15)) :: w)
  end.

Definition round (st : list N) (kw : N * N) : list N :=
  match st with
  | [a; b; c; d; e; f; g; h] =>
      let S1 := N.lxor (N.lxor (rotr e 6) (rotr e 11)) (rotr e 25) in
      let ch := N.lxor (N.land e f) (N.land (N.lxor e 0xFFFFFFFF) g) in
      let t1 := add32 (add32 h S1) (add32 ch (add32 kw.1 kw.2)) in
      let S0 := N.lxor (N.lxor (rotr a 2) (rotr a 13)) (rotr a 22) in
      let maj := N.lxor (N.lxor (N.land a b) (N.land a c)) (N.land b c) in
      let t2 := add32 S0 maj in
      [add32 t1 t2; a; b; c; add32 d t1; e; f; g]
  | _ => st
  end.

Definition block (h w16 : list N) : list N :=
  let w := rev (schedule 48 (rev w16)) in
  zip_with add32 h (fold_left round (zip K w) h).

Fixpoint blocks (fuel : nat) (h : list N) (w : list N) : list N :=
  match fuel with
  | O => h
  | S fuel => match w with [] => h | _ => blocks fuel (block h (take 16 w)) (drop 16 w) end
  end.

Definition to_byte (n : N) : Byte.byte :=
  match Byte.of_N (N.land n 0xff) with Some b => b | None => Byte.x00 end.

Definition word_bytes (n : N) : bytes :=
  map to_byte [N.shiftr n 24; N.shiftr n 16; N.shiftr n 8; n].

Definition sum (b : bytes) : bytes :=
  let w := words (pad b) in concat (map word_bytes (blocks (length w) H0 w)).
End SHA256.

(** [sha256.Sum256] *)
Definition sha256 (b : bytes) : bytes := SHA256.sum b.
Global Arguments sha256 : simpl never.

(** ** hex.EncodeToString *)
Definition hex_digit (n : N) : ascii :=
  ascii_of_N (if (n <? 10)%N then 48 + n else 87 + n)%N.

Fixpoint hex (b : bytes) : string :=
  match b with
  | [] => EmptyString
  | x :: b => String (hex_digit (Byte.to_N x / 16))
                (String (hex_digit (Byte.to_N x mod 16)) (hex b))
  end.

(** [hex.EncodeToString(sha256(b))] *)
Definition digest (b : bytes) : string := hex (sha256 b).
Global Arguments digest : simpl never.

(** ** base64.StdEncoding.DecodeString *)
Definition b64_value (n : N) : option N :=
  (if (65 <=? n) && (n <=? 90) then Some (n - 65)
   else if (97 <=? n) && (n <=? 122) then Some (n - 71)
   else if (48 <=? n) && (n <=? 57) then Some (n + 4)
   else if n =? 43 then Some 62
   else if n =? 47 then Some 63 else None)%N.

Fixpoint b64_quanta (fuel : nat) (l : list N) : option bytes :=
  match fuel with
  | O => None
  | S fuel =>
      match l with
      | [] => Some []
      | a :: b :: c :: d :: l =>
          match b64_value a, b64_value b, b64_value c, b64_value d with
          | Some a, Some b, Some c, Some d =>
              let v := (((a * 64 + b) * 64 + c) * 64 + d)%N in
              rest ← b64_quanta fuel l;
              Some (SHA256.to_byte (v / 65536) :: SHA256.to_byte (v / 256)
                    :: SHA256.to_byte v :: rest)
          | Some a, Some b, Some c, None =>
              if (d =? 61)%N && (length l =? 0)%nat then
                let v := ((a * 64 + b) * 64 + c)%N in
                Some [SHA256.to_byte (v / 1024); SHA256.to_byte (v / 4)]
              else None
          | Some a, Some b, None, None =>
              if (c =? 61)%N && (d =? 61)%N && (length l =? 0)%nat then
                Some [SHA256.to_byte ((a * 64 + b) / 16)]
              else None
          | _, _, _, _ => None
          end
      | _ => None
      end
  end.

Definition base64_decode (s : string) : option bytes :=
  let l := filter (fun n => n ≠ 10 ∧ n ≠ 13)%N
             (map N_of_ascii (String.list_ascii_of_string s)) in
  b64_quanta (S (length l)) l.

(** ** base64.StdEncoding.EncodeToString *)
Definition b64_char (n : N) : ascii :=
  ascii_of_N (if n <? 26 then 65 + n else if n <? 52 then 71 + n else if n <? 62 then n - 4
              else if n =? 62 then 43 else 47)%N.

Fixpoint base64_encode (b : bytes) : string :=
  match b with
  | [] => EmptyString
  | [x] =>
      let v := (Byte.to_N x * 16)%N in
      String (b64_char (v / 64)) (String (b64_char (v mod 64)) "==")
  | [x; y] =>
      let v := ((Byte.to_N x * 256 + Byte.to_N y) * 4)%N in
      String (b64_char (v / 4096)) (String (b64_char (v / 64 mod 64)) (String (b64_char (v mod 64)) "="))
  | x :: y :: z :: b =>
      let v := ((Byte.to_N x * 256 + Byte.to_N y) * 256 + Byte.to_N z)%N in
      String (b64_char (v / 262144)) (String (b64_char (v / 4096 mod 64))
        (String (b64_char (v / 64 mod 64)) (String (b64_char (v mod 64)) (base64_encode b))))
  end.

(** ** crypto/ed25519 *)
Class Ed25519 := {
  ed25519_Verify : bytes → bytes → bytes → bool;   (* public key, message, signature *)
}.
Definition PublicKeySize : nat := 32.
Definition PrivateKeySize : nat := 64.

(** [decodeKey] of trustmeta.go; the same test opens [VerifyEnvelope]. *)
Definition decodeKey (encoded : string) : result bytes :=
  match base64_decode encoded with
  | Some pub => if (length pub =? PublicKeySize)%nat then Ok pub else errorf "invalid trust key"
  | None => errorf "invalid trust key"
  end.

(** ** Test vectors *)
Example sha256_abc :
  digest (to_bytes "abc")
  = "ba7816bf8f01cfea414140de5dae2223b00361a396177a9cb410ff61f20015ad".
Proof. vm_compute. reflexivity. Qed.

Example sha256_two_blocks :
  digest (to_bytes "abcdbcdecdefdefgefghfghighijhijkijkljklmklmnlmnomnopnopq")
  = "248d6a61d20638b8e5c026930c3e6039a33ce45964ff2167f6ecedd419db06c1".
Proof. vm_compute. reflexivity. Qed.

Example base64_hello : base64_decode "aGVsbG8=" = Some (to_bytes "hello").
Proof. vm_compute. reflexivity. Qed.

Lemma length_hex b : String.length (hex b) = (2 * length b)%nat.
Proof. induction b as [|x b IH]; simpl; [done|]. rewrite IH. lia. Qed.

Lemma decodeKey_ok s pub : decodeKey s = Ok pub → length pub = PublicKeySize.
Proof.
  unfold decodeKey. destruct (base64_decode s) as [b|]; [|discriminate].
  destruct (Nat.eqb_spec (length b) PublicKeySize); [|discriminate]. by intros [= <-].
Qed.

(** ** The shape of a digest *)

Lemma round_length st kw : length st = 8%nat → length (SHA256.round st kw) = 8%nat.
Proof. intros Hl. do 9 (destruct st as [|? st]; try done). Qed.

Lemma rounds_length l st : length st = 8%nat → length (fold_left SHA256.round l st) = 8%nat.
Proof. revert st. induction l as [|kw l IH]; intros st Hl; [done|]. by apply IH, round_length. Qed.

Lemma blocks_length fuel h w : length h = 8%nat → length (SHA256.blocks fuel h w) = 8%nat.
Proof.
  revert h w. induction fuel as [|fuel IH]; intros h w Hl; [done|]. simpl. destruct w as [|x w]; [done|].
  apply IH. unfold SHA256.block. rewrite length_zip_with, rounds_length by done. by rewrite Hl.
Qed.

Lemma sha256_length b : length (sha256 b) = 32%nat.
Proof.
  unfold sha256, SHA256.sum. set (h := SHA256.blocks _ _ _).
  assert (Hl : length h = 8%nat) by (by apply blocks_length). clearbody h.
  do 9 (destruct h as [|? h]; try done).
Qed.

Lemma hex_length b : String.length (hex b) = (2 * length b)%nat.
Proof. induction b as [|x b IH]; [done|]. simpl. rewrite IH. lia. Qed.

(** ** base64 round trip *)

(** What holds of every value below 64 is checked by enumeration. *)
Lemma below_64 (P : N → bool) :
  forallb P (map N.of_nat (seq 0 64)) = true → ∀ n, (n < 64)%N → P n = true.
Proof.
  intros Hf n Hn. rewrite forallb_forall in Hf. apply Hf, in_map_iff. exists (N.to_nat n).
  split; [lia|]. apply in_seq. lia.
Qed.

Lemma b64_value_char n : (n < 64)%N → b64_value (N_of_ascii (b64_char n)) = Some n.
Proof.
  intros Hn. apply (bool_decide_eq_true_1 (b64_value (N_of_ascii (b64_char n)) = Some n)).
  revert n Hn. apply below_64. vm_compute. reflexivity.
Qed.

(** No character of the alphabet is a line break. *)
Lemma b64_char_kept n : (n < 64)%N → N_of_ascii (b64_char n) ≠ 10%N ∧ N_of_ascii (b64_char n) ≠ 13%N.
Proof.
  intros Hn. apply (bool_decide_eq_true_1 _). revert n Hn. apply below_64. vm_compute. reflexivity.
Qed.

Lemma to_byte_of x n : (n mod 256 = Byte.to_N x)%N → SHA256.to_byte n = x.
Proof.
  intros E. unfold SHA256.to_byte. change 0xff%N with (N.ones 8). rewrite N.land_ones.
  change (2 ^ 8)%N with 256%N. by rewrite E, Byte.of_to_N.
Qed.

Lemma byte_small x : (Byte.to_N x < 256)%N.
Proof. pose proof (Byte.to_N_bounded x). lia. Qed.

Ltac euclid := zify; Z.to_euclidean_division_equations; lia.

(** The decoder inverts the encoder, given a step for each quantum. *)
Lemma b64_quanta_encode fuel b :
  (String.length (base64_encode b) < fuel)%nat →
  b64_quanta fuel (map N_of_ascii (String.list_ascii_of_string (base64_encode b))) = Some b.
Proof.
  revert b. induction fuel as [|fuel IH]; [lia|]. intros b.
  destruct b as [|x [|y [|z b]]]; intros Hf; [done| | |]; cbn -[N.mul N.add N.div N.modulo].
  - pose proof (byte_small x). rewrite !b64_value_char by euclid. cbn -[N.mul N.add N.div N.modulo].
    do 2 f_equal. apply to_byte_of. euclid.
  - pose proof (byte_small x). pose proof (byte_small y).
    rewrite !b64_value_char by euclid. cbn -[N.mul N.add N.div N.modulo].
    f_equal. f_equal; [|f_equal]; apply to_byte_of; euclid.
  - pose proof (byte_small x). pose proof (byte_small y). pose proof (byte_small z).
    rewrite !b64_value_char by euclid. cbn in Hf. rewrite IH by lia. cbn -[N.mul N.add N.div N.modulo].
    f_equal. f_equal; [|f_equal; [|f_equal]]; apply to_byte_of; euclid.
Qed.

(** The characters of an encoding: the alphabet and the padding. *)
Definition b64_text (c : ascii) : bool :=
  match b64_value (N_of_ascii c) with Some _ => true | None => (N_of_ascii c =? 61)%N end.

Lemma b64_encode_text b : forallb b64_text (String.list_ascii_of_string (base64_encode b)) = true.
Proof.
  assert (Hc : ∀ n, (n < 64)%N → b64_text (b64_char n) = true).
  { intros n Hn. unfold b64_text. by rewrite b64_value_char. }
  enough (∀ k b, (length b < k)%nat →
    forallb b64_text (String.list_ascii_of_string (base64_encode b)) = true) by eauto.
  clear b. induction k as [|k IH]; [lia|]. intros b Hk.
  destruct b as [|x [|y [|z b]]]; [done| | |]; cbn -[N.mul N.add N.div N.modulo] in *;
    pose proof (byte_small x); try pose proof (byte_small y); try pose proof (byte_small z);
    rewrite !Hc by euclid; [done|done|]. rewrite IH by lia. done.
Qed.

Lemma filter_all {A} (P : A → Prop) `{∀ x, Decision (P x)} (l : list A) : (∀ x, x ∈ l → P x) → filter P l = l.
Proof.
  induction l as [|x l IH]; intros Hp; [done|]. rewrite filter_cons_True by (apply Hp; left).
  rewrite IH; [done|]. intros y Hy. apply Hp. by right.
Qed.

Lemma length_ascii s : length (String.list_ascii_of_string s) = String.length s.
Proof. induction s; simpl; congruence. Qed.

(** [DecodeString(EncodeToString(b))] is [b]. *)
Lemma base64_roundtrip b : base64_decode (base64_encode b) = Some b.
Proof.
  pose proof (b64_encode_text b) as Ht. rewrite forallb_forall in Ht.
  unfold base64_decode. rewrite filter_all.
  - rewrite length_map, length_ascii. apply b64_quanta_encode. lia.
  - intros n (c & -> & Hc)%list_elem_of_fmap. apply list_elem_of_In, Ht in Hc. unfold b64_text in Hc.
    split; intros E; rewrite E in Hc; discriminate.
Qed.
