(* ===== verification/Fmt.v ===== *)
(** * Text of numbers and strings (the formats [%d], [%g] and [%q])

    What the agent's text output uses of fmt and strconv: decimal integers,
    the shortest decimal of a float64 that rounds back to it, and quoted
    strings with the reader that undoes them. *)
From Stdlib Require Import ZArith Lia Ascii SpecFloat.
From stdpp Require Import base tactics gmap strings list numbers.
From S2P Require Import Prelude Crypto.
Local Open Scope Z_scope.

Abbreviation chars := String.list_ascii_of_string.
Abbreviation from_chars := String.string_of_list_ascii.

Definition line_feed : ascii := "010".
Definition quote_char : ascii := "034".
Definition backslash : ascii := "092".

(** ** [%d] *)

Fixpoint dec_digits (fuel : nat) (n : N) (acc : string) : string :=
  match fuel with
  | O => acc
  | S fuel =>
      let acc := String (ascii_of_N (48 + n mod 10)) acc in
      if (n / 10 =? 0)%N then acc else dec_digits fuel (n / 10) acc
  end.
Definition show_Z (z : Z) : string := dec_digits (S (N.to_nat (N.log2 (Z.to_N z)))) (Z.to_N z) "".

Definition FormatInt (z : Z) : string := if z <? 0 then "-" +:+ show_Z (- z) else show_Z z.

(** ** float64 *)

Definition float64 : Set := spec_float.
Definition fzero : float64 := S754_zero false.
Definition fadd : float64 → float64 → float64 := SFadd 53 1024.
Definition fdiv : float64 → float64 → float64 := SFdiv 53 1024.
(** [float64(z)] *)
Definition float64_of (z : Z) : float64 := binary_normalize 53 1024 z 0 false.

(** [d.Seconds()] *)
Definition Seconds (d : duration) : float64 :=
  fadd (float64_of (Z.quot d Second)) (fdiv (float64_of (Z.rem d Second)) (float64_of Second)).

(** *** The shortest decimal

    [m * 2^e] is [fnum m e / fden e]; the numbers that round to it lie
    between [flow m e / fden e] and [fhigh m e / fden e], the bounds included
    when [m] is even. *)
Definition fnum (m : positive) (e : Z) : Z := Zpos m * 2 ^ (Z.max e 0 + 2).
Definition fden (e : Z) : Z := 2 ^ (Z.max (- e) 0 + 2).
Definition fhigh (m : positive) (e : Z) : Z := fnum m e + 2 ^ (Z.max e 0 + 1).
Definition flow (m : positive) (e : Z) : Z :=
  fnum m e - (if (Zpos m =? 2 ^ 52) && (-1074 <? e) then 2 ^ Z.max e 0 else 2 ^ (Z.max e 0 + 1)).

(** [10^(point-1) <= m * 2^e < 10^point]; the smallest float64 is above 10^-324. *)
Definition point (m : positive) (e : Z) : Z :=
  if fden e <=? fnum m e then slen (show_Z (fnum m e / fden e))
  else slen (show_Z (fnum m e * 10 ^ 324 / fden e)) - 324.

(** Compare [d * 10^k] with [x / fden e] as [d * over e k] with [x * under k]. *)
Definition over (e k : Z) : Z := fden e * 10 ^ Z.max k 0.
Definition under (k : Z) : Z := 10 ^ Z.max (- k) 0.

(** Truncation and the next decimal above, of unit [10^k]; which of them round
    back to the number, and the one to print. *)
Definition rounded (m : positive) (e k : Z) : option Z :=
  let a := over e k in
  let b := under k in
  let down := fnum m e * b / a in
  let up := down + 1 in
  let inclusive := Z.even (Zpos m) in
  let okdown := (flow m e * b <? down * a) || inclusive && (flow m e * b =? down * a) in
  let okup := (up * a <? fhigh m e * b) || inclusive && (up * a =? fhigh m e * b) in
  match okdown, okup with
  | true, true =>
      Some (match Z.compare (2 * (fnum m e * b - down * a)) a with
            | Lt => down
            | Eq => if Z.even down then down else up
            | Gt => up
            end)
  | true, false => Some down
  | false, true => Some up
  | false, false => None
  end.

(** With one digit more each time, from none. *)
Fixpoint shortest_from (fuel : nat) (m : positive) (e k : Z) : Z * Z :=
  match rounded m e k, fuel with
  | Some d, _ => (d, k)
  | None, O => (fnum m e * under k / over e k, k)
  | None, S fuel => shortest_from fuel m e (k - 1)
  end.

(** The digits and the exponent of their unit. *)
Definition shortest (m : positive) (e : Z) : Z * Z :=
  shortest_from (Z.to_nat (point m e + Z.max (- e) 0)) m e (point m e).

(** *** [%g] *)
Definition zeros (n : Z) : string := from_chars (replicate (Z.to_nat n) "0"%char).

(** [fmtF]: digits [ds] with the point after [dp] of them. *)
Definition fmtF (ds : list ascii) (dp : Z) : string :=
  let nd := Z.of_nat (length ds) in
  (if 0 <? dp then from_chars (take (Z.to_nat dp) ds) +:+ zeros (dp - nd) else "0") +:+
  (if dp <? nd then "." +:+ zeros (- dp) +:+ from_chars (drop (Z.to_nat dp) ds) else "").

(** [fmtE] *)
Definition fmtE (ds : list ascii) (dp : Z) : string :=
  let exp := dp - 1 in
  from_chars (take 1 ds) +:+ (match drop 1 ds with [] => "" | rest => "." +:+ from_chars rest end) +:+
  "e" +:+ (if exp <? 0 then "-" else "+") +:+ (if Z.abs exp <? 10 then "0" else "") +:+ show_Z (Z.abs exp).

Definition fmtG (f : float64) : string :=
  match f with
  | S754_nan => "NaN"
  | S754_infinity s => if s then "-Inf" else "+Inf"
  | S754_zero s => if s then "-0" else "0"
  | S754_finite s m e =>
      let '(d, k) := shortest m e in
      let ds := chars (show_Z d) in
      let dp := Z.of_nat (length ds) + k in
      (if s then "-" else "") +:+
      (if (dp - 1 <? -4) || (6 <=? dp - 1) then fmtE ds dp else fmtF ds dp)
  end.

(** ** [%q] *)

(** [unicode.IsPrint] above Latin-1, a table of package unicode. *)
Class Unicode := { wide_print : N → bool }.

Definition is_cont (lo hi b : N) : bool := (lo <=? b)%N && (b <=? hi)%N.

(** [utf8.DecodeRuneInString] of a first byte from 0x80 on and what follows:
    the rune and its width, [None] for an invalid encoding. *)
Definition decodeRune (b0 : N) (l : list N) : option (N * nat) :=
  if is_cont 0xC2 0xDF b0 then
    match l with
    | b1 :: _ => if is_cont 0x80 0xBF b1 then Some ((b0 - 0xC0) * 64 + (b1 - 0x80), 2%nat)%N else None
    | [] => None
    end
  else if is_cont 0xE0 0xEF b0 then
    let lo := if (b0 =? 0xE0)%N then 0xA0%N else 0x80%N in
    let hi := if (b0 =? 0xED)%N then 0x9F%N else 0xBF%N in
    match l with
    | b1 :: b2 :: _ =>
        if is_cont lo hi b1 && is_cont 0x80 0xBF b2
        then Some ((b0 - 0xE0) * 4096 + (b1 - 0x80) * 64 + (b2 - 0x80), 3%nat)%N else None
    | _ => None
    end
  else if is_cont 0xF0 0xF4 b0 then
    let lo := if (b0 =? 0xF0)%N then 0x90%N else 0x80%N in
    let hi := if (b0 =? 0xF4)%N then 0x8F%N else 0xBF%N in
    match l with
    | b1 :: b2 :: b3 :: _ =>
        if is_cont lo hi b1 && is_cont 0x80 0xBF b2 && is_cont 0x80 0xBF b3
        then Some ((b0 - 0xF0) * 262144 + (b1 - 0x80) * 4096 + (b2 - 0x80) * 64 + (b3 - 0x80), 4%nat)%N else None
    | _ => None
    end
  else None.

(** [utf8.AppendRune] of a valid rune *)
Definition encodeRune (r : N) : list N :=
  if (r <? 0x80)%N then [r]
  else if (r <? 0x800)%N then [0xC0 + r / 64; 0x80 + r mod 64]%N
  else if (r <? 0x10000)%N then [0xE0 + r / 4096; 0x80 + r / 64 mod 64; 0x80 + r mod 64]%N
  else [0xF0 + r / 262144; 0x80 + r / 4096 mod 64; 0x80 + r / 64 mod 64; 0x80 + r mod 64]%N.

(** The last [n] hexadecimal digits of [r] *)
Fixpoint hex_fixed (n : nat) (r : N) : list ascii :=
  match n with
  | O => []
  | S n => hex_digit (r / 16 ^ N.of_nat n mod 16)%N :: hex_fixed n r
  end.

Section quote.
Context `{Unicode}.

Definition IsPrint (r : N) : bool :=
  if (r <=? 0xFF)%N then (is_cont 0x20 0x7E r || is_cont 0xA1 0xFF r) && negb (r =? 0xAD)%N else wide_print r.

(** The letters of the escapes [\a \b \f \n \r \t \v]. *)
Definition escape_letters : list (N * ascii) :=
  [(7, "a"%char); (8, "b"%char); (12, "f"%char); (10, "n"%char); (13, "r"%char); (9, "t"%char); (11, "v"%char)]%N.

Definition escape_letter (r : N) : option ascii :=
  match list_find (fun p => p.1 = r) escape_letters with Some (_, (_, c)) => Some c | None => None end.

(** [appendEscapedRune], for a valid rune whose bytes are [raw] *)
Definition escapedRune (r : N) (raw : list ascii) : list ascii :=
  if (r =? 34)%N || (r =? 92)%N then backslash :: raw
  else if IsPrint r then raw
  else match escape_letter r with
       | Some c => [backslash; c]
       | None =>
           if (r <? 0x20)%N || (r =? 0x7F)%N then backslash :: "x"%char :: hex_fixed 2 r
           else if (r <? 0x10000)%N then backslash :: "u"%char :: hex_fixed 4 r
           else backslash :: "U"%char :: hex_fixed 8 r
       end.

(** The loop of [appendQuotedWith]; [skip] bytes belong to the last rune. *)
Fixpoint quote_runes (skip : nat) (l : list ascii) : list ascii :=
  match l with
  | [] => []
  | c :: l' =>
      match skip with
      | S skip => quote_runes skip l'
      | O =>
          let b := N_of_ascii c in
          if (b <? 0x80)%N then escapedRune b [c] ++ quote_runes 0 l'
          else match decodeRune b (map N_of_ascii l') with
               | Some (r, width) => escapedRune r (c :: take (width - 1) l') ++ quote_runes (width - 1) l'
               | None => backslash :: "x"%char :: hex_fixed 2 b ++ quote_runes 0 l'
               end
      end
  end.

Definition Quote (s : string) : string :=
  from_chars (quote_char :: quote_runes 0 (chars s) ++ [quote_char]).

(** Valid UTF-8 of printable runes and line feeds: the only escapes in its
    quoted form are those of a quote, a backslash and a line feed. *)
Fixpoint printable_runes (skip : nat) (l : list ascii) : bool :=
  match l with
  | [] => true
  | c :: l' =>
      match skip with
      | S skip => printable_runes skip l'
      | O =>
          let b := N_of_ascii c in
          if (b <? 0x80)%N then (IsPrint b || (b =? 10)%N) && printable_runes 0 l'
          else match decodeRune b (map N_of_ascii l') with
               | Some (r, width) => IsPrint r && printable_runes (width - 1) l'
               | None => false
               end
      end
  end.
Definition printable_text (s : string) : bool := printable_runes 0 (chars s).
End quote.

(** The reader: what stands between the quotes, and what follows. *)
Definition unhex_digit (c : ascii) : option N :=
  let n := N_of_ascii c in
  if is_cont 48 57 n then Some (n - 48)%N else if is_cont 97 102 n then Some (n - 87)%N else None.

Fixpoint unhex (n : nat) (acc : N) (l : list ascii) : option (N * list ascii) :=
  match n, l with
  | O, _ => Some (acc, l)
  | S n, c :: l => d ← unhex_digit c; unhex n (acc * 16 + d)%N l
  | S _, [] => None
  end.

Definition unescape (l : list ascii) : option (list ascii * list ascii) :=
  match l with
  | [] => None
  | c :: l =>
      if bool_decide (c = quote_char ∨ c = backslash) then Some ([c], l)
      else if bool_decide (c = "x"%char) then '(r, l) ← unhex 2 0 l; Some ([ascii_of_N r], l)
      else if bool_decide (c = "u"%char) then '(r, l) ← unhex 4 0 l; Some (map ascii_of_N (encodeRune r), l)
      else if bool_decide (c = "U"%char) then '(r, l) ← unhex 8 0 l; Some (map ascii_of_N (encodeRune r), l)
      else '(_, (r, _)) ← list_find (fun p => p.2 = c) escape_letters; Some ([ascii_of_N r], l)
  end.

Fixpoint unquote_runes (fuel : nat) (l : list ascii) : option (list ascii * list ascii) :=
  match fuel, l with
  | O, _ | _, [] => None
  | S fuel, c :: l =>
      if bool_decide (c = quote_char) then Some ([], l)
      else if bool_decide (c = backslash) then
        '(raw, l) ← unescape l; '(s, l) ← unquote_runes fuel l; Some (raw ++ s, l)
      else '(s, l) ← unquote_runes fuel l; Some (c :: s, l)
  end.

Definition Unquote (l : list ascii) : option (list ascii * list ascii) :=
  match l with
  | c :: l => if bool_decide (c = quote_char) then unquote_runes (length l) l else None
  | [] => None
  end.

(** ** The text of a number *)

(** What [%d] and [%g] write: no quote, space or line break. *)
Definition numeric (c : ascii) : bool := bool_decide (c ∈ chars "0123456789+-.eINanf").
Abbreviation numeric_text s := (Forall (fun c => numeric c = true) (chars s)).

Lemma digit_numeric n : (n < 10)%N → numeric (ascii_of_N (48 + n)) = true.
Proof.
  intros Hn. assert (n = 0 ∨ n = 1 ∨ n = 2 ∨ n = 3 ∨ n = 4 ∨ n = 5 ∨ n = 6 ∨ n = 7 ∨ n = 8 ∨ n = 9)%N
    as Hc by lia. by repeat (destruct Hc as [-> |Hc]; [vm_compute; done|]); subst; vm_compute.
Qed.

Lemma dec_digits_numeric fuel n acc : numeric_text acc → numeric_text (dec_digits fuel n acc).
Proof.
  revert n acc. induction fuel as [|fuel IH]; intros n acc Hacc; simpl; [done|].
  assert (numeric_text (String (ascii_of_N (48 + n mod 10)) acc)).
  { simpl. constructor; [|done]. apply digit_numeric, N.mod_lt. done. }
  destruct (n / 10 =? 0)%N; auto.
Qed.

Lemma show_Z_numeric z : numeric_text (show_Z z).
Proof. by apply dec_digits_numeric. Qed.

Lemma app_numeric s t : numeric_text s → numeric_text t → numeric_text (s +:+ t).
Proof. rewrite ascii_app. apply Forall_app_2. Qed.

Lemma FormatInt_numeric z : numeric_text (FormatInt z).
Proof. unfold FormatInt. destruct (z <? 0); [apply app_numeric; [by repeat constructor|]|]; apply show_Z_numeric. Qed.

Lemma chars_numeric l : Forall (fun c => numeric c = true) l → numeric_text (from_chars l).
Proof. by rewrite String.list_ascii_of_string_of_list_ascii. Qed.

Lemma zeros_numeric n : numeric_text (zeros n).
Proof. by apply chars_numeric, Forall_replicate. Qed.

Lemma literal_numeric s : forallb numeric (chars s) = true → numeric_text s.
Proof. induction (chars s) as [|c l IH]; [done|]. simpl. intros [Hc Hl]%andb_prop. constructor; auto. Qed.

Create HintDb numeric.
#[export] Hint Resolve show_Z_numeric FormatInt_numeric zeros_numeric app_numeric chars_numeric Forall_take Forall_drop : numeric.
#[export] Hint Extern 1 (numeric_text _) => (apply literal_numeric; reflexivity) : numeric.

Lemma fmtF_numeric ds dp : Forall (fun c => numeric c = true) ds → numeric_text (fmtF ds dp).
Proof. intros Hds. unfold fmtF. destruct (0 <? dp), (dp <? _); auto 6 with numeric. Qed.

Lemma fmtE_numeric ds dp : Forall (fun c => numeric c = true) ds → numeric_text (fmtE ds dp).
Proof.
  intros Hds. unfold fmtE. pose proof (Forall_drop _ 1 ds Hds) as Hrest.
  destruct (drop 1 ds), (_ <? 0), (_ <? 10); auto 8 with numeric.
Qed.

Lemma fmtG_numeric f : numeric_text (fmtG f).
Proof.
  destruct f as [[]|[]| |s m e]; try (by apply literal_numeric). unfold fmtG. destruct (shortest m e) as [d k].
  apply app_numeric; [destruct s; auto with numeric|].
  destruct (_ || _); [apply fmtE_numeric|apply fmtF_numeric]; apply show_Z_numeric.
Qed.
#[export] Hint Resolve fmtG_numeric : numeric.

(** [d * 10^k] lies where numbers round to [m * 2^e]. *)
Definition rounds_to (m : positive) (e d k : Z) : Prop :=
  flow m e * under k ≤ d * over e k ≤ fhigh m e * under k ∧
  (Z.even (Zpos m) = false → flow m e * under k < d * over e k < fhigh m e * under k).

Lemma over_pos e k : 0 < over e k.
Proof. unfold over, fden. apply Z.mul_pos_pos; apply Z.pow_pos_nonneg; lia. Qed.
Lemma under_pos k : 0 < under k.
Proof. apply Z.pow_pos_nonneg; lia. Qed.

Lemma flow_lt m e : flow m e < fnum m e.
Proof.
  unfold flow. pose proof (Z.pow_pos_nonneg 2 (Z.max e 0)). pose proof (Z.pow_pos_nonneg 2 (Z.max e 0 + 1)).
  destruct (_ && _); lia.
Qed.
Lemma fhigh_gt m e : fnum m e < fhigh m e.
Proof. unfold fhigh. pose proof (Z.pow_pos_nonneg 2 (Z.max e 0 + 1)). lia. Qed.

Lemma rounded_rounds m e k d : rounded m e k = Some d → rounds_to m e d k.
Proof.
  unfold rounded, rounds_to. pose proof (over_pos e k) as Ha. pose proof (under_pos k) as Hb.
  set (a := over e k) in *. set (b := under k) in *.
  pose proof (Z.mul_div_le (fnum m e * b) a Ha) as Hdn. pose proof (Z.mul_succ_div_gt (fnum m e * b) a Ha) as Hup.
  set (down := fnum m e * b / a) in *.
  assert (Hl : flow m e * b < fnum m e * b) by (pose proof (flow_lt m e); nia).
  assert (Hh : fnum m e * b < fhigh m e * b) by (pose proof (fhigh_gt m e); nia).
  assert (Hdown : (flow m e * b <? down * a) || Z.even (Zpos m) && (flow m e * b =? down * a) = true →
    (flow m e * b ≤ down * a ≤ fhigh m e * b) ∧
    (Z.even (Zpos m) = false → flow m e * b < down * a < fhigh m e * b)).
  { intros [Hx%Z.ltb_lt|[He Hx%Z.eqb_eq]%andb_prop]%orb_prop; split; try lia; congruence. }
  assert (Hupp : ((down + 1) * a <? fhigh m e * b) || Z.even (Zpos m) && ((down + 1) * a =? fhigh m e * b) = true →
    (flow m e * b ≤ (down + 1) * a ≤ fhigh m e * b) ∧
    (Z.even (Zpos m) = false → flow m e * b < (down + 1) * a < fhigh m e * b)).
  { intros [Hx%Z.ltb_lt|[He Hx%Z.eqb_eq]%andb_prop]%orb_prop; split; try lia; congruence. }
  revert Hdown Hupp. do 2 destruct (_ || _); intros Hdown Hupp [= <-]; auto.
  destruct (Z.compare _ a); [destruct (Z.even down)|..]; auto.
Qed.

(** With as many decimals as the binary exponent asks for, truncation is exact. *)
Lemma rounded_exact m e k : k ≤ 0 → - e ≤ - k → rounded m e k ≠ None.
Proof.
  intros Hk He. unfold rounded. pose proof (over_pos e k) as Ha. pose proof (under_pos k) as Hb.
  assert (Hdiv : (over e k | fnum m e * under k)).
  { unfold over, under, fnum, fden. rewrite (Z.max_r k 0), Z.mul_1_r by lia.
    replace (Z.max (- k) 0) with (Z.max (- e) 0 + (- k - Z.max (- e) 0)) by lia.
    rewrite (Z.pow_add_r 10), (Z.pow_add_r 2 (Z.max (- e) 0)), (Z.pow_add_r 2 (Z.max e 0)) by lia.
    replace 10 with (2 * 5) by lia. rewrite (Z.pow_mul_l 2 5 (Z.max (- e) 0)) by lia.
    eexists (Zpos m * 2 ^ Z.max e 0 * (5 ^ Z.max (- e) 0 * (2 * 5) ^ _)). ring. }
  assert (E : fnum m e * under k / over e k * over e k = fnum m e * under k).
  { destruct Hdiv as [q ->]. by rewrite Z.div_mul by lia. }
  rewrite E. pose proof (flow_lt m e). rewrite (proj2 (Z.ltb_lt (flow m e * under k) _)) by nia. simpl.
  by destruct (_ || _).
Qed.

Lemma shortest_from_rounds fuel m e k :
  k - Z.of_nat fuel ≤ 0 → - e ≤ Z.of_nat fuel - k →
  rounds_to m e (shortest_from fuel m e k).1 (shortest_from fuel m e k).2.
Proof.
  revert k. induction fuel as [|fuel IH]; intros k Hk He; simpl.
  - destruct (rounded m e k) as [d|] eqn:E; [by apply rounded_rounds|].
    exfalso. apply (rounded_exact m e k); [lia..|done].
  - destruct (rounded m e k) as [d|] eqn:E; [by apply rounded_rounds|]. apply IH; lia.
Qed.

(** The search always ends in a decimal that rounds back to the number. *)
Lemma shortest_rounds m e : rounds_to m e (shortest m e).1 (shortest m e).2.
Proof. apply shortest_from_rounds; lia. Qed.

(** ** Quoted text reads back *)

Local Ltac Zify.zify_post_hook ::= Z.to_euclidean_division_equations.

Lemma is_cont_true lo hi b : is_cont lo hi b = true ↔ (lo ≤ b ≤ hi)%N.
Proof. unfold is_cont. rewrite andb_true_iff, !N.leb_le. done. Qed.

Lemma if_some {A} (b : bool) (x y : A) : (if b then Some x else None) = Some y → b = true ∧ x = y.
Proof. destruct b; [|done]. by intros [= ->]. Qed.

(** A decoded rune encodes to the bytes it was decoded from. *)
Lemma decode_encode b0 l r width :
  (0x80 ≤ b0)%N → decodeRune b0 l = Some (r, width) →
  encodeRune r = b0 :: take (width - 1) l ∧ (0x80 ≤ r < 0x110000)%N ∧
  Forall (fun b => 0x80 ≤ b)%N (b0 :: take (width - 1) l).
Proof.
  intros Hb0. unfold decodeRune. destruct (is_cont 0xC2 0xDF b0) eqn:E2.
  { apply is_cont_true in E2. destruct l as [|b1 l]; [done|].
    intros [E%is_cont_true [= <- <-]]%if_some. simpl.
    set (r := ((b0 - 192) * 64 + (b1 - 128))%N). assert (Hr : (0x80 ≤ r < 0x800)%N) by lia.
    unfold encodeRune. rewrite (proj2 (N.ltb_ge r 0x80)), (proj2 (N.ltb_lt r 0x800)) by lia.
    split; [|split; [lia|by repeat constructor; lia]]. repeat f_equal; lia. }
  destruct (is_cont 0xE0 0xEF b0) eqn:E3.
  { apply is_cont_true in E3. destruct l as [|b1 [|b2 l]]; [done..|].
    intros [[E1%is_cont_true E4%is_cont_true]%andb_prop [= <- <-]]%if_some. simpl.
    set (r := ((b0 - 224) * 4096 + (b1 - 128) * 64 + (b2 - 128))%N).
    assert (Hr : (0x800 ≤ r < 0x10000)%N) by (destruct (N.eqb_spec b0 224), (N.eqb_spec b0 237); lia).
    assert (H1 : (0x80 ≤ b1 ≤ 0xBF)%N) by (destruct (N.eqb_spec b0 224), (N.eqb_spec b0 237); lia). clear E1.
    unfold encodeRune. rewrite (proj2 (N.ltb_ge r 0x80)), (proj2 (N.ltb_ge r 0x800)), (proj2 (N.ltb_lt r 0x10000)) by lia.
    split; [|split; [lia|by repeat constructor; lia]]. repeat f_equal; lia. }
  destruct (is_cont 0xF0 0xF4 b0) eqn:E4; [|done].
  apply is_cont_true in E4. destruct l as [|b1 [|b2 [|b3 l]]]; [done..|].
  intros [[[E1%is_cont_true E5%is_cont_true]%andb_prop E6%is_cont_true]%andb_prop [= <- <-]]%if_some. simpl.
  set (r := ((b0 - 240) * 262144 + (b1 - 128) * 4096 + (b2 - 128) * 64 + (b3 - 128))%N).
  assert (Hr : (0x10000 ≤ r < 0x110000)%N) by (destruct (N.eqb_spec b0 240), (N.eqb_spec b0 244); lia).
  assert (H1 : (0x80 ≤ b1 ≤ 0xBF)%N) by (destruct (N.eqb_spec b0 240), (N.eqb_spec b0 244); lia). clear E1.
  unfold encodeRune. rewrite (proj2 (N.ltb_ge r 0x80)), (proj2 (N.ltb_ge r 0x800)), (proj2 (N.ltb_ge r 0x10000)) by lia.
  split; [|split; [lia|by repeat constructor; lia]]. repeat f_equal; lia.
Qed.

Lemma hex_digit_unhex n : (n < 16)%N → unhex_digit (hex_digit n) = Some n ∧ hex_digit n ≠ line_feed.
Proof.
  intros Hn. assert (Hlt : ((if n <? 10 then 48 + n else 87 + n) < 256)%N) by (destruct (n <? 10)%N; lia).
  unfold unhex_digit, hex_digit. rewrite N_ascii_embedding by done. destruct (N.ltb_spec n 10).
  - rewrite (proj2 (is_cont_true 48 57 _)) by lia. split; [f_equal; lia|].
    intros E%(f_equal N_of_ascii). rewrite N_ascii_embedding in E by done. change (N_of_ascii line_feed) with 10%N in E. lia.
  - assert (is_cont 48 57 (87 + n) = false) as -> by (apply not_true_is_false; rewrite is_cont_true; lia).
    rewrite (proj2 (is_cont_true 97 102 _)) by lia. split; [f_equal; lia|].
    intros E%(f_equal N_of_ascii). rewrite N_ascii_embedding in E by done. change (N_of_ascii line_feed) with 10%N in E. lia.
Qed.

Lemma unhex_fixed n acc r rest :
  unhex n acc (hex_fixed n r ++ rest) = Some (acc * 16 ^ N.of_nat n + r mod 16 ^ N.of_nat n, rest)%N.
Proof.
  revert acc. induction n as [|n IH]; intros acc; [simpl; rewrite N.mod_1_r; do 2 f_equal; lia|].
  cbn [unhex hex_fixed app]. rewrite (proj1 (hex_digit_unhex _ (N.mod_lt _ 16 ltac:(done)))). simpl. rewrite IH.
  rewrite Nat2N.inj_succ, N.pow_succ_r', (N.mul_comm 16), N.Div0.mod_mul_r. do 2 f_equal. ring.
Qed.

Lemma hex_fixed_length n r : length (hex_fixed n r) = n.
Proof. induction n; simpl; congruence. Qed.
Lemma hex_fixed_line n r : Forall (fun c => c ≠ line_feed) (hex_fixed n r).
Proof. induction n; simpl; constructor; [|done]. by apply hex_digit_unhex, N.mod_lt. Qed.

(** [tail] reads as [s] up to [rest], with any sufficient fuel. *)
Definition reads (tail s rest : list ascii) : Prop :=
  ∀ fuel, (length tail ≤ fuel)%nat → unquote_runes fuel tail = Some (s, rest).

Lemma reads_end rest : reads (quote_char :: rest) [] rest.
Proof. intros [|fuel] Hf; simpl in Hf; [lia|done]. Qed.

Lemma reads_raw raw tail s rest :
  Forall (fun c => c ≠ quote_char ∧ c ≠ backslash) raw → reads tail s rest → reads (raw ++ tail) (raw ++ s) rest.
Proof.
  intros Hraw Ht. induction Hraw as [|c raw [Hq Hb] _ IH]; [done|].
  intros [|fuel] Hf; simpl in Hf; [lia|]. simpl. rewrite !bool_decide_eq_false_2 by done.
  by rewrite IH by lia.
Qed.

Lemma reads_escape esc raw tail s rest :
  unescape (esc ++ tail) = Some (raw, tail) → reads tail s rest → reads (backslash :: esc ++ tail) (raw ++ s) rest.
Proof.
  intros He Ht [|fuel] Hf; simpl in Hf; [lia|]. simpl. rewrite He. simpl.
  rewrite length_app in Hf. by rewrite Ht by lia.
Qed.

Lemma escape_letter_Some r c :
  escape_letter r = Some c → (r < 0x20)%N ∧ c ≠ line_feed ∧ ∀ tail, unescape (c :: tail) = Some ([ascii_of_N r], tail).
Proof.
  unfold escape_letter, escape_letters. simpl.
  repeat (case_decide; [simpl in *; subst; intros [= <-]; split; [lia|]; split; [done|reflexivity]|simpl]). done.
Qed.

(** The bytes of a rune. *)
Definition rune_bytes (r : N) (raw : list ascii) : Prop :=
  (r < 0x80)%N ∧ raw = [ascii_of_N r] ∨
  (0x80 ≤ r < 0x110000)%N ∧ raw = map ascii_of_N (encodeRune r) ∧ Forall (fun c => 0x80 ≤ N_of_ascii c)%N raw.

Lemma unescape_x l : unescape ("x"%char :: l) = '(r, l) ← unhex 2 0 l; Some ([ascii_of_N r], l).
Proof. done. Qed.
Lemma unescape_u l : unescape ("u"%char :: l) = '(r, l) ← unhex 4 0 l; Some (map ascii_of_N (encodeRune r), l).
Proof. done. Qed.
Lemma unescape_U l : unescape ("U"%char :: l) = '(r, l) ← unhex 8 0 l; Some (map ascii_of_N (encodeRune r), l).
Proof. done. Qed.

Section quoted.
Context `{Unicode}.

Lemma not_printed r : (r < 0x80)%N → IsPrint r = false → (r <? 0x20)%N || (r =? 0x7F)%N = true.
Proof.
  intros Hr Hp. destruct (N.ltb_spec r 0x20); [done|]. destruct (N.eqb_spec r 0x7F); [done|]. exfalso.
  unfold IsPrint in Hp. rewrite (proj2 (N.leb_le r 0xFF)), (proj2 (is_cont_true 0x20 0x7E r)) in Hp by lia.
  by rewrite (proj2 (N.eqb_neq r 0xAD)) in Hp by lia.
Qed.

Lemma printed_raw r raw :
  rune_bytes r raw → IsPrint r = true → r ≠ 34%N → r ≠ 92%N →
  Forall (fun c => (c ≠ quote_char ∧ c ≠ backslash) ∧ c ≠ line_feed) raw.
Proof.
  intros [[Hr ->]|(_ & _ & Hraw)] Hp Hq Hb.
  - assert (Hn : N_of_ascii (ascii_of_N r) = r) by (apply N_ascii_embedding; lia).
    repeat constructor; intros E%(f_equal N_of_ascii); rewrite Hn in E; [done..|].
    rewrite E in Hp. vm_compute in Hp. done.
  - revert Hraw. apply Forall_impl. intros c Hc.
    split; [split|]; intros ->; vm_compute in Hc; by apply Hc.
Qed.

Lemma escaped_reads r raw tail s rest :
  rune_bytes r raw → reads tail s rest → reads (escapedRune r raw ++ tail) (raw ++ s) rest.
Proof.
  intros Hr Ht. unfold escapedRune. destruct ((r =? 34)%N || (r =? 92)%N) eqn:Eq.
  { destruct Hr as [[_ ->]|[Hr _]]; [|apply orb_prop in Eq as [->%N.eqb_eq| ->%N.eqb_eq]; lia].
    apply (reads_escape [ascii_of_N r]); [|done].
    by apply orb_prop in Eq as [->%N.eqb_eq| ->%N.eqb_eq]. }
  apply orb_false_elim in Eq as [Eq%N.eqb_neq Eb%N.eqb_neq].
  destruct (IsPrint r) eqn:Ep.
  { apply reads_raw; [|done]. eapply Forall_impl; [|by apply (printed_raw r)]. by intros c [? _]. }
  destruct (escape_letter r) as [c|] eqn:El.
  { destruct (escape_letter_Some _ _ El) as (Hlow & _ & He).
    destruct Hr as [[_ ->]|[Hr _]]; [|lia]. apply (reads_escape [c]); [apply He|done]. }
  assert (Hfix : ∀ n, (r < 16 ^ N.of_nat n)%N → ∀ tl, unhex n 0 (hex_fixed n r ++ tl) = Some (r, tl)).
  { intros n Hn tl. rewrite unhex_fixed, N.mod_small by done. done. }
  assert (Hx : (r < 0x80)%N → raw = [ascii_of_N r] → reads (backslash :: ("x"%char :: hex_fixed 2 r) ++ tail) (raw ++ s) rest).
  { intros Hlow ->. apply reads_escape; [|done]. cbn [app]. rewrite unescape_x, Hfix; [done|simpl; lia]. }
  destruct Hr as [[Hr Hraw]|(Hr & -> & _)].
  - assert (Hctl : (r <? 0x20)%N || (r =? 0x7F)%N = true) by (by apply not_printed).
    rewrite Hctl. by apply Hx.
  - rewrite (proj2 (N.ltb_ge r 0x20)), (proj2 (N.eqb_neq r 0x7F)) by lia. simpl orb. cbn iota.
    destruct (N.ltb_spec r 0x10000).
    + apply (reads_escape ("u"%char :: hex_fixed 4 r)); [|done]. cbn [app]. rewrite unescape_u, Hfix; [done|simpl; lia].
    + apply (reads_escape ("U"%char :: hex_fixed 8 r)); [|done]. cbn [app]. rewrite unescape_U, Hfix; [done|simpl; lia].
Qed.

Lemma escaped_line r raw : rune_bytes r raw → Forall (fun c => c ≠ line_feed) (escapedRune r raw).
Proof.
  intros Hr. unfold escapedRune. destruct ((r =? 34)%N || (r =? 92)%N) eqn:Eq.
  { destruct Hr as [[_ ->]|[Hr _]]; [|apply orb_prop in Eq as [->%N.eqb_eq| ->%N.eqb_eq]; lia].
    apply orb_prop in Eq as [->%N.eqb_eq| ->%N.eqb_eq]; by repeat constructor. }
  apply orb_false_elim in Eq as [Eq%N.eqb_neq Eb%N.eqb_neq]. destruct (IsPrint r) eqn:Ep.
  { eapply Forall_impl; [|by apply (printed_raw r)]. by intros c [_ ?]. }
  destruct (escape_letter r) as [c|] eqn:El.
  { destruct (escape_letter_Some _ _ El) as (_ & Hc & _). by repeat constructor. }
  pose proof hex_fixed_line. destruct (_ || _); [|destruct (_ <? _)%N]; repeat (constructor; [done|]); done.
Qed.

(** One rune of the string. *)
Lemma decoded_bytes c l r width :
  (0x80 ≤ N_of_ascii c)%N → decodeRune (N_of_ascii c) (map N_of_ascii l) = Some (r, width) →
  rune_bytes r (c :: take (width - 1) l).
Proof.
  intros Hc Hd. destruct (decode_encode _ _ _ _ Hc Hd) as (He & Hr & Hall). right. split; [done|].
  assert (Hm : ∀ k, map ascii_of_N (map N_of_ascii k) = k).
  { intros k. rewrite map_map. rewrite <- (map_id k) at 2. apply map_ext. apply ascii_N_embedding. }
  rewrite He. cbn [map]. rewrite ascii_N_embedding, <- firstn_map, Hm. split; [done|].
  constructor; [done|]. apply Forall_inv_tail in Hall. rewrite firstn_map in Hall. exact (proj1 (Forall_map _ _ _) Hall).
Qed.

Lemma quote_runes_reads skip l rest : reads (quote_runes skip l ++ quote_char :: rest) (drop skip l) rest.
Proof.
  revert skip. induction l as [|c l IH]; intros skip; [destruct skip; apply reads_end|].
  destruct skip as [|skip]; [|apply IH]. cbn [quote_runes drop]. destruct (N.ltb_spec (N_of_ascii c) 0x80) as [Hlt|Hge].
  - rewrite <- app_assoc. apply (escaped_reads _ [c]); [|apply IH]. left. by rewrite ascii_N_embedding.
  - destruct (decodeRune _ _) as [[r width]|] eqn:Ed.
    + assert (El : c :: l = (c :: take (width - 1) l) ++ drop (width - 1) l) by (simpl; by rewrite take_drop).
      rewrite <- app_assoc, El. apply (escaped_reads r (c :: take (width - 1) l)); [by apply decoded_bytes|apply IH].
    + change (backslash :: "x"%char :: hex_fixed 2 (N_of_ascii c) ++ quote_runes 0 l)
        with (backslash :: ("x"%char :: hex_fixed 2 (N_of_ascii c)) ++ quote_runes 0 l).
      rewrite <- app_comm_cons, <- app_assoc. apply (reads_escape _ [c]); [|apply IH].
      cbn [app]. rewrite unescape_x, unhex_fixed, N.mod_small, N.mul_0_l, N.add_0_l; [cbn [mbind option_bind]; by rewrite ascii_N_embedding|].
      pose proof (N_ascii_bounded c). simpl. lia.
Qed.

Lemma quote_runes_line skip l : Forall (fun c => c ≠ line_feed) (quote_runes skip l).
Proof.
  revert skip. induction l as [|c l IH]; intros skip; [constructor|]. destruct skip as [|skip]; [|apply IH].
  cbn [quote_runes]. destruct (N.ltb_spec (N_of_ascii c) 0x80) as [Hlt|Hge].
  - apply Forall_app_2; [|apply IH]. apply escaped_line. left. by rewrite ascii_N_embedding.
  - destruct (decodeRune _ _) as [[r width]|] eqn:Ed.
    + apply Forall_app_2; [by apply escaped_line, decoded_bytes|apply IH].
    + do 2 (constructor; [done|]). apply Forall_app_2; [apply hex_fixed_line|apply IH].
Qed.

(** A reader of a quoted string gets the string, whatever its bytes, and is
    left with what follows the closing quote. *)
Lemma Unquote_Quote s rest : Unquote (chars (Quote s) ++ rest) = Some (chars s, rest).
Proof.
  unfold Quote. rewrite String.list_ascii_of_string_of_list_ascii. cbn [app Unquote].
  rewrite bool_decide_eq_true_2, <- app_assoc by done. by apply (quote_runes_reads 0).
Qed.

(** It stays on its line. *)
Lemma Quote_line s : Forall (fun c => c ≠ line_feed) (chars (Quote s)).
Proof.
  unfold Quote. rewrite String.list_ascii_of_string_of_list_ascii. constructor; [done|].
  apply Forall_app_2; [apply quote_runes_line|by repeat constructor].
Qed.
End quoted.
