(* ===== verification/Verify.v ===== *)
(** * Release verification (internal/ota/verify.go, internal/ota/campaign.go)

    The signed envelope of a release, the checks on its metadata, SBOM and
    targets, the list of artifacts it names, and job fingerprints. *)
From stdpp Require Import base tactics gmap strings list.
From Stdlib Require Import ZArith Lia.
From S2P Require Import Prelude Model Config Crypto Topo.
Local Open Scope Z_scope.

(** ** JSON

    [encoding/json]: decoding the first value of a document into a struct
    with unknown fields refused, and encoding one. *)
Class JSONDecode (A : Type) := {
  (** the value and the bytes after it *)
  json_Decode : bytes → result (A * bytes);
}.
Class JSONEncode (A : Type) := { json_Marshal : A → bytes }.

(** A second [Decode] reports [io.EOF] when only white space is left. *)
Definition json_space (b : Byte.byte) : bool :=
  match b with Byte.x20 | Byte.x09 | Byte.x0a | Byte.x0d => true | _ => false end.
Definition json_EOF (rest : bytes) : bool := forallb json_space rest.

Definition StrictJSON {A} `{JSONDecode A} (b : bytes) : result A :=
  '(v, rest) ← json_Decode b;
  if json_EOF rest then Ok v else errorf "trailing JSON data".

(** ** Artifacts *)

Definition checkArtifact (a : Artifact) (max : Z) : result unit :=
  reject_if (negb (digestPattern (a_SHA256 a)) || (a_Size a <=? 0) || (a_Size a >? max)
             || eqs (a_URL a) "") "invalid artifact size/digest".

Definition checkSBOM (r : Release) (max : Z) : result unit :=
  let pinned := negb (eqs (r_SBOMSHA256 r) "") in
  let present := negb (eqs (a_SHA256 (r_SBOM r)) "") || negb (eqs (a_URL (r_SBOM r)) "")
                 || negb (a_Size (r_SBOM r) =? 0) in
  if negb pinned && negb present then Ok tt
  else
    _ ← reject_if (negb pinned || negb present
                   || negb (eqs (a_SHA256 (r_SBOM r)) (r_SBOMSHA256 r)))
          "SBOM digest does not match the pinned release digest";
    _ ← reject_if (negb (digestPattern (r_SBOMSHA256 r))) "invalid SBOM digest";
    checkArtifact (r_SBOM r) max.

Definition containsCap (l : list string) (want : string) : bool := scan l want.

(** [releaseArtifacts]: the closure [add] on the list built so far. *)
Definition addArtifact (out : list Artifact) (a : Artifact) : result (list Artifact) :=
  if eqs (a_SHA256 a) "" && eqs (a_URL a) "" && (a_Size a =? 0) then Ok out
  else if negb (digestPattern (a_SHA256 a)) || (a_Size a <=? 0)
  then errorf "campaign artifact missing digest"
  else if scan (map a_SHA256 out) (a_SHA256 a) then Ok out
  else Ok (out ++ [a]).

Fixpoint addArtifacts (out : list Artifact) (l : list Artifact) : result (list Artifact) :=
  match l with
  | [] => Ok out
  | a :: l => out ← addArtifact out a; addArtifacts out l
  end.

Definition releaseArtifacts (r : Release) : result (list Artifact) :=
  out ← addArtifact [] (r_Artifact r);
  out ← addArtifact out (r_SBOM r);
  out ← addArtifacts out (map t_Artifact (r_Targets r));
  if (length out =? 0)%nat then errorf "campaign has no artifact" else Ok out.

(** ** Envelopes *)
Section envelope.
Context `{MapRange, Ed25519, JSONDecode Release, JSONEncode Release, JSONEncode Assignment}.

Definition supportedType (ty : string) : bool :=
  eqs ty "os.rauc" || eqs ty "container.oci" || eqs ty "config.bundle" || eqs ty "model.oci".

(** One iteration of the loop over [r.Targets]. *)
Definition checkTarget (c : Config) (seen : list string) (t : Target) : result unit :=
  _ ← reject_if (negb (identifier (t_ID t)) || scan seen (t_ID t)) "invalid target id";
  _ ← reject_if (negb (supportedType (t_Type t))) "unsupported target type";
  _ ← reject_if (eqs (t_Type t) "os.rauc" && negb (eqs (t_Reboot t) "required"))
        "os.rauc requires reboot";
  _ ← reject_if (negb (eqs (t_Type t) "os.rauc") && negb (eqs (t_Reboot t) "")
                 && negb (eqs (t_Reboot t) "none")) "payload reboot must be none";
  _ ← reject_if (negb (eqs (t_Rollback t) "") && negb (eqs (t_Rollback t) "previous-digest")
                 && negb (eqs (t_Rollback t) "slot")) "unsupported rollback behavior";
  _ ← reject_if (negb (eqs (t_Requires t) "") && negb (containsCap (c_Capabilities c) (t_Requires t)))
        "device missing required capability";
  _ ← checkArtifact (t_Artifact t) (c_MaxArtifactBytes c);
  reject_if (t_StorageBytes t <? 0) "invalid storage requirement".

Fixpoint checkTargets (c : Config) (seen : list string) (ts : list Target) : result unit :=
  match ts with
  | [] => Ok tt
  | t :: ts => _ ← checkTarget c seen t; checkTargets c (t_ID t :: seen) ts
  end.

(** Everything [VerifyEnvelope] checks on the decoded release. *)
Definition checkMetadata (r : Release) (c : Config) (now : time) : result unit :=
  _ ← reject_if ((negb (r_Schema r =? 1) && negb (r_Schema r =? 2)) || negb (identifier (r_ID r))
                 || negb (identifier (r_Version r)) || (r_Sequence r =? 0))
        "invalid release metadata";
  _ ← reject_if (negb (eqs (r_Compatible r) (c_Compatible c))
                 || negb (eqs (r_Backend r) (c_Backend c)))
        "release incompatible with device/backend";
  _ ← reject_if (negb (After (r_Expires r) now)) "release expired";
  _ ← reject_if (r_Adaptive r && negb (c_AllowAdaptive c))
        "adaptive updates are not enabled for this device";
  checkSBOM r (c_MaxArtifactBytes c).

Definition checkContents (r : Release) (c : Config) : result Release :=
  if r_Schema r =? 1 then
    _ ← reject_if (negb (length (r_Targets r) =? 0)%nat) "schema 1 release cannot carry targets";
    _ ← checkArtifact (r_Artifact r) (c_MaxArtifactBytes c);
    Ok r
  else
    _ ← reject_if (length (r_Targets r) =? 0)%nat "schema 2 release requires targets";
    _ ← checkTargets c [] (r_Targets r);
    _ ← topoTargets (r_Targets r);
    match OSTarget r with
    | Some osTarget => Ok (set_r_Artifact (t_Artifact osTarget) r)
    | None =>
        if negb (eqs (a_URL (r_Artifact r)) "") then
          _ ← checkArtifact (r_Artifact r) (c_MaxArtifactBytes c); Ok r
        else Ok r
    end.

Definition VerifyEnvelope (env : Envelope) (c : Config) (now : time) : result Release :=
  match c_TrustKeys c !! env_KeyID env with
  | None => errorf "untrusted signing key"
  | Some encoded =>
      pub ← decodeKey encoded;
      _ ← reject_if ((blen (env_Payload env) >? 65536)
                     || negb (ed25519_Verify pub (env_Payload env) (env_Signature env)))
            "invalid release signature";
      match StrictJSON (env_Payload env) with
      | Err e => Err (wrap_error "release: " e)
      | Ok r =>
          _ ← checkMetadata r c now;
          checkContents r c
      end
  end.

(** [ed25519.Sign], given to [SignRelease] with the private key. *)
Definition SignRelease (sign : bytes → bytes → bytes) (r : Release) (id : string)
    (key : bytes) : result Envelope :=
  _ ← reject_if (negb (length key =? PrivateKeySize)%nat) "invalid private key";
  let b := json_Marshal r in
  Ok (mkEnvelope id b (sign key b)).

Definition Fingerprint (a : Assignment) : string := digest (json_Marshal a).

End envelope.

(** ** Properties *)

Ltac reject_solve :=
  repeat match goal with
  | E : reject_if _ _ = Ok _ |- _ => apply reject_if_ok in E
  | E : (_ || _) = false |- _ => apply orb_false_elim in E as [? ?]
  | E : negb _ = false |- _ => apply negb_false_iff in E
  end.

(** *** What the checks of a release demand *)

Definition artifact_fit (max : Z) (a : Artifact) : Prop :=
  digestPattern (a_SHA256 a) = true ∧ 0 < a_Size a ≤ max ∧ a_URL a ≠ "".

(** An SBOM is pinned with its digest, or there is none. *)
Definition sbom_fit (max : Z) (r : Release) : Prop :=
  (r_SBOMSHA256 r = "" ∧ r_SBOM r = zeroArtifact) ∨
  (r_SBOMSHA256 r ≠ "" ∧ a_SHA256 (r_SBOM r) = r_SBOMSHA256 r ∧ artifact_fit max (r_SBOM r)).

Record target_fit (c : Config) (t : Target) : Prop := {
  tf_id : identifier (t_ID t) = true;
  tf_type : t_Type t ∈ ["os.rauc"; "container.oci"; "config.bundle"; "model.oci"];
  tf_os : t_Type t = "os.rauc" → t_Reboot t = "required";
  tf_payload : t_Type t ≠ "os.rauc" → t_Reboot t ∈ [""; "none"];
  tf_rollback : t_Rollback t ∈ [""; "previous-digest"; "slot"];
  tf_requires : t_Requires t = "" ∨ t_Requires t ∈ c_Capabilities c;
  tf_artifact : artifact_fit (c_MaxArtifactBytes c) (t_Artifact t);
  tf_storage : 0 ≤ t_StorageBytes t;
}.

Record release_fit (c : Config) (now : time) (r : Release) : Prop := {
  rf_schema : r_Schema r = 1 ∨ r_Schema r = 2;
  rf_id : identifier (r_ID r) = true;
  rf_version : identifier (r_Version r) = true;
  rf_sequence : r_Sequence r ≠ 0;
  rf_compatible : r_Compatible r = c_Compatible c;
  rf_backend : r_Backend r = c_Backend c;
  rf_unexpired : now < r_Expires r;
  rf_adaptive : r_Adaptive r = true → c_AllowAdaptive c = true;
  rf_sbom : sbom_fit (c_MaxArtifactBytes c) r;
  rf_schema1 : r_Schema r = 1 → r_Targets r = [] ∧ artifact_fit (c_MaxArtifactBytes c) (r_Artifact r);
  rf_schema2 : r_Schema r = 2 → r_Targets r ≠ [];
  rf_ids : NoDup (ids (r_Targets r));
  rf_targets : ∀ t, t ∈ r_Targets r → target_fit c t;
  rf_order : orderable (r_Targets r);
  rf_side : OSTarget r = None → a_URL (r_Artifact r) = "" ∨ artifact_fit (c_MaxArtifactBytes c) (r_Artifact r);
}.

(** The release as it is returned: the artifact of its OS target. *)
Definition with_os (r : Release) : Release :=
  match OSTarget r with Some t => set_r_Artifact (t_Artifact t) r | None => r end.

Lemma eqs_negb x y : negb (eqs x y) = false ↔ x = y.
Proof. rewrite negb_false_iff. apply eqs_true. Qed.

Lemma checkArtifact_iff a max : checkArtifact a max = Ok tt ↔ artifact_fit max a.
Proof.
  unfold checkArtifact, artifact_fit. rewrite reject_if_iff, !orb_false_iff, negb_false_iff, eqs_false.
  rewrite Z.leb_gt, Z.gtb_ltb, Z.ltb_ge. naive_solver lia.
Qed.

Lemma checkSBOM_iff r max : checkSBOM r max = Ok tt ↔ sbom_fit max r.
Proof.
  unfold checkSBOM, sbom_fit. destruct (eqs (r_SBOMSHA256 r) "") eqn:Ep; cbn [negb andb orb].
  - apply eqs_true in Ep. rewrite Ep. destruct (r_SBOM r) as [url sha size]. cbn [a_SHA256 a_URL a_Size].
    destruct (eqs sha "") eqn:E1, (eqs url "") eqn:E2, (Z.eqb_spec size 0) as [E3|E3]; cbn [negb orb]; reflect_bools; subst;
      (split; [try done; intros _; by left|by intros [[_ [=]]|[? _]]]).
  - assert (Hne : r_SBOMSHA256 r ≠ "") by (by apply eqs_false). rewrite !bind_ok_iff, !reject_if_iff, checkArtifact_iff.
    rewrite orb_false_iff, eqs_negb, !negb_false_iff. split.
    + intros ((_ & E) & _ & Hf). by right.
    + intros [[? _]|(_ & E & Hf)]; [done|]. rewrite E. destruct Hf as (Hd & Hs & Hu).
      rewrite E in Hd. rewrite (proj2 (eqs_false _ _) Hne). unfold artifact_fit. by rewrite E.
Qed.

Lemma checkTarget_iff c seen t : checkTarget c seen t = Ok tt ↔ t_ID t ∉ seen ∧ target_fit c t.
Proof.
  unfold checkTarget. rewrite !bind_ok_iff, !reject_if_iff, checkArtifact_iff.
  rewrite !orb_false_iff, !andb_false_iff, !negb_false_iff, !eqs_true, !eqs_false.
  assert (Hscan : scan seen (t_ID t) = false ↔ t_ID t ∉ seen) by (rewrite <- scan_spec; by destruct (scan _ _)).
  assert (Hty : supportedType (t_Type t) = true ↔ t_Type t ∈ ["os.rauc"; "container.oci"; "config.bundle"; "model.oci"]).
  { unfold supportedType. rewrite !orb_true_iff, !eqs_true. set_solver. }
  unfold containsCap. rewrite Hscan, Hty, scan_spec, Z.ltb_ge. split.
  - intros ((Hid & Hs) & Ht & Ho & Hp & Hr & Hq & Ha & Hst). split; [done|]. split; try done.
    + intros E. destruct Ho as [?|?]; [done|done].
    + intros E. destruct Hp as [[?|?]|?]; [done|set_solver..].
    + destruct Hr as [[?|?]|?]; set_solver.
  - intros (Hs & [Hid Ht Ho Hp Hr Hq Ha Hst]). split; [done|]. split; [done|].
    split; [destruct (decide (t_Type t = "os.rauc")); [right; auto|by left]|].
    split; [destruct (decide (t_Type t = "os.rauc")); [by left; left|apply Hp in n; set_solver]|].
    split; [set_solver|done].
Qed.

Lemma checkTargets_iff c seen ts :
  checkTargets c seen ts = Ok tt ↔
  NoDup (ids ts) ∧ (∀ t, t ∈ ts → t_ID t ∉ seen) ∧ ∀ t, t ∈ ts → target_fit c t.
Proof.
  revert seen. induction ts as [|t ts IH]; intros seen; [split; [split; [constructor|set_solver]|done]|].
  cbn [checkTargets]. rewrite bind_ok_iff, checkTarget_iff, IH. cbn [map]. rewrite NoDup_cons. split.
  - intros ((Hs & Ht) & Hnd & Hseen & Hall). split; [|split].
    + split; [|done]. intros (t' & Ht' & He)%elem_of_ids. apply (Hseen t' Ht'). rewrite He. left.
    + intros t' [->|Ht']%elem_of_cons; [done|]. specialize (Hseen t' Ht'). set_solver.
    + intros t' [->|Ht']%elem_of_cons; [done|]. by apply Hall.
  - intros ([Hni Hnd] & Hseen & Hall). split; [split; [apply Hseen|apply Hall]; left|]. split; [done|]. split.
    + intros t' Ht' [E|Hin]%elem_of_cons; [|by apply (Hseen t'); [right|]].
      apply Hni. apply elem_of_ids. by exists t'.
    + intros t' Ht'. apply Hall. by right.
Qed.

(** The invariant of the artifact list: signed digests, once each. *)
Definition artifacts_wf (l : list Artifact) : Prop :=
  NoDup (map a_SHA256 l) ∧
  ∀ a, a ∈ l → digestPattern (a_SHA256 a) = true ∧ 0 < a_Size a.

Lemma addArtifact_wf out a out' :
  artifacts_wf out → addArtifact out a = Ok out' →
  artifacts_wf out' ∧ out ⊆ out' ∧
  (a ≠ zeroArtifact → a_SHA256 a ∈ map a_SHA256 out') ∧ (∀ x, x ∈ out' → x ∈ out ∨ x = a).
Proof.
  intros [Hnd Hwf]. unfold addArtifact.
  destruct (eqs (a_SHA256 a) "" && eqs (a_URL a) "" && (a_Size a =? 0)) eqn:Ez.
  { intros [= <-]. apply andb_prop in Ez as [[E1%eqs_true E2%eqs_true]%andb_prop E3].
    split; [done|]. split; [done|]. split; [|set_solver]. intros []. destruct a; simpl in *.
    apply Z.eqb_eq in E3. by subst. }
  destruct (negb _ || _) eqn:Eb; [discriminate|]. reject_solve.
  destruct (scan _ _) eqn:Es; intros [= <-].
  { apply scan_spec in Es. split; [done|]. split; [done|]. split; [done|set_solver]. }
  assert (Hni : a_SHA256 a ∉ map a_SHA256 out) by (intros Hin%scan_spec; congruence).
  split; [|set_solver]. split.
  - rewrite map_app. apply NoDup_app. split; [done|]. simpl. split; [set_solver|].
    apply NoDup_singleton.
  - intros x [Hx|Hx]%elem_of_app; [by apply Hwf|].
    apply list_elem_of_singleton in Hx as ->. split; [done|]. lia.
Qed.

Lemma addArtifacts_wf l out out' :
  artifacts_wf out → addArtifacts out l = Ok out' →
  artifacts_wf out' ∧ out ⊆ out' ∧
  (∀ a, a ∈ l → a ≠ zeroArtifact → a_SHA256 a ∈ map a_SHA256 out') ∧
  (∀ x, x ∈ out' → x ∈ out ∨ x ∈ l).
Proof.
  revert out. induction l as [|a l IH]; intros out Hwf Hl; simpl in Hl.
  { injection Hl as <-. set_solver. }
  apply result_bind_ok in Hl as (o1 & Ha & Hl).
  apply addArtifact_wf in Ha as (Hwf1 & Hs1 & Hin1 & Hx1); [|done].
  apply IH in Hl as (Hwf2 & Hs2 & Hin2 & Hx2); [|done].
  split; [done|]. split; [set_solver|]. split.
  - intros b Hb Hz. inversion Hb; subst; [|by apply Hin2].
    apply Hin1 in Hz. apply list_elem_of_fmap in Hz as (x & He & Hx).
    apply list_elem_of_fmap. exists x. split; [done|]. by apply Hs2.
  - intros x Hx. apply Hx2 in Hx as [Hx|?]; [|by right; right].
    apply Hx1 in Hx as [?| ->]; [by left | right; left].
Qed.

(** The artifacts a release names, in [Release] field order. *)
Definition namedArtifacts (r : Release) : list Artifact :=
  r_Artifact r :: r_SBOM r :: map t_Artifact (r_Targets r).

(** The artifacts to download are exactly the ones the release names:
    not empty, every one with a well-formed digest and a positive size, each
    digest once, none left out and none invented. *)
Lemma releaseArtifacts_sound r out :
  releaseArtifacts r = Ok out →
  out ≠ [] ∧ artifacts_wf out ∧
  (∀ a, a ∈ namedArtifacts r → a ≠ zeroArtifact → a_SHA256 a ∈ map a_SHA256 out) ∧
  (∀ a, a ∈ out → a ∈ namedArtifacts r).
Proof.
  unfold releaseArtifacts. intros Hr. destruct_result Hr.
  destruct (_ =? 0)%nat eqn:El; [discriminate|]. injection Hr as <-.
  assert (Hall : addArtifacts [] (namedArtifacts r) = Ok x1).
  { unfold namedArtifacts. cbn [addArtifacts].
    repeat match goal with E : addArtifact _ _ = Ok _ |- _ => rewrite E; clear E; simpl end.
    done. }
  apply addArtifacts_wf in Hall as (Hwf & _ & Hin & Hx); [|split; [constructor|set_solver]].
  split; [by destruct x1|]. split; [done|]. split; [done|]. intros a Ha.
  apply Hx in Ha as [Ha|]; [inversion Ha|done].
Qed.

Section envelope_facts.
Context `{MapRange, Ed25519, JSONDecode Release, JSONEncode Release, JSONEncode Assignment}.

Lemma set_r_Artifact_same a r :
  r_Sequence (set_r_Artifact a r) = r_Sequence r ∧ r_Version (set_r_Artifact a r) = r_Version r ∧
  r_Targets (set_r_Artifact a r) = r_Targets r ∧ r_Expires (set_r_Artifact a r) = r_Expires r ∧
  r_Compatible (set_r_Artifact a r) = r_Compatible r ∧ r_Artifact (set_r_Artifact a r) = a ∧
  r_Schema (set_r_Artifact a r) = r_Schema r.
Proof. by destruct r. Qed.

Lemma checkContents_shape r c r' :
  checkContents r c = Ok r' → ∃ a, r' = set_r_Artifact a r.
Proof.
  unfold checkContents. destruct (r_Schema r =? 1).
  { intros Hc. destruct_result Hc. injection Hc as <-. exists (r_Artifact r). by destruct r. }
  intros Hc. destruct_result Hc. destruct (OSTarget r); [injection Hc as <-; eauto|].
  destruct (negb _); [destruct_result Hc|]; injection Hc as <-;
    exists (r_Artifact r); by destruct r.
Qed.

Lemma checkContents_expires r c r' : checkContents r c = Ok r' → r_Expires r' = r_Expires r.
Proof. intros [a ->]%checkContents_shape. by destruct r. Qed.

(** A release that verified once verifies until it expires. *)
Lemma VerifyEnvelope_until env c now now' r :
  VerifyEnvelope env c now = Ok r → now' < r_Expires r → VerifyEnvelope env c now' = Ok r.
Proof.
  unfold VerifyEnvelope. intros Hv Hlt. destruct (c_TrustKeys c !! _); [|done].
  destruct (decodeKey _); [|done]. simpl in *. destruct (reject_if _ _); [|done]. simpl in *.
  destruct (StrictJSON _) as [r0|]; [|done]. unfold checkMetadata in *.
  destruct (reject_if _ "invalid release metadata"); [|done]. simpl in *.
  destruct (reject_if _ "release incompatible with device/backend"); [|done]. simpl in *.
  destruct (reject_if _ "release expired") as [u|] eqn:Ee; [|done]. simpl in *.
  destruct (_ ← reject_if _ _; checkSBOM r0 _) as [u'|]; [|done]. simpl in *.
  rewrite <- (checkContents_expires _ _ _ Hv) in *. unfold After. by rewrite (proj2 (Z.ltb_lt _ _) Hlt).
Qed.

Lemma first_os_elem ts t : first_os ts = Some t → t ∈ ts ∧ t_Type t = "os.rauc".
Proof.
  induction ts as [|t' ts IH]; simpl; [done|].
  destruct (eqs (t_Type t') "os.rauc") eqn:E.
  - intros [= <-]. apply eqs_true in E. split; [left|done].
  - intros [? ?]%IH. split; [by right|done].
Qed.

Lemma checkMetadata_iff r c now :
  checkMetadata r c now = Ok tt ↔
  (r_Schema r = 1 ∨ r_Schema r = 2) ∧ identifier (r_ID r) = true ∧ identifier (r_Version r) = true ∧
  r_Sequence r ≠ 0 ∧ r_Compatible r = c_Compatible c ∧ r_Backend r = c_Backend c ∧
  now < r_Expires r ∧ (r_Adaptive r = true → c_AllowAdaptive c = true) ∧
  sbom_fit (c_MaxArtifactBytes c) r.
Proof.
  unfold checkMetadata, After. rewrite !bind_ok_iff, !reject_if_iff, checkSBOM_iff.
  rewrite !orb_false_iff, !andb_false_iff, !eqs_negb, !negb_false_iff, !Z.eqb_eq, Z.eqb_neq, Z.ltb_lt.
  destruct (r_Adaptive r); naive_solver.
Qed.

Lemma targets_nil (ts : list Target) : (length ts =? 0)%nat = true ↔ ts = [].
Proof. by destruct ts. Qed.

Lemma orderable_nil : orderable [].
Proof. exists []. split; [done|]. by intros [] ? ?. Qed.

Lemma checkContents_iff r c r' :
  r_Schema r = 1 ∨ r_Schema r = 2 →
  checkContents r c = Ok r' ↔
  (r_Schema r = 1 → r_Targets r = [] ∧ artifact_fit (c_MaxArtifactBytes c) (r_Artifact r)) ∧
  (r_Schema r = 2 → r_Targets r ≠ []) ∧
  NoDup (ids (r_Targets r)) ∧ (∀ t, t ∈ r_Targets r → target_fit c t) ∧ orderable (r_Targets r) ∧
  (OSTarget r = None → a_URL (r_Artifact r) = "" ∨ artifact_fit (c_MaxArtifactBytes c) (r_Artifact r)) ∧
  r' = with_os r.
Proof.
  intros Hs. unfold checkContents, with_os. destruct (Z.eqb_spec (r_Schema r) 1) as [E1|E1].
  - rewrite !bind_ok_iff, reject_if_iff, negb_false_iff, targets_nil, checkArtifact_iff. split.
    + intros (Ht & Ha & [= <-]). unfold OSTarget. rewrite Ht. simpl.
      split; [done|]. split; [lia|]. split; [constructor|]. split; [set_solver|].
      split; [apply orderable_nil|]. split; [by right|done].
    + intros (Hs1 & _ & _ & _ & _ & _ & ->). destruct (Hs1 E1) as [Ht Ha]. unfold OSTarget. by rewrite Ht.
  - assert (E2 : r_Schema r = 2) by lia.
    rewrite !bind_ok_iff, reject_if_iff, checkTargets_iff.
    assert (Hne : (length (r_Targets r) =? 0)%nat = false ↔ r_Targets r ≠ []) by (by destruct (r_Targets r)).
    rewrite Hne. split.
    + intros (Hn & (Hnd & _ & Hf) & Ht & Ho).
      apply topoTargets_iff in Ht; [|done]. split; [lia|]. split; [done|]. repeat (split; [done|]).
      destruct (OSTarget r) as [t|]; [by injection Ho as <-|].
      destruct (eqs (a_URL (r_Artifact r)) "") eqn:Eu; simpl in Ho.
      * injection Ho as <-. split; [|done]. left. by apply eqs_true.
      * apply bind_ok_iff in Ho as [Ho%checkArtifact_iff [= <-]]. split; [by right|done].
    + intros (_ & Hn & Hnd & Hf & Ho & Hside & ->). split; [by apply Hn|]. split; [split; [done|set_solver]|].
      split; [by apply topoTargets_iff|].
      destruct (OSTarget r) as [t|]; [done|]. destruct (eqs (a_URL (r_Artifact r)) "") eqn:Eu; [done|].
      simpl. apply bind_ok_iff. split; [|done]. apply checkArtifact_iff.
      apply eqs_false in Eu. by destruct (Hside eq_refl).
Qed.

Lemma checks_iff r c now r' :
  (_ ← checkMetadata r c now; checkContents r c) = Ok r' ↔ release_fit c now r ∧ r' = with_os r.
Proof.
  rewrite bind_ok_iff, checkMetadata_iff. split.
  - intros ((Hs & ? & ? & ? & ? & ? & ? & ? & ?) & Hc).
    apply checkContents_iff in Hc as (? & ? & ? & ? & ? & ? & ?); [|done]. split; [|done]. by constructor.
  - intros [[] ->]. split; [repeat (split; [done|]); done|]. apply checkContents_iff; [done|].
    repeat (split; [done|]). done.
Qed.

Lemma VerifyEnvelope_iff env c now r :
  VerifyEnvelope env c now = Ok r ↔
  ∃ encoded pub r0, c_TrustKeys c !! env_KeyID env = Some encoded ∧
    decodeKey encoded = Ok pub ∧
    ed25519_Verify pub (env_Payload env) (env_Signature env) = true ∧
    blen (env_Payload env) ≤ 65536 ∧
    StrictJSON (env_Payload env) = Ok r0 ∧ release_fit c now r0 ∧ r = with_os r0.
Proof.
  unfold VerifyEnvelope. destruct (c_TrustKeys c !! env_KeyID env) as [encoded|]; [|naive_solver].
  split.
  - intros Hv. apply result_bind_ok in Hv as (pub & Hk & Hv). apply bind_ok_iff in Hv as [Hs Hv].
    apply reject_if_iff, orb_false_iff in Hs as [Hl Hs%negb_false_iff].
    destruct (StrictJSON _) as [r0|] eqn:Ej; [|done]. apply checks_iff in Hv as [Hf ->].
    exists encoded, pub, r0. repeat (split; [done|]). split; [lia|done].
  - intros (e & pub & r0 & [= <-] & -> & Hs & Hl & -> & Hf). simpl. apply bind_ok_iff.
    split; [apply reject_if_iff; rewrite Hs; apply orb_false_iff; split; [lia|done]|]. by apply checks_iff.
Qed.

(** The release returned keeps the decoded metadata, and the artifact of an
    OS update is one the device can take. *)
Lemma VerifyEnvelope_ok env c now r :
  VerifyEnvelope env c now = Ok r →
  (r_Schema r = 1 ∨ r_Schema r = 2) ∧
  (HasOS r = true → artifact_fit (c_MaxArtifactBytes c) (r_Artifact r)) ∧
  ∃ r0 a, StrictJSON (env_Payload env) = Ok r0 ∧ r = set_r_Artifact a r0.
Proof.
  intros (_ & _ & r0 & _ & _ & _ & _ & Hj & Hf & ->)%VerifyEnvelope_iff. unfold with_os.
  destruct (OSTarget r0) as [t|] eqn:Eo.
  - destruct (set_r_Artifact_same (t_Artifact t) r0) as (_&_&_&_&_&E6&E7). rewrite E6, E7.
    split; [apply Hf|]. split; [|eauto]. intros _. apply first_os_elem in Eo as [Hin _].
    by apply (rf_targets _ _ _ Hf).
  - split; [apply Hf|]. split; [|exists r0, (r_Artifact r0); by destruct r0].
    unfold HasOS. rewrite Eo. intros E. apply (rf_schema1 _ _ _ Hf). lia.
Qed.

(** C26: an envelope is accepted exactly when a pinned key signed exactly
    these bytes, they are at most 64 KiB and decode strictly, and the release
    fits this device: its schema, names and sequence are proper, it is for
    this device type and backend, unexpired, adaptive only where that is
    allowed, its SBOM pinned by digest or absent, its artifacts have digests,
    locations and sizes within the limit, and its targets (none in schema 1,
    some in schema 2) are uniquely named, of a supported type, with the
    reboot and rollback their type allows and a capability the device has,
    and can be put in dependency order.  What is returned is that release
    with the artifact of its OS target filled in. *)
Theorem VerifyEnvelope_exact env c now r :
  VerifyEnvelope env c now = Ok r ↔
  ∃ encoded pub r0, c_TrustKeys c !! env_KeyID env = Some encoded ∧
    decodeKey encoded = Ok pub ∧
    ed25519_Verify pub (env_Payload env) (env_Signature env) = true ∧
    blen (env_Payload env) ≤ 65536 ∧
    StrictJSON (env_Payload env) = Ok r0 ∧ release_fit c now r0 ∧ r = with_os r0.
Proof. apply VerifyEnvelope_iff. Qed.

(** What [SignRelease] signs, [VerifyEnvelope] accepts and returns with the
    OS artifact filled in, when the release is valid for the device, the
    encoder's output decodes to the same release and the signature scheme
    verifies its own signatures. *)
Theorem sign_then_verify sign key pub encoded r r' id c now env :
  (∀ b, ed25519_Verify pub b (sign key b) = true) →
  json_Decode (json_Marshal r) = Ok (r, []) → blen (json_Marshal r) ≤ 65536 →
  c_TrustKeys c !! id = Some encoded → decodeKey encoded = Ok pub →
  checkMetadata r c now = Ok tt → checkContents r c = Ok r' →
  SignRelease sign r id key = Ok env → VerifyEnvelope env c now = Ok r'.
Proof.
  intros Hsig Hjson Hlen Hkey Hdec Hm Hc Hs. unfold SignRelease in Hs. destruct_result Hs.
  injection Hs as <-. unfold VerifyEnvelope. simpl. rewrite Hkey, Hdec. simpl. rewrite Hsig.
  assert (Hl : (blen (json_Marshal r) >? 65536) = false) by lia. rewrite Hl. simpl.
  unfold StrictJSON. rewrite Hjson. simpl. rewrite Hm. simpl. done.
Qed.

End envelope_facts.
