(* ===== verification/Files.v ===== *)
(** * Files

    The part of the file system the agent works on: the artifact cache, the
    payload directories, the local media directory and the transparency log
    under the state directory.  A clean absolute path is the list of its
    components, so [filepath.Join] of clean components is list append. *)
From stdpp Require Import base tactics gmap strings list.
From Stdlib Require Import ZArith Lia.
From S2P Require Import Prelude Model Crypto.

Abbreviation path := (list string).

Inductive node :=
  | File (content : bytes)
  | Symlink
  | Directory
  | Special.   (* socket, device, pipe *)

Global Instance node_eq_dec : EqDecision node.
Proof. solve_decision. Defined.

Abbreviation FS := (gmap path node).

Definition ErrNotExist (p : path) : error :=
  mkError "no such file or directory" (Some SentNotExist).

(** [CheckArtifact] (download.go) on a file system in which no call fails:
    open without following a symbolic link, regular file, size, digest. *)
Definition checkFile (fs : FS) (p : path) (a : Artifact) : result unit :=
  match fs !! p with
  | None => Err (ErrNotExist p)
  | Some Symlink => errorf "too many levels of symbolic links"
  | Some (Directory | Special) => errorf "artifact size mismatch"
  | Some (File b) =>
      if negb (blen b =? a_Size a)%Z then errorf "artifact size mismatch"
      else if negb (eqs (digest b) (a_SHA256 a)) then errorf "artifact digest mismatch"
      else Ok tt
  end.

(** The bytes at [p] are the ones the signed artifact pins. *)
Definition holds_artifact (fs : FS) (p : path) (a : Artifact) : Prop :=
  ∃ b, fs !! p = Some (File b) ∧ blen b = a_Size a ∧ digest b = a_SHA256 a.

Lemma checkFile_iff fs p a : checkFile fs p a = Ok tt ↔ holds_artifact fs p a.
Proof.
  unfold checkFile, holds_artifact. split.
  - destruct (fs !! p) as [[b| | |]|]; try discriminate.
    destruct (negb (blen b =? a_Size a)%Z) eqn:E1; [discriminate|].
    destruct (negb (eqs (digest b) (a_SHA256 a))) eqn:E2; [discriminate|]. intros _.
    apply negb_false_iff in E1, E2. apply eqs_true in E2. exists b.
    split; [done|]. split; [lia|done].
  - intros (b & -> & Hs & <-). rewrite eqs_refl. rewrite Hs, Z.eqb_refl. done.
Qed.

(** Every digest the code computes has the form it accepts. *)
Lemma hex_lower b : forallb is_lower_hex (String.list_ascii_of_string (hex b)) = true.
Proof. induction b as [|x b IH]; [done|]. cbn [hex String.list_ascii_of_string forallb]. rewrite IH. by destruct x. Qed.

Lemma digest_matches b : digestPattern (digest b) = true.
Proof. unfold digestPattern, digest. by rewrite hex_length, sha256_length, hex_lower. Qed.
