(* ===== verification/Backend.v ===== *)
(** * Update backends (internal/ota/backend.go)

    The status a backend reports about the two rootfs slots, the interface
    the engine drives, and the file-backed simulator. *)
From stdpp Require Import base tactics gmap strings list.
From Stdlib Require Import ZArith Lia.
From S2P Require Import Prelude Model Crypto Files.

Record Slot := mkSlot { s_Name : string; s_Version : string; s_Good : bool }.

Record DeviceStatus := mkStatus {
  ds_BootID : string;
  ds_Booted : string;
  ds_Primary : string;
  ds_Operation : string;
  ds_Compatible : string;
  ds_Slots : list Slot;
}.

(** The loop of [Other]: [found] and the last name differing from [booted]. *)
Fixpoint other_scan (booted : string) (slots : list Slot) (found : bool) (other : string)
    : bool * string :=
  match slots with
  | [] => (found, other)
  | slot :: slots =>
      if eqs (s_Name slot) booted then other_scan booted slots true other
      else other_scan booted slots found (s_Name slot)
  end.

Definition Other (s : DeviceStatus) : result string :=
  if negb (length (ds_Slots s) =? 2)%nat
  then errorf "exactly two bootable rootfs slots required"
  else
    let '(found, other) := other_scan (ds_Booted s) (ds_Slots s) false "" in
    if negb found || eqs other "" then errorf "cannot determine A/B slots" else Ok other.

Fixpoint find_slot (slots : list Slot) (name : string) : option Slot :=
  match slots with
  | [] => None
  | slot :: slots => if eqs (s_Name slot) name then Some slot else find_slot slots name
  end.

Definition VersionOf (s : DeviceStatus) (name : string) : string :=
  match find_slot (ds_Slots s) name with Some slot => s_Version slot | None => "" end.

Definition GoodOf (s : DeviceStatus) (name : string) : bool :=
  match find_slot (ds_Slots s) name with Some slot => s_Good slot | None => false end.

(** The [Backend] interface: each method returns a Go error or nothing and
    may change the device state [D].  [Install] reads the bundle from the
    file system and is handed the state of its context. *)
Class Backend (D : Type) := {
  bk_Status : D → result DeviceStatus * D;
  bk_Install : FS → option error → path → Release → D → result unit * D;
  bk_Mark : string → string → D → result unit * D;
  bk_Reboot : D → result unit * D;
}.

(** ** Simulator *)
Record Simulator := mkSim {
  sim_file : result DeviceStatus;   (* simulator.json, as [read] decodes it *)
  sim_writeErr : option error;      (* the next [AtomicWrite] fails *)
  FailInstall : bool;
  FailBoot : bool;
}.

Definition sim_write (v : DeviceStatus) (s : Simulator) : result unit * Simulator :=
  match sim_writeErr s with
  | Some e => (Err e, s)
  | None => (Ok tt, mkSim (Ok v) None (FailInstall s) (FailBoot s))
  end.

(** The status [NewSimulator] writes when no file exists. *)
Definition factoryStatus (compatible : string) : DeviceStatus :=
  mkStatus "boot-0" "rootfs.0" "rootfs.0" "idle" compatible
    [mkSlot "rootfs.0" "factory" true; mkSlot "rootfs.1" "factory" true].

Definition sim_Status (s : Simulator) : result DeviceStatus * Simulator := (sim_file s, s).

Definition set_slots (slots : list Slot) (v : DeviceStatus) : DeviceStatus :=
  mkStatus (ds_BootID v) (ds_Booted v) (ds_Primary v) (ds_Operation v) (ds_Compatible v) slots.
Definition set_primary (p : string) (v : DeviceStatus) : DeviceStatus :=
  mkStatus (ds_BootID v) (ds_Booted v) p (ds_Operation v) (ds_Compatible v) (ds_Slots v).

Definition sim_Install (fs : FS) (ctx : option error) (p : path) (r : Release) (s : Simulator)
    : result unit * Simulator :=
  match ctx with
  | Some e => (Err e, s)
  | None =>
      if FailInstall s then (errorf "simulated install failure", s)
      else match checkFile fs p (r_Artifact r) with
      | Err e => (Err e, s)
      | Ok _ =>
          match sim_file s with
          | Err e => (Err e, s)
          | Ok v =>
              match Other v with
              | Err e => (Err e, s)
              | Ok target =>
                  let slots := map (fun slot =>
                    if eqs (s_Name slot) target then mkSlot (s_Name slot) (r_Version r) false
                    else slot) (ds_Slots v) in
                  sim_write (set_primary target (set_slots slots v)) s
              end
          end
      end
  end.

Inductive mark := MarkGood | MarkBad | MarkActive.

Definition parse_mark (state : string) : option mark :=
  if eqs state "good" then Some MarkGood
  else if eqs state "bad" then Some MarkBad
  else if eqs state "active" then Some MarkActive else None.

(** The loop of [Mark]: the slots left to visit, [found], and the status. *)
Fixpoint mark_loop (state : string) (name : string) (before after : list Slot) (found : bool)
    (v : DeviceStatus) : result (bool * DeviceStatus) :=
  match after with
  | [] => Ok (found, v)
  | slot :: after =>
      if eqs (s_Name slot) name then
        match parse_mark state with
        | Some MarkGood =>
            let slot := mkSlot (s_Name slot) (s_Version slot) true in
            mark_loop state name (before ++ [slot]) after true
              (set_slots (before ++ slot :: after) v)
        | Some MarkBad =>
            let slot := mkSlot (s_Name slot) (s_Version slot) false in
            mark_loop state name (before ++ [slot]) after true
              (set_slots (before ++ slot :: after) v)
        | Some MarkActive =>
            mark_loop state name (before ++ [slot]) after true (set_primary name v)
        | None => errorf "invalid mark state"
        end
      else mark_loop state name (before ++ [slot]) after found v
  end.

Definition sim_Mark (state slot : string) (s : Simulator) : result unit * Simulator :=
  match sim_file s with
  | Err e => (Err e, s)
  | Ok v =>
      match mark_loop state slot [] (ds_Slots v) false v with
      | Err e => (Err e, s)
      | Ok (found, v) => if negb found then (errorf "unknown slot", s) else sim_write v s
      end
  end.

Definition sim_Reboot (s : Simulator) : result unit * Simulator :=
  match sim_file s with
  | Err e => (Err e, s)
  | Ok v =>
      let bootID := ds_BootID v +:+ "x" in
      let v := if FailBoot s
        then mkStatus bootID (ds_Booted v) (ds_Booted v) (ds_Operation v) (ds_Compatible v) (ds_Slots v)
        else mkStatus bootID (ds_Primary v) (ds_Primary v) (ds_Operation v) (ds_Compatible v) (ds_Slots v)
      in sim_write v s
  end.

Global Instance SimulatorBackend : Backend Simulator := {
  bk_Status := sim_Status;
  bk_Install := sim_Install;
  bk_Mark := sim_Mark;
  bk_Reboot := sim_Reboot;
}.

(** [NewSimulator]: keep an existing file, otherwise write the factory one. *)
Definition NewSimulator (existing : option (result DeviceStatus)) (writeErr : option error)
    (compatible : string) : result Simulator :=
  match existing with
  | Some f => match f with Ok _ => Ok (mkSim f writeErr false false) | Err e => Err e end
  | None => match writeErr with
            | Some e => Err e
            | None => Ok (mkSim (Ok (factoryStatus compatible)) None false false)
            end
  end.

(** ** Slots of an A/B device *)

Lemma Other_distinct s other :
  Other s = Ok other → other ≠ ds_Booted s ∧ other ≠ "" ∧
  ∃ b o, (ds_Slots s = [b; o] ∨ ds_Slots s = [o; b]) ∧
    s_Name b = ds_Booted s ∧ s_Name o = other.
Proof.
  unfold Other. destruct (negb _) eqn:El; [discriminate|].
  apply negb_false_iff, Nat.eqb_eq in El.
  destruct (ds_Slots s) as [|x [|y [|? ?]]] eqn:Es; try discriminate. simpl.
  destruct (eqs (s_Name x) (ds_Booted s)) eqn:Ex, (eqs (s_Name y) (ds_Booted s)) eqn:Ey; simpl;
    try discriminate;
    (destruct (eqs _ "") eqn:Ee; [discriminate|]); intros [= <-];
    reflect_bools; try done.
  - split; [done|]. split; [done|]. exists x, y. auto.
  - split; [done|]. split; [done|]. exists y, x. auto.
Qed.

(** An installation the simulator reports as successful wrote exactly the
    other slot: it is now primary and carries the release's version marked
    not good, while the booted slot, its version, the boot id and the idle
    operation are untouched.  This is the evidence the engine asks for. *)
Theorem sim_install_evidence fs ctx p r s s' :
  sim_Install fs ctx p r s = (Ok tt, s') →
  ∃ v v' target, sim_file s = Ok v ∧ sim_file s' = Ok v' ∧ Other v = Ok target ∧
    holds_artifact fs p (r_Artifact r) ∧
    ds_Booted v' = ds_Booted v ∧ ds_BootID v' = ds_BootID v ∧ ds_Operation v' = ds_Operation v ∧
    VersionOf v' (ds_Booted v) = VersionOf v (ds_Booted v) ∧
    GoodOf v' (ds_Booted v) = GoodOf v (ds_Booted v) ∧
    ds_Primary v' = target ∧ VersionOf v' target = r_Version r ∧ GoodOf v' target = false.
Proof.
  unfold sim_Install. destruct ctx; [done|]. destruct (FailInstall s); [done|].
  destruct (checkFile fs p (r_Artifact r)) as [[]|] eqn:Ef; [|done]. apply checkFile_iff in Ef.
  destruct (sim_file s) as [v|] eqn:Ev; [|done]. destruct (Other v) as [target|] eqn:Eo; [|done].
  unfold sim_write. destruct (sim_writeErr s); [done|]. intros [= <-]. simpl.
  destruct (Other_distinct _ _ Eo) as (Hne & _ & b & o & Hs & Hb & Ho).
  exists v. eexists. exists target. split; [done|]. split; [done|]. split; [done|]. split; [done|].
  unfold VersionOf, GoodOf. simpl.
  assert (Etb : eqs target (ds_Booted v) = false) by (by apply eqs_false).
  assert (Ebt : eqs (ds_Booted v) target = false) by (by apply eqs_false).
  destruct Hs as [-> | ->]; simpl; rewrite ?Hb, ?Ho, ?eqs_refl, ?Etb, ?Ebt; simpl;
    rewrite ?Hb, ?Ho, ?eqs_refl, ?Etb, ?Ebt; simpl; rewrite ?Hb, ?Ho, ?eqs_refl, ?Etb, ?Ebt; done.
Qed.
