(* ===== verification/Dependable.v ===== *)
(** * What a backend promises to the engine

    A device in working order, as an interface: the status it shows, and what
    an installation, a reboot and a mark do to it.  The engine's liveness is
    proved against [Dependable]; the simulator of internal/ota/backend.go
    keeps these promises. *)
From stdpp Require Import base tactics gmap strings list.
From Stdlib Require Import ZArith Lia.
From S2P Require Import Prelude Model Crypto Files Backend.

(** The status after an installation, a reboot and a mark. *)
Definition installed (target version : string) (v : DeviceStatus) : DeviceStatus :=
  set_primary target (set_slots (map (fun s =>
    if eqs (s_Name s) target then mkSlot (s_Name s) version false else s) (ds_Slots v)) v).
Definition rebooted (bootID : string) (v : DeviceStatus) : DeviceStatus :=
  mkStatus bootID (ds_Primary v) (ds_Primary v) (ds_Operation v) (ds_Compatible v) (ds_Slots v).
Definition markSlot (m : mark) (s : Slot) : Slot :=
  match m with
  | MarkGood => mkSlot (s_Name s) (s_Version s) true
  | MarkBad => mkSlot (s_Name s) (s_Version s) false
  | MarkActive => s
  end.
Definition markSlots (m : mark) (slot : string) (l : list Slot) : list Slot :=
  map (fun s => if eqs (s_Name s) slot then markSlot m s else s) l.
Definition marked (m : mark) (slot : string) (v : DeviceStatus) : DeviceStatus :=
  let v := set_slots (markSlots m slot (ds_Slots v)) v in
  match m with MarkActive => set_primary slot v | _ => v end.
Definition has_slot (slot : string) (v : DeviceStatus) : Prop := ∃ s, s ∈ ds_Slots v ∧ s_Name s = slot.

Class Dependable (D : Type) `{Backend D} := {
  dp_shows : D → DeviceStatus → Prop;
  dp_Status d v : dp_shows d v → ∃ d', bk_Status d = (Ok v, d') ∧ dp_shows d' v;
  dp_Install fs p r d v target :
    dp_shows d v → Other v = Ok target → holds_artifact fs p (r_Artifact r) →
    ∃ d', bk_Install fs None p r d = (Ok tt, d') ∧ dp_shows d' (installed target (r_Version r) v);
  dp_Reboot d v : dp_shows d v →
    ∃ d' bootID, bk_Reboot d = (Ok tt, d') ∧ bootID ≠ ds_BootID v ∧ dp_shows d' (rebooted bootID v);
  dp_Mark d v state m slot : dp_shows d v → parse_mark state = Some m → has_slot slot v →
    ∃ d', bk_Mark state slot d = (Ok tt, d') ∧ dp_shows d' (marked m slot v);
}.

Lemma VersionOf_installed target version v :
  Other v = Ok target → VersionOf (installed target version v) target = version.
Proof.
  intros (Hne & _ & b & o & Hs & Hb & Ho)%Other_distinct. unfold VersionOf. simpl.
  assert (Ebt : eqs (s_Name b) target = false) by (apply eqs_false; congruence).
  assert (Eot : eqs (s_Name o) target = true) by (by apply eqs_true).
  destruct Hs as [-> | ->]; simpl; rewrite ?Ebt, ?Eot; simpl; rewrite ?Ebt, ?Eot; done.
Qed.

Lemma installed_slot target version v :
  Other v = Ok target → has_slot target (installed target version v).
Proof.
  intros (_ & _ & b & o & Hs & _ & Ho)%Other_distinct. exists (mkSlot (s_Name o) version false).
  assert (Eot : eqs (s_Name o) target = true) by (by apply eqs_true). split; [|done]. simpl.
  destruct Hs as [-> | ->]; simpl; rewrite Eot; [right; left|left].
Qed.

Lemma marked_name m s : s_Name (markSlot m s) = s_Name s.
Proof. by destruct m. Qed.
Lemma marked_version m s : s_Version (markSlot m s) = s_Version s.
Proof. by destruct m. Qed.
Lemma marked_slots m slot v : ds_Slots (marked m slot v) = markSlots m slot (ds_Slots v).
Proof. by destruct m. Qed.

Lemma find_marked m slot l name :
  find_slot (markSlots m slot l) name =
    (fun s => if eqs (s_Name s) slot then markSlot m s else s) <$> find_slot l name.
Proof.
  induction l as [|s l IH]; [done|]. simpl. destruct (eqs (s_Name s) slot) eqn:E; rewrite ?marked_name;
    destruct (eqs (s_Name s) name); simpl; rewrite ?E; done.
Qed.

Lemma find_has slot l : (∃ s, s ∈ l ∧ s_Name s = slot) → ∃ s, find_slot l slot = Some s ∧ s_Name s = slot.
Proof.
  intros (s & Hs & Hn). induction l as [|x l IH]; [inversion Hs|]. simpl.
  destruct (eqs (s_Name x) slot) eqn:E; [apply eqs_true in E; eauto|]. apply IH.
  apply elem_of_cons in Hs as [->|Hs]; [|done]. by apply eqs_false in E.
Qed.

Lemma VersionOf_marked m slot v name : VersionOf (marked m slot v) name = VersionOf v name.
Proof.
  unfold VersionOf. rewrite marked_slots, find_marked. destruct (find_slot _ name) as [s|]; [|done]. simpl.
  destruct (eqs _ _); [apply marked_version|done].
Qed.

Lemma GoodOf_marked m slot v :
  has_slot slot v → m ≠ MarkActive → GoodOf (marked m slot v) slot = match m with MarkGood => true | _ => false end.
Proof.
  intros (s & Hs & Hn)%find_has Hm. unfold GoodOf. rewrite marked_slots, find_marked, Hs. simpl.
  rewrite Hn, eqs_refl. by destruct m.
Qed.

Lemma has_marked m slot v name : has_slot name v → has_slot name (marked m slot v).
Proof.
  intros (s & Hs & Hn). unfold has_slot. rewrite marked_slots. unfold markSlots.
  exists (if eqs (s_Name s) slot then markSlot m s else s). split; [|destruct (eqs _ _); rewrite ?marked_name; done].
  apply list_elem_of_fmap. by exists s.
Qed.

(** The simulator, when none of its failures is switched on. *)
Definition sim_shows (s : Simulator) (v : DeviceStatus) : Prop :=
  sim_file s = Ok v ∧ sim_writeErr s = None ∧ FailInstall s = false ∧ FailBoot s = false.

Lemma append_x_ne s : s +:+ "x" ≠ s.
Proof.
  intros E. apply (f_equal String.list_ascii_of_string) in E. rewrite ascii_app in E.
  apply (f_equal length) in E. rewrite length_app in E. simpl in E. lia.
Qed.

Lemma mark_loop_works state m name before after found v :
  parse_mark state = Some m → ds_Slots v = before ++ after →
  mark_loop state name before after found v =
    let here := existsb (fun s => eqs (s_Name s) name) after in
    let v' := set_slots (before ++ markSlots m name after) v in
    Ok (found || here, match m with MarkActive => if here then set_primary name v' else v' | _ => v' end).
Proof.
  intros Hm. revert before found v. induction after as [|s after IH]; intros before found v Hv; simpl.
  - rewrite orb_false_r, <- Hv. by destruct v, m.
  - destruct (eqs (s_Name s) name) eqn:E; [rewrite Hm; destruct m|]; rewrite IH; simpl; rewrite <- ?app_assoc; try done;
      destruct found; simpl; try done; by destruct (existsb _ after).
Qed.

Global Instance SimulatorDependable : Dependable Simulator.
Proof.
  refine {| dp_shows := sim_shows |}.
  - intros d v Hd. exists d. split; [|done]. destruct Hd as [Hf _]. simpl. unfold sim_Status. by rewrite Hf.
  - intros fs p r d v target (Hf & Hw & Hi & Hb) Ho Ha. eexists. simpl. unfold sim_Install.
    rewrite Hi, (proj2 (checkFile_iff _ _ _) Ha), Hf, Ho. unfold sim_write. rewrite Hw. by split.
  - intros d v (Hf & Hw & Hi & Hb). eexists _, (ds_BootID v +:+ "x"). simpl. unfold sim_Reboot.
    rewrite Hf, Hb. unfold sim_write. rewrite Hw. split; [done|]. split; [apply append_x_ne|by split].
  - intros d v state m slot (Hf & Hw & Hi & Hb) Hm (s & Hs & Hn). eexists. simpl. unfold sim_Mark.
    rewrite Hf, (mark_loop_works state m) by done. simpl.
    rewrite (proj2 (existsb_exists _ _)); [|exists s; split; [by apply list_elem_of_In|by apply eqs_true]]. simpl.
    unfold sim_write. rewrite Hw. split; [done|]. by destruct m.
Defined.

