(* ===== verification/Metrics.v ===== *)
(** * Counters (internal/ota/metrics.go)

    The process-local [Stats]; MetricsText writes them. *)
From stdpp Require Import base tactics gmap strings list.
From Stdlib Require Import ZArith Lia.
From S2P Require Import Prelude Model Crypto Fmt.
Local Open Scope Z_scope.

Record Stats := mkStats {
  st_stateSeconds : gmap string float64;
  st_stateEntered : time;
  st_currentState : option State;
  st_downloadBytes : Z;
  st_downloadNanos : Z;
  st_downloadResumes : Z;
  st_healthFailures : gmap string Z;
  st_commits : Z;
  st_rollbacks : Z;
  st_recoveries : Z;
  st_fleetSyncOK : Z;
  st_fleetSyncFail : Z;
  st_fleetSyncNanos : Z;
  st_lastSuccess : time;
  st_slot : string;
  st_release : string;
}.

Definition zeroStats : Stats := mkStats ∅ 0 None 0 0 0 ∅ 0 0 0 0 0 0 0 "" "".

Definition observeState (now : time) (next : State) (s : Stats) : Stats :=
  let secs :=
    match st_currentState s with
    | Some cur =>
        if negb (IsZero (st_stateEntered s)) then
          <[State_string cur := fadd (default fzero (st_stateSeconds s !! State_string cur))
                                     (Seconds (Sub now (st_stateEntered s)))]> (st_stateSeconds s)
        else st_stateSeconds s
    | None => st_stateSeconds s
    end in
  mkStats secs now (Some next)
    (st_downloadBytes s) (st_downloadNanos s) (st_downloadResumes s) (st_healthFailures s)
    (match next with Committed => s64 (st_commits s + 1) | _ => st_commits s end)
    (match next with RolledBack => s64 (st_rollbacks s + 1) | _ => st_rollbacks s end)
    (match next with NeedsRecovery => s64 (st_recoveries s + 1) | _ => st_recoveries s end)
    (st_fleetSyncOK s) (st_fleetSyncFail s) (st_fleetSyncNanos s)
    (match next with Committed => now | _ => st_lastSuccess s end)
    (st_slot s) (st_release s).

Definition addDownload (n : Z) (resumed : bool) (elapsed : duration) (s : Stats) : Stats :=
  mkStats (st_stateSeconds s) (st_stateEntered s) (st_currentState s)
    (s64 (st_downloadBytes s + n)) (s64 (st_downloadNanos s + elapsed))
    (if resumed then s64 (st_downloadResumes s + 1) else st_downloadResumes s)
    (st_healthFailures s) (st_commits s) (st_rollbacks s) (st_recoveries s)
    (st_fleetSyncOK s) (st_fleetSyncFail s) (st_fleetSyncNanos s) (st_lastSuccess s)
    (st_slot s) (st_release s).

Definition healthFailure (name : string) (s : Stats) : Stats :=
  mkStats (st_stateSeconds s) (st_stateEntered s) (st_currentState s)
    (st_downloadBytes s) (st_downloadNanos s) (st_downloadResumes s)
    (<[name := s64 (default 0 (st_healthFailures s !! name) + 1)]> (st_healthFailures s))
    (st_commits s) (st_rollbacks s) (st_recoveries s)
    (st_fleetSyncOK s) (st_fleetSyncFail s) (st_fleetSyncNanos s) (st_lastSuccess s)
    (st_slot s) (st_release s).

Definition fleetSync (ok : bool) (elapsed : duration) (s : Stats) : Stats :=
  mkStats (st_stateSeconds s) (st_stateEntered s) (st_currentState s)
    (st_downloadBytes s) (st_downloadNanos s) (st_downloadResumes s) (st_healthFailures s)
    (st_commits s) (st_rollbacks s) (st_recoveries s)
    (if ok then s64 (st_fleetSyncOK s + 1) else st_fleetSyncOK s)
    (if ok then st_fleetSyncFail s else s64 (st_fleetSyncFail s + 1))
    (s64 (st_fleetSyncNanos s + elapsed)) (st_lastSuccess s) (st_slot s) (st_release s).

Definition setSlot (slot release : string) (s : Stats) : Stats :=
  mkStats (st_stateSeconds s) (st_stateEntered s) (st_currentState s)
    (st_downloadBytes s) (st_downloadNanos s) (st_downloadResumes s) (st_healthFailures s)
    (st_commits s) (st_rollbacks s) (st_recoveries s)
    (st_fleetSyncOK s) (st_fleetSyncFail s) (st_fleetSyncNanos s) (st_lastSuccess s)
    slot release.
