(* ===== verification/Trace.v ===== *)
(** * Spans (internal/ota/trace.go)

    One OpenTelemetry span per job transition and per Fleet sync, the
    bounded queue of the exporter, and the collector URL. *)
From stdpp Require Import base tactics gmap strings list.
From Stdlib Require Import ZArith Lia Ascii.
From S2P Require Import Prelude Model Config.
Local Open Scope Z_scope.

Record Span := mkSpan {
  sp_TraceID : string;
  sp_SpanID : string;
  sp_ParentID : string;
  sp_Name : string;
  sp_Start : time;
  sp_End : time;
  sp_Attrs : gmap string string;
  sp_Error : bool;
}.

(** [nextSpan] once the random ids are drawn: [j] carries its trace id and
    still the span id of the previous transition. *)
Definition jobSpan (deviceID : string) (j : Job) (id : string) (prev : time) (message : string) : Span :=
  let start := if IsZero prev || After prev (j_Updated j) then j_Updated j else prev in
  let attrs : gmap string string :=
    <["job_id" := j_JobID j]> (<["release_id" := r_ID (j_Release j)]>
    (<["device_id" := deviceID]> (<["campaign_id" := asg_CampaignID (j_Assignment j)]>
    (<["state" := State_string (j_State j)]> ∅)))) in
  mkSpan (j_TraceID j) id (j_SpanID j) ("ota." +:+ State_string (j_State j)) start (j_Updated j)
    (if negb (eqs message "") then <["error" := message]> attrs else attrs)
    (bool_decide (j_State j = Failed) || bool_decide (j_State j = NeedsRecovery)).

Definition fleetSpan (trace span deviceID : string) (start stop : time) (err : option error) : Span :=
  let attrs : gmap string string := <["device_id" := deviceID]> (<["result" := "ok"]> ∅) in
  mkSpan trace span "" "ota.fleet_sync" start stop
    (match err with
     | Some e => <["error" := err_msg e]> (<["result" := "error"]> attrs)
     | None => attrs
     end)
    (match err with Some _ => true | None => false end).

(** [OTLPExporter.Export]: the channel holds 32 spans; a full one drops. *)
Definition Export (s : Span) (q : list Span) : list Span :=
  if (length q <? 32)%nat then q ++ [s] else q.

Fixpoint trim_slashes (l : list ascii) : list ascii :=
  match l with
  | c :: l' => if Ascii.eqb c "/" then trim_slashes l' else l
  | [] => []
  end.

(** [strings.TrimRight(s, "/")] *)
Definition TrimRightSlash (s : string) : string :=
  String.string_of_list_ascii (rev (trim_slashes (rev (String.list_ascii_of_string s)))).

Definition has_suffix (s suffix : string) : bool :=
  let l := String.list_ascii_of_string s in
  let k := String.list_ascii_of_string suffix in
  (length k <=? length l)%nat && bool_decide (drop (length l - length k) l = k).

Definition tracesURL (endpoint : string) : string :=
  let base := TrimRightSlash endpoint in
  if has_suffix base "/v1/traces" then base else base +:+ "/v1/traces".
