(* ===== verification/World.v ===== *)
(** * The world the agent runs in

    One state holds the process memory ([Engine] and [Store] fields) and
    what survives the process: the SQLite journal, the device behind the
    [Backend], the files.  Everything the process cannot decide (the clock,
    failing system calls, health probes, random bytes, the moment of a power
    loss) is read from an oracle [Env] at a position that advances with every
    consultation; theorems quantify over all oracles. *)
From stdpp Require Import base tactics gmap strings list.
From Stdlib Require Import ZArith Lia.
From S2P Require Import Prelude Model Config Crypto Files Backend Metrics Trace.

(** JSON snapshots of the journal.  [strict_marshal]: what
    [json.MarshalIndent] writes for a [Database], [StrictJSON] reads back. *)
Class Codec := {
  Blob : Type;
  marshalDB : Database → Blob;
  strictDB : Blob → result Database;
  marshalJob : Job → Blob;
  strict_marshal : ∀ d, strictDB (marshalDB d) = Ok d;
}.

(** The two tables of ota.db. *)
Record Disk `{Codec} := mkDisk {
  dk_snapshot : option Blob;
  dk_archive : gmap string Blob;
}.

(** How one SQLite transaction ends: committed; rolled back with an error;
    or an error from [Commit] although the transaction reached the disk. *)
Inductive tx_result := TxOk | TxFail (e : error) | TxLost (e : error).

Class Env := {
  env_now : nat → time;                   (* e.Now() *)
  env_elapsed : nat → duration;           (* time.Since *)
  env_crash : nat → bool;                 (* the process dies here *)
  env_io : nat → option error;            (* a system call fails *)
  env_short : nat → nat;                  (* bytes moved before a copy fails *)
  env_free : nat → Z;                     (* Bavail * Bsize of statfs *)
  env_tx : nat → tx_result;               (* a journal transaction *)
  env_ctx : nat → option error;           (* ctx.Err() *)
  env_probe : nat → Check → result Z;     (* stat, systemctl; HTTP status of a GET *)
  env_rand : nat → result string;         (* rand.Read, hex encoded *)
  env_spans : bool;                       (* Engine.Spans is set *)
  env_measured : option (nat → option error); (* Engine.MeasuredBoot *)
  env_health : option (nat → option error);   (* Engine.Health, when it was replaced *)
}.

(** Externally visible effects, in the order performed. *)
Inductive Action :=
  | AJournal (d : Database)            (* a committed snapshot *)
  | AInstall (fs : FS) (p : path) (r : Release)  (* Backend.Install called, with these files *)
  | AMark (state slot : string)        (* Backend.Mark called *)
  | AReboot.                           (* Backend.Reboot called *)

Record World `{Codec} (D : Type) := mkWorld {
  w_tick : nat;              (* position in the oracle *)
  w_mu : bool;               (* Engine.mu is held *)
  w_data : Database;         (* Store.data *)
  w_poisoned : bool;         (* Store.poisoned *)
  w_disk : Disk;             (* ota.db *)
  w_dev : D;                 (* the backend's device *)
  w_fs : FS;                 (* files *)
  w_healthySince : time;     (* Engine.healthySince *)
  w_stats : Stats;           (* Engine.Stats *)
  w_spans : list Span;       (* the exporter's queue *)
  w_trace : list Action;     (* effects so far *)
}.
Arguments mkWorld {_ D}.
Arguments w_tick {_ D}.
Arguments w_mu {_ D}.
Arguments w_data {_ D}.
Arguments w_poisoned {_ D}.
Arguments w_disk {_ D}.
Arguments w_dev {_ D}.
Arguments w_fs {_ D}.
Arguments w_healthySince {_ D}.
Arguments w_stats {_ D}.
Arguments w_spans {_ D}.
Arguments w_trace {_ D}.

(** [set_f v w]: the assignment to one field. *)
Section setters.
Context `{Codec} {D : Type}.
Definition set_w_tick (v : nat) (w : World D) : World D :=
  mkWorld v (w_mu w) (w_data w) (w_poisoned w) (w_disk w) (w_dev w) (w_fs w) (w_healthySince w) (w_stats w) (w_spans w) (w_trace w).
Definition set_w_mu (v : bool) (w : World D) : World D :=
  mkWorld (w_tick w) v (w_data w) (w_poisoned w) (w_disk w) (w_dev w) (w_fs w) (w_healthySince w) (w_stats w) (w_spans w) (w_trace w).
Definition set_w_data (v : Database) (w : World D) : World D :=
  mkWorld (w_tick w) (w_mu w) v (w_poisoned w) (w_disk w) (w_dev w) (w_fs w) (w_healthySince w) (w_stats w) (w_spans w) (w_trace w).
Definition set_w_poisoned (v : bool) (w : World D) : World D :=
  mkWorld (w_tick w) (w_mu w) (w_data w) v (w_disk w) (w_dev w) (w_fs w) (w_healthySince w) (w_stats w) (w_spans w) (w_trace w).
Definition set_w_disk (v : Disk) (w : World D) : World D :=
  mkWorld (w_tick w) (w_mu w) (w_data w) (w_poisoned w) v (w_dev w) (w_fs w) (w_healthySince w) (w_stats w) (w_spans w) (w_trace w).
Definition set_w_dev (v : D) (w : World D) : World D :=
  mkWorld (w_tick w) (w_mu w) (w_data w) (w_poisoned w) (w_disk w) v (w_fs w) (w_healthySince w) (w_stats w) (w_spans w) (w_trace w).
Definition set_w_fs (v : FS) (w : World D) : World D :=
  mkWorld (w_tick w) (w_mu w) (w_data w) (w_poisoned w) (w_disk w) (w_dev w) v (w_healthySince w) (w_stats w) (w_spans w) (w_trace w).
Definition set_w_healthySince (v : time) (w : World D) : World D :=
  mkWorld (w_tick w) (w_mu w) (w_data w) (w_poisoned w) (w_disk w) (w_dev w) (w_fs w) v (w_stats w) (w_spans w) (w_trace w).
Definition set_w_stats (v : Stats) (w : World D) : World D :=
  mkWorld (w_tick w) (w_mu w) (w_data w) (w_poisoned w) (w_disk w) (w_dev w) (w_fs w) (w_healthySince w) v (w_spans w) (w_trace w).
Definition set_w_spans (v : list Span) (w : World D) : World D :=
  mkWorld (w_tick w) (w_mu w) (w_data w) (w_poisoned w) (w_disk w) (w_dev w) (w_fs w) (w_healthySince w) (w_stats w) v (w_trace w).
Definition set_w_trace (v : list Action) (w : World D) : World D :=
  mkWorld (w_tick w) (w_mu w) (w_data w) (w_poisoned w) (w_disk w) (w_dev w) (w_fs w) (w_healthySince w) (w_stats w) (w_spans w) v.
End setters.

Section primitives.
Context `{Codec, Env} {D : Type} `{Backend D}.
Abbreviation M := (M (World D)).

(** Advance the oracle; the process may die at this point. *)
Definition tick : M nat := fun w =>
  let n := w_tick w in
  let w := set_w_tick (S n) w in
  if env_crash n then (Died, w) else (Ret n, w).

Definition emit (a : Action) : M unit := modify (fun w => set_w_trace (w_trace w ++ [a]) w).

(** [e.Now()] and [time.Since(started)] *)
Definition Now : M time := n ← tick; mret (env_now n).
Definition Since : M duration := n ← tick; mret (env_elapsed n).

(** A system call that can fail. *)
Definition syscall : M unit :=
  n ← tick; match env_io n with Some e => fail e | None => mret tt end.

Definition of_result {A} (r : result A) : outcome A :=
  match r with Ok a => Ret a | Err e => Fail e end.

(** Methods of the [Backend] interface, recorded when they change the device. *)
Definition device {A} (f : D → result A * D) : M A := fun w =>
  let '(r, d) := f (w_dev w) in (of_result r, set_w_dev d w).

Definition view_fs : M FS := w ← get; mret (w_fs w).
Definition put_fs (fs : FS) : M unit := modify (set_w_fs fs).

Definition Status : M DeviceStatus := _ ← tick; device bk_Status.

Definition Install (p : path) (rel : Release) : M unit :=
  n ← tick; fs ← view_fs; _ ← emit (AInstall fs p rel);
  device (bk_Install fs (env_ctx n) p rel).

Definition Mark (state slot : string) : M unit :=
  _ ← tick; _ ← emit (AMark state slot); device (bk_Mark state slot).

Definition Reboot : M unit := _ ← tick; _ ← emit AReboot; device bk_Reboot.

Definition stats (f : Stats → Stats) : M unit := modify (fun w => set_w_stats (f (w_stats w)) w).

(** Files. *)
Definition CheckArtifact (p : path) (a : Artifact) : M unit :=
  _ ← syscall; fs ← view_fs; lift (checkFile fs p a).

Definition ReadFile (p : path) : M bytes :=
  _ ← syscall; fs ← view_fs;
  match fs !! p with
  | Some (File b) => mret b
  | Some _ => fail (errors_New "is not a regular file")
  | None => fail (ErrNotExist p)
  end.

(** [os.Stat(p)] succeeded. *)
Definition Exists (p : path) : M bool :=
  r ← try syscall; fs ← view_fs;
  match r with Err _ => mret false | Ok _ => mret (bool_decide (is_Some (fs !! p))) end.

Definition Remove (p : path) : M unit :=
  _ ← syscall; fs ← view_fs;
  match fs !! p with
  | Some _ => put_fs (delete p fs)
  | None => fail (ErrNotExist p)
  end.

Definition Rename (p q : path) : M unit :=
  _ ← syscall; fs ← view_fs;
  match fs !! p with
  | Some x => put_fs (<[q := x]> (delete p fs))
  | None => fail (ErrNotExist p)
  end.

(** [io.Copy] into an open file and [Sync]: a copy that fails leaves a prefix
    behind. *)
Definition copyTo (dst : path) (b : bytes) : M unit :=
  n ← tick;
  match env_io n with
  | Some e => fs ← view_fs; _ ← put_fs (<[dst := File (take (env_short n) b)]> fs); fail e
  | None => fs ← view_fs; _ ← put_fs (<[dst := File b]> fs); syscall
  end.

(** [copyFile] (payload.go): create or truncate the destination, copy, sync.
    A source that is its own destination has been truncated before it is
    read.  The directories involved belong to the agent, which creates no
    links in them: what is not a regular file at either end is reported as
    an error. *)
Definition copyFile (src dst : path) : M unit :=
  b ← ReadFile src;
  _ ← syscall;
  fs ← view_fs;
  match fs !! dst with
  | Some (Symlink | Directory | Special) => fail (errors_New "is not a regular file")
  | _ =>
      _ ← put_fs (<[dst := File []]> fs);
      copyTo dst (if bool_decide (src = dst) then [] else b)
  end.

End primitives.

(** ** Facts about the file primitives *)
Section file_facts.
Context `{Codec, Env} {D : Type}.
Implicit Types w : World D.

Lemma syscall_fs w x w' : syscall w = (Ret x, w') → w_fs w' = w_fs w.
Proof.
  unfold syscall, tick, mbind, M_bind. destruct (env_crash _); [done|].
  destruct (env_io _); [done|]. by intros [= <- <-].
Qed.

Lemma CheckArtifact_holds p a w w' :
  CheckArtifact p a w = (Ret tt, w') → holds_artifact (w_fs w') p a.
Proof.
  unfold CheckArtifact, view_fs. intros Hc.
  apply bind_returns in Hc as ([] & w1 & _ & Hc). apply bind_returns in Hc as (fs & w2 & Hg & Hc).
  injection Hg as <- <-. destruct (checkFile _ p a) as [[]|e] eqn:E; [|done]. injection Hc as <-.
  by apply checkFile_iff.
Qed.

Lemma Rename_holds p q a w x w' :
  holds_artifact (w_fs w) p a → Rename p q w = (Ret x, w') → holds_artifact (w_fs w') q a.
Proof.
  intros (b & Hb & Hs & Hd) Hr. unfold Rename, view_fs, put_fs in Hr.
  apply bind_returns in Hr as ([] & w1 & Hsc & Hr). apply syscall_fs in Hsc.
  apply bind_returns in Hr as (fs & w2 & Hg & Hr). injection Hg as <- <-.
  rewrite Hsc, Hb in Hr. injection Hr as _ <-. exists b. simpl. by rewrite lookup_insert_eq.
Qed.

End file_facts.
