(* ===== verification/Store.v ===== *)
(** * The journal (internal/ota/store.go)

    The single-writer SQLite journal: validation of a database, compaction
    of the hot job map into the archive, transactional update, loading at
    start-up, backup. *)
From stdpp Require Import base tactics gmap strings list.
From Stdlib Require Import ZArith Lia.
From S2P Require Import Prelude Model Config Crypto Files Backend Metrics Topo Verify World.
Local Open Scope Z_scope.

(** The package variables [hotJobLimit] and [hotEventLimit]. *)
Class Limits := {
  hotJobLimit : Z;
  hotEventLimit : Z;
  hotJobLimit_nonneg : 0 ≤ hotJobLimit;
}.
Definition productionLimits : Limits :=
  {| hotJobLimit := 10000; hotEventLimit := 9000; hotJobLimit_nonneg := ltac:(lia) |}.

Definition jobs_len (d : Database) : Z := Z.of_nat (size (db_Jobs d)).
Definition events_len (d : Database) : Z := Z.of_nat (length (db_Events d)).

Fixpoint for_each {A} (f : A → result unit) (l : list A) : result unit :=
  match l with
  | [] => Ok tt
  | a :: l => _ ← f a; for_each f l
  end.

Section journal.
Context `{MapRange, Limits, JSONEncode Assignment}.

(** ** validateDatabase *)

(** One iteration of [for id, j := range d.Jobs]. *)
Definition validateJob (d : Database) (p : string * Job) : result unit :=
  let '(id, j) := p in
  _ ← reject_if (negb (eqs id (j_JobID j)) || negb (eqs (j_Fingerprint j) (Fingerprint (j_Assignment j)))
                 || (j_Sequence j >? db_HighSequence d)) "journal job integrity failure";
  _ ← reject_if (negb (knownState (j_State j))) "unknown journal job state";
  reject_if (negb (Terminal (j_State j)) && negb (eqs (db_Active d) id))
    "orphaned active journal job".

Definition validateActive (d : Database) : result unit :=
  if negb (eqs (db_Active d) "") then
    match db_Jobs d !! db_Active d with
    | Some j => reject_if (Terminal (j_State j)) "invalid active job reference"
    | None => errorf "invalid active job reference"
    end
  else Ok tt.

Fixpoint validateEvents (limit previous : Z) (l : list Event) : result unit :=
  match l with
  | [] => Ok tt
  | event :: l =>
      _ ← reject_if ((e_Sequence event <=? previous) || (e_Sequence event >? limit))
            "invalid event ordering";
      validateEvents limit (e_Sequence event) l
  end.

Definition validateDatabase (d : Database) : result unit :=
  _ ← reject_if (negb (db_Schema d =? 1) || db_JobsNil d || (jobs_len d >? hotJobLimit + 1)
                 || (events_len d >? 10000)) "unsupported or corrupt state";
  _ ← for_each (validateJob d) (map_range (db_Jobs d));
  _ ← validateActive d;
  validateEvents (db_EventSequence d) 0 (db_Events d).

(** ** compactHot *)

(** One iteration of the search for the oldest terminal job. *)
Definition pick_oldest (active : string) (acc : string * time) (p : string * Job) : string * time :=
  let '(id, oldest) := acc in
  let '(k, j) := p in
  if eqs k active || negb (Terminal (j_State j)) then acc
  else if eqs id "" || Before (j_Updated j) oldest then (k, j_Updated j) else acc.

(** [for len(d.Jobs) > hotJobLimit]; every iteration deletes a job, so
    [size] iterations are enough ([compact_loop_spec]); [None] is fuel
    running out. *)
Fixpoint compact_loop (fuel : nat) (d : Database) (spilled : list Job)
    : option (result (Database * list Job)) :=
  if jobs_len d >? hotJobLimit then
    match fuel with
    | O => None
    | S fuel =>
        let '(id, _) := fold_left (pick_oldest (db_Active d)) (map_range (db_Jobs d)) ("", 0) in
        if eqs id "" then
          Some (errorf "journal capacity reached; export/ack events or reprovision journal under documented procedure")
        else match db_Jobs d !! id with
        | Some j => compact_loop fuel (set_db_Jobs (delete id (db_Jobs d)) d) (spilled ++ [j])
        | None => None
        end
    end
  else Some (Ok (d, spilled)).

Definition compactHot (d : Database) : result (Database * list Job) :=
  match compact_loop (size (db_Jobs d)) d [] with
  | Some r =>
      '(d, spilled) ← r;
      if events_len d >? 10000 then errorf "event outbox full; update paused"
      else Ok (d, spilled)
  | None => errorf "journal capacity reached; export/ack events or reprovision journal under documented procedure"
  end.

(** ** Transactions *)
Context `{Codec, Env} {D : Type}.
Abbreviation M := (Prelude.M (World D)).

(** A deep copy through JSON; a failed decode would leave the zero value. *)
Definition cloneDB (d : Database) : Database :=
  match strictDB (marshalDB d) with Ok c => c | Err _ => zeroDatabase end.

Definition View : M Database := w ← get; mret (cloneDB (w_data w)).

Definition archive_jobs (spilled : list Job) (archive : gmap string Blob) : gmap string Blob :=
  fold_left (fun m j => <[j_JobID j := marshalJob j]> m) spilled archive.

(** The transaction reaches the disk. *)
Definition commit (d : Database) (spilled : list Job) : M unit :=
  _ ← modify (fun w => set_w_disk (mkDisk _ (Some (marshalDB d))
                                   (archive_jobs spilled (dk_archive (w_disk w)))) w);
  emit (AJournal d).

Definition persist (d : Database) (spilled : list Job) : M unit :=
  n ← tick;
  match env_tx n with
  | TxOk => commit d spilled
  | TxFail e => fail e
  | TxLost e => _ ← commit d spilled; fail e
  end.

Definition Update (fn : Database → M Database) : M unit :=
  w ← get;
  if w_poisoned w then
    fail (errors_New "state write failed; restart and inspect storage before continuing")
  else
    next ← fn (cloneDB (w_data w));
    '(next, spilled) ← lift (compactHot next);
    _ ← lift (validateDatabase next);
    r ← try (persist next spilled);
    match r with
    | Err e => _ ← modify (set_w_poisoned true); fail (wrap_error "persist state: " e)
    | Ok _ => modify (set_w_data next)
    end.

(** ** Start-up *)

(** [load] with the content of state.json, if there is one; the result says
    whether the legacy file was renamed away. *)
Definition load (legacy : option (result Blob)) : M bool :=
  legacyDB ← match legacy with
    | None => mret None
    | Some (Err e) => fail e
    | Some (Ok b) =>
        match strictDB b with
        | Err e => fail (wrap_error "corrupt state.json: " e)
        | Ok d => _ ← lift (validateDatabase d); mret (Some d)
        end
    end;
  q ← try syscall;   (* SELECT body FROM snapshot *)
  _ ← lift (match q with Ok _ => Ok tt | Err e => Err (wrap_error "sqlite snapshot: " e) end);
  w ← get;
  match dk_snapshot (w_disk w), legacyDB with
  | None, Some d =>
      _ ← persist d [];
      _ ← modify (set_w_data d);
      _ ← syscall; mret true
  | None, None => mret false
  | Some body, _ =>
      match strictDB body with
      | Err e => fail (wrap_error "corrupt sqlite snapshot: " e)
      | Ok d =>
          _ ← modify (set_w_data d);
          _ ← lift (validateDatabase d);
          match legacyDB with
          | Some _ => r ← try syscall; mret (is_ok r)
          | None => mret false
          end
      end
  end.

(** [OpenStore]: [dirSafe] is the Lstat test of the state directory (a
    directory, not group or world writable), [lockFree] the outcome of the
    non-blocking [Flock]. *)
Definition OpenStore (dirSafe lockFree : bool) (legacy : option (result Blob)) : M bool :=
  _ ← syscall;   (* MkdirAll *)
  _ ← syscall;   (* Lstat *)
  if negb dirSafe
  then fail (errors_New "state directory must not be symlink or group/world writable")
  else
    _ ← syscall;   (* open agent.lock *)
    if negb lockFree then fail (errors_New "another agent owns state directory")
    else
      _ ← syscall;   (* sql.Open *)
      _ ← modify (fun w => set_w_poisoned false (set_w_data initialDatabase w));
      _ ← syscall;   (* migrate *)
      load legacy.

(** [Backup]: a copy of both tables, to a destination that does not exist. *)
Definition Backup (dest : string) (exists_ : bool) : M Disk :=
  if negb (IsAbs dest) then fail (errors_New "backup destination must be absolute")
  else if exists_ then fail (errors_New "backup destination exists")
  else _ ← syscall; w ← get; mret (w_disk w).

(** [ExportArchive]: the archived jobs.  Their order is by time of archiving,
    which the two tables of [Disk] do not record: any order.  An error while
    the rows are read ends the loop over [rows.Next] like their end does. *)
Definition ExportArchive : M (list Blob) :=
  _ ← syscall;   (* Query *)
  n ← tick; w ← get;
  let rows := (map_range (dk_archive (w_disk w))).*2 in
  mret (match env_io n with Some _ => take (env_short n) rows | None => rows end).

End journal.

(** ** Specification of a valid database *)
Section spec.
Context `{MapRange, Limits, JSONEncode Assignment}.

Record job_ok (d : Database) (id : string) (j : Job) : Prop := {
  jk_id : id = j_JobID j;
  jk_fingerprint : j_Fingerprint j = Fingerprint (j_Assignment j);
  jk_sequence : j_Sequence j ≤ db_HighSequence d;
  jk_state : knownState (j_State j) = true;
  jk_active : Terminal (j_State j) = false → db_Active d = id;
}.

(** Sequence numbers strictly increase, above [previous] and up to [limit]. *)
Fixpoint events_ordered (limit previous : Z) (l : list Event) : Prop :=
  match l with
  | [] => True
  | e :: l => previous < e_Sequence e ≤ limit ∧ events_ordered limit (e_Sequence e) l
  end.

Record db_ok (d : Database) : Prop := {
  dk_schema : db_Schema d = 1;
  dk_jobs : db_JobsNil d = false;
  dk_size : jobs_len d ≤ hotJobLimit + 1;
  dk_events_len : events_len d ≤ 10000;
  dk_all_jobs : ∀ id j, db_Jobs d !! id = Some j → job_ok d id j;
  dk_active : db_Active d ≠ "" →
    ∃ j, db_Jobs d !! db_Active d = Some j ∧ Terminal (j_State j) = false;
  dk_events : events_ordered (db_EventSequence d) 0 (db_Events d);
}.

Lemma for_each_ok {A} (f : A → result unit) l :
  for_each f l = Ok tt ↔ ∀ a, a ∈ l → f a = Ok tt.
Proof.
  induction l as [|a l IH]; simpl; [set_solver|].
  destruct (f a) as [[]|e] eqn:E; simpl.
  - rewrite IH. split; [|set_solver]. intros Hl b Hb. inversion Hb; subst; eauto.
  - split; [discriminate|]. intros Hl. rewrite (Hl a) in E by left. done.
Qed.

Lemma validateJob_iff d id j : validateJob d (id, j) = Ok tt ↔ job_ok d id j.
Proof.
  unfold validateJob. rewrite !bind_ok_iff, !reject_if_iff. split.
  - intros (Ha & Hb & Hc). reflect_bools. split; [done|done|lia|done|].
    intros Ht. rewrite Ht in *. simpl in *. by reflect_bools.
  - intros [-> Hf Hs Hk Ha]. rewrite eqs_refl, Hf, eqs_refl, Hk. simpl.
    split; [lia|]. split; [done|]. destruct (Terminal (j_State j)); [done|].
    rewrite Ha, eqs_refl by done. done.
Qed.

Lemma validateEvents_iff limit previous l :
  validateEvents limit previous l = Ok tt ↔ events_ordered limit previous l.
Proof.
  revert previous. induction l as [|e l IH]; intros p; simpl; [done|].
  rewrite bind_ok_iff, reject_if_iff, IH. split; intros [? ?]; (split; [lia|done]).
Qed.

Lemma validateActive_iff d :
  validateActive d = Ok tt ↔ (db_Active d ≠ "" →
    ∃ j, db_Jobs d !! db_Active d = Some j ∧ Terminal (j_State j) = false).
Proof.
  unfold validateActive. destruct (eqs (db_Active d) "") eqn:E; simpl; reflect_bools; [naive_solver|].
  destruct (db_Jobs d !! db_Active d) as [j|]; [rewrite reject_if_iff|]; naive_solver.
Qed.

Lemma validateDatabase_iff d : validateDatabase d = Ok tt ↔ db_ok d.
Proof.
  unfold validateDatabase. rewrite !bind_ok_iff, reject_if_iff, for_each_ok,
    validateActive_iff, validateEvents_iff.
  assert (Hj : (∀ a, a ∈ map_range (db_Jobs d) → validateJob d a = Ok tt) ↔
          (∀ id j, db_Jobs d !! id = Some j → job_ok d id j)).
  { split.
    - intros Ha id j Hin. apply validateJob_iff, Ha. by apply elem_of_map_range.
    - intros Ha [id j] Hin. apply validateJob_iff, Ha. by apply elem_of_map_range. }
  rewrite Hj. split.
  - intros (Hb & Hall & Hact & Hev). reflect_bools. split; try done; lia.
  - intros [Hs Hn Hz He Hall Hact Hev]. split; [|done]. rewrite Hs, Hn. simpl. lia.
Qed.

End spec.

(** ** Compaction *)
Section compaction.
Context `{MapRange, Limits, JSONEncode Assignment}.

(** A job [compactHot] may archive. *)
Definition spillable (active : string) (k : string) (j : Job) : Prop :=
  k ≠ active ∧ Terminal (j_State j) = true.

Lemma pick_oldest_spec active l :
  (∀ k j, (k, j) ∈ l → k ≠ "") →
  let '(id, t) := fold_left (pick_oldest active) l ("", 0) in
  (id = "" ∧ ∀ k j, (k, j) ∈ l → ¬ spillable active k j) ∨
  (∃ j, (id, j) ∈ l ∧ t = j_Updated j ∧ spillable active id j ∧
     ∀ k j', (k, j') ∈ l → spillable active k j' → j_Updated j ≤ j_Updated j').
Proof.
  induction l as [|[k j] l IH] using rev_ind; intros Hne.
  { left. split; [done|]. intros k j Hin. inversion Hin. }
  rewrite fold_left_app. simpl.
  destruct (fold_left (pick_oldest active) l ("", 0)) as [id t].
  specialize (IH (fun k' j' Hin => Hne k' j' (proj2 (elem_of_app _ _ _) (or_introl Hin)))).
  assert (Hk : k ≠ "") by (apply (Hne k j), elem_of_app; right; left). simpl.
  destruct (eqs k active || negb (Terminal (j_State j))) eqn:Es.
  - assert (Hns : ¬ spillable active k j).
    { intros [? Ht]. rewrite Ht, orb_false_r in Es. by reflect_bools. }
    destruct IH as [[-> Hn]|(j0 & Hin & -> & Hs & Hmin)].
    + left. split; [done|]. intros k' j' [?|Hx]%elem_of_app; [by apply Hn|].
      apply list_elem_of_singleton in Hx. by simplify_eq.
    + right. exists j0. split; [apply elem_of_app; by left|]. split; [done|]. split; [done|].
      intros k' j' [?|Hx]%elem_of_app Hs'; [by eapply Hmin|].
      apply list_elem_of_singleton in Hx. by simplify_eq.
  - assert (Hsp : spillable active k j) by (reflect_bools; by split).
    destruct (eqs id "" || Before (j_Updated j) t) eqn:Eb.
    + right. exists j. split; [apply elem_of_app; right; left|]. split; [done|]. split; [done|].
      intros k' j' [Hx|Hx]%elem_of_app Hs'.
      * destruct IH as [[-> Hn]|(j0 & Hin & -> & Hs & Hmin)]; [by destruct (Hn k' j')|].
        specialize (Hmin _ _ Hx Hs'). apply orb_true_iff in Eb as [Eb|Eb].
        -- reflect_bools. subst. destruct (Hne "" j0); [|done]. apply elem_of_app. by left.
        -- unfold Before in Eb. lia.
      * apply list_elem_of_singleton in Hx. simplify_eq. lia.
    + apply orb_false_elim in Eb as [Eb1 Eb2]. reflect_bools.
      destruct IH as [[-> Hn]|(j0 & Hin & -> & Hs & Hmin)]; [done|].
      right. exists j0. split; [apply elem_of_app; by left|]. split; [done|]. split; [done|].
      intros k' j' [Hx|Hx]%elem_of_app Hs'; [by eapply Hmin|].
      apply list_elem_of_singleton in Hx. simplify_eq. unfold Before in Eb2. lia.
Qed.

Lemma set_db_Jobs_twice m m' d : set_db_Jobs m (set_db_Jobs m' d) = set_db_Jobs m d.
Proof. done. Qed.

(** What one run of the loop achieves from [d0] with [spilled0] already out. *)
Record compacted (d0 d : Database) (spilled : list Job) : Prop := {
  cp_rest : d = set_db_Jobs (db_Jobs d) d0;
  cp_sub : db_Jobs d ⊆ db_Jobs d0;
  cp_spilled : ∀ j, j ∈ spilled → ∃ k, db_Jobs d0 !! k = Some j ∧
      spillable (db_Active d0) k j ∧ db_Jobs d !! k = None ∧
      ∀ k' j', db_Jobs d !! k' = Some j' → spillable (db_Active d0) k' j' →
        j_Updated j ≤ j_Updated j';
  cp_kept : ∀ k j, db_Jobs d0 !! k = Some j →
      db_Jobs d !! k = Some j ∨ (j ∈ spilled ∧ spillable (db_Active d0) k j);
}.

Lemma compacted_refl d : compacted d d [].
Proof.
  split; [by destruct d|done|intros j Hj; inversion Hj|by left].
Qed.

Lemma compacted_step d0 d spilled id j :
  compacted d0 d spilled → db_Jobs d !! id = Some j → spillable (db_Active d0) id j →
  (∀ k' j', db_Jobs d !! k' = Some j' → spillable (db_Active d0) k' j' →
     j_Updated j ≤ j_Updated j') →
  compacted d0 (set_db_Jobs (delete id (db_Jobs d)) d) (spilled ++ [j]).
Proof.
  intros [Hr Hs Hsp Hk] Hj Hsj Hmin. split; simpl.
  - transitivity (set_db_Jobs (delete id (db_Jobs d)) (set_db_Jobs (db_Jobs d) d0));
      [by rewrite <- Hr|done].
  - etrans; [apply delete_subseteq|done].
  - intros j' [Hin|Hin]%elem_of_app.
    + destruct (Hsp _ Hin) as (k & Hk0 & Hks & Hkn & Hkm). exists k. split; [done|].
      split; [done|]. split; [by rewrite lookup_delete_None; right|].
      intros k' j0 [_ Hl]%lookup_delete_Some Hs'. by apply (Hkm k').
    + apply list_elem_of_singleton in Hin as ->. exists id.
      split; [by eapply lookup_weaken|]. split; [done|].
      split; [by apply lookup_delete_eq|]. intros k' j0 [_ Hl]%lookup_delete_Some Hs'. by apply (Hmin k').
  - intros k j' Hkj. destruct (Hk _ _ Hkj) as [Hd|Hin]; [|right; set_solver].
    destruct (decide (id = k)) as [->|Hne].
    + right. rewrite Hj in Hd. injection Hd as ->. split; [apply elem_of_app; right; left|done].
    + left. by rewrite lookup_delete_ne.
Qed.

Lemma compact_loop_spec fuel d0 d spilled :
  db_Jobs d0 !! "" = None → compacted d0 d spilled → (size (db_Jobs d) ≤ fuel)%nat →
  ∃ r, compact_loop fuel d spilled = Some r ∧
    match r with
    | Ok (d', spilled') => compacted d0 d' spilled' ∧ jobs_len d' ≤ hotJobLimit ∧
        (jobs_len d ≤ hotJobLimit → d' = d ∧ spilled' = spilled)
    | Err _ => ∃ d', db_Jobs d' ⊆ db_Jobs d0 ∧ jobs_len d' > hotJobLimit ∧
        ∀ k j, db_Jobs d' !! k = Some j → ¬ spillable (db_Active d0) k j
    end.
Proof.
  intros Hemp. pose proof hotJobLimit_nonneg as Hl.
  revert d spilled. induction fuel as [|fuel IH]; intros d spilled Hc Hf; simpl;
    destruct (Z.gtb_spec (jobs_len d) hotJobLimit) as [Hgt|Hle];
    try (eexists; split; [done|]; simpl; split; [done|]; split; [done|]; by intros).
  { unfold jobs_len in *. lia. }
  assert (Hact : db_Active d = db_Active d0) by (destruct Hc as [-> ? ? ?]; done).
  pose proof (pick_oldest_spec (db_Active d) (map_range (db_Jobs d))) as Hp.
  destruct (fold_left _ _ _) as [id t].
  destruct Hp as [[-> Hn]|(j & Hin & -> & Hs & Hmin)].
  { intros k j Hin%elem_of_map_range ->. destruct Hc as [? Hsub ? ?].
    eapply lookup_weaken in Hin; [|done]. congruence. }
  - rewrite eqs_refl. eexists. split; [done|]. simpl. exists d. split; [apply Hc|]. split; [lia|].
    intros k j Hk. rewrite <- Hact. apply Hn. by apply elem_of_map_range.
  - apply elem_of_map_range in Hin.
    assert (Hid : eqs id "" = false).
    { apply eqs_false. intros ->. destruct Hc as [? Hsub ? ?].
      eapply lookup_weaken in Hin; [|done]. congruence. }
    rewrite Hid, Hin. rewrite Hact in Hs, Hmin.
    destruct (IH (set_db_Jobs (delete id (db_Jobs d)) d) (spilled ++ [j])) as (r & Hr & Hspec).
    { apply compacted_step; [done|done|done|].
      intros k' j' Hk' Hs'. eapply Hmin; [by apply elem_of_map_range|done]. }
    { simpl. rewrite map_size_delete_Some by eauto. lia. }
    exists r. split; [done|]. destruct r as [[d' sp']|e]; [|done].
    destruct Hspec as (? & ? & _). split; [done|]. split; [done|]. lia.
Qed.

Lemma compactHot_ok d d' spilled :
  db_Jobs d !! "" = None → compactHot d = Ok (d', spilled) →
  compacted d d' spilled ∧ jobs_len d' ≤ hotJobLimit ∧
  (jobs_len d ≤ hotJobLimit → d' = d ∧ spilled = []).
Proof.
  intros Hemp. unfold compactHot.
  destruct (compact_loop_spec (size (db_Jobs d)) d d [] Hemp (compacted_refl d)) as (r & -> & Hr); [lia|].
  destruct r as [[d1 sp]|e]; simpl; [|discriminate].
  destruct (events_len d1 >? 10000); [discriminate|]. intros [= <- <-]. exact Hr.
Qed.

(** Without capacity pressure compaction is the identity. *)
Lemma compactHot_small d :
  jobs_len d ≤ hotJobLimit → events_len d ≤ 10000 → compactHot d = Ok (d, []).
Proof.
  intros Hj He. unfold compactHot. destruct (size (db_Jobs d)) eqn:Es; simpl;
    destruct (Z.gtb_spec (jobs_len d) hotJobLimit); try lia; simpl;
    destruct (Z.gtb_spec (events_len d) 10000); try lia; done.
Qed.

End compaction.

(** ** Transactions *)
Section transactions.
Context `{MapRange, Limits, JSONEncode Assignment, Codec, Env} {D : Type} `{Backend D}.
Implicit Types w : World D.

Lemma cloneDB_id d : cloneDB d = d.
Proof. unfold cloneDB. by rewrite strict_marshal. Qed.

(** Code that touches neither the journal nor the device nor the health
    window. *)
Record frame w w' : Prop := {
  fr_data : w_data w' = w_data w;
  fr_poisoned : w_poisoned w' = w_poisoned w;
  fr_disk : w_disk w' = w_disk w;
  fr_dev : w_dev w' = w_dev w;
  fr_trace : w_trace w' = w_trace w;
  fr_mu : w_mu w' = w_mu w;
  fr_since : w_healthySince w' = w_healthySince w;
  fr_tick : (w_tick w ≤ w_tick w')%nat;
}.

Global Instance frame_preorder : PreOrder frame.
Proof.
  split; [done|]. intros w1 w2 w3 [] []. split; solve [congruence|lia].
Qed.

(** The world right after a transaction reached the disk. *)
Definition committed (d : Database) (spilled : list Job) w : World D :=
  set_w_trace (w_trace w ++ [AJournal d])
    (set_w_disk (mkDisk _ (Some (marshalDB d)) (archive_jobs spilled (dk_archive (w_disk w)))) w).

Inductive update_outcome (fn : Database → M (World D) Database) w
    : outcome unit → World D → Prop :=
  (** nothing reached the disk *)
  | UpdateNothing o w' : frame w w' → o ≠ Ret tt → update_outcome fn w o w'
  (** the transaction was rolled back: the store refuses further writes *)
  | UpdateRolledBack e w1 w' :
      frame w w1 → w' = set_w_poisoned true w1 → update_outcome fn w (Fail e) w'
  (** the transaction is durable *)
  | UpdateCommitted next0 next spilled o w1 w2 w' :
      fn (w_data w) w = (Ret next0, w1) → frame w w2 →
      w_poisoned w = false →
      compactHot next0 = Ok (next, spilled) → validateDatabase next = Ok tt →
      (o = Ret tt ∧ w' = set_w_data next (committed next spilled w2)) ∨
      (∃ e, o = Fail e ∧ w' = set_w_poisoned true (committed next spilled w2)) →
      update_outcome fn w o w'.

Lemma tick_frame : keeps frame (tick : M (World D) nat).
Proof. intros w. unfold tick. destruct (env_crash _); split; simpl; solve [done|lia]. Qed.

Lemma Update_outcome fn w :
  (∀ d, keeps frame (fn d)) → update_outcome fn w (Update fn w).1 (Update fn w).2.
Proof.
  intros Hfn. unfold Update. unfold mbind, M_bind, get.
  destruct (w_poisoned w) eqn:Ep; [by apply UpdateNothing|].
  rewrite cloneDB_id. specialize (Hfn (w_data w) w).
  destruct (fn (w_data w) w) as [[next0|e|] w1] eqn:Ef; simpl in Hfn; [|by apply UpdateNothing..].
  destruct (compactHot next0) as [[next sp]|e] eqn:Ec; simpl; [|by apply UpdateNothing].
  destruct (validateDatabase next) as [[]|e] eqn:Ev; simpl; [|by apply UpdateNothing].
  unfold try, persist, mbind, M_bind.
  pose proof (tick_frame w1) as Ht. unfold tick in *.
  destruct (env_crash (w_tick w1)); simpl in *.
  { apply UpdateNothing; [by etrans|done]. }
  assert (Hf2 : frame w (set_w_tick (S (w_tick w1)) w1)) by (by etrans).
  destruct (env_tx (w_tick w1)) as [|e|e]; simpl.
  - eapply UpdateCommitted; eauto.
  - by eapply UpdateRolledBack.
  - eapply UpdateCommitted; eauto.
Qed.

Lemma archive_jobs_lookup (l : list Job) (m : gmap string Blob) j :
  (∀ j1 j2, j1 ∈ l → j2 ∈ l → j_JobID j1 = j_JobID j2 → j1 = j2) → j ∈ l →
  archive_jobs l m !! j_JobID j = Some (marshalJob j).
Proof.
  unfold archive_jobs. induction l as [|x l IH] using rev_ind; intros Hinj Hin; [inversion Hin|].
  rewrite fold_left_app. simpl. destruct (decide (j_JobID x = j_JobID j)) as [E|E].
  - rewrite E, lookup_insert_eq. do 2 f_equal. symmetry. apply Hinj; [done|set_solver|done].
  - rewrite lookup_insert_ne by done. apply IH; [|set_solver]. intros; apply Hinj; set_solver.
Qed.

Lemma archive_jobs_kept (l : list Job) (m : gmap string Blob) id :
  is_Some (m !! id) → is_Some (archive_jobs l m !! id).
Proof.
  unfold archive_jobs. induction l as [|x l IH] using rev_ind; intros Hm; [done|].
  rewrite fold_left_app. simpl. destruct (decide (j_JobID x = id)) as [<-|E].
  - rewrite lookup_insert_eq. eauto.
  - rewrite lookup_insert_ne; auto.
Qed.

(** Jobs are filed under their own, non-empty id. *)
Definition filed (d : Database) : Prop :=
  ∀ id j, db_Jobs d !! id = Some j → id = j_JobID j ∧ id ≠ "".

Lemma spilled_archived d d' spilled (archive : gmap string Blob) id j :
  filed d → compactHot d = Ok (d', spilled) → db_Jobs d !! id = Some j →
  db_Jobs d' !! id = Some j ∨ archive_jobs spilled archive !! id = Some (marshalJob j).
Proof.
  intros Hf Hc Hj. assert (He : db_Jobs d !! "" = None).
  { destruct (db_Jobs d !! "") eqn:E; [|done]. by destruct (Hf _ _ E). }
  apply compactHot_ok in Hc as [[_ _ Hsp Hk] _]; [|done].
  destruct (Hk _ _ Hj) as [?|[Hin _]]; [by left|right].
  destruct (Hf _ _ Hj) as [-> _]. apply archive_jobs_lookup; [|done].
  intros j1 j2 (k1 & H1' & _)%Hsp (k2 & H2' & _)%Hsp E.
  destruct (Hf _ _ H1') as [-> _], (Hf _ _ H2') as [-> _]. rewrite E in H1'. congruence.
Qed.

(** ** Claims *)

(** C16: [Update] is atomic.  Either nothing changed on disk and in memory and
    the call did not succeed, or the validated next database is the durable
    snapshot, every job it was given is in the snapshot or in the archive,
    nothing leaves the archive, and memory has moved with it exactly when
    the call succeeded; when it failed the store refuses further writes. *)
Theorem Update_atomic fn w :
  (∀ d, keeps frame (fn d)) →
  (∀ next w1, fn (w_data w) w = (Ret next, w1) → filed next) →
  let o := (Update fn w).1 in let w' := (Update fn w).2 in
  (w_disk w' = w_disk w ∧ w_data w' = w_data w ∧ o ≠ Ret tt) ∨
  (∃ next0 next w1, fn (w_data w) w = (Ret next0, w1) ∧ w_poisoned w = false ∧
     db_ok next ∧ dk_snapshot (w_disk w') = Some (marshalDB next) ∧
     (∀ id j, db_Jobs next0 !! id = Some j →
        db_Jobs next !! id = Some j ∨ dk_archive (w_disk w') !! id = Some (marshalJob j)) ∧
     (∀ id, is_Some (dk_archive (w_disk w) !! id) → is_Some (dk_archive (w_disk w') !! id)) ∧
     ((o = Ret tt ∧ w_data w' = next ∧ w_poisoned w' = false) ∨
      (∃ e, o = Fail e ∧ w_data w' = w_data w ∧ w_poisoned w' = true))).
Proof.
  intros Hfn Hfiled o w'. subst o w'.
  destruct (Update_outcome fn w Hfn) as [o w' Hf Hne|e w1 w' Hf ->
      |n0 n sp o w1 w2 w' Hret Hf Hp Hc Hv Hend].
  - left. destruct Hf. done.
  - left. by destruct Hf.
  - right. exists n0, n, w1. apply validateDatabase_iff in Hv.
    assert (Hdisk : w_disk w' = mkDisk _ (Some (marshalDB n)) (archive_jobs sp (dk_archive (w_disk w)))).
    { destruct Hend as [[_ ->]|(e & _ & ->)]; simpl; by rewrite (fr_disk _ _ Hf). }
    rewrite Hdisk. simpl. repeat (split; [done|]). split.
    { intros id j Hj. by eapply spilled_archived; [eapply Hfiled|..]. }
    split; [intros; by apply archive_jobs_kept|]. destruct Hf as [Ed Ep _ _ _ _ _].
    destruct Hend as [[-> ->]|(e & -> & ->)]; simpl; [left|right].
    + split; [done|]. split; [done|]. congruence.
    + exists e. split; [done|]. by split.
Qed.

(** C18: [validateDatabase] accepts exactly the databases that satisfy the
    declarative invariant: jobs filed under their id with matching
    fingerprint, known state and sequence, one non-terminal job at most and
    it is the active one, events numbered in order. *)
Theorem validateDatabase_correct d : validateDatabase d = Ok tt ↔ db_ok d.
Proof. apply validateDatabase_iff. Qed.

(** C17: compaction archives only terminal, inactive jobs, the least recently
    updated first, until the limit is met; it loses none and changes nothing
    else.  It terminates, and reports the capacity error only when what is
    left over the limit cannot be archived or the outbox is full. *)
Theorem compactHot_correct d :
  db_Jobs d !! "" = None →
  match compactHot d with
  | Ok (d', spilled) =>
      compacted d d' spilled ∧ jobs_len d' ≤ hotJobLimit ∧
      (jobs_len d ≤ hotJobLimit → d' = d ∧ spilled = [])
  | Err _ => events_len d > 10000 ∨
      ∃ kept, kept ⊆ db_Jobs d ∧ Z.of_nat (size kept) > hotJobLimit ∧
        ∀ k j, kept !! k = Some j → ¬ spillable (db_Active d) k j
  end.
Proof.
  intros He. destruct (compactHot d) as [[d' sp]|e] eqn:Ec; [by apply compactHot_ok|].
  unfold compactHot in Ec.
  destruct (compact_loop_spec (size (db_Jobs d)) d d [] He (compacted_refl d)) as (r & Hr & Hs); [lia|].
  rewrite Hr in Ec. destruct r as [[d1 sp]|e1]; simpl in Ec.
  - left. destruct Hs as [[Hrest _ _ _] _]. assert (E : events_len d1 = events_len d) by (by rewrite Hrest).
    destruct (Z.gtb_spec (events_len d1) 10000); [lia|done].
  - right. destruct Hs as (d' & ? & Hl & ?). by exists (db_Jobs d').
Qed.

(** An export cut short by a read error is returned as a complete one. *)
Lemma ExportArchive_truncates w e :
  (∀ n, env_crash n = false) → env_io (w_tick w) = None → env_io (S (w_tick w)) = Some e →
  (ExportArchive w).1 =
    Ret (take (env_short (S (w_tick w))) (map_range (dk_archive (w_disk w))).*2).
Proof.
  intros Hc Hq Hr. unfold ExportArchive, syscall, tick, mbind, M_bind. rewrite Hc, Hq. simpl.
  by rewrite Hc, Hr.
Qed.

End transactions.
