(* ===== verification/TrustMeta.v ===== *)
(** * Supply-chain metadata (internal/ota/trustmeta.go)

    Optional threshold-signed root, timestamp, snapshot and targets metadata
    read from [trust_dir], the delegation of release keys, the SBOM
    signature, and the hash-chained transparency log. *)
From stdpp Require Import base tactics gmap strings list.
From Stdlib Require Import ZArith Lia Ascii.
From S2P Require Import Prelude Model Config Crypto Files Backend Metrics Topo Verify World Store.
Local Open Scope Z_scope.

Record keySignature := mkKeySig { ks_KeyID : string; ks_Signature : bytes }.
Record multiSigned := mkMultiSigned { ms_Payload : bytes; ms_Signatures : list keySignature }.
Record metaRole := mkRole { ro_Threshold : Z; ro_KeyIDs : list string }.
Record delegation := mkDelegation {
  dg_Name : string; dg_Threshold : Z; dg_KeyIDs : list string; dg_Types : list string }.
Record rootMeta := mkRootMeta {
  rm_Schema : Z; rm_Version : Z; rm_Expires : time;
  rm_Keys : gmap string string; rm_Roles : gmap string metaRole;
  rm_Delegations : list delegation }.
Record snapshotMeta := mkSnapshotMeta {
  sn_Version : Z; sn_Expires : time; sn_TargetsVersion : Z; sn_TargetsSHA256 : string }.
Record timestampMeta := mkTimestampMeta {
  ts_Version : Z; ts_Expires : time; ts_SnapshotVersion : Z; ts_SnapshotSHA256 : string }.
Record targetsMeta := mkTargetsMeta {
  tm_Version : Z; tm_Expires : time;
  tm_ReleaseSHA256 : list string; tm_RejectSHA256 : list string }.
Record supplyDecision := mkDecision {
  sd_active : bool; sd_rootPayload : bytes; sd_rootVersion : Z;
  sd_snapshotVersion : Z; sd_snapshotSHA : string; sd_payloadSHA : string }.
Record transparencyLine := mkLine { tl_Prev : string; tl_ReleaseID : string; tl_PayloadSHA256 : string }.

(** A directory in the configuration, as path components. *)
Fixpoint split_slash (s acc : string) : list string :=
  match s with
  | EmptyString => if eqs acc "" then [] else [acc]
  | String c s =>
      if Ascii.eqb c "/" then if eqs acc "" then split_slash s "" else acc :: split_slash s ""
      else split_slash s (acc +:+ String c "")
  end.
Definition components (dir : string) : path := split_slash dir "".
Definition Join (dir : string) (names : list string) : path := components dir ++ names.

Definition containsString (l : list string) (want : string) : bool := scan l want.

(** Reads of Go maps: a missing key reads as the zero value. *)
Definition getRole (m : gmap string metaRole) (k : string) : metaRole :=
  default (mkRole 0 []) (m !! k).
Definition getKey (m : gmap string string) (k : string) : string := default "" (m !! k).

Section threshold.
Context `{Ed25519}.

(** The loop of [verifyThreshold]; [seen] is the list of keys counted. *)
Fixpoint threshold_loop (payload : bytes) (keys : gmap string string) (role : metaRole)
    (sigs : list keySignature) (seen : list string) : result (list string) :=
  match sigs with
  | [] => Ok seen
  | sig :: sigs =>
      if negb (containsString (ro_KeyIDs role) (ks_KeyID sig)) || scan seen (ks_KeyID sig)
      then threshold_loop payload keys role sigs seen
      else
        pub ← decodeKey (getKey keys (ks_KeyID sig));
        if negb (ed25519_Verify pub payload (ks_Signature sig))
        then errorf ("invalid signature from " +:+ ks_KeyID sig)
        else threshold_loop payload keys role sigs (ks_KeyID sig :: seen)
  end.

Definition verifyThreshold (payload : bytes) (sigs : list keySignature)
    (keys : gmap string string) (role : metaRole) : result unit :=
  _ ← reject_if ((ro_Threshold role <? 1)
                 || (Z.of_nat (length (ro_KeyIDs role)) <? ro_Threshold role))
        "role threshold is not configured";
  seen ← threshold_loop payload keys role sigs [];
  reject_if (Z.of_nat (length seen) <? ro_Threshold role) "signature threshold not met".

End threshold.

(** The types of the targets of a release, in order of first occurrence. *)
Definition releaseTypes (r : Release) : list string :=
  if r_Schema r =? 1 then ["os.rauc"]
  else fold_left (fun out t => if scan out (t_Type t) then out else out ++ [t_Type t])
         (r_Targets r) [].

Fixpoint authorize_types (types allowed : list string) : result unit :=
  match types with
  | [] => Ok tt
  | typ :: types =>
      if negb (containsString allowed typ) then errorf ("delegated key cannot sign " +:+ typ)
      else authorize_types types allowed
  end.

Fixpoint authorize_delegated (ds : list delegation) (keyID : string) (types : list string)
    : result unit :=
  match ds with
  | [] => errorf "release key is not authorized"
  | d :: ds =>
      if negb (containsString (dg_KeyIDs d) keyID) then authorize_delegated ds keyID types
      else authorize_types types (dg_Types d)
  end.

Definition authorizeReleaseKey (root : rootMeta) (keyID : string) (types : list string) : result unit :=
  match rm_Roles root !! "targets" with
  | Some role =>
      if containsString (ro_KeyIDs role) keyID then Ok tt
      else authorize_delegated (rm_Delegations root) keyID types
  | None => authorize_delegated (rm_Delegations root) keyID types
  end.

(** JSON of one transparency log line ([json.Marshal] / [json.Unmarshal]). *)
Class LineJSON := {
  marshal_line : transparencyLine → bytes;
  unmarshal_line : bytes → option transparencyLine;
}.

Definition newline : Byte.byte := Byte.x0a.

(** [strings.Split(s, "\n")] *)
Fixpoint split_lines (b acc : bytes) : list bytes :=
  match b with
  | [] => [acc]
  | c :: b => if bool_decide (c = newline) then acc :: split_lines b []
              else split_lines b (acc ++ [c])
  end.

Definition ends_newline (b : bytes) : bool :=
  match last b with Some c => bool_decide (c = newline) | None => false end.

(** [strings.TrimSuffix(s, "\n")] *)
Definition trim_newline (b : bytes) : bytes :=
  if ends_newline b then take (length b - 1) b else b.

Definition zeroDigest : string := String.string_of_list_ascii (repeat "0"%char 64).

Section log.
Context `{LineJSON}.

(** The scan of the existing lines: [Ok None] means the release is already
    logged, [Ok (Some prev)] is the digest the next line must carry. *)
Fixpoint scan_log (releaseID payloadSHA prev : string) (lines : list bytes)
    : result (option string) :=
  match lines with
  | [] => Ok (Some prev)
  | line :: lines =>
      if (length line =? 0)%nat then scan_log releaseID payloadSHA prev lines
      else match unmarshal_line line with
      | None => errorf "transparency log failed"
      | Some row =>
          if negb (eqs (tl_Prev row) prev) then errorf "transparency log failed"
          else if eqs (tl_PayloadSHA256 row) payloadSHA && negb (eqs (tl_ReleaseID row) releaseID)
          then errorf "transparency log already has this release digest"
          else if eqs (tl_PayloadSHA256 row) payloadSHA && eqs (tl_ReleaseID row) releaseID
          then Ok None
          else scan_log releaseID payloadSHA (digest (line ++ [newline])) lines
      end
  end.

(** The bytes [appendTransparency] appends, if any. *)
Definition plan_append (text : bytes) (releaseID payloadSHA : string) : result (option bytes) :=
  _ ← reject_if (negb (length text =? 0)%nat && negb (ends_newline text)) "transparency log failed";
  r ← scan_log releaseID payloadSHA zeroDigest (split_lines (trim_newline text) []);
  match r with
  | None => Ok None
  | Some prev => Ok (Some (marshal_line (mkLine prev releaseID payloadSHA) ++ [newline]))
  end.
End log.

Section supply.
Context `{Ed25519, LineJSON, JSONDecode multiSigned, JSONDecode rootMeta, JSONDecode snapshotMeta,
          JSONDecode timestampMeta, JSONDecode targetsMeta}.
Context `{Codec, Env} {D : Type}.
Abbreviation M := (Prelude.M (World D)).

Definition readSigned (p : path) : M (bytes * multiSigned) :=
  b ← ReadFile p;
  doc ← lift (StrictJSON b);
  if (length (ms_Payload doc) =? 0)%nat || (length (ms_Signatures doc) =? 0)%nat
  then fail (errors_New "metadata signature missing")
  else mret (ms_Payload doc, doc).

Definition prefix_err {A} (prefix : string) (r : result A) : result A :=
  match r with Ok a => Ok a | Err e => errorf (prefix +:+ err_msg e) end.

(** [loadRoot] after root.json has been read. *)
Definition checkRoot (pinned : string) (stored payload : bytes) (doc : multiSigned) (now : time)
    : result (rootMeta * bytes) :=
  candidate ← prefix_err "root metadata: " (StrictJSON payload);
  _ ← reject_if (negb (rm_Schema candidate =? 1) || (rm_Version candidate =? 0)
                 || negb (After (rm_Expires candidate) now)) "root metadata is stale";
  if (length stored =? 0)%nat then
    _ ← reject_if (negb (eqs (digest payload) pinned))
          "root metadata does not match the pinned digest";
    _ ← prefix_err "root metadata: " (verifyThreshold payload (ms_Signatures doc)
          (rm_Keys candidate) (getRole (rm_Roles candidate) "root"));
    Ok (candidate, payload)
  else
    current ← prefix_err "stored root metadata: " (StrictJSON stored);
    _ ← reject_if (rm_Version candidate <? rm_Version current) "root rollback";
    if rm_Version candidate =? rm_Version current then
      _ ← reject_if (negb (bool_decide (sha256 payload = sha256 stored)))
            "root version reused with different bytes";
      Ok (current, stored)
    else
      _ ← prefix_err "root update: " (verifyThreshold payload (ms_Signatures doc)
            (rm_Keys current) (getRole (rm_Roles current) "root"));
      match verifyThreshold payload (ms_Signatures doc)
              (rm_Keys candidate) (getRole (rm_Roles candidate) "root") with
      | Err _ => errorf "root update is not signed by its new root keys"
      | Ok _ => Ok (candidate, payload)
      end.

Definition loadRoot (dir pinned : string) (stored : bytes) (now : time) : M (rootMeta * bytes) :=
  '(payload, doc) ← readSigned (Join dir ["root.json"]);
  lift (checkRoot pinned stored payload doc now).

Definition checkTimestamp (root : rootMeta) (payload : bytes) (doc : multiSigned) (now : time)
    : result timestampMeta :=
  ts ← prefix_err "timestamp metadata: " (StrictJSON payload);
  _ ← reject_if (negb (After (ts_Expires ts) now)) "timestamp metadata expired";
  _ ← prefix_err "timestamp metadata: " (verifyThreshold payload (ms_Signatures doc)
        (rm_Keys root) (getRole (rm_Roles root) "timestamp"));
  Ok ts.

Definition checkSnapshot (root : rootMeta) (db : Database) (ts : timestampMeta)
    (payload : bytes) (doc : multiSigned) (now : time) : result snapshotMeta :=
  let snapSHA := digest payload in
  _ ← reject_if (negb (eqs snapSHA (ts_SnapshotSHA256 ts))) "timestamp does not match the snapshot";
  snap ← prefix_err "snapshot metadata: " (StrictJSON payload);
  _ ← reject_if (negb (sn_Version snap =? ts_SnapshotVersion ts)) "timestamp snapshot version mismatch";
  _ ← reject_if ((sn_Version snap <? db_SnapshotVersion db)
                 || ((sn_Version snap =? db_SnapshotVersion db) && negb (eqs (db_SnapshotSHA db) "")
                     && negb (eqs snapSHA (db_SnapshotSHA db)))) "snapshot rollback";
  _ ← reject_if (negb (After (sn_Expires snap) now)) "snapshot metadata expired";
  _ ← prefix_err "snapshot metadata: " (verifyThreshold payload (ms_Signatures doc)
        (rm_Keys root) (getRole (rm_Roles root) "snapshot"));
  Ok snap.

Definition checkTargetsMeta (root : rootMeta) (snap : snapshotMeta) (payload : bytes)
    (doc : multiSigned) (now : time) : result targetsMeta :=
  _ ← reject_if (negb (eqs (digest payload) (sn_TargetsSHA256 snap)))
        "snapshot does not match the targets metadata";
  targets ← prefix_err "targets metadata: " (StrictJSON payload);
  _ ← reject_if (negb (tm_Version targets =? sn_TargetsVersion snap)
                 || negb (After (tm_Expires targets) now)) "targets metadata is stale";
  _ ← prefix_err "targets metadata: " (verifyThreshold payload (ms_Signatures doc)
        (rm_Keys root) (getRole (rm_Roles root) "targets"));
  Ok targets.

Fixpoint checkRejects (reject : list string) (arts : list Artifact) : result unit :=
  match arts with
  | [] => Ok tt
  | a :: arts =>
      if containsString reject (a_SHA256 a) then errorf "artifact rejected by vulnerability policy"
      else checkRejects reject arts
  end.

Definition checkRelease (root : rootMeta) (targets : targetsMeta) (releasePayload : bytes)
    (keyID : string) (r : Release) : result unit :=
  _ ← reject_if (negb (containsString (tm_ReleaseSHA256 targets) (digest releasePayload)))
        "release is not in the signed targets metadata";
  arts ← releaseArtifacts r;
  _ ← checkRejects (tm_RejectSHA256 targets) arts;
  authorizeReleaseKey root keyID (releaseTypes r).

Definition inactive : supplyDecision := mkDecision false [] 0 0 "" "".

Definition evaluateSupplyChain (c : Config) (db : Database) (releasePayload : bytes)
    (keyID : string) (r : Release) (now : time) : M supplyDecision :=
  if eqs (c_TrustDir c) "" then mret inactive
  else
    '(root, rootPayload) ← loadRoot (c_TrustDir c) (c_RootSHA256 c) (db_RootPayload db) now;
    '(tsPayload, tsDoc) ← readSigned (Join (c_TrustDir c) ["timestamp.json"]);
    ts ← lift (checkTimestamp root tsPayload tsDoc now);
    '(snapPayload, snapDoc) ← readSigned (Join (c_TrustDir c) ["snapshot.json"]);
    snap ← lift (checkSnapshot root db ts snapPayload snapDoc now);
    '(targetsPayload, targetsDoc) ← readSigned (Join (c_TrustDir c) ["targets.json"]);
    targets ← lift (checkTargetsMeta root snap targetsPayload targetsDoc now);
    _ ← lift (checkRelease root targets releasePayload keyID r);
    mret (mkDecision true rootPayload (rm_Version root) (sn_Version snap) (digest snapPayload)
            (digest releasePayload)).

(** [appendTransparency]: an append that fails may leave a partial line. *)
Definition appendTransparency (dir releaseID payloadSHA : string) : M unit :=
  let p := Join dir ["transparency.log"] in
  r ← try (ReadFile p);
  text ← match r with
    | Ok b => mret b
    | Err e => match err_is e with Some SentNotExist => mret [] | _ => fail e end
    end;
  a ← lift (plan_append text releaseID payloadSHA);
  match a with
  | None => mret tt
  | Some row =>
      _ ← syscall;
      n ← tick;
      fs ← view_fs;
      match env_io n with
      | Some e => _ ← put_fs (<[p := File (text ++ take (env_short n) row)]> fs); fail e
      | None => _ ← put_fs (<[p := File (text ++ row)]> fs); syscall
      end
  end.

Definition applySupplyChain (d : Database) (stateDir : string) (decision : supplyDecision)
    (releaseID : string) : M Database :=
  if negb (sd_active decision) then mret d
  else
    let d := set_db_SnapshotSHA (sd_snapshotSHA decision)
      (set_db_SnapshotVersion (sd_snapshotVersion decision)
        (set_db_RootVersion (sd_rootVersion decision)
          (set_db_RootPayload (sd_rootPayload decision) d))) in
    _ ← appendTransparency stateDir releaseID (sd_payloadSHA decision);
    mret d.

Definition verifySBOMSignature (p : path) (r : Release) (c : Config) : M unit :=
  if eqs (r_SBOMKeyID r) "" && (length (r_SBOMSignature r) =? 0)%nat
     && negb (c_RequireSBOMSignature c) then mret tt
  else if eqs (r_SBOMKeyID r) "" || (length (r_SBOMSignature r) =? 0)%nat
  then fail (errors_New "signed SBOM is required")
  else
    let encoded := getKey (c_TrustKeys c) (r_SBOMKeyID r) in
    if eqs encoded "" then fail (errors_New "SBOM signing key is not pinned")
    else
      pub ← lift (decodeKey encoded);
      b ← ReadFile p;
      if negb (ed25519_Verify pub b (r_SBOMSignature r))
      then fail (errors_New "SBOM signature does not match")
      else mret tt.

End supply.

(** ** Facts about the metadata checks *)
Section trust_facts.
Context `{Ed25519, LineJSON, JSONDecode multiSigned, JSONDecode rootMeta, JSONDecode snapshotMeta,
          JSONDecode timestampMeta, JSONDecode targetsMeta}.

Lemma prefix_err_ok {A} prefix (r : result A) x : prefix_err prefix r = Ok x ↔ r = Ok x.
Proof. destruct r; simpl; naive_solver. Qed.

(** The distinct role keys whose signature over [payload] verifies. *)
Definition signers (payload : bytes) (keys : gmap string string) (role : metaRole)
    (seen : list string) : Prop :=
  NoDup seen ∧ ∀ k, k ∈ seen → k ∈ ro_KeyIDs role ∧
    ∃ pub sig, decodeKey (getKey keys k) = Ok pub ∧ ed25519_Verify pub payload sig = true.

Lemma threshold_loop_sound payload keys role sigs seen out :
  signers payload keys role seen → threshold_loop payload keys role sigs seen = Ok out →
  signers payload keys role out.
Proof.
  revert seen. induction sigs as [|sig sigs IH]; intros seen Hs; simpl; [by intros [= <-]|].
  destruct (negb _ || _) eqn:Eb; [by apply IH|].
  destruct (decodeKey _) as [pub|] eqn:Ek; [|done]. simpl.
  destruct (negb (ed25519_Verify _ _ _)) eqn:Ev; [done|]. reflect_bools. apply IH.
  destruct Hs as [Hnd Hall]. split.
  - constructor; [|done]. intros Hin%scan_spec. congruence.
  - intros k Hk. inversion Hk; subst; [|by apply Hall]. split; [by apply scan_spec|]. eauto.
Qed.

Lemma verifyThreshold_ok payload sigs keys role u :
  verifyThreshold payload sigs keys role = Ok u →
  1 ≤ ro_Threshold role ∧
  ∃ seen, signers payload keys role seen ∧ ro_Threshold role ≤ Z.of_nat (length seen).
Proof.
  unfold verifyThreshold. intros Hv. destruct_result Hv. reflect_bools.
  split; [lia|].
  match goal with E : threshold_loop _ _ _ _ _ = Ok ?l |- _ => exists l; split; [|lia] end.
  eapply threshold_loop_sound; [|done].
  split; [constructor|intros k Hk; inversion Hk].
Qed.

(** An accepted snapshot continues the journal's last one. *)
Lemma checkSnapshot_version root db ts payload doc now snap :
  checkSnapshot root db ts payload doc now = Ok snap →
  db_SnapshotVersion db ≤ sn_Version snap ∧
  (sn_Version snap = db_SnapshotVersion db → db_SnapshotSHA db ≠ "" →
   digest payload = db_SnapshotSHA db).
Proof.
  unfold checkSnapshot. intros Hc. destruct_result Hc. injection Hc as <-. reflect_bools.
  split; [lia|]. intros E Hne.
  match goal with E' : (_ && _ && _) = false |- _ => rename E' into Hx end.
  rewrite E, Z.eqb_refl in Hx. simpl in Hx. apply eqs_false in Hne. rewrite Hne in Hx. simpl in Hx.
  by reflect_bools.
Qed.

(** C36: a root replaces the stored one only with a larger version and enough
    signatures of the old and of the new root role; the first one must be
    the pinned document, and without a replacement the stored one is kept. *)
Theorem checkRoot_sound pinned stored payload doc now root kept :
  checkRoot pinned stored payload doc now = Ok (root, kept) →
  StrictJSON kept = Ok root ∧
  (stored = [] → kept = payload ∧ digest kept = pinned ∧
     ∃ seen, signers payload (rm_Keys root) (getRole (rm_Roles root) "root") seen ∧
       1 ≤ ro_Threshold (getRole (rm_Roles root) "root") ≤ Z.of_nat (length seen)) ∧
  (stored ≠ [] → ∃ current, StrictJSON stored = Ok current ∧
     (kept = stored ∧ root = current ∨
      kept = payload ∧ rm_Version current < rm_Version root ∧
      (∃ seen, signers payload (rm_Keys current) (getRole (rm_Roles current) "root") seen ∧
         1 ≤ ro_Threshold (getRole (rm_Roles current) "root") ≤ Z.of_nat (length seen)) ∧
      (∃ seen, signers payload (rm_Keys root) (getRole (rm_Roles root) "root") seen ∧
         1 ≤ ro_Threshold (getRole (rm_Roles root) "root") ≤ Z.of_nat (length seen)))).
Proof.
  unfold checkRoot. intros Hc.
  apply result_bind_ok in Hc as (cand & Hcand & Hc). apply prefix_err_ok in Hcand.
  apply result_bind_ok in Hc as (? & Hst & Hc). apply reject_if_ok in Hst.
  destruct (length stored =? 0)%nat eqn:El.
  - apply Nat.eqb_eq, nil_length_inv in El as ->. destruct_result Hc. injection Hc as <- <-.
    reflect_bools. match goal with E : prefix_err _ _ = Ok _ |- _ =>
      apply prefix_err_ok, verifyThreshold_ok in E as (Hth & seen & Hs & Hl) end.
    split; [done|]. split; [|done]. intros _. split; [done|]. split; [done|]. exists seen. split; [done|lia].
  - assert (Hne : stored ≠ []) by (by intros ->).
    apply result_bind_ok in Hc as (cur & Hcur & Hc). apply prefix_err_ok in Hcur.
    apply result_bind_ok in Hc as (? & Hv & Hc). apply reject_if_ok in Hv.
    destruct (Z.eqb_spec (rm_Version cand) (rm_Version cur)).
    + destruct_result Hc. injection Hc as <- <-. split; [done|]. split; [done|].
      intros _. exists cur. auto.
    + apply result_bind_ok in Hc as (? & Hs1 & Hc). apply prefix_err_ok, verifyThreshold_ok in Hs1 as (? & s1 & ? & ?).
      destruct (verifyThreshold payload _ (rm_Keys cand) _) as [u|] eqn:Hs2; [|done].
      injection Hc as <- <-. apply verifyThreshold_ok in Hs2 as (? & s2 & ? & ?).
      split; [done|]. split; [done|]. intros _. exists cur. split; [done|]. right.
      split; [done|]. split; [lia|]. split; [exists s1|exists s2]; (split; [done|lia]).
Qed.

(** ** The transparency log *)

Lemma split_lines_line row acc :
  newline ∉ row → split_lines row acc = [acc ++ row].
Proof.
  revert acc. induction row as [|ch row IH]; intros acc Hn; simpl; [by rewrite app_nil_r|].
  rewrite bool_decide_eq_false_2 by set_solver. rewrite IH by set_solver. by rewrite <- app_assoc.
Qed.

Lemma split_lines_app b acc row :
  newline ∉ row →
  split_lines (b ++ newline :: row) acc = split_lines b acc ++ [row].
Proof.
  intros Hn. revert acc. induction b as [|ch b IH]; intros acc; simpl.
  - by rewrite split_lines_line.
  - destruct (bool_decide (ch = newline)); [|apply IH]. by rewrite IH.
Qed.

Lemma scan_log_app id sha p l1 l2 prev :
  scan_log id sha p l1 = Ok (Some prev) → scan_log id sha p (l1 ++ l2) = scan_log id sha prev l2.
Proof.
  revert p. induction l1 as [|line l1 IH]; intros p; simpl; [by intros [= ->]|].
  destruct (_ =? 0)%nat; [apply IH|]. destruct (unmarshal_line line) as [row|]; [|done].
  destruct (negb (eqs (tl_Prev row) p)); [done|].
  destruct (_ && negb _); [done|]. destruct (_ && _); [done|]. apply IH.
Qed.

(** A digest not yet logged passes the scan under every release id. *)
Lemma scan_log_other id id' sha p l prev :
  scan_log id sha p l = Ok (Some prev) → scan_log id' sha p l = Ok (Some prev).
Proof.
  revert p. induction l as [|line l IH]; intros p; simpl; [done|].
  destruct (_ =? 0)%nat; [apply IH|]. destruct (unmarshal_line line) as [row|]; [|done].
  destruct (negb (eqs (tl_Prev row) p)); [done|].
  destruct (eqs (tl_PayloadSHA256 row) sha); simpl.
  - destruct (eqs (tl_ReleaseID row) id); done.
  - apply IH.
Qed.

Lemma ends_newline_spec b : ends_newline b = true → ∃ b', b = b' ++ [newline].
Proof.
  unfold ends_newline. destruct (last b) as [ch|] eqn:E; [|done].
  intros ->%bool_decide_eq_true_1. by apply last_Some in E.
Qed.

Lemma trim_snoc b : trim_newline (b ++ [newline]) = b.
Proof.
  unfold trim_newline, ends_newline. rewrite last_snoc, bool_decide_eq_true_2 by done.
  rewrite length_app. simpl. rewrite Nat.add_sub. by rewrite take_app_length.
Qed.

(** The lines of a log after a row was appended, seen by any scan. *)
Lemma scan_appended id sha text row prev :
  (length text = 0%nat ∨ ends_newline text = true) → newline ∉ row →
  scan_log id sha zeroDigest (split_lines (trim_newline text) []) = Ok (Some prev) →
  scan_log id sha zeroDigest (split_lines (trim_newline (text ++ row ++ [newline])) [])
  = scan_log id sha prev [row].
Proof.
  intros Htext Hn Hs. rewrite app_assoc, trim_snoc. destruct Htext as [Hl|(b & ->)%ends_newline_spec].
  - apply nil_length_inv in Hl as ->. simpl in Hs. injection Hs as <-.
    by rewrite app_nil_l, split_lines_line.
  - rewrite trim_snoc in Hs. rewrite <- app_assoc. simpl app.
    rewrite split_lines_app by done. by apply scan_log_app.
Qed.

(** Appending to the transparency log extends it by one line that carries
    the digest of the line before; from then on the same release appends
    nothing and the same payload digest under another release id is refused. *)
Theorem transparency_append text id sha out :
  plan_append text id sha = Ok (Some out) →
  ∃ prev, out = marshal_line (mkLine prev id sha) ++ [newline] ∧
    scan_log id sha zeroDigest (split_lines (trim_newline text) []) = Ok (Some prev) ∧
    (unmarshal_line (marshal_line (mkLine prev id sha)) = Some (mkLine prev id sha) →
     newline ∉ marshal_line (mkLine prev id sha) → marshal_line (mkLine prev id sha) ≠ [] →
     plan_append (text ++ out) id sha = Ok None ∧
     ∀ id', id' ≠ id → ∃ e, plan_append (text ++ out) id' sha = Err e).
Proof.
  unfold plan_append. intros Hp. destruct_result Hp. destruct x0 as [prev|]; [|done].
  injection Hp as <-. exists prev. split; [done|]. split; [done|]. intros Hun Hnl Hne.
  set (row := marshal_line _) in *.
  assert (Htext : length text = 0%nat ∨ ends_newline text = true).
  { destruct (ends_newline text); [by right|left]. reflect_bools.
    match goal with E : (_ && _) = false |- _ => rewrite andb_true_r in E; apply negb_false_iff, Nat.eqb_eq in E; done end. }
  assert (Hend : ends_newline (text ++ row ++ [newline]) = true).
  { unfold ends_newline. rewrite app_assoc, last_snoc. by apply bool_decide_eq_true_2. }
  rewrite Hend, andb_false_r. simpl.
  assert (Hlen : (length row =? 0)%nat = false) by (by destruct row).
  split.
  - erewrite scan_appended by done. simpl. rewrite Hlen, Hun. simpl. by rewrite !eqs_refl.
  - intros id' Hid. erewrite scan_appended; [|done|done|by eapply scan_log_other].
    simpl. rewrite Hlen, Hun. simpl. rewrite !eqs_refl.
    rewrite (proj2 (eqs_false id id')) by congruence. by eexists.
Qed.

(** Metadata meets a role's threshold only with that many distinct keys of
    the role, each with a signature that verifies; duplicated signatures and
    keys outside the role never count. *)
Theorem verifyThreshold_sound payload sigs keys role u :
  verifyThreshold payload sigs keys role = Ok u →
  1 ≤ ro_Threshold role ∧
  ∃ seen, signers payload keys role seen ∧ ro_Threshold role ≤ Z.of_nat (length seen).
Proof. apply verifyThreshold_ok. Qed.

End trust_facts.
