(* ===== verification/MetricsText.v ===== *)
(** * The metrics text (internal/ota/metrics.go, [WriteMetrics])

    The counters in the Prometheus text format, the walk that adds up the
    cache, and a reader of that format (version 0.0.4, which the handler
    announces) that finds every sample. *)
From stdpp Require Import base tactics gmap strings list.
From Stdlib Require Import ZArith Lia Ascii.
From S2P Require Import Prelude Model Config Crypto Fmt Files Backend Metrics Trace Topo Verify World Store TrustMeta.
Local Open Scope Z_scope.

(** A line of the text: a type comment, or a sample with its labels. *)
Definition sample : Type := string * list (string * string) * string.
Inductive metricLine :=
  | TypeLine (name kind : string)
  | SampleLine (s : sample).

Definition line_end : string := from_chars [line_feed].

Section text.
Context `{Unicode, MapRange}.

Definition labelText (kv : string * string) : string := kv.1 +:+ "=" +:+ Quote kv.2.

Fixpoint labelsText (l : list (string * string)) : string :=
  match l with
  | [] => ""
  | [kv] => labelText kv +:+ "} "
  | kv :: l => labelText kv +:+ "," +:+ labelsText l
  end.

Definition sampleText (s : sample) : string :=
  let '(name, labels, v) := s in
  name +:+ match labels with [] => " " +:+ v | _ => "{" +:+ labelsText labels +:+ v end.

Definition lineText (m : metricLine) : string :=
  match m with
  | TypeLine name kind => "# TYPE " +:+ name +:+ " " +:+ kind
  | SampleLine s => sampleText s
  end +:+ line_end.

Fixpoint linesText (l : list metricLine) : string :=
  match l with [] => "" | m :: l => lineText m +:+ linesText l end.

(** ** WriteMetrics *)

Definition downloadRate (s : Stats) : float64 :=
  if 0 <? st_downloadNanos s then
    fdiv (float64_of (st_downloadBytes s)) (fdiv (float64_of (st_downloadNanos s)) (float64_of Second))
  else fzero.

Definition syncLatency (s : Stats) : float64 :=
  let n := s64 (st_fleetSyncOK s + st_fleetSyncFail s) in
  if 0 <? n then fdiv (fdiv (float64_of (st_fleetSyncNanos s)) (float64_of n)) (float64_of Second) else fzero.

Definition one (name kind v : string) : list metricLine := [TypeLine name kind; SampleLine (name, [], v)].

Definition stateSample (p : string * float64) : metricLine :=
  SampleLine ("zyvor_ota_state_seconds_total", [("state", p.1)], fmtG p.2).
Definition failureSample (p : string * Z) : metricLine :=
  SampleLine ("zyvor_ota_health_failures_total", [("check", p.1)], FormatInt p.2).

Definition metricLines (s : Stats) (pending sequence cache : Z) (since : float64) : list metricLine :=
  one "zyvor_ota_pending_events" "gauge" (FormatInt pending) ++
  one "zyvor_ota_release_sequence" "gauge" (FormatInt sequence) ++
  [TypeLine "zyvor_ota_state_seconds_total" "counter"] ++
  map stateSample (map_range (st_stateSeconds s)) ++
  one "zyvor_ota_download_bytes_total" "counter" (FormatInt (st_downloadBytes s)) ++
  one "zyvor_ota_download_bytes_per_second" "gauge" (fmtG (downloadRate s)) ++
  one "zyvor_ota_download_resumes_total" "counter" (FormatInt (st_downloadResumes s)) ++
  [TypeLine "zyvor_ota_health_failures_total" "counter"] ++
  map failureSample (map_range (st_healthFailures s)) ++
  one "zyvor_ota_commits_total" "counter" (FormatInt (st_commits s)) ++
  one "zyvor_ota_rollbacks_total" "counter" (FormatInt (st_rollbacks s)) ++
  one "zyvor_ota_recoveries_total" "counter" (FormatInt (st_recoveries s)) ++
  [TypeLine "zyvor_ota_fleet_sync_total" "counter";
   SampleLine ("zyvor_ota_fleet_sync_total", [("result", "ok")], FormatInt (st_fleetSyncOK s));
   SampleLine ("zyvor_ota_fleet_sync_total", [("result", "error")], FormatInt (st_fleetSyncFail s))] ++
  one "zyvor_ota_fleet_sync_seconds" "gauge" (fmtG (syncLatency s)) ++
  one "zyvor_ota_cache_bytes" "gauge" (FormatInt cache) ++
  [TypeLine "zyvor_ota_current_slot" "info";
   SampleLine ("zyvor_ota_current_slot", [("slot", st_slot s); ("release", st_release s)], "1")] ++
  one "zyvor_ota_seconds_since_success" "gauge" (fmtG since).
End text.

Section write.
Context `{Unicode, MapRange, Codec, Env} {D : Type}.
Abbreviation M := (Prelude.M (World D)).

(** The function of [filepath.Walk] on what the walk visits: a file that
    cannot be inspected is left out. *)
Fixpoint walkBytes (root : path) (l : list (path * node)) (n : Z) : M Z :=
  match l with
  | [] => mret n
  | (p, File b) :: l =>
      if bool_decide (take (length root) p = root) then
        k ← tick;
        match env_io k with
        | Some _ => walkBytes root l n
        | None => walkBytes root l (s64 (n + blen b))
        end
      else walkBytes root l n
  | _ :: l => walkBytes root l n
  end.

Definition cacheBytes (dir : string) : M Z :=
  fs ← view_fs; walkBytes (Join dir ["cache"]) (map_to_list fs) 0.

Definition WriteMetrics (c : Config) (pending sequence : Z) : M string :=
  w ← get;
  let s := w_stats w in
  cache ← cacheBytes (c_StateDir c);
  since ← (if IsZero (st_lastSuccess s) then mret (float64_of (-1))
           else now ← Now; mret (Seconds (Sub now (st_lastSuccess s))));
  mret (linesText (metricLines s pending sequence cache since)).

(** Writing the page only advances the oracle. *)
Lemma walkBytes_keeps R `{!PreOrder R} root l n : keeps R (tick (D := D)) → keeps R (walkBytes root l n).
Proof.
  intros Ht. revert n. induction l as [|[p [b| | |]] l IH]; intros n; simpl; [apply keeps_ret; apply _| |apply IH..].
  case_bool_decide; [|apply IH]. apply keeps_bind; [apply _|exact Ht|]. intros k. by destruct (env_io k).
Qed.

Lemma WriteMetrics_keeps R `{!PreOrder R} c pending sequence :
  keeps R (tick (D := D)) → keeps R (WriteMetrics c pending sequence).
Proof.
  intros Ht. unfold WriteMetrics, cacheBytes, view_fs, Now. pose proof (walkBytes_keeps R). keeps_auto.
Qed.
End write.
#[export] Hint Extern 1 (keeps _ (WriteMetrics _ _ _)) =>
  (apply WriteMetrics_keeps; [apply _|eauto with keeps]) : keeps.

(** ** The reader *)

Fixpoint span (p : ascii → bool) (l : list ascii) : list ascii * list ascii :=
  match l with
  | [] => ([], [])
  | c :: l => if p c then let '(a, b) := span p l in (c :: a, b) else ([], c :: l)
  end.

(** The lines of a text. *)
Fixpoint text_lines (l : list ascii) : list (list ascii) :=
  match l with
  | [] => [[]]
  | c :: l =>
      if bool_decide (c = line_feed) then [] :: text_lines l
      else match text_lines l with x :: xs => (c :: x) :: xs | [] => [[c]] end
  end.

(** A label value after its opening quote, and what follows the closing one.
    The format has three escapes: of a backslash, a quote and a line feed. *)
Fixpoint read_value (l : list ascii) : option (list ascii * list ascii) :=
  match l with
  | [] => None
  | c :: l =>
      if bool_decide (c = quote_char) then Some ([], l)
      else if bool_decide (c = backslash) then
        match l with
        | [] => None
        | e :: l =>
            if bool_decide (e = quote_char ∨ e = backslash) then '(v, l) ← read_value l; Some (e :: v, l)
            else if bool_decide (e = "n"%char) then '(v, l) ← read_value l; Some (line_feed :: v, l)
            else None
        end
      else '(v, l) ← read_value l; Some (c :: v, l)
  end.

Definition read_quoted (l : list ascii) : option (list ascii * list ascii) :=
  match l with
  | c :: l => if bool_decide (c = quote_char) then read_value l else None
  | [] => None
  end.

(** [key="value",...} rest], up to and with the blank after the brace. *)
Fixpoint read_labels (fuel : nat) (l : list ascii) : option (list (string * string) * list ascii) :=
  match fuel with
  | O => None
  | S fuel =>
      let '(key, l) := span (fun c => negb (bool_decide (c = "="%char))) l in
      match l with
      | [] => None
      | _ :: l =>
          '(v, l) ← read_quoted l;
          let kv := (from_chars key, from_chars v) in
          match l with
          | c :: l =>
              if bool_decide (c = ","%char) then '(rest, l) ← read_labels fuel l; Some (kv :: rest, l)
              else match l with _ :: l => if bool_decide (c = "}"%char) then Some ([kv], l) else None | [] => None end
          | [] => None
          end
      end
  end.

Definition read_sample (l : list ascii) : option sample :=
  let '(name, l) := span (fun c => negb (bool_decide (c = " "%char ∨ c = "{"%char))) l in
  match l with
  | [] => None
  | c :: l =>
      if bool_decide (c = " "%char) then Some (from_chars name, [], from_chars l)
      else '(labels, l) ← read_labels (length l) l; Some (from_chars name, labels, from_chars l)
  end.

(** Comments and empty lines say nothing. *)
Fixpoint read_lines (ls : list (list ascii)) : option (list sample) :=
  match ls with
  | [] => Some []
  | [] :: ls => read_lines ls
  | (c :: l) :: ls =>
      if bool_decide (c = "#"%char) then read_lines ls
      else s ← read_sample (c :: l); rest ← read_lines ls; Some (s :: rest)
  end.

Definition read_metrics (text : string) : option (list sample) := read_lines (text_lines (chars text)).

Definition samples_of (l : list metricLine) : list sample :=
  omap (fun m => match m with SampleLine s => Some s | TypeLine _ _ => None end) l.

(** ** Written text reads back *)

Lemma text_lines_line x rest :
  Forall (fun c => c ≠ line_feed) x → text_lines (x ++ line_feed :: rest) = x :: text_lines rest.
Proof.
  induction 1 as [|c x Hc _ IH]; [done|]. simpl.
  by rewrite bool_decide_eq_false_2, IH.
Qed.

Lemma span_app p x c rest : forallb p x = true → p c = false → span p (x ++ c :: rest) = (x, c :: rest).
Proof.
  induction x as [|y x IH]; simpl; [by intros _ ->|]. intros [Hy Hx]%andb_prop Hc. rewrite Hy, IH; done.
Qed.

(** Names and keys the reader can tell from what follows. *)
Definition name_ok (name : string) : bool :=
  match chars name with c :: _ => negb (bool_decide (c = "#"%char)) | [] => false end &&
  forallb (fun c => negb (bool_decide (c = " "%char ∨ c = "{"%char))) (chars name) &&
  forallb (fun c => negb (bool_decide (c = line_feed))) (chars name).
Definition key_ok (key : string) : bool :=
  forallb (fun c => negb (bool_decide (c = "="%char))) (chars key) &&
  forallb (fun c => negb (bool_decide (c = line_feed))) (chars key).
Definition label_ok `{Unicode} (kv : string * string) : Prop :=
  key_ok kv.1 = true ∧ printable_text kv.2 = true.
Definition line_ok `{Unicode} (m : metricLine) : Prop :=
  match m with
  | TypeLine name kind => forallb (fun c => negb (bool_decide (c = line_feed))) (chars (name +:+ kind)) = true
  | SampleLine (name, labels, v) =>
      name_ok name = true ∧ Forall label_ok labels ∧ numeric_text v
  end.

Abbreviation one_line s := (Forall (fun c => c ≠ line_feed) (chars s)).

Lemma one_line_app s t : one_line s → one_line t → one_line (s +:+ t).
Proof. rewrite ascii_app. apply Forall_app_2. Qed.

Lemma one_line_b s : forallb (fun c => negb (bool_decide (c = line_feed))) (chars s) = true → one_line s.
Proof.
  induction (chars s) as [|c l IH]; [done|]. simpl. intros [Hc Hl]%andb_prop. constructor; [|auto].
  by apply negb_true_iff, bool_decide_eq_false in Hc.
Qed.

Lemma numeric_one_line s : numeric_text s → one_line s.
Proof. intros Hs. eapply Forall_impl; [exact Hs|]. intros c Hc ->. by vm_compute in Hc. Qed.

Create HintDb metrics.
#[export] Hint Resolve one_line_app numeric_one_line Quote_line : metrics.
#[export] Hint Extern 1 (one_line _) => (apply one_line_b; reflexivity) : metrics.

Section read_back.
Context `{Unicode}.

Lemma key_line key : key_ok key = true → one_line key.
Proof. intros [_ Hk]%andb_prop. by apply one_line_b. Qed.

(** A reader of the format gets the value back. *)
Lemma read_value_raw raw tail v rest :
  Forall (fun c => c ≠ quote_char ∧ c ≠ backslash) raw → read_value tail = Some (v, rest) →
  read_value (raw ++ tail) = Some (raw ++ v, rest).
Proof.
  intros Hraw Ht. induction Hraw as [|c raw [Hq Hb] _ IH]; [done|]. simpl.
  by rewrite !bool_decide_eq_false_2, IH by done.
Qed.

Lemma read_value_escaped c tail v rest :
  let b := N_of_ascii c in
  (b < 0x80)%N → IsPrint b || (b =? 10)%N = true → read_value tail = Some (v, rest) →
  read_value (escapedRune b [c] ++ tail) = Some (c :: v, rest).
Proof.
  intros b Hb Hp Ht. unfold escapedRune. destruct ((b =? 34)%N || (b =? 92)%N) eqn:Eq.
  { assert (Hc : c = quote_char ∨ c = backslash).
    { rewrite <- (ascii_N_embedding c). fold b. apply orb_prop in Eq as [->%N.eqb_eq| ->%N.eqb_eq]; auto. }
    simpl. rewrite bool_decide_eq_true_2 by done. by rewrite Ht. }
  apply orb_false_elim in Eq as [Eq%N.eqb_neq Eb%N.eqb_neq]. destruct (IsPrint b) eqn:Ep.
  { apply (read_value_raw [c]); [|done]. eapply Forall_impl; [apply (printed_raw b); try done|by intros x [? _]].
    left. split; [done|]. unfold b. by rewrite ascii_N_embedding. }
  apply N.eqb_eq in Hp. assert (c = line_feed) as -> by (rewrite <- (ascii_N_embedding c); fold b; by rewrite Hp).
  rewrite Hp. simpl. by rewrite Ht.
Qed.

Lemma read_value_runes skip l rest :
  printable_runes skip l = true → read_value (quote_runes skip l ++ quote_char :: rest) = Some (drop skip l, rest).
Proof.
  revert skip. induction l as [|c l IH]; intros skip Hp; [by destruct skip|].
  destruct skip as [|skip]; [|by apply IH]. cbn [quote_runes printable_runes drop] in *.
  destruct (N.ltb_spec (N_of_ascii c) 0x80) as [Hlt|Hge].
  - apply andb_prop in Hp as [Hc Hp]. rewrite <- app_assoc. apply read_value_escaped; [done|done|by apply (IH 0%nat)].
  - destruct (decodeRune _ _) as [[r width]|] eqn:Ed; [|done]. apply andb_prop in Hp as [Hr Hp].
    pose proof (decoded_bytes _ _ _ _ Hge Ed) as Hb.
    assert (Hwide : (0x80 ≤ r)%N) by (destruct (decode_encode _ _ _ _ Hge Ed) as (_ & ? & _); lia).
    assert (El : c :: l = (c :: take (width - 1) l) ++ drop (width - 1) l) by (simpl; by rewrite take_drop).
    unfold escapedRune. rewrite (proj2 (N.eqb_neq r 34)), (proj2 (N.eqb_neq r 92)), Hr by lia. cbn [orb].
    rewrite <- app_assoc, El. apply read_value_raw; [|by apply IH].
    eapply Forall_impl; [apply (printed_raw r); try done; lia|by intros x [? _]].
Qed.

Lemma read_quoted_Quote v rest :
  printable_text v = true → read_quoted (chars (Quote v) ++ rest) = Some (chars v, rest).
Proof.
  intros Hv. unfold Quote. rewrite String.list_ascii_of_string_of_list_ascii. cbn [app read_quoted].
  rewrite bool_decide_eq_true_2, <- app_assoc by done. by apply (read_value_runes 0).
Qed.

Lemma labelsText_line labels : Forall label_ok labels → one_line (labelsText labels).
Proof.
  induction 1 as [|[k v] labels [Hk _] _ IH]; [constructor|]. simpl in Hk. apply key_line in Hk.
  cbn [labelsText]. unfold labelText. simpl fst. simpl snd. destruct labels; auto 8 with metrics.
Qed.

Lemma lineText_line m : line_ok m → one_line (match m with TypeLine name kind => "# TYPE " +:+ name +:+ " " +:+ kind
                                                | SampleLine s => sampleText s end).
Proof.
  destruct m as [name kind|[[name labels] v]].
  - intros Hl. apply one_line_b in Hl. rewrite ascii_app in Hl. apply Forall_app in Hl as [Hn Hk]. auto 8 with metrics.
  - intros (Hn & Hl & Hv). apply andb_prop in Hn as [_ Hn]. apply one_line_b in Hn. apply labelsText_line in Hl.
    unfold sampleText. destruct labels; auto 8 with metrics.
Qed.

Lemma read_labels_text labels rest fuel :
  labels ≠ [] → Forall label_ok labels → (length labels ≤ fuel)%nat →
  read_labels fuel (chars (labelsText labels) ++ rest) = Some (labels, rest).
Proof.
  intros Hne Hl. revert fuel. induction Hl as [|[k v] labels [Hk Hv] Hl IH]; intros fuel Hf; [done|].
  destruct fuel as [|fuel]; [simpl in Hf; lia|]. simpl in Hk, Hv, Hf. apply andb_prop in Hk as [Hk _].
  assert (E : ∀ tl, span (fun c => negb (bool_decide (c = "="%char))) (chars k ++ "="%char :: tl) = (chars k, "="%char :: tl))
    by (intros tl; by apply span_app).
  cbn [read_labels labelsText]. unfold labelText. simpl fst. simpl snd.
  destruct labels as [|kv labels]; rewrite !ascii_app, <- !app_assoc; cbn [String.list_ascii_of_string app];
    rewrite E, read_quoted_Quote by done; cbn [mbind option_bind]; rewrite !String.string_of_list_ascii_of_string; [done|].
  rewrite bool_decide_eq_true_2 by done. by rewrite IH by (done || simpl in *; lia).
Qed.

Lemma labelsText_length labels : (length labels ≤ length (chars (labelsText labels)))%nat.
Proof.
  induction labels as [|kv labels IH]; [done|]. cbn [labelsText]. destruct labels.
  - rewrite ascii_app, length_app. simpl. lia.
  - rewrite !ascii_app, !length_app. simpl in *. lia.
Qed.

Lemma read_sample_text name labels v :
  line_ok (SampleLine (name, labels, v)) → read_sample (chars (sampleText (name, labels, v))) = Some (name, labels, v).
Proof.
  intros (Hn & Hl & Hv). apply andb_prop in Hn as [[_ Hn]%andb_prop _]. unfold read_sample, sampleText.
  destruct labels as [|kv labels].
  - rewrite ascii_app. change (" " +:+ v) with (String " " v). cbn [String.list_ascii_of_string]. rewrite span_app by done. simpl.
    by rewrite !String.string_of_list_ascii_of_string.
  - rewrite ascii_app. change ("{" +:+ ?x) with (String "{" x). cbn [String.list_ascii_of_string].
    rewrite span_app by done. rewrite bool_decide_eq_false_2 by done. rewrite ascii_app.
    rewrite read_labels_text; [|done|done|].
    + simpl. by rewrite !String.string_of_list_ascii_of_string.
    + rewrite length_app. pose proof (labelsText_length (kv :: labels)). lia.
Qed.

(** A reader of the text gets exactly the samples, in order. *)
Lemma read_metrics_text l : Forall line_ok l → read_metrics (linesText l) = Some (samples_of l).
Proof.
  unfold read_metrics. induction 1 as [|m l Hm Hl IH]; [done|]. cbn [linesText].
  rewrite ascii_app. unfold lineText, line_end. rewrite ascii_app, String.list_ascii_of_string_of_list_ascii, <- app_assoc.
  cbn [app]. rewrite text_lines_line by (by apply lineText_line).
  destruct m as [name kind|[[name labels] v]].
  - change ("# TYPE " +:+ ?x) with (String "#" (" TYPE " +:+ x)). cbn [String.list_ascii_of_string read_lines].
    by rewrite bool_decide_eq_true_2.
  - pose proof (read_sample_text _ _ _ Hm) as Hr. destruct Hm as (Hn & _).
    assert (∃ c t, chars (sampleText (name, labels, v)) = c :: t ∧ c ≠ "#"%char) as (c & t & E & Hc).
    { unfold sampleText. rewrite ascii_app. apply andb_prop in Hn as [[Hn _]%andb_prop _].
      destruct (chars name) as [|c t]; [done|]. apply negb_true_iff, bool_decide_eq_false in Hn. by eexists c, _. }
    rewrite E in *. cbn [read_lines]. rewrite bool_decide_eq_false_2, Hr, IH by done. done.
Qed.
End read_back.

(** What a [return] returns, as it is written. *)
Lemma ret_returns {W A} (a b : A) (w w' : W) : (mret a : M W A) w = (Ret b, w') → b = a ∧ w' = w.
Proof. by intros [= -> ->]. Qed.

Section claim.
Context `{Unicode, MapRange, Codec, Env} {D : Type}.
Implicit Types (s : Stats) (w : World D).

(** ** What the page should say *)

(** Every series of the page with its value, by its name. *)
Inductive shows s (pending sequence cache : Z) (since : float64) : sample → Prop :=
  | sh_pending : shows s pending sequence cache since ("zyvor_ota_pending_events", [], FormatInt pending)
  | sh_sequence : shows s pending sequence cache since ("zyvor_ota_release_sequence", [], FormatInt sequence)
  | sh_state name f : st_stateSeconds s !! name = Some f →
      shows s pending sequence cache since ("zyvor_ota_state_seconds_total", [("state", name)], fmtG f)
  | sh_bytes : shows s pending sequence cache since
      ("zyvor_ota_download_bytes_total", [], FormatInt (st_downloadBytes s))
  | sh_rate : 0 < st_downloadNanos s → shows s pending sequence cache since
      ("zyvor_ota_download_bytes_per_second", [],
       fmtG (fdiv (float64_of (st_downloadBytes s)) (fdiv (float64_of (st_downloadNanos s)) (float64_of Second))))
  | sh_no_rate : st_downloadNanos s ≤ 0 → shows s pending sequence cache since
      ("zyvor_ota_download_bytes_per_second", [], fmtG fzero)
  | sh_resumes : shows s pending sequence cache since
      ("zyvor_ota_download_resumes_total", [], FormatInt (st_downloadResumes s))
  | sh_failure name n : st_healthFailures s !! name = Some n →
      shows s pending sequence cache since ("zyvor_ota_health_failures_total", [("check", name)], FormatInt n)
  | sh_commits : shows s pending sequence cache since ("zyvor_ota_commits_total", [], FormatInt (st_commits s))
  | sh_rollbacks : shows s pending sequence cache since ("zyvor_ota_rollbacks_total", [], FormatInt (st_rollbacks s))
  | sh_recoveries : shows s pending sequence cache since
      ("zyvor_ota_recoveries_total", [], FormatInt (st_recoveries s))
  | sh_sync_ok : shows s pending sequence cache since
      ("zyvor_ota_fleet_sync_total", [("result", "ok")], FormatInt (st_fleetSyncOK s))
  | sh_sync_fail : shows s pending sequence cache since
      ("zyvor_ota_fleet_sync_total", [("result", "error")], FormatInt (st_fleetSyncFail s))
  | sh_latency : 0 < s64 (st_fleetSyncOK s + st_fleetSyncFail s) → shows s pending sequence cache since
      ("zyvor_ota_fleet_sync_seconds", [],
       fmtG (fdiv (fdiv (float64_of (st_fleetSyncNanos s))
                        (float64_of (s64 (st_fleetSyncOK s + st_fleetSyncFail s)))) (float64_of Second)))
  | sh_no_latency : s64 (st_fleetSyncOK s + st_fleetSyncFail s) ≤ 0 → shows s pending sequence cache since
      ("zyvor_ota_fleet_sync_seconds", [], fmtG fzero)
  | sh_cache : shows s pending sequence cache since ("zyvor_ota_cache_bytes", [], FormatInt cache)
  | sh_slot : shows s pending sequence cache since
      ("zyvor_ota_current_slot", [("slot", st_slot s); ("release", st_release s)], "1")
  | sh_since : shows s pending sequence cache since ("zyvor_ota_seconds_since_success", [], fmtG since).

(** Labels a reader of the format can read. *)
Record labels_printable s : Prop := {
  lp_slot : printable_text (st_slot s) = true;
  lp_release : printable_text (st_release s) = true;
  lp_states : ∀ name f, st_stateSeconds s !! name = Some f → printable_text name = true;
  lp_checks : ∀ name n, st_healthFailures s !! name = Some n → printable_text name = true;
}.

(** The bytes of the regular files under the cache. *)
Definition filesBytes (root : path) (fs : FS) : Z :=
  map_fold (fun p x n => match x with
                         | File b => if bool_decide (take (length root) p = root) then blen b + n else n
                         | _ => n
                         end) 0 fs.

Lemma one_ok name kind v :
  name_ok name = true → forallb (fun c => negb (bool_decide (c = line_feed))) (chars (name +:+ kind)) = true →
  numeric_text v → Forall line_ok (one name kind v).
Proof. intros Hn Hl Hv. by repeat constructor. Qed.

Lemma metricLines_ok s pending sequence cache since :
  labels_printable s → Forall line_ok (metricLines s pending sequence cache since).
Proof.
  intros [Hs Hr Hst Hck].
  assert (Hmap : ∀ {A} (f : string * A → metricLine) (m : gmap string A),
    (∀ k x, m !! k = Some x → line_ok (f (k, x))) → Forall line_ok (map f (map_range m))).
  { intros A f m Hf. apply Forall_fmap, Forall_forall. intros [k x] Hin%elem_of_map_range. by apply Hf. }
  assert (Hl : ∀ kvs, (∀ kv, kv ∈ kvs → label_ok kv) → Forall label_ok kvs) by (intros kvs; by rewrite Forall_forall).
  unfold metricLines. repeat apply Forall_app_2;
    try (by apply one_ok; [reflexivity|reflexivity|auto with numeric]).
  - by repeat constructor.
  - apply Hmap. intros k x Hk. split; [done|]. split; [|auto with numeric]. repeat constructor. by eapply Hst.
  - by repeat constructor.
  - apply Hmap. intros k x Hk. split; [done|]. split; [|auto with numeric]. repeat constructor. by eapply Hck.
  - repeat constructor; auto with numeric.
  - repeat constructor; auto with numeric.
Qed.

(** ** The series *)

Lemma elem_of_samples x l : x ∈ samples_of l ↔ SampleLine x ∈ l.
Proof.
  unfold samples_of. rewrite list_elem_of_omap. split; [|intros; by exists (SampleLine x)].
  intros (m & Hm & E). destruct m as [|y]; [done|]. by injection E as ->.
Qed.

Lemma samples_map {A} (f : string * A → metricLine) (g : string * A → sample) l rest :
  (∀ x, f x = SampleLine (g x)) → samples_of (map f l ++ rest) = map g l ++ samples_of rest.
Proof. intros Hf. induction l as [|x l IH]; [done|]. simpl. rewrite Hf. simpl. f_equal. exact IH. Qed.

(** Find a line of the page; decompose membership in a list of lines. *)
Ltac page_find :=
  match goal with
  | |- _ ∈ _ :: _ => first [by left | right; page_find]
  | |- _ ∈ map _ _ ++ _ => apply elem_of_app; right; page_find
  end.
Ltac page_cases Hin :=
  repeat first
    [ apply elem_of_cons in Hin as [Hin|Hin]
    | apply elem_of_app in Hin as [Hin|Hin]
    | apply list_elem_of_fmap in Hin as ([? ?] & Hin & ?%elem_of_map_range)
    | by apply elem_of_nil in Hin ].

Lemma page_shows s pending sequence cache since x :
  SampleLine x ∈ metricLines s pending sequence cache since ↔ shows s pending sequence cache since x.
Proof.
  unfold metricLines, one, downloadRate, syncLatency, stateSample, failureSample. cbn [app]. split.
  - intros Hin. page_cases Hin; try discriminate Hin; injection Hin as ->;
      first [by constructor | destruct (Z.ltb_spec 0 (st_downloadNanos s)); by constructor
            | destruct (Z.ltb_spec 0 (s64 (st_fleetSyncOK s + st_fleetSyncFail s))); by constructor].
  - destruct 1 as [| |name f Hf| |Hn|Hn| |name n Hn| | | | | |Hn|Hn| | |];
      first [page_find | rewrite (proj2 (Z.ltb_lt _ _) Hn); page_find | rewrite (proj2 (Z.ltb_ge _ _) Hn); page_find | idtac].
    + do 5 right. apply elem_of_app. left. apply list_elem_of_fmap. exists (name, f). split; [done|by apply elem_of_map_range].
    + do 5 right. apply elem_of_app. right. do 7 right. apply elem_of_app. left.
      apply list_elem_of_fmap. exists (name, n). split; [done|by apply elem_of_map_range].
Qed.

(** The keys of a map's samples are distinct. *)
Lemma keys_NoDup {A} (name key : string) (g : A → string) (m : gmap string A) :
  NoDup (map (fun p : string * A => (name, [(key, p.1)], g p.2)) (map_range m)).*1.
Proof.
  assert (E : ∀ l : list (string * A), (map (fun p => (name, [(key, p.1)], g p.2)) l).*1
    = map (fun k => (name, [(key, k)])) l.*1) by (intros l; induction l as [|x l IH]; [done|]; simpl; f_equal; exact IH).
  rewrite E. apply NoDup_fmap_2; [intros x y; by injection 1|].
  rewrite (fmap_Permutation fst _ _ (map_range_perm m)). apply NoDup_fst_map_to_list.
Qed.

Lemma keys_name {A} (name key : string) (g : A → string) (m : gmap string A) x :
  x ∈ (map (fun p : string * A => (name, [(key, p.1)], g p.2)) (map_range m)).*1 → x.1 = name.
Proof. intros (y & -> & (p & -> & _)%list_elem_of_fmap)%list_elem_of_fmap. done. Qed.

(** A key is not among keys of other names or labels. *)
Ltac apart Hy :=
  repeat first
    [ apply elem_of_cons in Hy as [Hy|Hy]; [discriminate Hy|]
    | apply elem_of_app in Hy as [Hy|Hy]
    | apply keys_name in Hy; discriminate Hy
    | by apply elem_of_nil in Hy ].
Ltac distinct_keys :=
  repeat match goal with
  | |- NoDup (_ :: _) => let Hy := fresh in apply NoDup_cons; split; [intros Hy; apart Hy|]
  | |- NoDup (_ ++ _) =>
      let Hx := fresh in let Hy := fresh in
      apply NoDup_app; split; [apply keys_NoDup|]; split;
        [intros [? ?] Hx%keys_name Hy; simpl in Hx; subst; apart Hy|]
  | |- NoDup [] => constructor
  end.

(** No series is shown twice. *)
Lemma series_NoDup s pending sequence cache since :
  NoDup (samples_of (metricLines s pending sequence cache since)).*1.
Proof.
  unfold metricLines, one. cbn [app samples_of omap list_omap].
  rewrite (samples_map stateSample (fun p => ("zyvor_ota_state_seconds_total", [("state", p.1)], fmtG p.2))) by done.
  cbn [samples_of omap list_omap].
  rewrite (samples_map failureSample (fun p => ("zyvor_ota_health_failures_total", [("check", p.1)], FormatInt p.2))) by done.
  cbn [samples_of omap list_omap]. rewrite !fmap_cons, fmap_app, !fmap_cons, fmap_app. cbn [fst fmap list_fmap].
  distinct_keys.
Qed.

(** ** The values measured while the page is written *)

Lemma s64_add a b : s64 (s64 a + b) = s64 (a + b).
Proof.
  unfold s64.
  replace ((a + 2 ^ 63) mod 2 ^ 64 - 2 ^ 63 + b + 2 ^ 63) with ((a + 2 ^ 63) mod 2 ^ 64 + b) by lia.
  rewrite Z.add_mod_idemp_l by done. do 2 f_equal. lia.
Qed.

Definition addFileBytes (root : path) (px : path * node) (n : Z) : Z :=
  match px.2 with
  | File b => if bool_decide (take (length root) px.1 = root) then blen b + n else n
  | _ => n
  end.

Lemma walkBytes_sum root l n w r w' :
  (∀ k, env_io k = None) → walkBytes root l n w = (Ret r, w') → s64 r = s64 (n + foldr (addFileBytes root) 0 l).
Proof.
  intros Hio. revert n w. induction l as [|[p x] l IH]; intros n w Hw; [injection Hw as -> _; simpl; f_equal; lia|].
  simpl in *. unfold addFileBytes at 1. cbn [fst snd]. destruct x as [b| | |]; try (by apply (IH _ _ Hw)).
  destruct (bool_decide _); [|by apply (IH _ _ Hw)].
  apply bind_returns in Hw as (k & w1 & _ & Hw). rewrite Hio in Hw. apply IH in Hw.
  rewrite Hw, s64_add. f_equal. lia.
Qed.

Lemma walkBytes_range root l n w r w' :
  walkBytes root l n w = (Ret r, w') → s64 n = n → s64 r = r.
Proof.
  revert n w. induction l as [|[p x] l IH]; intros n w Hw Hn; [by injection Hw as -> _|].
  simpl in Hw. destruct x as [b| | |]; try (by eapply IH). destruct (bool_decide _); [|by eapply IH].
  apply bind_returns in Hw as (k & w1 & _ & Hw). destruct (env_io k); [by eapply IH|].
  eapply IH; [exact Hw|]. pose proof (s64_add (n + blen b) 0) as E. by rewrite !Z.add_0_r in E.
Qed.

Lemma cacheBytes_sum dir w n w' :
  (∀ k, env_io k = None) → cacheBytes dir w = (Ret n, w') → n = s64 (filesBytes (Join dir ["cache"]) (w_fs w)).
Proof.
  intros Hio. unfold cacheBytes. intros (fs & w1 & Hv & Hw)%bind_returns. injection Hv as <- <-.
  rewrite <- (walkBytes_range _ _ _ _ _ _ Hw) by done. apply walkBytes_sum in Hw; [|done]. rewrite Hw.
  unfold filesBytes. rewrite map_fold_foldr, Z.add_0_l. f_equal. apply foldr_ext; [by intros [p x] k|done|done].
Qed.

Lemma cacheBytes_ticks dir w : (w_tick w ≤ w_tick (cacheBytes (D := D) dir w).2)%nat.
Proof.
  assert (Hp : PreOrder (fun w1 w2 : World D => (w_tick w1 ≤ w_tick w2)%nat)) by (split; intros ?; [done|intros; lia]).
  apply (walkBytes_keeps (fun w1 w2 : World D => (w_tick w1 ≤ w_tick w2)%nat)).
  intros w1. unfold tick. destruct (env_crash _); simpl; lia.
Qed.

End claim.
