(* ===== verification/Payload.v ===== *)
(** * Side payloads and health (internal/ota/payload.go, internal/ota/health.go)

    Containers, configuration bundles and models of a schema-2 release:
    installed as a set into payloads/<id>/current, with the replaced file
    kept as "previous" until the job commits or rolls back. *)
From stdpp Require Import base tactics gmap strings list.
From Stdlib Require Import ZArith Lia.
From S2P Require Import Prelude Model Config Crypto Files Backend Metrics Topo Verify World Store TrustMeta.
Local Open Scope Z_scope.

Section payload.
Context `{MapRange, Codec, Env} {D : Type}.
Abbreviation M := (Prelude.M (World D)).

(** ** LocalHealth *)

(** The probe of one check; [None] is success. *)
Definition probe (check : Check) : M (option error) :=
  n ← tick;
  if eqs (ck_Kind check) "file" || eqs (ck_Kind check) "systemd" then
    mret (match env_probe n check with Ok _ => None | Err e => Some e end)
  else if eqs (ck_Kind check) "http" then
    mret (match env_probe n check with
          | Ok code => if negb (code =? 200) then Some (errors_New "HTTP status") else None
          | Err e => Some e
          end)
  else mret (Some (errors_New "unknown health check")).

Definition HealthError (check : Check) : error :=
  mkError (ck_Kind check +:+ " health check failed")
    (Some (SentHealthError (if eqs (ck_Name check) ""
                            then ck_Kind check +:+ ":" +:+ ck_Target check else ck_Name check))).

Fixpoint LocalHealth (checks : list Check) : M unit :=
  match checks with
  | [] => mret tt
  | check :: checks =>
      r ← probe check;
      match r with
      | Some _ => fail (HealthError check)
      | None => LocalHealth checks
      end
  end.

(** ** Paths *)
Definition cachePath (stateDir sha : string) : path := Join stateDir ["cache"; sha +:+ ".raucb"].
Definition currentPath (stateDir id : string) : path := Join stateDir ["payloads"; id; "current"].
Definition previousPath (stateDir id : string) : path := Join stateDir ["payloads"; id; "previous"].

(** ** rollback and commit *)
Definition rollbackTarget (stateDir : string) (t : Target) : M unit :=
  if eqs (t_Type t) "os.rauc" then mret tt
  else
    let current := currentPath stateDir (t_ID t) in
    let previous := previousPath stateDir (t_ID t) in
    ifM (Exists previous)
      (_ ← ignore (Remove current); Rename previous current)
      (ignore (Remove current)).

Fixpoint rollbackSidePayloads (stateDir : string) (ts : list Target) : M unit :=
  match ts with
  | [] => mret tt
  | t :: ts => _ ← rollbackTarget stateDir t; rollbackSidePayloads stateDir ts
  end.

Fixpoint commitSidePayloads (stateDir : string) (ts : list Target) : M unit :=
  match ts with
  | [] => mret tt
  | t :: ts =>
      _ ← (if eqs (t_Type t) "os.rauc" then mret tt
           else ignore (Remove (previousPath stateDir (t_ID t))));
      commitSidePayloads stateDir ts
  end.

(** ** apply *)

(** The declared storage requirement against the free space. *)
Definition checkStorage (t : Target) : M unit :=
  if t_StorageBytes t >? 0 then
    _ ← syscall;
    n ← tick;
    if u64 (env_free n) <? u64 (t_StorageBytes t)
    then fail (errors_New "payload storage requirement not met") else mret tt
  else mret tt.

(** Up to and including the move of "current" to "previous". *)
Definition prepareTarget (stateDir : string) (t : Target) : M unit :=
  _ ← CheckArtifact (cachePath stateDir (a_SHA256 (t_Artifact t))) (t_Artifact t);
  _ ← syscall;   (* MkdirAll *)
  _ ← checkStorage t;
  let current := currentPath stateDir (t_ID t) in
  let previous := previousPath stateDir (t_ID t) in
  ifM (Exists current)
    (_ ← ignore (Remove previous); Rename current previous)
    (mret tt).

(** The copy and the payload's health check. *)
Definition installTarget (stateDir : string) (checks : list Check) (t : Target) : M unit :=
  _ ← copyFile (cachePath stateDir (a_SHA256 (t_Artifact t))) (currentPath stateDir (t_ID t));
  if negb (eqs (t_Health t) "") then
    let selected := filter (fun c => ck_Name c = t_Health t) checks in
    if (length selected =? 0)%nat
    then fail (errors_New ("payload health check not configured: " +:+ t_Health t))
    else LocalHealth selected
  else mret tt.

(** The loop over the ordered targets: the targets touched and the error. *)
Fixpoint apply_loop (stateDir : string) (checks : list Check) (order touched : list Target)
    : M (list Target * result unit) :=
  match order with
  | [] => mret (touched, Ok tt)
  | t :: order =>
      if eqs (t_Type t) "os.rauc" then apply_loop stateDir checks order touched
      else
        r ← try (prepareTarget stateDir t);
        match r with
        | Err e => mret (touched, Err e)
        | Ok _ =>
            let touched := touched ++ [t] in
            r ← try (installTarget stateDir checks t);
            match r with
            | Err e => mret (touched, Err e)
            | Ok _ => apply_loop stateDir checks order touched
            end
        end
  end.

Definition applySidePayloads (stateDir : string) (rel : Release) (checks : list Check) : M unit :=
  order ← lift (orderedTargets (r_Targets rel));
  '(touched, r) ← apply_loop stateDir checks order [];
  match r with
  | Ok _ => mret tt
  | Err e =>
      _ ← (if (length touched =? 0)%nat then mret tt
           else ignore (rollbackSidePayloads stateDir touched));
      fail e
  end.

End payload.

(** ** What is left on disk *)
Section payload_facts.
Context `{MapRange, Codec, Env} {D : Type}.
Implicit Types w : World D.

(** Only paths in [P] change. *)
Definition touches (P : path → Prop) w w' : Prop := ∀ q, ¬ P q → w_fs w' !! q = w_fs w !! q.

Global Instance touches_preorder (P : path → Prop) : PreOrder (touches P).
Proof. split; [done|]. intros w1 w2 w3 E1 E2 q Hq. by rewrite E2, E1. Qed.

Lemma touches_weaken (P Q : path → Prop) w w' :
  (∀ q, P q → Q q) → touches P w w' → touches Q w w'.
Proof. intros Hpq Ht q Hq. apply Ht. auto. Qed.

Lemma tick_touches (P : path → Prop) : keeps (touches P) (tick (D := D)).
Proof. intros w. unfold tick. by destruct (env_crash _). Qed.
Local Hint Resolve tick_touches : keeps.

Lemma put_touches (P : path → Prop) fs w :
  (∀ q, ¬ P q → fs !! q = w_fs w !! q) → touches P w (put_fs fs w).2.
Proof. intros Hf q Hq. by apply Hf. Qed.

Lemma syscall_touches (P : path → Prop) : keeps (touches P) (syscall (D := D)).
Proof. unfold syscall. keeps_auto. Qed.
Local Hint Resolve syscall_touches : keeps.

(** A write that follows [view_fs]. *)
Lemma view_put_touches {A} (P : path → Prop) (f : FS → M (World D) A) :
  (∀ w, touches P w (f (w_fs w) w).2) → keeps (touches P) (fs ← view_fs; f fs).
Proof. intros Hf w. apply Hf. Qed.

Lemma Remove_touches (P : path → Prop) p : P p → keeps (touches P) (Remove (D := D) p).
Proof.
  intros Hp. unfold Remove. apply keeps_bind; [apply _|eauto with keeps|intros _].
  apply view_put_touches. intros w. destruct (w_fs w !! p); [|done].
  apply put_touches. intros q Hq. by rewrite lookup_delete_ne by (by intros ->).
Qed.

Lemma Rename_touches (P : path → Prop) p q : P p → P q → keeps (touches P) (Rename (D := D) p q).
Proof.
  intros Hp Hq. unfold Rename. apply keeps_bind; [apply _|eauto with keeps|intros _].
  apply view_put_touches. intros w. destruct (w_fs w !! p); [|done].
  apply put_touches. intros x Hx. rewrite lookup_insert_ne, lookup_delete_ne by (by intros ->). done.
Qed.

Lemma ReadFile_touches (P : path → Prop) p : keeps (touches P) (ReadFile (D := D) p).
Proof. unfold ReadFile, view_fs. keeps_auto. Qed.

Lemma CheckArtifact_touches (P : path → Prop) p a : keeps (touches P) (CheckArtifact (D := D) p a).
Proof. unfold CheckArtifact, view_fs. keeps_auto. Qed.

Lemma Exists_touches (P : path → Prop) p : keeps (touches P) (World.Exists (D := D) p).
Proof. unfold World.Exists, view_fs. keeps_auto. Qed.

Lemma copyFile_touches (P : path → Prop) src dst : P dst → keeps (touches P) (copyFile (D := D) src dst).
Proof.
  intros Hd. unfold copyFile. apply keeps_bind; [apply _|apply ReadFile_touches|intros b].
  apply keeps_bind; [apply _|eauto with keeps|intros _].
  assert (Hput : ∀ x w, touches P w (put_fs (<[dst := x]> (w_fs w)) w).2).
  { intros x w. apply put_touches. intros q Hq. by rewrite lookup_insert_ne by (by intros ->). }
  assert (Hk : ∀ b', keeps (touches P) (copyTo (D := D) dst b')).
  { intros b'. apply keeps_bind; [apply _|eauto with keeps|intros n]. destruct (env_io n).
    - apply view_put_touches. intros w'. apply Hput.
    - apply view_put_touches. intros w'. unfold mbind, M_bind. simpl. etrans; [apply Hput|].
      apply syscall_touches. }
  apply view_put_touches. intros w.
  destruct (w_fs w !! dst) as [[?| | |]|]; try reflexivity;
    (unfold mbind at 1, M_bind at 1; simpl; etrans; [apply Hput|apply Hk]).
Qed.

(** The two files of a payload target. *)
Definition owns (dir : string) (t : Target) (q : path) : Prop :=
  q = currentPath dir (t_ID t) ∨ q = previousPath dir (t_ID t).

Lemma cachePath_not_owned dir sha t : ¬ owns dir t (cachePath dir sha).
Proof.
  unfold owns, cachePath, currentPath, previousPath, Join.
  by intros [E%app_inv_head|E%app_inv_head].
Qed.

Lemma cache_current dir sha id : cachePath dir sha ≠ currentPath dir id.
Proof. unfold cachePath, currentPath, Join. by intros E%app_inv_head. Qed.

Lemma owned_distinct dir t t' q : owns dir t q → owns dir t' q → t_ID t = t_ID t'.
Proof.
  unfold owns, currentPath, previousPath, Join.
  by intros [->| ->] [E%app_inv_head|E%app_inv_head]; inversion E.
Qed.

Lemma checkStorage_touches (P : path → Prop) t : keeps (touches P) (checkStorage (D := D) t).
Proof. unfold checkStorage. keeps_auto. Qed.
Local Hint Resolve CheckArtifact_touches Exists_touches checkStorage_touches : keeps.

Lemma prepareTarget_touches dir t : keeps (touches (owns dir t)) (prepareTarget (D := D) dir t).
Proof.
  assert (Hc : owns dir t (currentPath dir (t_ID t))) by (by left).
  assert (Hp : owns dir t (previousPath dir (t_ID t))) by (by right).
  unfold prepareTarget.
  repeat first [by apply Remove_touches | by apply Rename_touches | keeps_step].
Qed.

Lemma probe_touches (P : path → Prop) ck : keeps (touches P) (probe (D := D) ck).
Proof. unfold probe. keeps_auto. Qed.
Local Hint Resolve probe_touches : keeps.
Lemma LocalHealth_touches (P : path → Prop) l : keeps (touches P) (LocalHealth (D := D) l).
Proof. induction l; simpl; keeps_auto. Qed.
Local Hint Resolve LocalHealth_touches : keeps.

Lemma installTarget_touches dir cks t : keeps (touches (owns dir t)) (installTarget (D := D) dir cks t).
Proof.
  unfold installTarget. apply keeps_bind; [apply _|apply copyFile_touches; by left|]. intros _. keeps_auto.
Qed.

(** The target's file is the one the release pins. *)
Lemma copyTo_holds dst b w w' : copyTo dst b w = (Ret tt, w') → w_fs w' !! dst = Some (File b).
Proof.
  unfold copyTo. intros (n & w5 & _ & Hc)%bind_returns. destruct (env_io n).
  - by do 2 apply bind_returns in Hc as (? & ? & _ & Hc).
  - apply bind_returns in Hc as (fs & w6 & _ & Hc). apply bind_returns in Hc as (u & w7 & Hp & Hc).
    injection Hp as _ <-. apply syscall_fs in Hc. rewrite Hc. apply lookup_insert_eq.
Qed.

Lemma copyFile_holds src dst a w w' :
  src ≠ dst → holds_artifact (w_fs w) src a → copyFile src dst w = (Ret tt, w') →
  holds_artifact (w_fs w') dst a.
Proof.
  intros Hne (b & Hb & Hs & Hd) Hc. unfold copyFile in Hc. rewrite bool_decide_eq_false_2 in Hc by done.
  apply bind_returns in Hc as (b' & w1 & Hr & Hc).
  assert (b' = b) as ->.
  { unfold ReadFile, view_fs in Hr. apply bind_returns in Hr as ([] & w2 & E2 & Hr).
    apply syscall_fs in E2. apply bind_returns in Hr as (fs & w3 & Hg & Hr).
    injection Hg as <- <-. rewrite E2, Hb in Hr. by injection Hr. }
  do 2 apply bind_returns in Hc as (? & ? & _ & Hc).
  match type of Hc with match ?x with _ => _ end _ = _ => destruct x as [[?| | |]|] end; try done;
    apply bind_returns in Hc as (? & ? & _ & Hc); apply copyTo_holds in Hc; by exists b.
Qed.

Lemma prepareTarget_holds dir t w w' :
  prepareTarget dir t w = (Ret tt, w') →
  holds_artifact (w_fs w') (cachePath dir (a_SHA256 (t_Artifact t))) (t_Artifact t).
Proof.
  intros Hp. unfold prepareTarget in Hp. apply bind_returns in Hp as ([] & w1 & Hc & Hp).
  apply CheckArtifact_holds in Hc as (b & Hb & ?). exists b. split; [|done]. rewrite <- Hb.
  assert (Hk : keeps (touches (owns dir t)) (_ ← syscall (D := D);
    _ ← checkStorage t;
    ifM (World.Exists (currentPath dir (t_ID t)))
      (_ ← ignore (Remove (previousPath dir (t_ID t)));
       Rename (currentPath dir (t_ID t)) (previousPath dir (t_ID t))) (mret tt))).
  { repeat first [apply Remove_touches; by right | apply Rename_touches; [by left|by right] | keeps_step]. }
  specialize (Hk w1). rewrite Hp in Hk. apply Hk, cachePath_not_owned.
Qed.

Lemma installTarget_holds dir cks t w w' :
  holds_artifact (w_fs w) (cachePath dir (a_SHA256 (t_Artifact t))) (t_Artifact t) →
  installTarget dir cks t w = (Ret tt, w') →
  holds_artifact (w_fs w') (currentPath dir (t_ID t)) (t_Artifact t).
Proof.
  intros Hh Hi. unfold installTarget in Hi. apply bind_returns in Hi as ([] & w1 & Hc & Hi).
  apply copyFile_holds with (1 := cache_current dir _ (t_ID t)) (2 := Hh) in Hc as (b & Hb & ?). exists b. split; [|done]. rewrite <- Hb.
  set (hc := if negb _ then _ else _) in Hi.
  assert (Hk : keeps (touches (fun _ => False)) hc) by (subst hc; keeps_auto).
  specialize (Hk w1). rewrite Hi in Hk. apply Hk. by intros [].
Qed.

Definition owned_by (dir : string) (ts : list Target) (q : path) : Prop := ∃ t, t ∈ ts ∧ owns dir t q.

Lemma apply_loop_installed dir cks order touched w touched' w' :
  NoDup (ids order) → apply_loop dir cks order touched w = (Ret (touched', Ok tt), w') →
  touches (owned_by dir order) w w' ∧
  ∀ t, t ∈ order → t_Type t ≠ "os.rauc" →
    holds_artifact (w_fs w') (currentPath dir (t_ID t)) (t_Artifact t).
Proof.
  revert touched w. induction order as [|t order IH]; intros touched w Hnd Ha.
  { injection Ha as _ <-. split; [done|]. intros t Ht. inversion Ht. }
  apply NoDup_cons in Hnd as [Hni Hnd]. simpl in Ha.
  assert (Hsub : ∀ q, owned_by dir order q → owned_by dir (t :: order) q).
  { intros q (t' & Hin & Ho). exists t'. split; [by right|done]. }
  destruct (eqs (t_Type t) "os.rauc") eqn:Eos.
  { destruct (IH _ _ Hnd Ha) as [Ht Hh]. split; [exact (touches_weaken _ _ _ _ Hsub Ht)|].
    apply eqs_true in Eos. intros t' Hin Hty. inversion Hin; subst; [done|]. by apply Hh. }
  apply bind_returns in Ha as ([[]|e] & w1 & Hp & Ha); [|done]. apply try_returns in Hp.
  apply bind_returns in Ha as ([[]|e] & w2 & Hi & Ha); [|done]. apply try_returns in Hi.
  pose proof (prepareTarget_touches dir t w) as Ht1. rewrite Hp in Ht1. simpl in Ht1.
  pose proof (installTarget_touches dir cks t w1) as Ht2. rewrite Hi in Ht2. simpl in Ht2.
  apply prepareTarget_holds in Hp. apply (installTarget_holds _ _ _ _ _ Hp) in Hi as (b & Hb & Hrest).
  destruct (IH _ _ Hnd Ha) as [Ht3 Hh]. split.
  - assert (Hsub1 : ∀ q, owns dir t q → owned_by dir (t :: order) q).
    { intros q Ho. exists t. split; [left|done]. }
    etrans; [exact (touches_weaken _ _ _ _ Hsub1 Ht1)|].
    etrans; [exact (touches_weaken _ _ _ _ Hsub1 Ht2)|exact (touches_weaken _ _ _ _ Hsub Ht3)].
  - intros t' Hin Hty. inversion Hin; subst; [|by apply Hh]. exists b. split; [|done]. rewrite <- Hb.
    apply Ht3. intros (t' & Hin' & Ho). apply Hni. apply elem_of_ids.
    exists t'. split; [done|]. eapply owned_distinct; [exact Ho|by left].
Qed.

(** When [applySidePayloads] succeeds, every payload target of the release
    has its signed artifact as "current", whatever the disk did in between. *)
Theorem payloads_installed dir rel cks w w' t :
  NoDup (ids (r_Targets rel)) → applySidePayloads dir rel cks w = (Ret tt, w') →
  t ∈ r_Targets rel → t_Type t ≠ "os.rauc" →
  holds_artifact (w_fs w') (currentPath dir (t_ID t)) (t_Artifact t).
Proof.
  intros Hnd Ha Hin Hty. unfold applySidePayloads in Ha.
  destruct (topoTargets (r_Targets rel)) as [[]|e] eqn:Et.
  2: { unfold orderedTargets in Ha. rewrite Et in Ha. done. }
  destruct (orderedTargets_ok _ Hnd Et) as (order & Ho & Hperm & _). rewrite Ho in Ha.
  apply bind_returns in Ha as (o & w0 & Hg & Ha). injection Hg as <- <-.
  apply bind_returns in Ha as ([touched r] & w1 & Hl & Ha). destruct r as [[]|e]; [injection Ha as <-|].
  - eapply apply_loop_installed in Hl as [_ Hh]; [|by rewrite Hperm]. apply Hh; [|done].
    by rewrite Hperm.
  - by apply bind_returns in Ha as (? & ? & _ & Ha).
Qed.

End payload_facts.

(** ** Undoing a failed set

    On a disk that works: no system call fails and the process survives. *)
Section undo.
Context `{MapRange, Codec, Env} {D : Type}.
Implicit Types w : World D.

Definition disk_works : Prop := ∀ n, env_crash n = false ∧ env_io n = None.
Context (Hb : disk_works).

Lemma syscall_works w : syscall w = (Ret tt, set_w_tick (S (w_tick w)) w).
Proof.
  unfold syscall, tick, mbind, M_bind. destruct (Hb (w_tick w)) as [-> Hio]. by rewrite Hio.
Qed.

Lemma Exists_works p w :
  World.Exists p w = (Ret (bool_decide (is_Some (w_fs w !! p))), set_w_tick (S (w_tick w)) w).
Proof. unfold World.Exists, try, view_fs, mbind, M_bind. rewrite syscall_works. done. Qed.

Lemma ignore_Remove_works p w :
  ∃ w', ignore (Remove p) w = (Ret tt, w') ∧ w_fs w' = delete p (w_fs w).
Proof.
  unfold ignore, Remove, try, view_fs, mbind, M_bind. rewrite syscall_works. simpl.
  destruct (w_fs w !! p) eqn:E; simpl; [by eexists|]. eexists. split; [done|].
  simpl. by rewrite delete_id.
Qed.

Lemma Rename_works p q x w :
  w_fs w !! p = Some x →
  ∃ w', Rename p q w = (Ret tt, w') ∧ w_fs w' = <[q := x]> (delete p (w_fs w)).
Proof.
  intros Hx. unfold Rename, view_fs, mbind, M_bind. rewrite syscall_works. simpl. rewrite Hx.
  by eexists.
Qed.

Lemma current_previous dir id id' : currentPath dir id ≠ previousPath dir id'.
Proof. unfold currentPath, previousPath, Join. by intros E%app_inv_head. Qed.

Lemma rollbackTarget_works dir t w :
  t_Type t ≠ "os.rauc" →
  ∃ w', rollbackTarget dir t w = (Ret tt, w') ∧
    w_fs w' !! currentPath dir (t_ID t) = w_fs w !! previousPath dir (t_ID t) ∧
    w_fs w' !! previousPath dir (t_ID t) = None ∧ touches (owns dir t) w w'.
Proof.
  intros Hty%eqs_false. unfold rollbackTarget. rewrite Hty. unfold ifM, mbind at 1, M_bind at 1.
  rewrite Exists_works. set (w1 := set_w_tick _ w).
  assert (Hne : currentPath dir (t_ID t) ≠ previousPath dir (t_ID t)) by apply current_previous.
  destruct (w_fs w !! previousPath dir (t_ID t)) as [x|] eqn:E; simpl.
  - destruct (ignore_Remove_works (currentPath dir (t_ID t)) w1) as (w2 & Hr & Hf2).
    destruct (Rename_works (previousPath dir (t_ID t)) (currentPath dir (t_ID t)) x w2) as (w3 & Hr3 & Hf3).
    { by rewrite Hf2, lookup_delete_ne. }
    exists w3. unfold mbind, M_bind. rewrite Hr. split; [done|].
    rewrite Hf3, Hf2. split; [apply lookup_insert_eq|].
    split; [by rewrite lookup_insert_ne, lookup_delete_eq|]. intros q Hq. rewrite Hf3, Hf2.
    rewrite lookup_insert_ne, !lookup_delete_ne; [done|by intros <-; apply Hq; left
      |by intros <-; apply Hq; right|by intros <-; apply Hq; left].
  - destruct (ignore_Remove_works (currentPath dir (t_ID t)) w1) as (w2 & Hr & Hf2).
    exists w2. split; [done|]. rewrite Hf2. split; [by rewrite lookup_delete_eq|].
    split; [by rewrite lookup_delete_ne|].
    intros q Hq. rewrite Hf2, lookup_delete_ne; [done|]. by intros <-; apply Hq; left.
Qed.

(** Rolling back a set gives every target its previous file. *)
Lemma rollback_works dir ts w :
  NoDup (ids ts) → (∀ t, t ∈ ts → t_Type t ≠ "os.rauc") →
  ∃ w', rollbackSidePayloads dir ts w = (Ret tt, w') ∧ touches (owned_by dir ts) w w' ∧
    ∀ t, t ∈ ts → w_fs w' !! currentPath dir (t_ID t) = w_fs w !! previousPath dir (t_ID t).
Proof.
  revert w. induction ts as [|t ts IH]; intros w Hnd Hty; [exists w; split; [done|]; split; [done|]; intros t Ht; inversion Ht|].
  apply NoDup_cons in Hnd as [Hni Hnd]. cbn [rollbackSidePayloads].
  destruct (rollbackTarget_works dir t w) as (w1 & H1' & Hc & _ & Ht1); [apply Hty; left|].
  destruct (IH w1 Hnd) as (w2 & H2' & Ht2 & Hall); [intros; apply Hty; by right|].
  assert (Hother : ∀ t', t' ∈ ts → ∀ q, owns dir t' q → ¬ owns dir t q).
  { intros t' Hin q Ho Ho'. apply Hni, elem_of_ids. exists t'. split; [done|].
    by eapply owned_distinct. }
  exists w2. unfold mbind, M_bind. rewrite H1'. split; [done|]. split.
  - intros q Hq. rewrite Ht2, Ht1; [done| |].
    + intros Ho. apply Hq. exists t. split; [left|done].
    + intros (t' & Hin & Ho). apply Hq. exists t'. split; [by right|done].
  - intros t' Hin. inversion Hin; subst.
    + rewrite Ht2; [done|]. intros (t' & Hin' & Ho). eapply Hother; [done|exact Ho|by left].
    + rewrite Hall by done. apply Ht1. eapply Hother; [done|by right].
Qed.

(** The file a rollback puts back: the current one, or the previous one that
    an interrupted run left with no current file beside it. *)
Definition kept (fs : FS) (dir : string) (t : Target) : option node :=
  match fs !! currentPath dir (t_ID t) with
  | Some x => Some x
  | None => fs !! previousPath dir (t_ID t)
  end.

(** [current] moved to [previous]; nothing can fail here. *)
Lemma keep_previous_works dir t w :
  ∃ w', ifM (World.Exists (currentPath dir (t_ID t)))
      (_ ← ignore (Remove (previousPath dir (t_ID t)));
       Rename (currentPath dir (t_ID t)) (previousPath dir (t_ID t))) (mret tt) w = (Ret tt, w') ∧
    w_fs w' !! previousPath dir (t_ID t) = kept (w_fs w) dir t.
Proof.
  unfold kept, ifM, mbind at 1, M_bind at 1. rewrite Exists_works. set (w1 := set_w_tick _ w).
  destruct (w_fs w !! currentPath dir (t_ID t)) as [x|] eqn:E; simpl; [|exists w1; auto].
  destruct (ignore_Remove_works (previousPath dir (t_ID t)) w1) as (w2 & Hr & Hf2).
  destruct (Rename_works (currentPath dir (t_ID t)) (previousPath dir (t_ID t)) x w2) as (w3 & Hr3 & Hf3).
  { rewrite Hf2, lookup_delete_ne; [done|]. apply not_eq_sym, current_previous. }
  exists w3. unfold mbind, M_bind. rewrite Hr. split; [done|]. rewrite Hf3. apply lookup_insert_eq.
Qed.

Lemma CheckArtifact_works p a w :
  CheckArtifact p a w = (of_result (checkFile (w_fs w) p a), set_w_tick (S (w_tick w)) w).
Proof.
  unfold CheckArtifact, view_fs, mbind, M_bind. rewrite syscall_works. simpl.
  by destruct (checkFile _ p a) as [[]|e].
Qed.

Lemma checkStorage_works t w :
  ∃ o w', checkStorage t w = (o, w') ∧ w_fs w' = w_fs w ∧ ((∃ e, o = Fail e) ∨ o = Ret tt).
Proof.
  unfold checkStorage. destruct (_ >? _); [|eauto 10]. unfold mbind, M_bind. rewrite syscall_works.
  unfold tick. simpl. destruct (Hb (S (w_tick w))) as [Hc _]. rewrite Hc.
  destruct (_ <? _); simpl; eauto 10.
Qed.

(** [prepareTarget] fails before it moves anything, or keeps the current file
    as the previous one. *)
Lemma prepareTarget_works dir t w :
  ∃ o w', prepareTarget dir t w = (o, w') ∧
    ((∃ e, o = Fail e) ∧ w_fs w' = w_fs w ∨
     o = Ret tt ∧ w_fs w' !! previousPath dir (t_ID t) = kept (w_fs w) dir t).
Proof.
  unfold prepareTarget. unfold mbind at 1, M_bind at 1. rewrite CheckArtifact_works.
  destruct (checkFile _ _ _) as [[]|e]; simpl; [|by eauto 10].
  unfold mbind at 1, M_bind at 1. rewrite syscall_works.
  set (w2 := set_w_tick _ (set_w_tick _ w)).
  destruct (checkStorage_works t w2) as (o & w3 & E & Hf & Ho).
  unfold mbind at 1, M_bind at 1. rewrite E. change (w_fs w2) with (w_fs w) in Hf.
  destruct Ho as [[e ->]| ->]; [by eauto 10|].
  rewrite <- Hf. destruct (keep_previous_works dir t w3) as (w4 & -> & H4').
  eauto 10.
Qed.

(** The state of the loop against the files [fs0] it started from. *)
Record undoable (dir : string) (fs0 : FS) (order touched : list Target) w : Prop := {
  ud_touched : ∀ t, t ∈ touched → t_Type t ≠ "os.rauc" ∧
    w_fs w !! previousPath dir (t_ID t) = kept fs0 dir t;
  ud_rest : ∀ t q, t ∈ order → owns dir t q → w_fs w !! q = fs0 !! q;
}.

Lemma undoable_touches dir fs0 order touched t w w' :
  undoable dir fs0 order touched w → touches (fun q => q = currentPath dir (t_ID t)) w w' →
  t_ID t ∉ ids order → undoable dir fs0 order touched w'.
Proof.
  intros [Ht Hr] Hw Hni. split.
  - intros t' Hin. destruct (Ht t' Hin) as [? Hp]. split; [done|]. rewrite <- Hp. apply Hw.
    intros E. symmetry in E. by apply current_previous in E.
  - intros t' q Hin Ho. rewrite <- (Hr t' q Hin Ho). apply Hw. intros ->. apply Hni, elem_of_ids.
    exists t'. split; [done|]. eapply owned_distinct; [exact Ho|by left].
Qed.

Lemma installTarget_current dir cks t :
  keeps (touches (fun q => q = currentPath dir (t_ID t))) (installTarget (D := D) dir cks t).
Proof.
  unfold installTarget. apply keeps_bind; [apply _|by apply copyFile_touches|]. intros _.
  destruct (negb _); [|apply keeps_ret; apply _]. destruct (_ =? _)%nat; [apply keeps_fail; apply _|].
  apply LocalHealth_touches.
Qed.

Lemma nodup_mid (l1 l2 : list Target) t :
  NoDup (ids (l1 ++ t :: l2)) → NoDup (ids (l1 ++ l2)) ∧ t_ID t ∉ ids l1 ∧ t_ID t ∉ ids l2.
Proof.
  intros Hnd. rewrite <- Permutation_middle in Hnd. rewrite map_cons in Hnd.
  apply NoDup_cons in Hnd as [Hni Hnd]. rewrite map_app in Hni. set_solver.
Qed.

(** Where the loop stops, the touched targets can be undone and the others
    are as they were. *)
Lemma apply_loop_undoable dir cks fs0 order touched w touched' e w' :
  NoDup (ids (touched ++ order)) → undoable dir fs0 order touched w →
  apply_loop dir cks order touched w = (Ret (touched', Err e), w') →
  ∃ rest, undoable dir fs0 rest touched' w' ∧ NoDup (ids (touched' ++ rest)) ∧
    ∀ t, t ∈ touched ++ order → t_Type t ≠ "os.rauc" → t ∈ touched' ++ rest.
Proof.
  revert touched w. induction order as [|t order IH]; intros touched w Hnd Hu Ha; [done|].
  simpl in Ha. destruct (nodup_mid _ _ _ Hnd) as (Hnd1 & Hni1 & Hni2).
  assert (Hu1 : undoable dir fs0 order touched w).
  { destruct Hu as [? Hr]. split; [done|]. intros; eapply Hr; [by right|done]. }
  destruct (eqs (t_Type t) "os.rauc") eqn:Eos.
  { destruct (IH touched w Hnd1 Hu1 Ha) as (rest & ? & ? & Hin).
    exists rest. split; [done|]. split; [done|]. intros t' Hin' Hty. apply Hin; [|done].
    apply eqs_true in Eos. set_solver. }
  apply eqs_false in Eos. destruct (prepareTarget_works dir t w) as (o & w1 & Hp & Ho).
  apply bind_returns in Ha as (r1 & w1' & Hr1 & Ha). unfold try in Hr1. rewrite Hp in Hr1.
  destruct Ho as [[[e1 ->] Hf]|[-> Hf]]; injection Hr1 as <- <-.
  { injection Ha as <- <- <-. exists (t :: order). split; [|split; [done|by intros]].
    destruct Hu as [Ht Hr]. split; rewrite Hf; done. }
  pose proof (prepareTarget_touches dir t w) as Ht1. rewrite Hp in Ht1. simpl in Ht1.
  assert (Hu2 : undoable dir fs0 order (touched ++ [t]) w1).
  { destruct Hu as [Ht Hr]. split.
    - intros t' [Hin|Hin]%elem_of_app.
      + destruct (Ht t' Hin) as [? Hpv]. split; [done|]. rewrite <- Hpv. apply Ht1.
        intros Ho. apply Hni1, elem_of_ids. exists t'. split; [done|].
        eapply owned_distinct; [by right|exact Ho].
      + apply list_elem_of_singleton in Hin as ->. split; [done|]. rewrite Hf. unfold kept.
        rewrite (Hr t (currentPath _ _)), (Hr t (previousPath _ _)); [done|left|by right|left|by left].
    - intros t' q Hin Ho. rewrite <- (Hr t' q); [|by right|done]. apply Ht1. intros Ho'.
      apply Hni2, elem_of_ids. exists t'. split; [done|]. by eapply owned_distinct. }
  assert (Hnd2 : NoDup (ids ((touched ++ [t]) ++ order))) by (by rewrite <- app_assoc).
  apply bind_returns in Ha as (r2 & w2 & Hr2 & Ha).
  pose proof (installTarget_current dir cks t w1) as Ht2.
  pose proof (keeps_try _ _ (installTarget_current dir cks t) w1) as Ht3. rewrite Hr2 in Ht3. simpl in Ht3.
  pose proof (undoable_touches _ _ _ _ _ _ _ Hu2 Ht3 Hni2) as Hu3.
  destruct r2 as [[]|e2].
  - destruct (IH _ _ Hnd2 Hu3 Ha) as (rest & ? & ? & Hin).
    exists rest. split; [done|]. split; [done|]. intros t' Hin'. apply Hin.
    by rewrite <- app_assoc.
  - injection Ha as <- <- <-. exists order. split; [done|]. split; [done|].
    intros t' Hin' _. by rewrite <- app_assoc.
Qed.

Lemma apply_loop_no_fail dir cks order touched w e w' :
  apply_loop dir cks order touched w ≠ (Fail e, w').
Proof.
  revert touched w. induction order as [|t order IH]; intros touched w; [done|]. simpl.
  destruct (eqs _ _); [apply IH|]. unfold mbind, M_bind, try.
  destruct (prepareTarget dir t w) as [[[]|?|] w1]; try done.
  destruct (installTarget dir cks t w1) as [[[]|?|] w2]; [apply IH|done..].
Qed.

(** C34: on a working disk, when applying the payload set fails (a digest,
    a storage requirement, a health check of any target), every target is
    back at the file that was current before.  The one exception is a target
    that had no current file but had a previous one, which a run killed
    between the rename and the copy leaves behind: it either still has no
    current file or has that previous file back as its current one, never the
    payload that failed. *)
Theorem failed_payloads_restored dir rel cks w e w' t :
  NoDup (ids (r_Targets rel)) →
  applySidePayloads dir rel cks w = (Fail e, w') →
  t ∈ r_Targets rel → t_Type t ≠ "os.rauc" →
  w_fs w' !! currentPath dir (t_ID t) = w_fs w !! currentPath dir (t_ID t) ∨
  (w_fs w !! currentPath dir (t_ID t) = None ∧
   w_fs w' !! currentPath dir (t_ID t) = w_fs w !! previousPath dir (t_ID t)).
Proof.
  intros Hnd Ha Hin Hty. unfold applySidePayloads in Ha.
  destruct (topoTargets (r_Targets rel)) as [[]|e0] eqn:Et.
  2: { unfold orderedTargets in Ha. rewrite Et in Ha. injection Ha as _ <-. by left. }
  destruct (orderedTargets_ok _ Hnd Et) as (order & Ho & Hperm & _). rewrite Ho in Ha.
  unfold mbind at 1, M_bind at 1 in Ha. simpl in Ha. unfold mbind at 1, M_bind at 1 in Ha.
  destruct (apply_loop dir cks order [] w) as [[[touched r]|e1|] w1] eqn:El;
    [|by apply apply_loop_no_fail in El|done].
  destruct r as [[]|e2]; [done|].
  assert (Hno : NoDup (ids ([] ++ order))) by (simpl; by rewrite Hperm).
  eapply (apply_loop_undoable _ _ (w_fs w)) in El as (rest & [Htd Hrest] & Hndr & Hall); [|done|].
  2: { split; [intros ? Hx; inversion Hx|done]. }
  assert (Hrb : ∃ w2, (if (length touched =? 0)%nat then mret tt
      else ignore (rollbackSidePayloads dir touched)) w1 = (Ret tt, w2) ∧
      touches (owned_by dir touched) w1 w2 ∧
      ∀ t, t ∈ touched → w_fs w2 !! currentPath dir (t_ID t) = w_fs w1 !! previousPath dir (t_ID t)).
  { rewrite map_app, NoDup_app in Hndr.
    destruct (rollback_works dir touched w1) as (w2 & Hr & ? & ?); [by destruct Hndr|intros; by apply Htd|].
    destruct touched; [exists w1; split; [done|]; split; [done|]; intros ? Hx; inversion Hx|].
    exists w2. split; [|done]. change ((_ ← try (rollbackSidePayloads dir (t0 :: touched)); mret tt) w1 = (Ret tt, w2)).
    unfold try, mbind at 1, M_bind at 1. by rewrite Hr. }
  destruct Hrb as (w2 & Hr & Htch & Hcur). unfold mbind, M_bind in Ha. rewrite Hr in Ha.
  injection Ha as _ <-.
  assert (Hx : t ∈ touched ++ rest) by (apply Hall; [simpl; by rewrite Hperm|done]).
  apply elem_of_app in Hx as [Hin'|Hin'].
  - rewrite Hcur by done. destruct (Htd t Hin') as [_ ->]. unfold kept.
    destruct (w_fs w !! currentPath dir (t_ID t)); auto.
  - left. rewrite Htch; [apply (Hrest t); [done|by left]|]. intros (t' & Ht' & Ho').
    rewrite map_app, NoDup_app in Hndr. destruct Hndr as (_ & Hdis & _).
    apply (Hdis (t_ID t)); [|by apply elem_of_ids; exists t].
    apply elem_of_ids. exists t'. split; [done|]. eapply owned_distinct; [exact Ho'|by left].
Qed.

(** Rolling back twice deletes the restored payload.  [save] rolls back
    before it writes the journal, so a failed write followed by a retry loses
    the file the first rollback had put back. *)
Theorem second_rollback_deletes dir t w w1 w2 :
  t_Type t ≠ "os.rauc" →
  rollbackSidePayloads dir [t] w = (Ret tt, w1) → rollbackSidePayloads dir [t] w1 = (Ret tt, w2) →
  w_fs w1 !! currentPath dir (t_ID t) = w_fs w !! previousPath dir (t_ID t) ∧
  w_fs w2 !! currentPath dir (t_ID t) = None.
Proof.
  intros Hty H1' H2'. simpl in *. unfold mbind, M_bind in *.
  destruct (rollbackTarget_works dir t w Hty) as (x1 & E1 & Hc1 & Hp1 & _).
  rewrite E1 in H1'. injection H1' as <-.
  destruct (rollbackTarget_works dir t x1 Hty) as (x2 & E2 & Hc2 & _).
  rewrite E2 in H2'. injection H2' as <-. by rewrite Hc2, Hp1.
Qed.

End undo.
