(* ===== verification/Migration.v ===== *)
(** * Import of a JSON journal (internal/ota/store.go, [load])

    A device that was installed with an earlier agent keeps its journal in
    state.json.  Starts of the present agent move it into SQLite; any of
    them can be interrupted anywhere. *)
From stdpp Require Import base tactics gmap strings list.
From Stdlib Require Import ZArith Lia.
From S2P Require Import Prelude Model Config Crypto Files Backend Metrics Topo Verify World Store TrustMeta Payload.
Local Open Scope Z_scope.

Section import.
Context `{MapRange, Limits, JSONEncode Assignment, Codec, Env} {D : Type}.
Implicit Types (w : World D) (d : Database) (file : option Blob).

(** A start of the agent with state.json as it is; the file that is left. *)
Definition importStart (dirSafe lockFree : bool) file w : outcome bool * World D * option Blob :=
  match OpenStore dirSafe lockFree (Ok <$> file) w with
  | (Ret true, w') => (Ret true, w', None)
  | (o, w') => (o, w', file)
  end.

(** Devices reached by starts from one that has the journal [d] in
    state.json and nothing in SQLite. *)
Inductive importing d (b : Blob) : World D → option Blob → Prop :=
  | imp_before w : dk_snapshot (w_disk w) = None → importing d b w (Some b)
  | imp_start dirSafe lockFree w file o w' file' :
      importing d b w file → importStart dirSafe lockFree file w = (o, w', file') → importing d b w' file'.

(** The journal is in state.json or in SQLite. *)
Definition journal_somewhere d (b : Blob) w file : Prop :=
  dk_snapshot (w_disk w) = None ∧ file = Some b ∨
  dk_snapshot (w_disk w) = Some (marshalDB d) ∧ (file = Some b ∨ file = None).

(** What a run of [load] leaves of a journal. *)
Definition import_step d (b : Blob) (o : outcome bool) w' file : Prop :=
  journal_somewhere d b w' file ∧
  (∀ moved, o = Ret moved → dk_snapshot (w_disk w') = Some (marshalDB d) ∧ w_data w' = d).

Definition same_snapshot w w' : Prop := dk_snapshot (w_disk w') = dk_snapshot (w_disk w).
Global Instance same_snapshot_preorder : PreOrder same_snapshot.
Proof. split; unfold same_snapshot; congruence. Qed.

Lemma syscall_snapshot : keeps same_snapshot (syscall (D := D)).
Proof.
  intros w. unfold syscall, tick, mbind, M_bind. destruct (env_crash _); [done|]. by destruct (env_io _).
Qed.

Lemma syscall_data w : w_data (syscall w).2 = w_data w.
Proof. unfold syscall, tick, mbind, M_bind. destruct (env_crash _); [done|]. by destruct (env_io _). Qed.

Lemma journal_same d b w w' file : same_snapshot w w' → journal_somewhere d b w file → journal_somewhere d b w' file.
Proof. unfold same_snapshot, journal_somewhere. by intros ->. Qed.

(** The transaction of the import is all or nothing. *)
Lemma persist_import d w :
  let '(o, w') := persist d [] w in
  same_snapshot w w' ∨ dk_snapshot (w_disk w') = Some (marshalDB d).
Proof.
  unfold persist, tick, mbind, M_bind. destruct (env_crash _); [by left|].
  destruct (env_tx _); simpl; [by right|by left|by right].
Qed.

Lemma persist_ret d w u w' : persist d [] w = (Ret u, w') → dk_snapshot (w_disk w') = Some (marshalDB d).
Proof.
  unfold persist, tick, mbind, M_bind. destruct (env_crash _); [done|].
  destruct (env_tx _); simpl; [|done|done]. by intros [= _ <-].
Qed.

Context (d : Database) (b : Blob) (Hb : strictDB b = Ok d) (Hd : validateDatabase d = Ok tt).

Definition left_over (o : outcome bool) file : option Blob := match o with Ret true => None | _ => file end.

Lemma load_first w :
  dk_snapshot (w_disk w) = None →
  let '(o, w') := load (Some (Ok b)) w in import_step d b o w' (left_over o (Some b)).
Proof.
  intros Hw. unfold load, import_step, mbind, M_bind. rewrite Hb, Hd. simpl.
  pose proof (syscall_snapshot w) as Hs. unfold try.
  destruct (syscall w) as [[[]|e|] w1]; simpl in *; unfold same_snapshot in Hs;
    [|split; [left; by rewrite Hs|done]..].
  rewrite Hs, Hw. pose proof (persist_import d w1) as Hp. pose proof (persist_ret d w1) as Hr.
  destruct (persist d [] w1) as [[[]|e|] w2]; simpl.
  - specialize (Hr _ _ eq_refl). unfold modify. simpl. pose proof (syscall_snapshot (set_w_data d w2)) as Hs2.
    pose proof (syscall_data (set_w_data d w2)) as Hdata. simpl in Hdata.
    unfold same_snapshot in Hs2. simpl in Hs2. rewrite Hr in Hs2.
    destruct (syscall (set_w_data d w2)) as [[[]|e|] w3]; simpl in *.
    + split; [right; split; [done|by right]|]. intros moved _. done.
    + split; [right; split; [done|by left]|done].
    + split; [right; split; [done|by left]|done].
  - split; [|done]. destruct Hp as [Hp|Hp]; [left; unfold same_snapshot in Hp; split; [congruence|done]|right; auto].
  - split; [|done]. destruct Hp as [Hp|Hp]; [left; unfold same_snapshot in Hp; split; [congruence|done]|right; auto].
Qed.

Lemma load_again file w :
  dk_snapshot (w_disk w) = Some (marshalDB d) → file = Some b ∨ file = None →
  let '(o, w') := load (Ok <$> file) w in import_step d b o w' (left_over o file).
Proof.
  intros Hw Hf.
  assert (Hkeep : ∀ o w', same_snapshot w w' → (∀ moved, o = Ret moved → w_data w' = d) →
    import_step d b o w' (left_over o file)).
  { intros o w' Hs Hm. unfold same_snapshot in Hs. rewrite Hw in Hs. split.
    - right. split; [done|]. destruct o as [[]| |]; simpl; auto.
    - intros moved Ho. split; [done|by eapply Hm]. }
  pose proof (syscall_snapshot w) as Hs.
  destruct Hf as [->| ->]; unfold load, mbind, M_bind; simpl; rewrite ?Hb, ?Hd; simpl; unfold try;
    destruct (syscall w) as [[[]|e|] w1]; simpl in *; try (by apply Hkeep); unfold same_snapshot in Hs;
    rewrite Hs, Hw, strict_marshal; unfold modify; simpl; rewrite Hd; simpl; [|by apply Hkeep].
  pose proof (syscall_snapshot (set_w_data d w1)) as Hs2. unfold same_snapshot in Hs2. simpl in Hs2.
  pose proof (syscall_data (set_w_data d w1)) as Hdata. simpl in Hdata.
  destruct (syscall (set_w_data d w1)) as [[[]|e|] w3]; simpl in *; apply Hkeep; unfold same_snapshot; try congruence; done.
Qed.

Lemma load_import file w :
  journal_somewhere d b w file →
  let '(o, w') := load (Ok <$> file) w in import_step d b o w' (left_over o file).
Proof. intros [[Hw ->]|[Hw Hf]]; [by apply load_first|by apply load_again]. Qed.

(** An [OpenStore] that does not get to [load] leaves everything in place. *)
Lemma open_import dirSafe lockFree file w :
  journal_somewhere d b w file →
  let '(o, w') := OpenStore dirSafe lockFree (Ok <$> file) w in import_step d b o w' (left_over o file).
Proof.
  intros Hw. unfold OpenStore.
  assert (Hstep : ∀ (m : Prelude.M (World D) bool) w, journal_somewhere d b w file →
    (∀ w, journal_somewhere d b w file → let '(o, w') := m w in import_step d b o w' (left_over o file)) →
    let '(o, w') := (_ ← syscall; m) w in import_step d b o w' (left_over o file)).
  { intros m w0 H0w Hm. unfold mbind, M_bind. pose proof (syscall_snapshot w0) as Hs.
    destruct (syscall w0) as [[[]|e|] w1]; simpl in Hs.
    - apply Hm. by eapply journal_same.
    - split; [by eapply journal_same|done].
    - split; [by eapply journal_same|done]. }
  do 2 (apply Hstep; [done|]; clear w Hw; intros w Hw).
  destruct dirSafe; simpl; [|by split]. apply Hstep; [done|]. clear w Hw. intros w Hw.
  destruct lockFree; simpl; [|by split]. apply Hstep; [done|]. clear w Hw. intros w Hw.
  change (let '(o, w') := (_ ← syscall; load (Ok <$> file)) (set_w_poisoned false (set_w_data initialDatabase w)) in
    import_step d b o w' (left_over o file)).
  apply Hstep; [by eapply journal_same|]. intros w0. apply load_import.
Qed.

Lemma importStart_left dirSafe lockFree file w :
  importStart dirSafe lockFree file w =
    let '(o, w') := OpenStore dirSafe lockFree (Ok <$> file) w in (o, w', left_over o file).
Proof. unfold importStart. by destruct (OpenStore _ _ _ w) as [[[]|?|] ?]. Qed.

Lemma importing_somewhere w file : importing d b w file → journal_somewhere d b w file.
Proof.
  induction 1 as [w Hw|dirSafe lockFree w file o w' file' _ IH Hst]; [by left|].
  rewrite importStart_left in Hst. pose proof (open_import dirSafe lockFree _ _ IH) as Hi.
  destruct (OpenStore _ _ _ w) as [o1 w1]. injection Hst as <- <- <-. by destruct Hi.
Qed.

(** On a working disk a start succeeds and retires the file. *)
Lemma open_works file w :
  disk_works → (∀ n, env_tx n = TxOk) → journal_somewhere d b w file →
  (OpenStore true true (Ok <$> file) w).1 = Ret (bool_decide (is_Some file)).
Proof.
  intros Hdisk Htx Hj. unfold OpenStore, mbind, M_bind, modify. repeat (rewrite syscall_works by done; cbn [negb]).
  match goal with |- context [load _ ?x] => set (w0 := x) end.
  assert (Hj0 : journal_somewhere d b w0 file) by (by eapply journal_same). clearbody w0.
  unfold load, mbind, M_bind. destruct Hj0 as [[Hw ->]|[Hw [-> | ->]]]; simpl; rewrite ?Hb, ?Hd; simpl;
    unfold try; rewrite syscall_works by done; simpl; rewrite Hw.
  - unfold persist, tick, mbind, M_bind. simpl. destruct (Hdisk (S (w_tick w0))) as [-> _]. rewrite Htx.
    simpl. by rewrite syscall_works.
  - rewrite strict_marshal. simpl. rewrite Hd. simpl. by rewrite syscall_works.
  - rewrite strict_marshal. simpl. by rewrite Hd.
Qed.

(** C20: however many starts are interrupted and wherever, the journal of
    state.json is never lost: until it is in SQLite the file is there
    unchanged, and a start that succeeds runs on exactly that journal.  On a
    working disk the next start succeeds and retires the file. *)
Theorem import_never_loses w file dirSafe lockFree o w' file' :
  importing d b w file → importStart dirSafe lockFree file w = (o, w', file') →
  (dk_snapshot (w_disk w') = None ∧ file' = Some b ∨ dk_snapshot (w_disk w') = Some (marshalDB d)) ∧
  (∀ moved, o = Ret moved → dk_snapshot (w_disk w') = Some (marshalDB d) ∧ w_data w' = d) ∧
  (disk_works → (∀ n, env_tx n = TxOk) → dirSafe = true → lockFree = true →
   o = Ret (bool_decide (is_Some file)) ∧ file' = None).
Proof.
  intros Hi%importing_somewhere Hst. rewrite importStart_left in Hst.
  pose proof (open_import dirSafe lockFree _ _ Hi) as Hopen. pose proof (open_works file w) as Hworks.
  destruct (OpenStore dirSafe lockFree (Ok <$> file) w) as [o1 w1] eqn:Eo. injection Hst as <- <- <-.
  destruct Hopen as [Hj Hret]. split; [destruct Hj as [?|[? _]]; auto|]. split; [exact Hret|].
  intros Hdisk Htx -> ->. specialize (Hworks Hdisk Htx Hi). rewrite Eo in Hworks. simpl in Hworks. rewrite Hworks.
  split; [done|]. by destruct file.
Qed.
End import.
