(* ===== verification/Throttle.v ===== *)
(** * The bandwidth throttle (internal/ota/download.go, [bpsReader])

    The reader [fetch] puts between the connection and the file when
    bandwidth_bytes_per_sec is set: it cuts reads short and sleeps.  Copying
    through it delivers the same bytes and the same error as without it,
    which is what Download relies on, and no read returns before its time. *)
From Stdlib Require Import ZArith Lia SpecFloat.
From stdpp Require Import base tactics list numbers.
From S2P Require Import Prelude Crypto Fmt.
Local Open Scope Z_scope.

Definition fmul : float64 → float64 → float64 := SFmul 53 1024.
(** [int64(f)] of a value in range: truncation. *)
Definition int64_of (f : float64) : Z :=
  match f with
  | S754_finite s m e =>
      let n := if 0 <=? e then Zpos m * 2 ^ e else Zpos m / 2 ^ (- e) in if s then - n else n
  | _ => 0
  end.

(** ** Readers *)

(** A [Read] returns bytes, and the error that ends the stream ([None] is
    io.EOF) or nothing. *)
Definition ending : Type := option error.
Class Reader (T : Type) := read : nat → T → (bytes * option ending) * T.

(** The response body: what is left of it, how it ends, and an oracle for
    the lengths of the reads. *)
Record body := mkBody { bd_rest : bytes; bd_end : ending; bd_len : nat → nat; bd_reads : nat }.

Global Instance body_Reader : Reader body := fun len b =>
  match bd_rest b with
  | [] => (([], Some (bd_end b)), b)
  | rest =>
      let n := Nat.min len (S (bd_len b (bd_reads b))) in
      ((take n rest, None), mkBody (drop n rest) (bd_end b) (bd_len b) (S (bd_reads b)))
  end.

(** ** bpsReader *)
Record bpsReader := mkBps { br_r : body; br_bps : Z; br_sent : Z; br_t0 : time }.

(** How long the bytes sent so far must have taken. *)
Definition br_need (sent bps : Z) : duration :=
  int64_of (fmul (fdiv (float64_of sent) (float64_of bps)) (float64_of Second)).

(** [Read], with the clock at its start and after the inner read: what it
    returns, and the time it sleeps. *)
Definition bpsRead (start now : time) (len : nat) (b : bpsReader) : (bytes * option ending) * bpsReader * duration :=
  let t0 := if IsZero (br_t0 b) then start else br_t0 b in
  let len := if (0 <? br_bps b) && (Z.of_nat len >? br_bps b) then Z.to_nat (br_bps b) else len in
  let '(r, body) := read len (br_r b) in
  let sent := s64 (br_sent b + blen r.1) in
  let wait := if (0 <? br_bps b) && (0 <? sent) then s64 (br_need sent (br_bps b) - Sub now t0) else 0 in
  (r, mkBps body (br_bps b) sent t0, Z.max wait 0).

(** ** [io.Copy(f, io.LimitReader(r, n))]: what is written, and the error. *)
Section copy.
Context `{Reader T} (buf : nat).

Fixpoint io_copy (fuel n : nat) (s : T) : bytes * option error :=
  match fuel with
  | O => ([], None)
  | S fuel =>
      if (n =? 0)%nat then ([], None)
      else match read (Nat.min buf n) s with
           | ((chunk, Some e), _) => (chunk, e)
           | ((chunk, None), s) => let '(rest, e) := io_copy fuel (n - length chunk) s in (chunk ++ rest, e)
           end
  end.
End copy.

(** Copying [n] bytes of a body takes the first [n], and its end if there
    are fewer. *)
Definition copied (n : nat) (b : body) : bytes * option error :=
  (take n (bd_rest b), if (n <=? length (bd_rest b))%nat then None else bd_end b).

(** A reader that hands on a body: some of its next bytes, then its end. *)
Class HandsOn (T : Type) `{Reader T} := {
  of_body : T → body;
  hands_end : ∀ len s, bd_rest (of_body s) = [] → (read len s).1 = ([], Some (bd_end (of_body s)));
  hands_bytes : ∀ len s, (0 < len)%nat → bd_rest (of_body s) ≠ [] → ∃ k,
    (0 < k ≤ len)%nat ∧ (read len s).1 = (take k (bd_rest (of_body s)), None) ∧
    bd_rest (of_body (read len s).2) = drop k (bd_rest (of_body s)) ∧ bd_end (of_body (read len s).2) = bd_end (of_body s);
}.

Lemma io_copy_copied `{HandsOn T} buf fuel n s :
  (0 < buf)%nat → (n < fuel)%nat → io_copy buf fuel n s = copied n (of_body s).
Proof.
  intros Hbuf. revert n s. induction fuel as [|fuel IH]; intros n s Hf; [lia|]. cbn [io_copy]. unfold copied.
  destruct (Nat.eqb_spec n 0) as [->|Hn]; [done|]. destruct (decide (bd_rest (of_body s) = [])) as [E|Hne].
  - pose proof (hands_end (Nat.min buf n) s E) as Hr. destruct (read (Nat.min buf n) s) as [r s']. simpl in Hr. subst r.
    rewrite E, take_nil. simpl. by destruct n.
  - destruct (hands_bytes (Nat.min buf n) s ltac:(lia) Hne) as (k & Hk & Hr & Hrest & Hend).
    destruct (read (Nat.min buf n) s) as [r s']. simpl in Hr, Hrest, Hend. subst r.
    rewrite IH by (rewrite length_take; destruct (bd_rest (of_body s)); [done|simpl; lia]).
    unfold copied. rewrite Hrest, Hend, length_drop, length_take.
    set (l := bd_rest (of_body s)) in *. f_equal.
    + destruct (Nat.le_gt_cases k (length l)) as [Hle|Hgt].
      * rewrite Nat.min_l by lia. rewrite <- (take_drop k (take n l)) at 1.
        rewrite take_take, Nat.min_l, skipn_firstn_comm by lia. done.
      * rewrite drop_ge, take_nil, app_nil_r, !take_ge by lia. done.
    + destruct (Nat.leb_spec (n - Nat.min k (length l)) (length l - k)), (Nat.leb_spec n (length l)); done || lia.
Qed.

Global Instance body_HandsOn : HandsOn body.
Proof.
  refine {| of_body := id |}.
  - intros len b E. unfold read, body_Reader. simpl in *. by rewrite E.
  - intros len b Hlen Hne. unfold read, body_Reader. simpl in *. destruct (bd_rest b) as [|x rest] eqn:E; [done|].
    exists (Nat.min len (S (bd_len b (bd_reads b)))). split; [lia|]. done.
Defined.

(** The throttle as a reader, with its clock; sleeping moves the clock. *)
Section clocked.
Context (clock : nat → time).

Record throttled := mkThrottled { tt_reader : bpsReader; tt_tick : nat; tt_slept : duration }.

Definition tt_now (s : throttled) (i : nat) : time := clock (tt_tick s + i)%nat + tt_slept s.

#[local] Instance throttled_Reader : Reader throttled := fun len s =>
  let '(r, b, wait) := bpsRead (tt_now s 0) (tt_now s 1) len (tt_reader s) in
  (r, mkThrottled b (tt_tick s + 2) (tt_slept s + wait)).

Lemma bpsRead_inner start now len b :
  ∃ len', (len' ≤ len)%nat ∧ (0 < len → 0 < len')%nat ∧ (0 < br_bps b → Z.of_nat len' ≤ br_bps b) ∧
    (bpsRead start now len b).1.1 = (read len' (br_r b)).1 ∧ br_r (bpsRead start now len b).1.2 = (read len' (br_r b)).2.
Proof.
  unfold bpsRead. set (len' := if _ : bool then _ else len). exists len'.
  assert (Hlen : (len' ≤ len)%nat ∧ (0 < len → 0 < len')%nat ∧ (0 < br_bps b → Z.of_nat len' ≤ br_bps b)).
  { unfold len'. rewrite Z.gtb_ltb. destruct (Z.ltb_spec 0 (br_bps b)), (Z.ltb_spec (br_bps b) (Z.of_nat len)); simpl; lia. }
  destruct (read len' (br_r b)) as [r bd]. split; [apply Hlen|]. split; [apply Hlen|]. split; [apply Hlen|done].
Qed.

#[local] Instance throttled_HandsOn : HandsOn throttled.
Proof.
  refine {| of_body := fun s => br_r (tt_reader s) |}.
  - intros len s E. unfold read, throttled_Reader.
    destruct (bpsRead_inner (tt_now s 0) (tt_now s 1) len (tt_reader s)) as (len' & _ & _ & _ & Hr & _).
    destruct (bpsRead _ _ len (tt_reader s)) as [[r b] wait]. simpl in *. rewrite Hr. exact (hands_end (T := body) len' (br_r (tt_reader s)) E).
  - intros len s Hlen Hne. unfold read, throttled_Reader.
    destruct (bpsRead_inner (tt_now s 0) (tt_now s 1) len (tt_reader s)) as (len' & Hle & Hpos & _ & Hr & Hb).
    destruct (bpsRead _ _ len (tt_reader s)) as [[r b] wait]. simpl in *.
    destruct (hands_bytes (T := body) len' (br_r (tt_reader s)) ltac:(auto) Hne) as (k & Hk & H1 & H2 & H3).
    simpl in *. exists k. rewrite Hr, Hb. split; [lia|]. done.
Defined.

(** A read returns at most [bps] bytes, and not before the bytes so far are
    due. *)
Lemma bpsRead_paced start now len b :
  let '((chunk, _), b', wait) := bpsRead start now len b in
  0 < br_bps b →
  blen chunk ≤ br_bps b ∧ 0 ≤ wait ∧
  (0 < br_sent b' → - 2 ^ 63 ≤ br_need (br_sent b') (br_bps b) - Sub now (br_t0 b') < 2 ^ 63 →
   br_need (br_sent b') (br_bps b) ≤ Sub now (br_t0 b') + wait).
Proof.
  destruct (bpsRead_inner start now len b) as (len' & _ & _ & Hcap & Hr & _).
  assert (Hshape : ∀ l (bd : body), (length ((read l bd).1).1 ≤ l)%nat).
  { intros l bd. unfold read, body_Reader. destruct (bd_rest bd); simpl; [lia|]. rewrite length_take. lia. }
  specialize (Hshape len' (br_r b)). rewrite <- Hr in Hshape. revert Hshape. clear Hr. unfold bpsRead.
  destruct (read _ (br_r b)) as [[chunk e] bd]. simpl. intros Hshape Hbps.
  split; [unfold blen; specialize (Hcap Hbps); lia|]. split; [lia|]. intros Hsent Hrange.
  rewrite (proj2 (Z.ltb_lt _ _) Hbps), (proj2 (Z.ltb_lt _ _) Hsent). simpl. rewrite (s64_small (br_need _ _ - _)) by lia. lia.
Qed.

(** C25: whatever the rate, the clock, the sizes of the buffer and of the
    reads, downloading through the throttle is downloading: [io.Copy] writes
    the same bytes and ends with the same error as on the bare response
    body, namely the first [n] bytes, and the body's own end if there are
    fewer.  The copy ends: with [n] the limit, [n + 1] reads are enough. *)
Theorem throttle_transparent buf fuel n (s : throttled) :
  (0 < buf)%nat → (n < fuel)%nat →
  io_copy buf fuel n s = io_copy buf fuel n (br_r (tt_reader s)) ∧
  io_copy buf fuel n s = copied n (br_r (tt_reader s)).
Proof.
  intros Hbuf Hf. rewrite (io_copy_copied (T := throttled)), (io_copy_copied (T := body)) by done. done.
Qed.
End clocked.
