(* ===== verification/Download.v ===== *)
(** * Artifact download (internal/ota/download.go)

    Local media, the site relay and the signed origin URL; resumption of
    partial downloads; the digest-named cache. *)
From stdpp Require Import base tactics gmap strings list.
From Stdlib Require Import ZArith Lia Ascii.
From S2P Require Import Prelude Model Config Crypto Fmt Files Backend Metrics Topo Verify World Store TrustMeta Payload.
Local Open Scope Z_scope.

(** ** HTTP

    One exchange of [http.Client.Do]: the hops a redirect went through, the
    response head, the body bytes the connection delivered and whether
    reading it ended in an error. *)
Record HTTPRequest := mkRequest {
  rq_URL : string;
  rq_Range : option Z;              (* Range: bytes=N- *)
  rq_Authorization : string;
  rq_ArtifactURL : string;          (* X-Zyvor-Artifact-Url *)
}.
Record HTTPResponse := mkResponse {
  rs_hops : list URL;
  rs_StatusCode : Z;
  rs_ContentRange : string;
  rs_ContentEncoding : string;
  rs_ContentLength : Z;             (* -1 when unknown *)
  rs_Body : bytes;
  rs_BodyErr : bool;
}.
Class Net := { net_Do : nat → HTTPRequest → result HTTPResponse }.

Definition lower (c : ascii) : ascii :=
  if in_range "A" "Z" c then ascii_of_N (N_of_ascii c + 32) else c.

(** [strings.EqualFold] on ASCII host names. *)
Definition EqualFold (s t : string) : bool :=
  eqs (String.string_of_list_ascii (map lower (String.list_ascii_of_string s)))
      (String.string_of_list_ascii (map lower (String.list_ascii_of_string t))).

Definition checkURL (c : Config) (u : URL) : result unit :=
  _ ← reject_if (u_User u || negb (eqs (u_Fragment u) "") || eqs (u_Host u) "") "invalid artifact URL";
  let secure := eqs (u_Scheme u) "https" in
  let localDemo := eqs (c_Backend c) "simulator" && eqs (u_Scheme u) "http" && loopback u in
  _ ← reject_if (negb secure && negb localDemo)
        "artifact requires HTTPS (simulator permits loopback HTTP)";
  reject_if (negb (existsb (fun h => EqualFold h (u_Host u)) (c_DownloadHosts c)))
    "artifact host not allowlisted".

(** [client.CheckRedirect]: fewer than five earlier requests, allowlisted URL. *)
Fixpoint follow (c : Config) (via : nat) (hops : list URL) : bool :=
  match hops with
  | [] => true
  | u :: hops => negb (5 <=? via)%nat && is_ok (checkURL c u) && follow c (S via) hops
  end.

Definition contentRange (offset size : Z) : string :=
  "bytes " +:+ show_Z offset +:+ "-" +:+ show_Z (size - 1) +:+ "/" +:+ show_Z size.

(** The four results of [fetch]; a nil error is [None]. *)
Record fetched := mkFetched {
  ft_path : option path;
  ft_n : Z;
  ft_resumed : bool;
  ft_err : option error;
}.
Definition bad (n : Z) (resumed : bool) (e : error) : fetched := mkFetched None n resumed (Some e).
Definition badm (n : Z) (resumed : bool) (msg : string) : fetched := bad n resumed (errors_New msg).

Section download.
Context `{MapRange, NetURL, Net, Codec, Env} {D : Type}.
Abbreviation M := (Prelude.M (World D)).
Context (c : Config).

Definition finalPath (a : Artifact) : path := cachePath (c_StateDir c) (a_SHA256 a).
Definition partPath (a : Artifact) : path :=
  Join (c_StateDir c) ["cache"; a_SHA256 a +:+ ".raucb.part"].
Definition mediaPath (a : Artifact) : path :=
  Join (c_LocalMediaDir c) [a_SHA256 a +:+ ".raucb"].

Definition writeFile (p : path) (b : bytes) : M unit := fs ← view_fs; put_fs (<[p := File b]> fs).

(** Continue with [k], or leave the function on an error. *)
Definition orReturn {A} (m : M A) (n : Z) (resumed : bool) (k : A → M fetched) : M fetched :=
  r ← try m; match r with Ok a => k a | Err e => mret (bad n resumed e) end.

(** ** Local media *)

Definition localMediaFile (a : Artifact) : M (option path) :=
  if eqs (c_LocalMediaDir c) "" || negb (digestPattern (a_SHA256 a)) then mret None
  else
    let p := mediaPath a in
    _ ← syscall;
    fs ← view_fs;
    match fs !! p with
    | None => mret None
    | Some Symlink => fail (errors_New "too many levels of symbolic links")
    | Some _ => _ ← CheckArtifact p a; mret (Some p)
    end.

Fixpoint all_local (arts : list Artifact) : M bool :=
  match arts with
  | [] => mret true
  | a :: arts =>
      r ← localMediaFile a;
      match r with None => mret false | Some _ => all_local arts end
  end.

Definition artifactsLocal (arts : list Artifact) : M bool :=
  if (length arts =? 0)%nat || eqs (c_LocalMediaDir c) "" then mret false else all_local arts.

Definition stageLocal (a : Artifact) (p : path) : M fetched :=
  orReturn syscall 0 false (fun _ =>
  r ← try (CheckArtifact (finalPath a) a);
  match r with
  | Ok _ => mret (mkFetched (Some (finalPath a)) (a_Size a) false None)
  | Err _ =>
      orReturn (copyFile p (finalPath a)) 0 false (fun _ =>
      orReturn (CheckArtifact (finalPath a) a) 0 false (fun _ =>
      mret (mkFetched (Some (finalPath a)) (a_Size a) false None)))
  end).

(** [filepath.Clean] of an absolute path, and [filepath.Rel] not leaving [base]. *)
Fixpoint clean_up (acc l : path) : path :=
  match l with
  | [] => acc
  | "." :: l => clean_up acc l
  | ".." :: l => clean_up (take (length acc - 1) acc) l
  | x :: l => clean_up (acc ++ [x]) l
  end.

Definition starts_dotdot (s : string) : bool := String.prefix ".." s.

Definition inside (base p : path) : bool :=
  bool_decide (take (length base) p = base) &&
  match drop (length base) p with x :: _ => negb (starts_dotdot x) | [] => true end.

Definition fetchFile (a : Artifact) (u : URL) : M fetched :=
  if eqs (c_LocalMediaDir c) "" then mret (badm 0 false "file artifacts require local_media_dir")
  else
    let p := clean_up [] (components (u_Path u)) in
    if negb (IsAbs (u_Path u)) || negb (inside (clean_up [] (components (c_LocalMediaDir c))) p)
    then mret (badm 0 false "artifact path outside local media")
    else orReturn (CheckArtifact p a) 0 false (fun _ => stageLocal a p).

(** ** Site relay *)

(** [O_CREATE|O_TRUNC|O_NOFOLLOW], or the reason it failed. *)
Definition openTrunc (p : path) : M unit :=
  _ ← syscall; fs ← view_fs;
  match fs !! p with
  | Some Symlink => fail (errors_New "too many levels of symbolic links")
  | Some Directory => fail (errors_New "is a directory")
  | Some Special => fail (errors_New "no such device or address")
  | _ => put_fs (<[p := File []]> fs)
  end.

(** Copy at most [limit] bytes of a response body behind [old] in file [p]:
    the bytes copied and whether the copy failed. *)
Definition copyBody (p : path) (old : bytes) (limit : Z) (resp : HTTPResponse) : M (Z * bool) :=
  n ← tick;
  let got := take (Z.to_nat limit) (rs_Body resp) in
  match env_io n with
  | Some _ => _ ← writeFile p (old ++ take (env_short n) got);
              mret (blen (take (env_short n) got), true)
  | None => _ ← writeFile p (old ++ got);
            mret (blen got, rs_BodyErr resp && (blen (rs_Body resp) <? limit))
  end.

(** The relay's body, into the partial file and then the cache. *)
Definition receiveRelay (a : Artifact) (resp : HTTPResponse) : M fetched :=
  orReturn (openTrunc (partPath a)) 0 false (fun _ =>
  '(n, copyErr) ← copyBody (partPath a) [] (a_Size a + 1) resp;
  syncErr ← try syscall;
  closeErr ← try syscall;
  if copyErr || negb (is_ok syncErr) || negb (is_ok closeErr) || negb (n =? a_Size a)
  then _ ← ignore (Remove (partPath a));
       mret (badm 0 false "relay artifact digest mismatch")
  else
    r ← try (CheckArtifact (partPath a) a);
    match r with
    | Err e => _ ← ignore (Remove (partPath a)); mret (bad 0 false e)
    | Ok _ =>
        r ← try (Rename (partPath a) (finalPath a));
        match r with
        | Err e => _ ← ignore (Remove (partPath a)); mret (bad 0 false e)
        | Ok _ => mret (mkFetched (Some (finalPath a)) n false None)
        end
    end).

(** [(path, n, ok, err)]: [None] is "ask the origin instead". *)
Definition fetchFromRelay (a : Artifact) : M (option fetched) :=
  r ← try (ReadFile (components (c_RelayTokenFile c)));
  match r with
  | Err e => mret (Some (bad 0 false e))
  | Ok raw =>
      if eqs (TrimSpace raw) "" then mret (Some (badm 0 false "empty relay token"))
      else match url_Parse (c_RelayURL c) with
      | None => mret (Some (badm 0 false "relay url"))
      | Some u =>
          n ← tick;
          match net_Do n (mkRequest (u_Scheme u +:+ "://" +:+ u_Host u +:+ "/artifacts/" +:+ a_SHA256 a)
                            None ("Bearer " +:+ TrimSpace raw) (a_URL a)) with
          | Err _ => mret None
          | Ok resp =>
              if negb (length (rs_hops resp) =? 0)%nat then mret None
              else if (rs_StatusCode resp =? 401) || (rs_StatusCode resp =? 403)
              then mret (Some (badm 0 false "relay unauthorized"))
              else if negb (rs_StatusCode resp =? 200) then mret None
              else
                f ← receiveRelay a resp;
                mret (Some f)
          end
      end
  end.

(** ** Origin *)

(** [finishDownload]: sync, close, rename, sync the directory. *)
Definition finishDownload (part final : path) : M unit :=
  _ ← syscall; _ ← syscall; _ ← Rename part final; _ ← syscall; syscall.

(** [f.Truncate(0)] *)
Definition truncate (p : path) : M unit := _ ← syscall; writeFile p [].

(** Open the partial file; its content. *)
Definition openPart (p : path) : M bytes :=
  _ ← syscall; fs ← view_fs;
  match fs !! p with
  | Some (File b) => _ ← syscall; mret b
  | Some Symlink => fail (errors_New "too many levels of symbolic links")
  | Some Directory => fail (errors_New "is a directory")
  | Some Special => _ ← syscall; fail (errors_New "cache entry is not a regular file")
  | None => _ ← put_fs (<[p := File []]> fs); _ ← syscall; mret []
  end.

(** The response head: where the body goes, or an error. *)
Definition acceptResponse (a : Artifact) (offset : Z) (resp : HTTPResponse)
    : M (fetched + (bytes → bytes) * Z * bool) :=
  let resumed := offset >? 0 in
  if rs_StatusCode resp =? 200 then
    r ← try (truncate (partPath a));
    match r with
    | Err e => mret (inl (bad 0 false e))
    | Ok _ => mret (inr ((fun _ => []), 0, false))
    end
  else if rs_StatusCode resp =? 206 then
    if negb (eqs (rs_ContentRange resp) (contentRange offset (a_Size a)))
    then mret (inl (badm 0 true "invalid Content-Range"))
    else mret (inr ((fun old => old), offset, resumed))
  else mret (inl (badm 0 resumed "artifact HTTP status")).

(** The body: copy, sync, size and digest checks, rename into the cache. *)
Definition receiveBody (a : Artifact) (old : bytes) (offset : Z) (resumed : bool)
    (resp : HTTPResponse) : M fetched :=
  if negb (eqs (rs_ContentEncoding resp) "") && negb (eqs (rs_ContentEncoding resp) "identity")
  then mret (badm 0 resumed "unexpected content encoding")
  else if (rs_ContentLength resp >=? 0) && negb (rs_ContentLength resp =? a_Size a - offset)
  then mret (badm 0 resumed "artifact Content-Length mismatch")
  else orReturn syscall 0 resumed (fun _ =>
    '(n, copyErr) ← copyBody (partPath a) old (a_Size a - offset + 1) resp;
    syncErr ← try syscall;
    if n >? a_Size a - offset then
      _ ← ignore (truncate (partPath a));
      mret (badm n resumed "artifact exceeds signed size")
    else if (copyErr : bool) then mret (badm n resumed "artifact transfer interrupted; partial retained")
    else match syncErr with
    | Err e => mret (bad n resumed e)
    | Ok _ =>
        if negb (n =? a_Size a - offset)
        then mret (badm n resumed "artifact transfer truncated; partial retained")
        else
          r ← try (CheckArtifact (partPath a) a);
          match r with
          | Err e => _ ← ignore (truncate (partPath a)); mret (bad n resumed e)
          | Ok _ =>
              orReturn (finishDownload (partPath a) (finalPath a)) n resumed (fun _ =>
              mret (mkFetched (Some (finalPath a)) n resumed None))
          end
    end).

Definition request (a : Artifact) (old : bytes) (offset : Z) : M fetched :=
  orReturn syscall 0 false (fun _ =>    (* statfs *)
  n ← tick;
  if u64 (env_free n) <? u64 (u64 (a_Size a - offset) + c_ReserveBytes c)
  then mret (badm 0 false "insufficient cache space")
  else
    n ← tick;
    let resumed := offset >? 0 in
    match net_Do n (mkRequest (a_URL a) (if resumed then Some offset else None) "" "") with
    | Err _ => mret (badm 0 resumed "artifact request failed")
    | Ok resp =>
        if negb (follow c 1 (rs_hops resp)) then mret (badm 0 resumed "artifact request failed")
        else
          r ← acceptResponse a offset resp;
          match r with
          | inl f => mret f
          | inr (keep, offset, resumed) => receiveBody a (keep old) offset resumed resp
          end
    end).

(** The partial file: discard, finish or resume. *)
Definition resumePart (a : Artifact) : M fetched :=
  orReturn (openPart (partPath a)) 0 false (fun old =>
  if blen old >? a_Size a then
    orReturn (truncate (partPath a)) 0 false (fun _ => request a [] 0)
  else if blen old =? a_Size a then
    r ← try (CheckArtifact (partPath a) a);
    match r with
    | Ok _ =>
        orReturn (finishDownload (partPath a) (finalPath a)) 0 false (fun _ =>
        mret (mkFetched (Some (finalPath a)) (a_Size a) true None))
    | Err _ => orReturn (truncate (partPath a)) 0 false (fun _ => request a [] 0)
    end
  else request a old (blen old)).

(** Remove a stale cache entry, then the partial file. *)
Definition fetchOrigin (a : Artifact) : M fetched :=
  r ← try (Remove (finalPath a));
  match r with
  | Err e =>
      match err_is e with
      | Some SentNotExist => resumePart a
      | _ => mret (bad 0 false e)
      end
  | Ok _ => resumePart a
  end.

(** ** fetch *)
Definition fetch (a : Artifact) : M fetched :=
  orReturn (localMediaFile a) 0 false (fun local =>
  match local with
  | Some p => stageLocal a p
  | None =>
      match url_Parse (a_URL a) with
      | None => mret (badm 0 false "parse artifact URL")
      | Some u =>
          if eqs (u_Scheme u) "file" then fetchFile a u
          else match checkURL c u with
          | Err e => mret (bad 0 false e)
          | Ok _ =>
              if negb (digestPattern (a_SHA256 a)) || (a_Size a <=? 0)
                 || (a_Size a >? c_MaxArtifactBytes c)
              then mret (badm 0 false "invalid artifact")
              else orReturn syscall 0 false (fun _ =>    (* MkdirAll *)
                r ← try (CheckArtifact (finalPath a) a);
                match r with
                | Ok _ => mret (mkFetched (Some (finalPath a)) (a_Size a) false None)
                | Err _ =>
                    relay ← (if negb (eqs (c_RelayURL c) "") then fetchFromRelay a else mret None);
                    match relay with
                    | Some f => mret f
                    | None => fetchOrigin a
                    end
                end)
          end
      end
  end).

End download.

(** ** Integrity of the cache *)
Section integrity.
Context `{MapRange, NetURL, Net, Codec, Env} {D : Type}.
Abbreviation M := (Prelude.M (World D)).
Context (c : Config).
Implicit Types w : World D.

Lemma finishDownload_holds p q a w x w' :
  holds_artifact (w_fs w) p a → finishDownload p q w = (Ret x, w') → holds_artifact (w_fs w') q a.
Proof.
  intros Hh Hf. unfold finishDownload in Hf.
  apply bind_returns in Hf as ([] & w1 & E1 & Hf). apply syscall_fs in E1.
  apply bind_returns in Hf as ([] & w2 & E2 & Hf). apply syscall_fs in E2.
  rewrite <- E1, <- E2 in Hh. apply bind_returns in Hf as ([] & w3 & Hr & Hf).
  apply (Rename_holds _ _ _ _ _ _ Hh) in Hr.
  apply bind_returns in Hf as ([] & w4 & E4 & Hf). apply syscall_fs in E4. apply syscall_fs in Hf.
  by rewrite Hf, E4.
Qed.

(** The promise of [fetch]: without an error, the file is the artifact. *)
Definition delivered (a : Artifact) (f : fetched) w : Prop :=
  ft_err f = None → ft_path f = Some (finalPath c a) ∧ holds_artifact (w_fs w) (finalPath c a) a.

Definition delivers (a : Artifact) (m : M fetched) : Prop :=
  ∀ w f w', m w = (Ret f, w') → delivered a f w'.

Lemma delivers_bind {A} a (m : M A) (k : A → M fetched) :
  (∀ x, delivers a (k x)) → delivers a (m ≫= k).
Proof. intros Hk w f w' (x & w1 & _ & E)%bind_returns. by eapply Hk. Qed.

Lemma delivers_bad a f : ft_err f ≠ None → delivers a (mret f).
Proof. intros Hf w f' w' [= <- <-] He. done. Qed.

Lemma delivers_return a n resumed w f w' :
  holds_artifact (w_fs w) (finalPath c a) a →
  (mret (mkFetched (Some (finalPath c a)) n resumed None) : M fetched) w = (Ret f, w') →
  delivered a f w'.
Proof. intros Hh [= <- <-] _. done. Qed.

Lemma delivers_orReturn {A} a (m : M A) n resumed (k : A → M fetched) :
  (∀ x, delivers a (k x)) → delivers a (orReturn m n resumed k).
Proof.
  intros Hk. unfold orReturn. apply delivers_bind. intros [x|e]; [apply Hk|by apply delivers_bad].
Qed.

(** A file that passes [CheckArtifact] in the cache may be returned. *)
Lemma delivers_checked a (k : result unit → M fetched) n resumed :
  k (Ok tt) = mret (mkFetched (Some (finalPath c a)) n resumed None) →
  (∀ e, delivers a (k (Err e))) → delivers a (try (CheckArtifact (finalPath c a) a) ≫= k).
Proof.
  intros Hok He w f w' (r & w1 & Ht & Hk)%bind_returns. destruct r as [[]|e]; [|by eapply He].
  rewrite Hok in Hk. eapply delivers_return; [|exact Hk].
  by eapply CheckArtifact_holds, try_returns.
Qed.

(** A partial file that passes [CheckArtifact] may be moved into the cache. *)
Lemma delivers_part {A} a p (mv : M A) (k : result unit → M fetched) (fin : result A → M fetched) n resumed :
  (∀ w x w', holds_artifact (w_fs w) p a → mv w = (Ret x, w') →
     holds_artifact (w_fs w') (finalPath c a) a) →
  k (Ok tt) = try mv ≫= fin →
  (∀ x, fin (Ok x) = mret (mkFetched (Some (finalPath c a)) n resumed None)) →
  (∀ e, delivers a (fin (Err e))) → (∀ e, delivers a (k (Err e))) →
  delivers a (try (CheckArtifact p a) ≫= k).
Proof.
  intros Hmv Hok Hfin Hfe He w f w' (r & w1 & Ht & Hk)%bind_returns. destruct r as [[]|e]; [|by eapply He].
  apply try_returns, CheckArtifact_holds in Ht. rewrite Hok in Hk.
  apply bind_returns in Hk as (r & w2 & Hm & Hk). destruct r as [x|e]; [|by eapply Hfe].
  rewrite Hfin in Hk. eapply delivers_return; [|exact Hk]. by eapply Hmv, try_returns.
Qed.

Local Ltac deliver :=
  cbv beta iota;
  repeat match goal with
  | |- delivers _ (mret (bad _ _ _)) => by apply delivers_bad
  | |- delivers _ (mret (badm _ _ _)) => by apply delivers_bad
  | |- delivers _ (orReturn _ _ _ _) => apply delivers_orReturn; intros ?
  | |- delivers _ (if ?b then _ else _) => destruct b
  | |- delivers _ (let '_ := ?x in _) => destruct x
  | |- delivers _ (match ?x with _ => _ end) => destruct x
  | |- delivers _ (_ ≫= _) => apply delivers_bind; intros ?
  end.

Lemma stageLocal_delivers a p : delivers a (stageLocal c a p).
Proof.
  unfold stageLocal. apply delivers_orReturn. intros _.
  eapply delivers_checked; [done|]. intros e.
  apply delivers_orReturn. intros _. unfold orReturn.
  eapply delivers_checked; [done|]. intros e'. by apply delivers_bad.
Qed.

Lemma fetchFile_delivers a u : delivers a (fetchFile c a u).
Proof. unfold fetchFile. deliver. apply stageLocal_delivers. Qed.

Lemma receiveBody_delivers a old off resumed resp : delivers a (receiveBody c a old off resumed resp).
Proof.
  unfold receiveBody. do 2 (destruct (_ && _); [by apply delivers_bad|]).
  apply delivers_orReturn. intros _. apply delivers_bind. intros [n copyErr].
  apply delivers_bind. intros syncErr. destruct (_ >? _); [deliver|]. destruct copyErr; [deliver|].
  destruct syncErr; [|deliver]. destruct (negb _); [deliver|]. unfold orReturn.
  eapply delivers_part; [intros ? ? ?; apply finishDownload_holds|done|done| |]; intros e; deliver.
Qed.

Lemma request_delivers a old off : delivers a (request c a old off).
Proof.
  unfold request. apply delivers_orReturn. intros _. apply delivers_bind. intros n.
  destruct (_ <? _); [deliver|]. apply delivers_bind. intros n'. destruct (net_Do _ _); [|deliver].
  destruct (negb _); [deliver|].
  intros w f w' (r & w1 & Ha & Hk)%bind_returns.
  destruct r as [f'|[[keep off'] resumed]]; [|by eapply receiveBody_delivers].
  injection Hk as <- <-. intros Hnone. exfalso. unfold acceptResponse in Ha.
  destruct (_ =? 200).
  - apply bind_returns in Ha as (r & w2 & _ & Ha). destruct r; by inversion Ha; subst.
  - destruct (_ =? 206); [destruct (negb _)|]; by inversion Ha; subst.
Qed.

Lemma resumePart_delivers a : delivers a (resumePart c a).
Proof.
  unfold resumePart. apply delivers_orReturn. intros old. destruct (_ >? _).
  { apply delivers_orReturn. intros _. apply request_delivers. }
  destruct (_ =? _); [|apply request_delivers]. unfold orReturn at 1.
  eapply delivers_part; [intros ? ? ?; apply finishDownload_holds|done|done| |]; intros e; deliver.
  apply request_delivers.
Qed.

Lemma fetchOrigin_delivers a : delivers a (fetchOrigin c a).
Proof. unfold fetchOrigin. deliver; apply resumePart_delivers. Qed.

Lemma receiveRelay_delivers a resp : delivers a (receiveRelay c a resp).
Proof.
  unfold receiveRelay. apply delivers_orReturn. intros _. apply delivers_bind. intros [n copyErr].
  do 2 (apply delivers_bind; intros ?). destruct (_ || _); [deliver|].
  eapply delivers_part; [intros ? ? ?; apply Rename_holds|done|done| |]; intros e; deliver.
Qed.

Lemma fetchFromRelay_delivers a w f w' :
  fetchFromRelay c a w = (Ret (Some f), w') → delivered a f w'.
Proof.
  unfold fetchFromRelay. intros (r & w1 & _ & Hk)%bind_returns.
  assert (Hbad : ∀ n b e w2, (mret (Some (bad n b e)) : M (option fetched)) w2 = (Ret (Some f), w') →
      delivered a f w') by (by intros n b e w2 [= <- <-]).
  destruct r as [raw|e]; [|by eapply Hbad]. destruct (eqs _ _); [by eapply Hbad|].
  destruct (url_Parse _); [|by eapply Hbad]. apply bind_returns in Hk as (n & w2 & _ & Hk).
  destruct (net_Do _ _) as [resp|]; [|done]. destruct (negb _); [done|].
  destruct (_ || _); [by eapply Hbad|]. destruct (negb _); [done|].
  apply bind_returns in Hk as (f' & w3 & Hr & Hk). injection Hk as <- <-.
  by eapply receiveRelay_delivers.
Qed.

Lemma fetch_delivers a : delivers a (fetch c a).
Proof.
  unfold fetch. apply delivers_orReturn. intros [p|]; [apply stageLocal_delivers|].
  destruct (url_Parse _) as [u|]; [|deliver]. destruct (eqs _ _); [apply fetchFile_delivers|].
  destruct (checkURL c u); [|deliver]. destruct (_ || _); [deliver|].
  apply delivers_orReturn. intros _. eapply delivers_checked; [done|]. intros e.
  intros w f w' (relay & w1 & Hr & Hk)%bind_returns. destruct relay as [f'|].
  - injection Hk as <- <-. destruct (negb _); [by eapply fetchFromRelay_delivers|done].
  - by eapply fetchOrigin_delivers.
Qed.

(** C24: whatever the server, the relay, the network and the disk do, when
    [fetch] returns no error the cache file it names has exactly the signed
    size and SHA-256 digest. *)
Theorem fetch_integrity a w f w' :
  fetch c a w = (Ret f, w') → ft_err f = None →
  ft_path f = Some (finalPath c a) ∧ holds_artifact (w_fs w') (finalPath c a) a.
Proof. apply fetch_delivers. Qed.

End integrity.
