(* ===== verification/Relay.v ===== *)
(** * Site relay (internal/relay/relay.go, cmd/zyvor-relay/main.go)

    A content-addressed cache that authenticated agents ask before the
    origin.  Its world is the cache directory, the fetch counter and the log
    of URLs it asked; the disk, the origin and the moment of a crash are an
    oracle. *)
From stdpp Require Import base tactics gmap strings list.
From Stdlib Require Import ZArith Lia Ascii.
From S2P Require Import Prelude Model Config Crypto Files Verify Download.
Local Open Scope Z_scope.

Record RelayWorld := mkRelayWorld {
  ry_tick : nat;
  ry_files : gmap string bytes;     (* the regular files of Dir *)
  ry_fetches : Z;                   (* an int *)
  ry_contacts : list string;        (* URLs requested from an origin *)
}.

Definition set_ry_tick (n : nat) (w : RelayWorld) : RelayWorld :=
  mkRelayWorld n (ry_files w) (ry_fetches w) (ry_contacts w).
Definition set_ry_files (m : gmap string bytes) (w : RelayWorld) : RelayWorld :=
  mkRelayWorld (ry_tick w) m (ry_fetches w) (ry_contacts w).
Definition set_ry_fetches (n : Z) (w : RelayWorld) : RelayWorld :=
  mkRelayWorld (ry_tick w) (ry_files w) n (ry_contacts w).
Definition set_ry_contacts (l : list string) (w : RelayWorld) : RelayWorld :=
  mkRelayWorld (ry_tick w) (ry_files w) (ry_fetches w) l.

(** A response body: its bytes, and whether reading it ends in an error. *)
Abbreviation stream := (bytes * bool)%type.

Class RelayEnv := {
  re_crash : nat → bool;
  re_io : nat → option error;
  re_short : nat → nat;
  re_Do : nat → string → result (Z * stream);            (* GET; redirects are errors *)
  re_Upstream : option (nat → string → result stream);   (* Server.Upstream *)
}.

Record relayRq := mkRelayRq {
  ry_method : string;
  ry_path : list string;
  ry_auth : string;         (* Authorization *)
  ry_url : string;          (* X-Zyvor-Artifact-Url *)
}.
Record relayRs := mkRelayRs { ry_status : Z; ry_body : bytes }.

(** The configured server. *)
Record RelayServer := mkRelay { rl_Token : string; rl_OriginHosts : list string }.

(** ** Helpers *)

(** [for _, c := range s] after the length test. *)
Definition validDigest (s : string) : bool :=
  if negb (String.length s =? 64)%nat then false
  else forallb (fun c => negb (negb (in_range "0" "9" c) && negb (in_range "a" "f" c)))
         (String.list_ascii_of_string s).

Definition CutPrefix (s prefix : string) : option string :=
  if String.prefix prefix s
  then Some (String.substring (String.length prefix) (String.length s - String.length prefix) s)
  else None.

Definition relay_authorize (srv : RelayServer) (auth : string) : bool :=
  if eqs (rl_Token srv) "" then false
  else match CutPrefix auth "Bearer " with
  | Some got => eqs got (rl_Token srv)
  | None => false
  end.

Fixpoint hostAllowed (hosts : list string) (host : string) : bool :=
  match hosts with
  | [] => false
  | h :: hosts => if EqualFold (TrimSpace (to_bytes h)) host then true else hostAllowed hosts host
  end.

Definition ErrNoUpstream : error := errors_New "upstream disabled".

(** The checks of [origin] before it asks anybody. *)
Definition origin_url `{NetURL} (srv : RelayServer) (header : string) : result string :=
  let raw := TrimSpace (to_bytes header) in
  if eqs raw "" || (length (rl_OriginHosts srv) =? 0)%nat then Err ErrNoUpstream
  else match url_Parse raw with
  | None => Err ErrNoUpstream
  | Some u =>
      if u_User u || eqs (u_Host u) "" || negb (eqs (u_RawQuery u) "") || negb (eqs (u_Fragment u) "")
      then Err ErrNoUpstream
      else
        let local := eqs (u_Scheme u) "http" && loopback u in
        if negb (eqs (u_Scheme u) "https") && negb local then Err ErrNoUpstream
        else if negb (hostAllowed (rl_OriginHosts srv) (u_Host u)) then Err ErrNoUpstream
        else Ok raw
  end.

(** The hosts [main] keeps of its flag. *)
Definition originHosts (flag : string) : list string :=
  filter (fun h => h ≠ "") (map (fun h => TrimSpace (to_bytes h)) (split_comma flag)).

Definition newRelay (token origins : string) : result RelayServer :=
  if eqs token "" then errorf "token required; peers are authenticated"
  else Ok (mkRelay token (originHosts origins)).

(** ** The handler *)
Section relay.
Context `{NetURL, RelayEnv} (srv : RelayServer).
Abbreviation M := (Prelude.M RelayWorld).

Definition ry_tickM : M nat := fun w =>
  let n := ry_tick w in
  let w := set_ry_tick (S n) w in
  if re_crash n then (Died, w) else (Ret n, w).

Definition ry_syscall : M unit :=
  n ← ry_tickM; match re_io n with Some e => fail e | None => mret tt end.

Definition ry_view : M (gmap string bytes) := w ← get; mret (ry_files w).
Definition ry_put (name : string) (b : bytes) : M unit :=
  modify (fun w => set_ry_files (<[name := b]> (ry_files w)) w).

(** [os.Stat(path)] succeeded. *)
Definition ry_exists (name : string) : M bool :=
  r ← try ry_syscall; fs ← ry_view;
  mret (is_ok r && bool_decide (is_Some (fs !! name))).

(** [os.Remove(tmp)], its error ignored. *)
Definition ry_remove (name : string) : M unit :=
  r ← try ry_syscall;
  if is_ok r then modify (fun w => set_ry_files (delete name (ry_files w)) w) else mret tt.

Definition ry_rename (src dst : string) : M unit :=
  _ ← ry_syscall;
  fs ← ry_view;
  match fs !! src with
  | None => fail (errors_New "no such file or directory")
  | Some b => modify (fun w => set_ry_files (<[dst := b]> (delete src (ry_files w))) w)
  end.

Definition partName (sum : string) : string := sum +:+ ".part".

(** [os.OpenFile(tmp, O_CREATE|O_TRUNC|O_WRONLY)] *)
Definition ry_create (tmp : string) : M unit := _ ← ry_syscall; ry_put tmp [].

(** [io.Copy(f, io.TeeReader(body, h))]: the bytes hashed, and success. *)
Definition ry_copy (tmp : string) (body : stream) : M (bytes * bool) :=
  n ← ry_tickM;
  match re_io n with
  | Some _ => _ ← ry_put tmp (take (re_short n) body.1); mret (body.1, false)
  | None => _ ← ry_put tmp body.1; mret (body.1, negb body.2)
  end.

Definition noteFetch : M unit := modify (fun w => set_ry_fetches (s64 (ry_fetches w + 1)) w).

Definition origin (header : string) : M stream :=
  match origin_url srv header with
  | Err e => fail e
  | Ok raw =>
      n ← ry_tickM;
      _ ← modify (fun w => set_ry_contacts (ry_contacts w ++ [raw]) w);
      match re_Do n raw with
      | Err e => fail e
      | Ok (status, body) => if negb (status =? 200) then fail (errors_New "origin status") else mret body
      end
  end.

Definition store (sum : string) (body : stream) : M unit :=
  let tmp := partName sum in
  _ ← ry_create tmp;
  '(hashed, copied) ← ry_copy tmp body;
  closed ← try ry_syscall;
  if negb copied then _ ← ry_remove tmp; fail (errors_New "copy")
  else match closed with
  | Err e => _ ← ry_remove tmp; fail e
  | Ok _ =>
      if negb (eqs (digest hashed) sum) then _ ← ry_remove tmp; fail (errors_New "digest")
      else ry_rename tmp sum
  end.

(** The same inside [get] for a configured upstream: the error status, or
    [None] to serve. *)
Definition storeUpstream (sum : string) (body : stream) : M (option Z) :=
  let tmp := partName sum in
  r ← try (ry_create tmp);
  match r with
  | Err _ => mret (Some 500)
  | Ok _ =>
      '(hashed, copied) ← ry_copy tmp body;
      if negb copied then _ ← ignore ry_syscall; _ ← ry_remove tmp; mret (Some 502)
      else
        _ ← ignore ry_syscall;
        if negb (eqs (digest hashed) sum) then _ ← ry_remove tmp; mret (Some 502)
        else
          r ← try (ry_rename tmp sum);
          match r with Err _ => mret (Some 500) | Ok _ => mret None end
  end.

(** [http.ServeFile] for a request without range or conditions. *)
Definition serveFile (name : string) : M relayRs :=
  r ← try ry_syscall; fs ← ry_view;
  match r with
  | Err _ => mret (mkRelayRs 500 [])
  | Ok _ => match fs !! name with
            | None => mret (mkRelayRs 404 [])
            | Some b => mret (mkRelayRs 200 b)
            end
  end.

Definition fill (sum header : string) : M relayRs :=
  match re_Upstream with
  | None =>
      r ← try (origin header);
      match r with
      | Err _ => mret (mkRelayRs 404 [])
      | Ok body =>
          _ ← noteFetch;
          r ← try (store sum body);
          match r with
          | Err _ => mret (mkRelayRs 502 [])
          | Ok _ => serveFile sum
          end
      end
  | Some upstream =>
      n ← ry_tickM;
      match upstream n sum with
      | Err _ => mret (mkRelayRs 502 [])
      | Ok body =>
          _ ← noteFetch;
          r ← storeUpstream sum body;
          match r with Some status => mret (mkRelayRs status []) | None => serveFile sum end
      end
  end.

Definition relay_get (rq : relayRq) (sum : string) : M relayRs :=
  if negb (relay_authorize srv (ry_auth rq)) then mret (mkRelayRs 401 [])
  else if negb (validDigest sum) then mret (mkRelayRs 400 [])
  else
    found ← ry_exists sum;
    if (found : bool) then serveFile sum
    else
      found ← ry_exists sum;
      if (found : bool) then serveFile sum else fill sum (ry_url rq).

Definition relay_Handler (rq : relayRq) : M relayRs :=
  match ry_path rq with
  | ["artifacts"; sum] =>
      if eqs sum "" then mret (mkRelayRs 404 [])
      else if eqs (ry_method rq) "GET" then relay_get rq sum
      else if eqs (ry_method rq) "HEAD" then rs ← relay_get rq sum; mret (mkRelayRs (ry_status rs) [])
      else mret (mkRelayRs 405 [])
  | _ => mret (mkRelayRs 404 [])
  end.
End relay.

(** ** Facts *)

(** The relay and the agent accept the same digests. *)
Lemma validDigest_pattern s : validDigest s = digestPattern s.
Proof.
  unfold validDigest, digestPattern, is_lower_hex. destruct (String.length s =? 64)%nat; simpl; [|done].
  induction (String.list_ascii_of_string s) as [|c l IH]; simpl; [done|]. rewrite IH. f_equal.
  by destruct (in_range "0" "9" c), (in_range "a" "f" c).
Qed.

(** A partial file is never taken for a cached one. *)
Lemma partName_invalid sum : validDigest (partName sum) = false.
Proof.
  unfold validDigest. destruct (negb _); [done|]. unfold partName. rewrite ascii_app, forallb_app.
  apply andb_false_r.
Qed.

(** Every cached file hashes to its name. *)
Definition cache_ok (w : RelayWorld) : Prop :=
  ∀ name b, validDigest name = true → ry_files w !! name = Some b → digest b = name.

Section facts.
Context `{NetURL, RelayEnv} (srv : RelayServer).
Abbreviation M := (Prelude.M RelayWorld).

(** What every part of the handler keeps, wherever it ends: the invariant,
    the set of cached artifacts, and a log of allowed URLs only. *)
Record relay_keeps (w w' : RelayWorld) : Prop := {
  rk_cache : cache_ok w → cache_ok w';
  rk_kept : ∀ name, validDigest name = true → is_Some (ry_files w !! name) → is_Some (ry_files w' !! name);
  rk_contacts : ∃ l, ry_contacts w' = ry_contacts w ++ l ∧
    ∀ raw, raw ∈ l → ∃ header, origin_url srv header = Ok raw;
}.

Global Instance relay_keeps_preorder : PreOrder relay_keeps.
Proof.
  split.
  - intros w. split; [done|done|]. exists []. rewrite app_nil_r. split; [done|set_solver].
  - intros w1 w2 w3 [A1 B1 (l1 & C1 & D1)] [A2 B2 (l2 & C2 & D2)]. split; [auto|auto|].
    exists (l1 ++ l2). rewrite C2, C1, app_assoc. split; [done|]. set_solver.
Qed.

(** Changes to files that are not named by a digest. *)
Lemma part_keeps w w' :
  ry_contacts w' = ry_contacts w →
  (∀ name, validDigest name = true → ry_files w' !! name = ry_files w !! name) → relay_keeps w w'.
Proof.
  intros Hc Hf. split.
  - intros Hok name b Hv. rewrite Hf by done. by apply Hok.
  - intros name Hv. by rewrite Hf.
  - exists []. rewrite Hc, app_nil_r. split; [done|set_solver].
Qed.

Lemma tick_keeps : keeps relay_keeps ry_tickM.
Proof. intros w. unfold ry_tickM. destruct (re_crash _); by apply part_keeps. Qed.
Local Hint Resolve tick_keeps : keeps.
Lemma syscall_keeps : keeps relay_keeps ry_syscall.
Proof. unfold ry_syscall. keeps_auto. Qed.
Local Hint Resolve syscall_keeps : keeps.
Lemma put_keeps sum b : keeps relay_keeps (ry_put (partName sum) b).
Proof.
  intros w. apply part_keeps; [done|]. intros name Hv. simpl. apply lookup_insert_ne.
  intros <-. by rewrite partName_invalid in Hv.
Qed.
Local Hint Resolve put_keeps : keeps.
Lemma remove_keeps sum : keeps relay_keeps (ry_remove (partName sum)).
Proof.
  unfold ry_remove. apply keeps_bind; [apply _|keeps_auto|intros r]. destruct (is_ok r); [|keeps_auto].
  intros w. apply part_keeps; [done|]. intros name Hv. simpl. apply lookup_delete_ne.
  intros <-. by rewrite partName_invalid in Hv.
Qed.
Lemma note_keeps : keeps relay_keeps noteFetch.
Proof. intros w. by apply part_keeps. Qed.
Lemma view_keeps : keeps relay_keeps ry_view.
Proof. unfold ry_view. keeps_auto. Qed.
Local Hint Resolve remove_keeps note_keeps view_keeps : keeps.
Lemma create_keeps sum : keeps relay_keeps (ry_create (partName sum)).
Proof. unfold ry_create. keeps_auto. Qed.
Lemma copy_keeps sum body : keeps relay_keeps (ry_copy (partName sum) body).
Proof. unfold ry_copy. keeps_auto. Qed.
Lemma exists_keeps name : keeps relay_keeps (ry_exists name).
Proof. unfold ry_exists. keeps_auto. Qed.
Lemma serve_keeps name : keeps relay_keeps (serveFile name).
Proof. unfold serveFile. keeps_auto. Qed.
Local Hint Resolve create_keeps copy_keeps exists_keeps serve_keeps : keeps.

Lemma origin_keeps header : keeps relay_keeps (origin srv header).
Proof.
  unfold origin. destruct (origin_url srv header) as [raw|e] eqn:E; [|keeps_auto].
  apply keeps_bind; [apply _|keeps_auto|intros n]. apply keeps_bind; [apply _| |intros _; keeps_auto].
  intros w. split; [done|done|]. exists [raw]. split; [done|]. intros r Hr. apply list_elem_of_singleton in Hr as ->.
  by exists header.
Qed.
Local Hint Resolve origin_keeps : keeps.

(** A partial file that hashes to the name it is moved to. *)
Lemma rename_keeps sum b w :
  ry_files w !! partName sum = Some b → digest b = sum → relay_keeps w (ry_rename (partName sum) sum w).2.
Proof.
  intros Hb Hd. unfold ry_rename, ry_view, mbind, M_bind, get, mret, M_ret.
  pose proof (syscall_keeps w) as Hk.
  assert (Hf : ry_files (ry_syscall w).2 = ry_files w).
  { unfold ry_syscall, ry_tickM, mbind, M_bind. destruct (re_crash _); [done|]. by destruct (re_io _). }
  destruct (ry_syscall w) as [[u|e|] w1]; simpl in *; [|done..]. rewrite Hf, Hb. simpl. etrans; [exact Hk|].
  split; simpl; rewrite ?Hf.
  - intros Hok name c Hv Hl. simpl in Hl. rewrite ?Hf in Hl.
    apply lookup_insert_Some in Hl as [[<- <-]|[Hne Hl]]; [done|].
    apply lookup_delete_Some in Hl as [_ Hl]. apply Hok; [done|]. by rewrite Hf.
  - intros name Hv Hs. destruct (decide (sum = name)) as [->|Hne]; [rewrite lookup_insert_eq; eauto|].
    rewrite lookup_insert_ne, lookup_delete_ne by (done || intros <-; by rewrite partName_invalid in Hv). done.
  - exists []. rewrite app_nil_r. split; [done|set_solver].
Qed.

Lemma copy_copied sum body w hashed w' :
  ry_copy (partName sum) body w = (Ret (hashed, true), w') → ry_files w' !! partName sum = Some hashed.
Proof.
  unfold ry_copy. intros (n & w1 & _ & Hc)%bind_returns. destruct (re_io n);
    apply bind_returns in Hc as (u & w2 & Hp & Hc); [done|].
  injection Hc as <- _ <-. injection Hp as _ <-. apply lookup_insert_eq.
Qed.

Lemma ry_syscall_files w : ry_files (try ry_syscall w).2 = ry_files w.
Proof.
  unfold try, ry_syscall, ry_tickM, mbind, M_bind. destruct (re_crash _); [done|]. by destruct (re_io _).
Qed.

Lemma store_keeps sum body : keeps relay_keeps (store sum body).
Proof.
  unfold store. apply keeps_bind; [apply _|keeps_auto|intros _].
  apply keeps_bind_at; [apply _|keeps_auto|]. intros w0 [hashed copied] w1 Hc.
  destruct copied; [apply copy_copied in Hc|].
  - pose proof (keeps_try relay_keeps _ syscall_keeps w1) as Hk. pose proof (ry_syscall_files w1) as Hf.
    unfold mbind, M_bind. destruct (try ry_syscall w1) as [[closed|?|] w2]; simpl in *; [|done..].
    etrans; [exact Hk|]. destruct closed as [[]|e].
    + destruct (negb (eqs (digest hashed) sum)) eqn:Ed; [|reflect_bools; eapply rename_keeps; [by rewrite Hf|done]].
      pose proof (remove_keeps sum w2) as Hr. by destruct (ry_remove (partName sum) w2) as [[?|?|] ?].
    + pose proof (remove_keeps sum w2) as Hr. by destruct (ry_remove (partName sum) w2) as [[?|?|] ?].
  - revert w1 Hc. intros w1 _. simpl. revert w1.
    change (keeps relay_keeps (closed ← try ry_syscall; _ ← ry_remove (partName sum); fail (A := unit) (errors_New "copy"))).
    keeps_auto.
Qed.

Lemma storeUpstream_keeps sum body : keeps relay_keeps (storeUpstream sum body).
Proof.
  unfold storeUpstream. apply keeps_bind; [apply _|keeps_auto|]. intros r. destruct r; [|keeps_auto].
  apply keeps_bind_at; [apply _|keeps_auto|]. intros w0 [hashed copied] w1 Hc.
  destruct copied; [apply copy_copied in Hc|].
  - pose proof (keeps_try relay_keeps _ syscall_keeps w1) as Hk. pose proof (ry_syscall_files w1) as Hf.
    unfold ignore, mbind, M_bind. simpl. destruct (try ry_syscall w1) as [[closed|?|] w2]; simpl in *; [|done..].
    etrans; [exact Hk|].
    destruct (negb (eqs (digest hashed) sum)) eqn:Ed.
    + pose proof (remove_keeps sum w2) as Hr. by destruct (ry_remove (partName sum) w2) as [[?|?|] ?].
    + reflect_bools. pose proof (rename_keeps sum hashed w2) as Hr. rewrite Hf in Hr. specialize (Hr Hc Ed).
      unfold try. by destruct (ry_rename (partName sum) sum w2) as [[?|?|] ?].
  - simpl. clear Hc. revert w1.
    change (keeps relay_keeps (_ ← ignore ry_syscall; _ ← ry_remove (partName sum); mret (Some 502))).
    keeps_auto.
Qed.
Local Hint Resolve store_keeps storeUpstream_keeps : keeps.

Lemma relay_get_keeps rq sum : keeps relay_keeps (relay_get srv rq sum).
Proof. unfold relay_get, fill. keeps_auto. Qed.

Lemma relay_Handler_keeps rq : keeps relay_keeps (relay_Handler srv rq).
Proof.
  pose proof relay_get_keeps as Hg. unfold relay_Handler.
  destruct (ry_path rq) as [|p [|sum [|? ?]]]; try solve [keeps_auto].
  all: repeat match goal with |- keeps _ (match ?x with _ => _ end) => destruct x; try solve [keeps_auto] end.
  all: first [apply Hg | keeps_auto; apply Hg].
Qed.
End facts.

(** ** Claims *)
Section claims.
Context `{NetURL, RelayEnv} (srv : RelayServer).

(** The relay serves requests one fill at a time; it may die inside one and
    be started again on the same directory. *)
Inductive relay_reachable : RelayWorld → Prop :=
  | relay_fresh n : relay_reachable (mkRelayWorld n ∅ 0 [])
  | relay_request rq w : relay_reachable w → relay_reachable (relay_Handler srv rq w).2
  | relay_restart n w : relay_reachable w → relay_reachable (set_ry_tick n (set_ry_fetches 0 w)).

Lemma relay_reachable_ok w : relay_reachable w → cache_ok w ∧
  ∀ raw, raw ∈ ry_contacts w → ∃ header, origin_url srv header = Ok raw.
Proof.
  induction 1 as [n|rq w _ [IH1 IH2]|n w _ IH]; [|destruct (relay_Handler_keeps srv rq w) as [Hc _ (l & El & Hl)]|exact IH].
  - split; [intros name b _ Hb; simpl in Hb; by rewrite lookup_empty in Hb|set_solver].
  - split; [auto|]. intros raw. rewrite El. set_solver.
Qed.

Lemma serveFile_200 name w rs w' :
  serveFile name w = (Ret rs, w') → ry_status rs = 200 → ry_files w' !! name = Some (ry_body rs).
Proof.
  unfold serveFile, ry_view. intros (r & w1 & _ & Hs)%bind_returns Hst.
  apply bind_returns in Hs as (fs & w2 & Hg & Hs). injection Hg as <- <-. destruct r; [|injection Hs as <- _; done].
  destruct (ry_files w1 !! name) as [b|] eqn:E; injection Hs as <- <-; [done|done].
Qed.

Lemma storeUpstream_status sum body w st w' :
  storeUpstream sum body w = (Ret (Some st), w') → st = 500 ∨ st = 502.
Proof.
  unfold storeUpstream. intros (r & w1 & _ & Hs)%bind_returns. destruct r; [|injection Hs as <- _; auto].
  apply bind_returns in Hs as ([hashed copied] & w2 & _ & Hs). destruct copied; simpl in Hs.
  - apply bind_returns in Hs as (? & w3 & _ & Hs). destruct (negb _).
    + apply bind_returns in Hs as (? & w4 & _ & Hs). injection Hs as <- _; auto.
    + apply bind_returns in Hs as (r & w4 & _ & Hs). destruct r; [done|injection Hs as <- _; auto].
  - do 2 apply bind_returns in Hs as (? & ? & _ & Hs). injection Hs as <- _; auto.
Qed.

Lemma relay_get_200 rq sum w rs w' :
  relay_get srv rq sum w = (Ret rs, w') → ry_status rs = 200 →
  relay_authorize srv (ry_auth rq) = true ∧ validDigest sum = true ∧ ry_files w' !! sum = Some (ry_body rs).
Proof.
  unfold relay_get, fill. intros Hg Hst.
  destruct (relay_authorize srv (ry_auth rq)); [|by injection Hg as <- _].
  destruct (validDigest sum); [|by injection Hg as <- _]. split; [done|]. split; [done|]. simpl in Hg.
  revert Hg. repeat match goal with
  | |- serveFile _ _ = _ → _ => intros Hg; by eapply serveFile_200
  | |- mret _ _ = _ → _ => intros Hg; injection Hg as <- _; simpl in Hst; lia
  | |- (storeUpstream _ _ ≫= _) _ = _ → _ =>
      intros (ru & ? & Hu & Hg)%bind_returns; revert Hg; destruct ru;
      [apply storeUpstream_status in Hu; destruct Hu; subst|]
  | |- (_ ≫= _) _ = _ → _ => intros (? & ? & _ & Hg)%bind_returns; revert Hg
  | |- (let '_ := ?x in _) _ = _ → _ => destruct x
  | |- (match ?x with _ => _ end) _ = _ → _ => destruct x eqn:?
  end.
Qed.

(** Whatever upstream, network and disk do and wherever the relay dies,
    an artifact it serves with 200 hashes to the digest that was asked for,
    stays cached under it, and goes only to a caller with the token. *)
Theorem relay_serves_digest w rq sum rs w' :
  relay_reachable w → ry_path rq = ["artifacts"; sum] → ry_method rq = "GET" →
  relay_Handler srv rq w = (Ret rs, w') → ry_status rs = 200 →
  relay_authorize srv (ry_auth rq) = true ∧ digest (ry_body rs) = sum ∧
  ry_files w' !! sum = Some (ry_body rs).
Proof.
  intros Hr Hp Hm Hh Hst. pose proof (relay_Handler_keeps srv rq w) as Hk. rewrite Hh in Hk.
  unfold relay_Handler in Hh. rewrite Hp in Hh. destruct (eqs sum ""); [by injection Hh as <- _|].
  rewrite Hm in Hh. change (eqs "GET" "GET") with true in Hh. cbv iota in Hh.
  destruct (relay_get_200 _ _ _ _ _ Hh Hst) as (Ha & Hv & Hf). split; [done|]. split; [|done].
  by apply (rk_cache _ _ _ Hk (proj1 (relay_reachable_ok _ Hr))).
Qed.

Lemma hostAllowed_spec hosts host :
  hostAllowed hosts host = true → ∃ h, h ∈ hosts ∧ EqualFold (TrimSpace (to_bytes h)) host = true.
Proof.
  induction hosts as [|h hosts IH]; [done|]. simpl. destruct (EqualFold _ host) eqn:E; [exists h; set_solver|].
  intros (x & ? & ?)%IH. exists x. set_solver.
Qed.

Lemma origin_url_allowed header raw :
  origin_url srv header = Ok raw →
  ∃ u, url_Parse raw = Some u ∧ u_User u = false ∧ u_RawQuery u = "" ∧ u_Fragment u = "" ∧
    (u_Scheme u = "https" ∨ u_Scheme u = "http" ∧ loopback u = true) ∧
    ∃ h, h ∈ rl_OriginHosts srv ∧ EqualFold (TrimSpace (to_bytes h)) (u_Host u) = true.
Proof.
  unfold origin_url. destruct (_ || _); [done|]. destruct (url_Parse _) as [u|] eqn:Eu; [|done].
  destruct (u_User u || _ || _ || _) eqn:E1; [done|]. destruct (negb _ && negb _) eqn:E2; [done|].
  destruct (negb (hostAllowed _ _)) eqn:E3; [done|]. intros [= <-]. reflect_bools. exists u.
  repeat (split; [done|]). split; [|by apply hostAllowed_spec].
  apply andb_false_iff in E2 as [E2|E2]; reflect_bools; auto.
Qed.

(** The relay asks only allow-listed hosts, over HTTPS or loopback HTTP
    and without credentials, query or fragment; a request without the token
    is answered without touching anything. *)
Theorem relay_origin_policy w :
  relay_reachable w →
  (∀ raw, raw ∈ ry_contacts w →
    ∃ u, url_Parse raw = Some u ∧ u_User u = false ∧ u_RawQuery u = "" ∧ u_Fragment u = "" ∧
      (u_Scheme u = "https" ∨ u_Scheme u = "http" ∧ loopback u = true) ∧
      ∃ h, h ∈ rl_OriginHosts srv ∧ EqualFold (TrimSpace (to_bytes h)) (u_Host u) = true) ∧
  ∀ rq, relay_authorize srv (ry_auth rq) = false → (relay_Handler srv rq w).2 = w.
Proof.
  intros [_ Hc]%relay_reachable_ok. split.
  - intros raw [header Hraw]%Hc. by eapply origin_url_allowed.
  - intros rq Ha. unfold relay_Handler, relay_get, mbind, M_bind. rewrite Ha.
    repeat match goal with |- context [match ?x with _ => _ end] => destruct x; try reflexivity end.
Qed.

(** On a working disk a cached artifact is served from the cache: the
    origin is not asked, nothing is fetched and no file changes. *)
Theorem relay_serves_from_cache w rq sum b :
  (∀ n, re_io n = None) → (∀ n, re_crash n = false) →
  relay_authorize srv (ry_auth rq) = true → validDigest sum = true → ry_files w !! sum = Some b →
  ry_path rq = ["artifacts"; sum] → ry_method rq = "GET" →
  relay_Handler srv rq w = (Ret (mkRelayRs 200 b), set_ry_tick (2 + ry_tick w) w).
Proof.
  intros Hio Hcr Ha Hv Hb Hp Hm.
  assert (Hsys : ∀ w, try ry_syscall w = (Ret (Ok tt), set_ry_tick (S (ry_tick w)) w)).
  { intros w0. unfold try, ry_syscall, ry_tickM, mbind, M_bind. by rewrite Hcr, Hio. }
  unfold relay_Handler. rewrite Hp.
  assert (Hne : eqs sum "" = false) by (apply eqs_false; intros ->; done).
  rewrite Hne, Hm. change (eqs "GET" "GET") with true. cbv iota.
  unfold relay_get. rewrite Ha, Hv. simpl. unfold ry_exists, serveFile, ry_view, mbind, M_bind, get, mret, M_ret.
  rewrite Hsys. simpl. rewrite Hb. simpl. rewrite Hsys. simpl. by rewrite Hb.
Qed.
End claims.
