(* ===== verification/RelayPool.v ===== *)
(** * Concurrent requests of the site relay (internal/relay/relay.go)

    [net/http] runs [Server.get] once per request, concurrently.  A request is
    a thread that goes through the phases of [get]; the [fill] mutex has an
    owner; the scheduler picks a thread.  A thread's steps are the calls of
    Relay on the shared directory.  What [store] does is one step: until its
    rename it touches only its temporary file, which no other thread opens
    while the mutex is held. *)
From stdpp Require Import base tactics gmap strings list.
From Stdlib Require Import ZArith Lia Ascii.
From S2P Require Import Prelude Model Config Crypto Files Verify Download Relay.
Local Open Scope Z_scope.

Inductive phase :=
  | Arrived                    (* nothing checked yet *)
  | Missed                     (* the first Stat failed: waits for [fill] *)
  | Holding                    (* has [fill], before the second Stat *)
  | Filling                    (* the second Stat failed *)
  | Storing (body : stream)    (* the body is open and counted *)
  | Serving (locked : bool)    (* before ServeFile; the unlock is deferred *)
  | Answered (rs : relayRs).

Record thread := mkThread { th_rq : relayRq; th_sum : string; th_phase : phase }.

Record Pool := mkPool {
  po_world : RelayWorld;
  po_fill : option nat;        (* the thread that holds the mutex *)
  po_threads : list thread;
}.

Section pool.
Context `{NetURL, RelayEnv} (srv : RelayServer).
Abbreviation M := (Prelude.M RelayWorld).

(** The outcome of a thread's turn: its next phase, and whether it takes
    ([Some true]) or gives back ([Some false]) the mutex. *)
Abbreviation turn := (phase * option bool)%type.

Definition turn_stat (sum : string) (hit miss : phase) : M turn :=
  found ← ry_exists sum; mret (if (found : bool) then hit else miss, None).

Definition turn_arrived (t : thread) : M turn :=
  if negb (relay_authorize srv (ry_auth (th_rq t))) then mret (Answered (mkRelayRs 401 []), None)
  else if negb (validDigest (th_sum t)) then mret (Answered (mkRelayRs 400 []), None)
  else turn_stat (th_sum t) (Serving false) Missed.

(** [origin] or [Upstream], and the count. *)
Definition turn_filling (t : thread) : M turn :=
  match re_Upstream with
  | None =>
      r ← try (origin srv (ry_url (th_rq t)));
      match r with
      | Err _ => mret (Answered (mkRelayRs 404 []), Some false)
      | Ok body => _ ← noteFetch; mret (Storing body, None)
      end
  | Some upstream =>
      n ← ry_tickM;
      match upstream n (th_sum t) with
      | Err _ => mret (Answered (mkRelayRs 502 []), Some false)
      | Ok body => _ ← noteFetch; mret (Storing body, None)
      end
  end.

Definition turn_storing (t : thread) (body : stream) : M turn :=
  match re_Upstream with
  | None =>
      r ← try (store (th_sum t) body);
      mret (match r with
            | Err _ => (Answered (mkRelayRs 502 []), Some false)
            | Ok _ => (Serving true, None)
            end)
  | Some _ =>
      r ← storeUpstream (th_sum t) body;
      mret (match r with
            | Some status => (Answered (mkRelayRs status []), Some false)
            | None => (Serving true, None)
            end)
  end.

Definition turn_serving (t : thread) (locked : bool) : M turn :=
  rs ← serveFile (th_sum t); mret (Answered rs, if locked then Some false else None).

(** What a thread does when it is scheduled; a thread that waits for a held
    mutex, or has answered, does nothing. *)
Definition turn_of (t : thread) (held : bool) : option (M turn) :=
  match th_phase t with
  | Arrived => Some (turn_arrived t)
  | Missed => if held then None else Some (mret (Holding, Some true))
  | Holding => Some (turn_stat (th_sum t) (Serving true) Filling)
  | Filling => Some (turn_filling t)
  | Storing body => Some (turn_storing t body)
  | Serving locked => Some (turn_serving t locked)
  | Answered _ => None
  end.

Definition set_phase (ph : phase) (t : thread) : thread := mkThread (th_rq t) (th_sum t) ph.

(** One turn of thread [i]; [None] when it cannot move.  When the process
    dies, its requests are gone and the next one starts on the directory. *)
Definition schedule (i : nat) (p : Pool) : option Pool :=
  t ← po_threads p !! i;
  m ← turn_of t (bool_decide (is_Some (po_fill p)));
  match m (po_world p) with
  | (Ret (ph, mutex), w) =>
      Some (mkPool w (match mutex with Some true => Some i | Some false => None | None => po_fill p end)
              (<[i := set_phase ph t]> (po_threads p)))
  | (Died, w) => Some (mkPool (set_ry_fetches 0 w) None [])
  | (Fail _, _) => None
  end.

(** A GET of an artifact arrives. *)
Definition arrive (rq : relayRq) (sum : string) (p : Pool) : Pool :=
  mkPool (po_world p) (po_fill p) (po_threads p ++ [mkThread rq sum Arrived]).

Inductive pool_step (from : relayRq → string → Prop) (p : Pool) : Pool → Prop :=
  | pool_arrive rq sum : from rq sum → pool_step from p (arrive rq sum p)
  | pool_turn i p' : schedule i p = Some p' → pool_step from p p'.

(** Executions that start on a directory, with requests of a given kind. *)
Inductive pool_run (from : relayRq → string → Prop) (w : RelayWorld) : Pool → Prop :=
  | pool_start : pool_run from w (mkPool w None [])
  | pool_next p p' : pool_run from w p → pool_step from p p' → pool_run from w p'.

(** A thread that runs alone. *)
Fixpoint alone (n i : nat) (p : Pool) : option Pool :=
  match n with
  | O => Some p
  | S n => p' ← schedule i p; alone n i p'
  end.

(** ** A thread alone is a call of [get] *)

Lemma schedule_turn i p t m ph mutex w' :
  po_threads p !! i = Some t → turn_of t (bool_decide (is_Some (po_fill p))) = Some m →
  m (po_world p) = (Ret (ph, mutex), w') →
  schedule i p =
    Some (mkPool w' (match mutex with Some true => Some i | Some false => None | None => po_fill p end)
            (<[i := set_phase ph t]> (po_threads p))).
Proof. intros Ht Hm Hr. unfold schedule. rewrite Ht. simpl. rewrite Hm. simpl. by rewrite Hr. Qed.

(** The pool in which only thread [i] differs. *)
Definition with_thread (i : nat) (t : thread) (w : RelayWorld) (fill : option nat) (p : Pool) : Pool :=
  mkPool w fill (<[i := t]> (po_threads p)).

Lemma schedule_with i t w fill p m ph mutex w' :
  (i < length (po_threads p))%nat → turn_of t (bool_decide (is_Some fill)) = Some m →
  m w = (Ret (ph, mutex), w') →
  schedule i (with_thread i t w fill p) =
    Some (with_thread i (set_phase ph t) w'
            (match mutex with Some true => Some i | Some false => None | None => fill end) p).
Proof.
  intros Hi Hm Hr. erewrite schedule_turn; [|simpl; by apply list_lookup_insert_eq|exact Hm|exact Hr].
  unfold with_thread. simpl. by rewrite list_insert_insert_eq.
Qed.

Lemma alone_step n i t w fill p m ph mutex w' q :
  (i < length (po_threads p))%nat → turn_of t (bool_decide (is_Some fill)) = Some m →
  m w = (Ret (ph, mutex), w') →
  alone n i (with_thread i (set_phase ph t) w'
    (match mutex with Some true => Some i | Some false => None | None => fill end) p) = Some q →
  alone (S n) i (with_thread i t w fill p) = Some q.
Proof. intros Hi Hm Hr Hq. simpl. erewrite schedule_with by done. exact Hq. Qed.

(** The end of a thread that has to serve the file. *)
Lemma alone_serves i t (locked : bool) w fill p rs w' :
  (i < length (po_threads p))%nat → fill = (if locked then Some i else None) →
  serveFile (th_sum t) w = (Ret rs, w') →
  alone 1 i (with_thread i (set_phase (Serving locked) t) w fill p) =
    Some (with_thread i (set_phase (Answered rs) t) w' None p).
Proof.
  intros Hi -> Hs. eapply alone_step; [done|done| |].
  - unfold turn_serving, mbind, M_bind. simpl. rewrite Hs. done.
  - by destruct locked.
Qed.

(** The last turn, when the mutex was held. *)
Lemma alone_answers i t w p m rs w' :
  (i < length (po_threads p))%nat → turn_of t true = Some m → m w = (Ret (Answered rs, Some false), w') →
  alone 1 i (with_thread i t w (Some i) p) = Some (with_thread i (set_phase (Answered rs) t) w' None p).
Proof. intros Hi Hm Hr. by eapply alone_step; [|exact Hm|exact Hr|]. Qed.

Lemma alone_stores i t body w p rs w' :
  (i < length (po_threads p))%nat → th_phase t = Storing body →
  match re_Upstream with
  | None => (r ← try (store (th_sum t) body);
             match r with Err _ => mret (mkRelayRs 502 []) | Ok _ => serveFile (th_sum t) end) w
  | Some _ => (r ← storeUpstream (th_sum t) body;
               match r with Some status => mret (mkRelayRs status []) | None => serveFile (th_sum t) end) w
  end = (Ret rs, w') →
  ∃ n, (n ≤ 2)%nat ∧
    alone n i (with_thread i t w (Some i) p) = Some (with_thread i (set_phase (Answered rs) t) w' None p).
Proof.
  intros Hi Ht Hs.
  assert (Hm : turn_of t true = Some (turn_storing t body)) by (unfold turn_of; by rewrite Ht).
  unfold turn_storing in Hm. destruct re_Upstream as [up|]; apply bind_returns in Hs as (r & w1 & Hr & Hs); destruct r as [r|].
  - injection Hs as <- <-. exists 1%nat. split; [lia|].
    eapply alone_answers; [done|exact Hm|]. unfold mbind, M_bind. by rewrite Hr.
  - exists 2%nat. split; [lia|]. eapply alone_step; [done|exact Hm|unfold mbind, M_bind; by rewrite Hr|].
    by eapply alone_serves.
  - exists 2%nat. split; [lia|]. eapply alone_step; [done|exact Hm|unfold mbind, M_bind; by rewrite Hr|].
    by eapply alone_serves.
  - injection Hs as <- <-. exists 1%nat. split; [lia|].
    eapply alone_answers; [done|exact Hm|]. unfold mbind, M_bind. by rewrite Hr.
Qed.

Lemma alone_fills i t w p rs w' :
  (i < length (po_threads p))%nat → th_phase t = Filling →
  fill srv (th_sum t) (ry_url (th_rq t)) w = (Ret rs, w') →
  ∃ n, (n ≤ 3)%nat ∧
    alone n i (with_thread i t w (Some i) p) = Some (with_thread i (set_phase (Answered rs) t) w' None p).
Proof.
  intros Hi Ht Hf.
  assert (Hm : turn_of t true = Some (turn_filling t)) by (unfold turn_of; by rewrite Ht).
  unfold turn_filling in Hm. unfold fill in Hf.
  pose proof (fun body w1 => alone_stores i (set_phase (Storing body) t) body w1 p rs w' Hi eq_refl) as Hst.
  simpl in Hst.
  destruct re_Upstream as [up|]; apply bind_returns in Hf as (r & w1 & Hr & Hf).
  - destruct (up r (th_sum t)) as [body|e] eqn:Eu.
    + apply bind_returns in Hf as ([] & w2 & Hn & Hf). destruct (Hst _ _ Hf) as (n & Hle & Hn').
      exists (S n). split; [lia|]. eapply alone_step; [done|exact Hm|unfold mbind, M_bind; rewrite Hr, Eu, Hn; reflexivity|exact Hn'].
    + injection Hf as <- <-. exists 1%nat. split; [lia|]. eapply alone_answers; [done|exact Hm|].
      unfold mbind, M_bind. by rewrite Hr, Eu.
  - destruct r as [body|e].
    + apply bind_returns in Hf as ([] & w2 & Hn & Hf). destruct (Hst _ _ Hf) as (n & Hle & Hn').
      exists (S n). split; [lia|]. eapply alone_step; [done|exact Hm|unfold mbind, M_bind; rewrite Hr, Hn; reflexivity|exact Hn'].
    + injection Hf as <- <-. exists 1%nat. split; [lia|]. eapply alone_answers; [done|exact Hm|].
      unfold mbind, M_bind. by rewrite Hr.
Qed.

(** A request that finds the mutex free and is not interleaved does what
    [get] does, in at most six turns. *)
Theorem alone_is_get i rq sum w p rs w' :
  (i < length (po_threads p))%nat → relay_get srv rq sum w = (Ret rs, w') →
  ∃ n, (n ≤ 6)%nat ∧
    alone n i (with_thread i (mkThread rq sum Arrived) w None p) =
      Some (with_thread i (mkThread rq sum (Answered rs)) w' None p).
Proof.
  intros Hi Hg. unfold relay_get in Hg.
  set (t := mkThread rq sum Arrived).
  assert (Hm : turn_of t false = Some (turn_arrived t)) by done. unfold turn_arrived in Hm. simpl in Hm.
  destruct (relay_authorize srv (ry_auth rq)); simpl in *;
    [|injection Hg as <- <-; exists 1%nat; split; [lia|]; by eapply alone_step; [|exact Hm| |]].
  destruct (validDigest sum); simpl in *;
    [|injection Hg as <- <-; exists 1%nat; split; [lia|]; by eapply alone_step; [|exact Hm| |]].
  apply bind_returns in Hg as (found & w1 & Hx & Hg). destruct found.
  { exists 2%nat. split; [lia|]. eapply alone_step; [done|exact Hm| |].
    - unfold turn_stat, mbind, M_bind. by rewrite Hx.
    - by eapply alone_serves. }
  apply bind_returns in Hg as (found & w2 & Hy & Hg).
  assert (Hrest : ∃ n, (n ≤ 4)%nat ∧
    alone n i (with_thread i (set_phase Holding t) w1 (Some i) p) =
      Some (with_thread i (mkThread rq sum (Answered rs)) w' None p)).
  { destruct found.
    - exists 2%nat. split; [lia|]. eapply alone_step; [done|reflexivity|unfold turn_stat, mbind, M_bind; simpl; by rewrite Hy|].
      by eapply alone_serves.
    - destruct (alone_fills i (set_phase Filling t) w2 p rs w' Hi eq_refl Hg) as (n & Hn & Hal).
      exists (S n). split; [lia|]. eapply alone_step; [done|reflexivity|unfold turn_stat, mbind, M_bind; simpl; by rewrite Hy|].
      exact Hal. }
  destruct Hrest as (n & Hn & Hal). exists (S (S n)). split; [lia|].
  eapply alone_step; [done|exact Hm|unfold turn_stat, mbind, M_bind; by rewrite Hx|].
  by eapply alone_step; [|done|reflexivity|exact Hal].
Qed.
End pool.

(** ** Every interleaving *)

(** The phases in which a thread has the mutex. *)
Definition critical (ph : phase) : bool :=
  match ph with
  | Holding | Filling | Storing _ | Serving true => true
  | Arrived | Missed | Serving false | Answered _ => false
  end.

(** The turns a thread still has at most. *)
Definition turns_left (ph : phase) : nat :=
  match ph with
  | Arrived => 6 | Missed => 5 | Holding => 4 | Filling => 3 | Storing _ => 2 | Serving _ => 1 | Answered _ => 0
  end.

(** Code that returns or dies, and never fails. *)
Definition no_fail {W A} (m : Prelude.M W A) : Prop := ∀ w, match m w with (Fail _, _) => False | _ => True end.

Lemma no_fail_ret {W A} (a : A) : no_fail (mret a : Prelude.M W A).
Proof. done. Qed.
Lemma no_fail_try {W A} (m : Prelude.M W A) : no_fail (try m).
Proof. intros w. unfold try. by destruct (m w) as [[?|?|] ?]. Qed.
Lemma no_fail_modify {W} (f : W → W) : no_fail (modify f).
Proof. done. Qed.
Lemma no_fail_get {W} : no_fail (get : Prelude.M W W).
Proof. done. Qed.
Lemma no_fail_bind {W A B} (m : Prelude.M W A) (k : A → Prelude.M W B) :
  no_fail m → (∀ a, no_fail (k a)) → no_fail (m ≫= k).
Proof.
  intros Hm Hk w. unfold mbind, M_bind. specialize (Hm w). destruct (m w) as [[a|e|] w1]; [apply Hk|done..].
Qed.

Ltac no_fail_step :=
  match goal with
  | |- no_fail (mret _) => apply no_fail_ret
  | |- no_fail (try _) => apply no_fail_try
  | |- no_fail (modify _) => apply no_fail_modify
  | |- no_fail get => apply no_fail_get
  | |- no_fail (_ ≫= _) => apply no_fail_bind; [|intros ?]
  | |- no_fail (match ?x with _ => _ end) => destruct x
  | |- no_fail (let '_ := ?x in _) => destruct x
  end.

(** Code in which the process does not die. *)
Definition lives {W A} (m : Prelude.M W A) : Prop := ∀ w, match m w with (Died, _) => False | _ => True end.

Lemma lives_try {W A} (m : Prelude.M W A) : lives m → lives (try m).
Proof. intros Hm w. unfold try. specialize (Hm w). by destruct (m w) as [[?|?|] ?]. Qed.
Lemma lives_bind {W A B} (m : Prelude.M W A) (k : A → Prelude.M W B) :
  lives m → (∀ a, lives (k a)) → lives (m ≫= k).
Proof.
  intros Hm Hk w. unfold mbind, M_bind. specialize (Hm w). destruct (m w) as [[a|e|] w1]; [apply Hk|done..].
Qed.

Ltac lives_step :=
  match goal with
  | |- lives (mret _) => by intros ?
  | |- lives (fail _) => by intros ?
  | |- lives (modify _) => by intros ?
  | |- lives get => by intros ?
  | |- lives (try _) => apply lives_try
  | |- lives (_ ≫= _) => apply lives_bind; [|intros ?]
  | |- lives (match ?x with _ => _ end) => destruct x
  | |- lives (let '_ := ?x in _) => destruct x
  end.

Section interleavings.
Context `{NetURL, RelayEnv} (srv : RelayServer).

Lemma no_fail_tick : no_fail ry_tickM.
Proof. intros w. unfold ry_tickM. by destruct (re_crash _). Qed.

Lemma turn_no_fail t held m : turn_of srv t held = Some m → no_fail m.
Proof.
  pose proof no_fail_tick as Htick. unfold turn_of. intros Ht.
  destruct (th_phase t); try destruct held; simplify_eq;
    unfold turn_arrived, turn_stat, turn_filling, turn_storing, turn_serving, serveFile, storeUpstream,
      ry_exists, ry_remove, ry_copy, ry_put, ry_view, noteFetch, ignore;
    repeat (no_fail_step || exact Htick).
Qed.

Lemma turn_keeps t held m : turn_of srv t held = Some m → keeps (relay_keeps srv) m.
Proof.
  pose proof (exists_keeps srv) as K1. pose proof (serve_keeps srv) as K2. pose proof (store_keeps srv) as K3.
  pose proof (storeUpstream_keeps srv) as K4. pose proof (note_keeps srv) as K5. pose proof (tick_keeps srv) as K6.
  pose proof (origin_keeps srv) as K7.
  unfold turn_of. intros Ht.
  destruct (th_phase t); try destruct held; simplify_eq;
    unfold turn_arrived, turn_stat, turn_filling, turn_storing, turn_serving;
    repeat first [keeps_step | apply K1 | apply K2 | apply K3 | apply K4 | apply K5 | apply K6 | apply K7].
Qed.

(** A thread past its checks was authorised and asks for a digest; what it
    answered with 200 is the artifact, which is still cached. *)
Definition thread_ok (w : RelayWorld) (t : thread) : Prop :=
  match th_phase t with
  | Arrived => True
  | Answered rs => ry_status rs = 200 →
      relay_authorize srv (ry_auth (th_rq t)) = true ∧ validDigest (th_sum t) = true ∧
      digest (ry_body rs) = th_sum t ∧ is_Some (ry_files w !! th_sum t)
  | _ => relay_authorize srv (ry_auth (th_rq t)) = true ∧ validDigest (th_sum t) = true
  end.

Lemma thread_ok_keeps w w' t : relay_keeps srv w w' → thread_ok w t → thread_ok w' t.
Proof.
  intros Hk. unfold thread_ok. destruct (th_phase t); try done. intros Ha Hst.
  destruct (Ha Hst) as (? & ? & ? & ?). repeat (split; [done|]). by apply (rk_kept _ _ _ Hk).
Qed.

(** What a turn does to the thread: its phases advance, and the mutex is
    taken when it is free and given back at the end. *)
Definition advances (held : bool) (old new : phase) (mutex : option bool) : Prop :=
  (turns_left new < turns_left old)%nat ∧
  match mutex with
  | Some true => held = false ∧ critical old = false ∧ critical new = true
  | Some false => critical old = true ∧ critical new = false
  | None => critical new = critical old
  end.

Lemma turn_advances t held m w ph mutex w' :
  turn_of srv t held = Some m → m w = (Ret (ph, mutex), w') → advances held (th_phase t) ph mutex.
Proof.
  unfold turn_of. intros Ht.
  destruct (th_phase t); try destruct held; simplify_eq;
    unfold turn_arrived, turn_stat, turn_filling, turn_storing, turn_serving;
    repeat match goal with
    | |- mret (match ?x with _ => _ end) _ = _ → _ => destruct x
    | |- (mret _) _ = _ → _ =>
        intros Hr; injection Hr as <- <- <-; unfold advances; simpl; repeat case_match; simpl; split_and?; (done || lia)
    | |- (_ ≫= _) _ = _ → _ => intros (? & ? & _ & Hr)%bind_returns; revert Hr
    | |- (match ?x with _ => _ end) _ = _ → _ => destruct x eqn:?
    end.
Qed.

Lemma turn_serving_200 t locked w ph mutex w' :
  turn_serving t locked w = (Ret (ph, mutex), w') →
  ∃ rs, ph = Answered rs ∧ (ry_status rs = 200 → ry_files w' !! th_sum t = Some (ry_body rs)).
Proof.
  unfold turn_serving. intros (rs & w1 & Hs & Hr)%bind_returns. injection Hr as <- <- <-. exists rs.
  split; [done|]. by apply serveFile_200 with w.
Qed.

Lemma turn_ok t held m w ph mutex w' :
  turn_of srv t held = Some m → m w = (Ret (ph, mutex), w') → cache_ok w → thread_ok w t →
  thread_ok w' (set_phase ph t).
Proof.
  intros Ht Hr Hc Hok. pose proof (turn_keeps _ _ _ Ht w) as Hk. rewrite Hr in Hk. simpl in Hk.
  apply (rk_cache _ _ _ Hk) in Hc. revert Ht Hok Hr. unfold turn_of, thread_ok. simpl.
  destruct (th_phase t) as [| | | |body|locked|rs]; try destruct held; intros Ht Hok; simplify_eq;
    unfold turn_arrived, turn_stat, turn_filling, turn_storing.
  all: try match goal with |- turn_serving _ _ _ = _ → _ =>
    destruct Hok as [Ha Hv]; intros (rs & -> & Hf)%turn_serving_200 Hst; specialize (Hf Hst);
    repeat (split; [done|]); split; [by apply Hc|eauto] end.
  all: repeat match goal with
    | |- mret (match ?x with _ => _ end) _ = _ → _ => destruct x
    | |- (mret _) _ = _ → _ =>
        intros Hr; injection Hr as <- <- <-; repeat case_match; simplify_eq/=; done || (try destruct Hok); auto;
        reflect_bools; auto; lia
    | |- (storeUpstream _ _ ≫= _) _ = _ → _ =>
        intros (ru & ? & Hu & Hr)%bind_returns; revert Hr; destruct ru;
        [apply storeUpstream_status in Hu; destruct Hu; subst|]
    | |- (_ ≫= _) _ = _ → _ => intros (? & ? & _ & Hr)%bind_returns; revert Hr
    | |- (match ?x with _ => _ end) _ = _ → _ => destruct x eqn:?
    end.
Qed.

(** What one turn of thread [i] does to the pool. *)
Inductive turned (i : nat) (p : Pool) : Pool → Prop :=
  | turned_died w : relay_keeps srv (po_world p) w → turned i p (mkPool (set_ry_fetches 0 w) None [])
  | turned_ret t m ph mutex w :
      po_threads p !! i = Some t → turn_of srv t (bool_decide (is_Some (po_fill p))) = Some m →
      m (po_world p) = (Ret (ph, mutex), w) →
      turned i p (mkPool w (match mutex with Some true => Some i | Some false => None | None => po_fill p end)
                    (<[i := set_phase ph t]> (po_threads p))).

Lemma schedule_turned i p p' : schedule srv i p = Some p' → turned i p p'.
Proof.
  unfold schedule. destruct (po_threads p !! i) as [t|] eqn:Et; [|done]. simpl.
  destruct (turn_of srv t _) as [m|] eqn:Em; [|done]. simpl.
  pose proof (turn_keeps _ _ _ Em (po_world p)) as Hk.
  destruct (m (po_world p)) as [[[ph mutex]|e|] w] eqn:Er; [intros [= <-]|done|intros [= <-]].
  - by eapply turned_ret.
  - by apply turned_died.
Qed.

Record pool_ok (p : Pool) : Prop := {
  ok_cache : cache_ok (po_world p);
  ok_thread : ∀ i t, po_threads p !! i = Some t → thread_ok (po_world p) t;
  ok_critical : ∀ i t, po_threads p !! i = Some t → critical (th_phase t) = true → po_fill p = Some i;
  ok_owner : ∀ i, po_fill p = Some i → ∃ t, po_threads p !! i = Some t ∧ critical (th_phase t) = true;
}.

Lemma pool_ok_start w : cache_ok w → pool_ok (mkPool w None []).
Proof. intros Hc. split; simpl; [exact Hc|done..]. Qed.

Lemma pool_ok_arrive rq sum p : pool_ok p → pool_ok (arrive rq sum p).
Proof.
  intros [Hc Ht Hcr Ho]. split; simpl; [done|..].
  - intros i t [Hi|[_ Hi]]%lookup_app_Some; [by eapply Ht|]. apply list_lookup_singleton_Some in Hi as [_ <-]. done.
  - intros i t [Hi|[_ Hi]]%lookup_app_Some; [by eapply Hcr|]. apply list_lookup_singleton_Some in Hi as [_ <-]. done.
  - intros i (t & Hi & Hx)%Ho. exists t. split; [|done]. by apply lookup_app_l_Some.
Qed.

Lemma pool_ok_turned i p p' : pool_ok p → turned i p p' → pool_ok p'.
Proof.
  intros [Hc Ht Hcr Ho]. destruct 1 as [w Hk|t m ph mutex w Hi Hm Hr].
  { apply pool_ok_start. exact (rk_cache _ _ _ Hk Hc). }
  pose proof (turn_keeps _ _ _ Hm (po_world p)) as Hk. rewrite Hr in Hk. simpl in Hk.
  pose proof (turn_ok _ _ _ _ _ _ _ Hm Hr Hc (Ht _ _ Hi)) as Hok.
  pose proof (turn_advances _ _ _ _ _ _ _ Hm Hr) as [_ Hadv].
  pose proof (lookup_lt_Some _ _ _ Hi) as Hlt. split; simpl.
  - by apply (rk_cache _ _ _ Hk).
  - intros j u [(<- & <- & _)|[Hne Hj]]%list_lookup_insert_Some; [done|].
    eapply thread_ok_keeps; [exact Hk|by eapply Ht].
  - intros j u [(<- & <- & _)|[Hne Hj]]%list_lookup_insert_Some Hx.
    + simpl in Hx. destruct mutex as [[]|]; [done|naive_solver congruence|]. eapply Hcr; [done|congruence].
    + pose proof (Hcr _ _ Hj Hx) as Hf. destruct mutex as [[]|]; [| |done].
      * rewrite Hf in Hadv. rewrite bool_decide_true in Hadv by eauto. by destruct Hadv.
      * destruct Hadv as [Ho1 _]. pose proof (Hcr _ _ Hi Ho1). congruence.
  - intros j Hj. destruct (decide (i = j)) as [<-|Hne].
    + exists (set_phase ph t). rewrite list_lookup_insert_eq by done. split; [done|]. simpl.
      destruct mutex as [[]|]; [tauto|done|]. rewrite Hadv. destruct (Ho _ Hj) as (u & Hu & Hx). congruence.
    + rewrite list_lookup_insert_ne by done. destruct mutex as [[]|]; [congruence|done|by apply Ho].
Qed.

Lemma pool_run_ok from w p : cache_ok w → pool_run srv from w p → pool_ok p.
Proof.
  intros Hc. induction 1 as [|p p' _ IH [rq sum Hf|i p'' Hs]].
  - by apply pool_ok_start.
  - by apply pool_ok_arrive.
  - eapply pool_ok_turned; [done|by apply schedule_turned].
Qed.

(** C27: in every interleaving of requests, crashes and restarts, a response
    with 200 went to a caller with the token, hashes to the digest that was
    asked for, and the artifact is cached; at most one request is between
    taking and giving back the mutex. *)
Theorem pool_serves_digest from w p :
  relay_reachable srv w → pool_run srv from w p →
  (∀ i t rs, po_threads p !! i = Some t → th_phase t = Answered rs → ry_status rs = 200 →
    relay_authorize srv (ry_auth (th_rq t)) = true ∧ digest (ry_body rs) = th_sum t ∧
    is_Some (ry_files (po_world p) !! th_sum t)) ∧
  ∀ i j t u, po_threads p !! i = Some t → po_threads p !! j = Some u →
    critical (th_phase t) = true → critical (th_phase u) = true → i = j.
Proof.
  intros [Hc _]%relay_reachable_ok Hr. destruct (pool_run_ok _ _ _ Hc Hr) as [_ Ht Hcr _]. split.
  - intros i t rs Hi Hph Hst. apply Ht in Hi. unfold thread_ok in Hi. rewrite Hph in Hi.
    destruct (Hi Hst) as (? & _ & ? & ?). done.
  - intros i j t u Hi Hj Ha Hb. pose proof (Hcr _ _ Hi Ha). pose proof (Hcr _ _ Hj Hb). congruence.
Qed.

(** ** No request waits forever *)

(** The turns all requests still have at most. *)
Definition pending (ts : list thread) : nat := sum_list_with (fun t => turns_left (th_phase t)) ts.

(** The turns of a schedule, none of a thread that cannot move. *)
Fixpoint turns (sched : list nat) (p : Pool) : option Pool :=
  match sched with
  | [] => Some p
  | i :: sched => p' ← schedule srv i p; turns sched p'
  end.

Lemma pending_insert i t u ts :
  ts !! i = Some t → (turns_left (th_phase u) < turns_left (th_phase t))%nat →
  (pending (<[i := u]> ts) < pending ts)%nat.
Proof.
  revert i. induction ts as [|v ts IH]; intros [|i] Hi Hlt; [done|done|..]; simpl in Hi.
  - injection Hi as ->. unfold pending. simpl. lia.
  - specialize (IH _ Hi Hlt). unfold pending in *. simpl. lia.
Qed.

Lemma pending_le ts : (pending ts ≤ 6 * length ts)%nat.
Proof.
  unfold pending. induction ts as [|t ts IH]; simpl; [lia|].
  assert (turns_left (th_phase t) ≤ 6)%nat by (destruct (th_phase t); simpl; lia). lia.
Qed.

Lemma pending_0 ts : pending ts = 0%nat → ∀ i t, ts !! i = Some t → turns_left (th_phase t) = 0%nat.
Proof.
  unfold pending. induction ts as [|u ts IH]; intros Hp [|i] t Hi; simpl in *; [done|done|..].
  - injection Hi as ->. lia.
  - apply IH with i; [lia|done].
Qed.

Lemma schedule_pending i p p' : schedule srv i p = Some p' → (pending (po_threads p') < pending (po_threads p))%nat.
Proof.
  unfold schedule. destruct (po_threads p !! i) as [t|] eqn:Et; [|done]. simpl.
  destruct (turn_of srv t _) as [m|] eqn:Em; [|done]. simpl.
  destruct (m (po_world p)) as [[[ph mutex]|e|] w] eqn:Er; [intros [= <-]|done|intros [= <-]]; simpl.
  - eapply pending_insert; [done|]. by destruct (turn_advances _ _ _ _ _ _ _ Em Er).
  - destruct (pending (po_threads p)) eqn:E; [|unfold pending; simpl; lia].
    pose proof (pending_0 _ E _ _ Et). unfold turn_of in Em. by destruct (th_phase t).
Qed.

(** The owner of the mutex can always move, and when nobody has it anybody
    who has not answered can. *)
Lemma pool_progress p i t :
  pool_ok p → po_threads p !! i = Some t → (0 < turns_left (th_phase t))%nat →
  ∃ j p', schedule srv j p = Some p'.
Proof.
  intros [_ _ _ Ho] Hi Hleft.
  assert (Hmove : ∃ j u m, po_threads p !! j = Some u ∧ turn_of srv u (bool_decide (is_Some (po_fill p))) = Some m).
  { destruct (po_fill p) as [j|] eqn:Ef.
    - destruct (Ho _ eq_refl) as (u & Hu & Hx). exists j, u. unfold turn_of.
      destruct (th_phase u) as [| | | | |[]|]; simpl in Hx; try done; eauto.
    - exists i, t. unfold turn_of. destruct (th_phase t); simpl in *; try lia; eauto. }
  destruct Hmove as (j & u & m & Hj & Hm). exists j. unfold schedule. rewrite Hj. simpl. rewrite Hm. simpl.
  pose proof (turn_no_fail _ _ _ Hm (po_world p)) as Hnf.
  destruct (m (po_world p)) as [[[ph mutex]|e|] w]; [eauto|done|eauto].
Qed.

Lemma turns_run from w sched p q : pool_run srv from w p → turns sched p = Some q → pool_run srv from w q.
Proof.
  revert p. induction sched as [|i sched IH]; intros p Hr Hs; simpl in Hs; [by simplify_eq|].
  destruct (schedule srv i p) as [p'|] eqn:Ep; [|done]. apply (IH p'); [|done].
  by eapply pool_next; [|eapply pool_turn].
Qed.

Lemma turns_pending sched p q :
  turns sched p = Some q → (length sched + pending (po_threads q) ≤ pending (po_threads p))%nat.
Proof.
  revert p. induction sched as [|i sched IH]; intros p Hs; simpl in Hs; [simplify_eq; simpl; lia|].
  destruct (schedule srv i p) as [p'|] eqn:Ep; [|done]. apply schedule_pending in Ep. apply IH in Hs. simpl. lia.
Qed.

(** C29: whatever the scheduler does, the requests that have arrived are
    answered: a schedule has at most six turns per request, and when nobody
    can move every request has its response. *)
Theorem pool_answers from w p sched q :
  relay_reachable srv w → pool_run srv from w p → turns sched p = Some q →
  (length sched ≤ 6 * length (po_threads p))%nat ∧
  ((∀ i, schedule srv i q = None) →
   ∀ i t, po_threads q !! i = Some t → ∃ rs, th_phase t = Answered rs).
Proof.
  intros [Hc _]%relay_reachable_ok Hr Hs. split.
  - apply turns_pending in Hs. pose proof (pending_le (po_threads p)). lia.
  - intros Hstuck i t Hi. destruct (decide (turns_left (th_phase t) = 0%nat)) as [E|Hne].
    + destruct (th_phase t); try done. eauto.
    + destruct (pool_progress q i t) as (j & p' & Hj); [|done|lia|by rewrite Hstuck in Hj].
      eapply pool_run_ok; [exact Hc|by eapply turns_run].
Qed.
End interleavings.

(** ** One fetch per artifact

    On a working disk, and when what is fetched for a request is what the
    request asks for, requests that miss the cache together share one fetch. *)
Section coalescing.
Context `{NetURL, RelayEnv} (srv : RelayServer).
Context (Hio : ∀ n, re_io n = None) (Hcrash : ∀ n, re_crash n = false).

(** The body is complete and is the artifact. *)
Definition genuine (sum : string) (body : stream) : Prop := body.2 = false ∧ digest body.1 = sum.

(** The upstream, or the origin the request names, only sends the artifact. *)
Definition honest (rq : relayRq) (sum : string) : Prop :=
  match re_Upstream with
  | None => ∀ n raw body,
      origin_url srv (ry_url rq) = Ok raw → re_Do n raw = Ok (200, body) → genuine sum body
  | Some upstream => ∀ n body, upstream n sum = Ok body → genuine sum body
  end.

Lemma tick_works w : ry_tickM w = (Ret (ry_tick w), set_ry_tick (S (ry_tick w)) w).
Proof. unfold ry_tickM. by rewrite Hcrash. Qed.

Lemma relay_syscall_works w : ry_syscall w = (Ret tt, set_ry_tick (S (ry_tick w)) w).
Proof. unfold ry_syscall, mbind, M_bind. by rewrite tick_works, Hio. Qed.

Lemma syscall_tries w : try ry_syscall w = (Ret (Ok tt), set_ry_tick (S (ry_tick w)) w).
Proof. unfold try. by rewrite relay_syscall_works. Qed.

Lemma exists_works name w :
  ry_exists name w = (Ret (bool_decide (is_Some (ry_files w !! name))), set_ry_tick (S (ry_tick w)) w).
Proof. unfold ry_exists, mbind, M_bind. by rewrite syscall_tries. Qed.

Lemma partName_ne sum : validDigest sum = true → partName sum ≠ sum.
Proof. intros Hv E. pose proof (partName_invalid sum) as Hp. congruence. Qed.

Lemma create_works tmp w :
  ry_create tmp w = (Ret tt, set_ry_files (<[tmp := []]> (ry_files w)) (set_ry_tick (S (ry_tick w)) w)).
Proof. unfold ry_create, mbind, M_bind. by rewrite relay_syscall_works. Qed.

Lemma copy_works tmp body w :
  ry_copy tmp body w =
    (Ret (body.1, negb body.2), set_ry_files (<[tmp := body.1]> (ry_files w)) (set_ry_tick (S (ry_tick w)) w)).
Proof. unfold ry_copy, mbind, M_bind. by rewrite tick_works, Hio. Qed.

Lemma rename_works src dst b w :
  ry_files w !! src = Some b →
  ry_rename src dst w =
    (Ret tt, set_ry_files (<[dst := b]> (delete src (ry_files w))) (set_ry_tick (S (ry_tick w)) w)).
Proof.
  intros Hb. unfold ry_rename, ry_view, get, mret, M_ret, mbind, M_bind. rewrite relay_syscall_works. simpl. by rewrite Hb.
Qed.

(** What both ways to store leave behind. *)
Definition stored_as (sum : string) (b : bytes) (w w' : RelayWorld) : Prop :=
  ry_fetches w' = ry_fetches w ∧ ry_files w' !! sum = Some b.

Lemma store_works sum body w :
  genuine sum body → ∃ w', store sum body w = (Ret tt, w') ∧ stored_as sum body.1 w w'.
Proof.
  intros [Hf Hd]. eexists. split.
  - unfold store, mbind, M_bind. rewrite create_works, copy_works, Hf. simpl. rewrite syscall_tries. simpl.
    rewrite (proj2 (eqs_true _ _) Hd). simpl. apply rename_works with (b := body.1). apply lookup_insert_eq.
  - split; [done|]. apply lookup_insert_eq.
Qed.

Lemma storeUpstream_works sum body w :
  genuine sum body → ∃ w', storeUpstream sum body w = (Ret None, w') ∧ stored_as sum body.1 w w'.
Proof.
  intros [Hf Hd]. eexists. split.
  - unfold storeUpstream, ignore, mbind, M_bind. unfold try at 1. rewrite create_works, copy_works, Hf. simpl.
    rewrite syscall_tries. simpl. rewrite (proj2 (eqs_true _ _) Hd). simpl. unfold try.
    rewrite rename_works with (b := body.1) by apply lookup_insert_eq. reflexivity.
  - split; [done|]. apply lookup_insert_eq.
Qed.

(** What a turn of a thread does to the cache and the counter. *)
Inductive move (t : thread) (w : RelayWorld) : phase → RelayWorld → Prop :=
  | move_calm ph w' :
      (∀ b, th_phase t ≠ Storing b) → (∀ b, ph ≠ Storing b) →
      (ph = Filling → ry_files w !! th_sum t = None) →
      ry_files w' = ry_files w → ry_fetches w' = ry_fetches w → move t w ph w'
  | move_fetch body w' :
      th_phase t = Filling → genuine (th_sum t) body →
      ry_files w' = ry_files w → ry_fetches w' = s64 (ry_fetches w + 1) → move t w (Storing body) w'
  | move_store body w' :
      th_phase t = Storing body → stored_as (th_sum t) body.1 w w' → move t w (Serving true) w'.

Lemma turn_lives t held m : turn_of srv t held = Some m → lives m.
Proof.
  assert (Htick : lives ry_tickM) by (intros w; by rewrite tick_works).
  unfold turn_of. intros Ht. destruct (th_phase t); try destruct held; simplify_eq;
    unfold turn_arrived, turn_stat, turn_filling, turn_storing, turn_serving, serveFile, storeUpstream, store, origin,
      ry_exists, ry_remove, ry_create, ry_rename, ry_copy, ry_put, ry_view, noteFetch, ignore, ry_syscall;
    repeat (lives_step || exact Htick).
Qed.

(** A calm turn runs system calls only. *)
Definition calm {A} (m : Prelude.M RelayWorld A) : Prop := ∀ w, ∃ a n, m w = (Ret a, set_ry_tick n w).

Lemma serve_calm name : calm (serveFile name).
Proof.
  intros w. unfold serveFile, ry_view, get, mret, M_ret, mbind, M_bind. rewrite syscall_tries. simpl.
  destruct (ry_files w !! name); eauto.
Qed.

Lemma turn_stat_moves t hit w ph mutex w' :
  (∀ b, th_phase t ≠ Storing b) → (∀ b, hit ≠ Storing b) → hit ≠ Filling →
  turn_stat (th_sum t) hit Filling w = (Ret (ph, mutex), w') ∨
  turn_stat (th_sum t) hit Missed w = (Ret (ph, mutex), w') → move t w ph w'.
Proof.
  intros Ht Hh1 Hh2 Hr. unfold turn_stat, mbind, M_bind in Hr. rewrite exists_works in Hr.
  apply move_calm; [done|..]; destruct (ry_files w !! th_sum t) eqn:E; simpl in Hr;
    destruct Hr as [Hr|Hr]; injection Hr as <- <- <-; done.
Qed.

Lemma turn_filling_moves t w ph mutex w' :
  th_phase t = Filling → honest (th_rq t) (th_sum t) →
  turn_filling srv t w = (Ret (ph, mutex), w') → move t w ph w'.
Proof.
  intros Ht Hh. unfold turn_filling. unfold honest in Hh. destruct re_Upstream as [up|].
  - intros (n & w1 & Hn & Hr)%bind_returns. rewrite tick_works in Hn. injection Hn as <- <-.
    destruct (up (ry_tick w) (th_sum t)) as [body|e] eqn:Eu.
    + apply bind_returns in Hr as ([] & w2 & Hn & Hr). injection Hn as <-. injection Hr as <- _ <-.
      apply move_fetch; [done|by eapply Hh|done..].
    + injection Hr as <- _ <-. apply move_calm; by rewrite ?Ht.
  - intros (r & w1 & Ho & Hr)%bind_returns. unfold try, origin, mbind, M_bind in Ho.
    destruct (origin_url srv (ry_url (th_rq t))) as [raw|e] eqn:Eo.
    + rewrite tick_works in Ho. simpl in Ho. destruct (re_Do (ry_tick w) raw) as [[st body]|e] eqn:Ed; simpl in Ho.
      * destruct (negb (st =? 200)) eqn:Es; injection Ho as <- <-.
        -- injection Hr as <- _ <-. apply move_calm; by rewrite ?Ht.
        -- apply negb_false_iff, Z.eqb_eq in Es as ->.
           apply bind_returns in Hr as ([] & w2 & Hn & Hr). injection Hn as <-. injection Hr as <- _ <-.
           apply move_fetch; [done|by eapply Hh|done..].
      * injection Ho as <- <-. injection Hr as <- _ <-. apply move_calm; by rewrite ?Ht.
    + injection Ho as <- <-. injection Hr as <- _ <-. apply move_calm; by rewrite ?Ht.
Qed.

Lemma turn_storing_moves t body w ph mutex w' :
  th_phase t = Storing body → genuine (th_sum t) body →
  turn_storing t body w = (Ret (ph, mutex), w') → move t w ph w'.
Proof.
  intros Ht Hg. unfold turn_storing. destruct re_Upstream as [up|]; intros (r & w1 & Hs & Hr)%bind_returns.
  - destruct (storeUpstream_works _ _ w Hg) as (w2 & Hw & Hst). rewrite Hw in Hs. injection Hs as <- <-.
    injection Hr as <- _ <-. by eapply move_store.
  - destruct (store_works _ _ w Hg) as (w2 & Hw & Hst). unfold try in Hs. rewrite Hw in Hs. injection Hs as <- <-.
    injection Hr as <- _ <-. by eapply move_store.
Qed.

Lemma turn_moves t held m w ph mutex w' :
  turn_of srv t held = Some m → m w = (Ret (ph, mutex), w') → honest (th_rq t) (th_sum t) →
  (∀ body, th_phase t = Storing body → genuine (th_sum t) body) → move t w ph w'.
Proof.
  unfold turn_of. intros Ht Hr Hh Hg. destruct (th_phase t) as [| | | |body|locked|rs] eqn:Eph.
  - injection Ht as <-. unfold turn_arrived in Hr.
    destruct (negb _); [injection Hr as <- _ <-; apply move_calm; by rewrite ?Eph|].
    destruct (negb _); [injection Hr as <- _ <-; apply move_calm; by rewrite ?Eph|].
    eapply turn_stat_moves; [by rewrite Eph|..|right; exact Hr]; done.
  - destruct held; [done|]. injection Ht as <-. injection Hr as <- _ <-. apply move_calm; by rewrite ?Eph.
  - injection Ht as <-. eapply turn_stat_moves; [by rewrite Eph|..|left; exact Hr]; done.
  - injection Ht as <-. by eapply turn_filling_moves.
  - injection Ht as <-. by eapply turn_storing_moves; [|apply Hg|].
  - injection Ht as <-. unfold turn_serving in Hr. apply bind_returns in Hr as (rs & w1 & Hs & Hr).
    injection Hr as <- _ <-. destruct (serve_calm (th_sum t) w) as (? & n & Hc). rewrite Hc in Hs.
    injection Hs as _ <-. apply move_calm; by rewrite ?Eph.
  - done.
Qed.

(** The digests fetched so far: each once, each asked for, and each cached
    or about to be by the owner of the mutex. *)
Record coalesced (p : Pool) (fetched : list string) : Prop := {
  co_nodup : NoDup fetched;
  co_count : ry_fetches (po_world p) = s64 (Z.of_nat (length fetched));
  co_asked : ∀ s, s ∈ fetched → validDigest s = true ∧ ∃ t, t ∈ po_threads p ∧ th_sum t = s;
  co_cached : ∀ s, s ∈ fetched → is_Some (ry_files (po_world p) !! s) ∨
    ∃ i t body, po_threads p !! i = Some t ∧ th_phase t = Storing body ∧ th_sum t = s;
  co_filling : ∀ i t, po_threads p !! i = Some t → th_phase t = Filling →
    ry_files (po_world p) !! th_sum t = None;
  co_storing : ∀ i t body, po_threads p !! i = Some t → th_phase t = Storing body → genuine (th_sum t) body;
  co_honest : ∀ i t, po_threads p !! i = Some t → honest (th_rq t) (th_sum t);
}.

Lemma coalesced_start w : ry_fetches w = 0 → coalesced (mkPool w None []) [].
Proof. intros Hf. split; simpl; [constructor|by rewrite Hf|set_solver|set_solver|done..]. Qed.

Lemma coalesced_arrive rq sum p fetched :
  honest rq sum → coalesced p fetched → coalesced (arrive rq sum p) fetched.
Proof.
  intros Hh [Hn Hc Ha Hca Hf Hs Hho]. split; simpl; [done|done|..].
  - intros s [Hv (t & Ht & Es)]%Ha. split; [done|]. exists t. split; [|done]. apply elem_of_app. by left.
  - intros s [Hx|(i & t & body & Hi & Hph & Es)]%Hca; [by left|right]. exists i, t, body.
    split; [|done]. by apply lookup_app_l_Some.
  - intros i t [Hi|[_ Hi]]%lookup_app_Some; [by eapply Hf|]. apply list_lookup_singleton_Some in Hi as [_ <-]. done.
  - intros i t body [Hi|[_ Hi]]%lookup_app_Some; [by eapply Hs|]. apply list_lookup_singleton_Some in Hi as [_ <-]. done.
  - intros i t [Hi|[_ Hi]]%lookup_app_Some; [by eapply Hho|]. by apply list_lookup_singleton_Some in Hi as [_ <-].
Qed.

Lemma asked_insert (i : nat) t ph (ts : list thread) s :
  ts !! i = Some t → (∃ u, u ∈ ts ∧ th_sum u = s) → ∃ u, u ∈ <[i := set_phase ph t]> ts ∧ th_sum u = s.
Proof.
  intros Hi (u & [j Hj]%list_elem_of_lookup & Es). destruct (decide (i = j)) as [<-|Hne].
  - exists (set_phase ph t). split; [|simpl; congruence]. apply list_elem_of_lookup. exists i.
    apply list_lookup_insert_eq. by eapply lookup_lt_Some.
  - exists u. split; [|done]. apply list_elem_of_lookup. exists j. by rewrite list_lookup_insert_ne.
Qed.

Lemma s64_succ z : s64 (s64 z + 1) = s64 (z + 1).
Proof.
  unfold s64. replace ((z + 2 ^ 63) mod 2 ^ 64 - 2 ^ 63 + 1 + 2 ^ 63) with ((z + 2 ^ 63) mod 2 ^ 64 + 1) by lia.
  rewrite Zplus_mod_idemp_l. do 2 f_equal. lia.
Qed.

(** The owner of the mutex is the only thread in one of its phases. *)
Lemma only_owner p i j t u :
  pool_ok srv p → po_threads p !! i = Some t → po_threads p !! j = Some u →
  critical (th_phase t) = true → critical (th_phase u) = true → i = j.
Proof. intros [_ _ Hcr _] Hi Hj Ha Hb. pose proof (Hcr _ _ Hi Ha). pose proof (Hcr _ _ Hj Hb). congruence. Qed.

Section turned.
Context (p : Pool) (i : nat) (t : thread) (ph : phase) (w' : RelayWorld) (owner : option nat).
Context (Hok : pool_ok srv p) (Hi : po_threads p !! i = Some t) (Hkeep : relay_keeps srv (po_world p) w').
Local Abbreviation p' := (mkPool w' owner (<[i := set_phase ph t]> (po_threads p))).

Lemma coalesced_calm fetched :
  (∀ b, th_phase t ≠ Storing b) → (∀ b, ph ≠ Storing b) →
  (ph = Filling → ry_files (po_world p) !! th_sum t = None) →
  ry_files w' = ry_files (po_world p) → ry_fetches w' = ry_fetches (po_world p) →
  coalesced p fetched → coalesced p' fetched.
Proof.
  intros Hold Hnew Hfill Hfiles Hfetch [Hn Hc Ha Hca Hf Hs Hho]. split; simpl; rewrite ?Hfiles, ?Hfetch; [done|done|..].
  - intros s [Hv Ht]%Ha. split; [done|]. by apply asked_insert.
  - intros s [Hx|(j & u & body & Hj & Hph & Es)]%Hca; [by left|right]. exists j, u, body. split; [|done].
    rewrite list_lookup_insert_ne; [done|]. intros <-. rewrite Hi in Hj. injection Hj as <-. by eapply Hold.
  - intros j u [(<- & <- & _)|[Hne Hj]]%list_lookup_insert_Some; [exact Hfill|by eapply Hf].
  - intros j u body [(<- & <- & _)|[Hne Hj]]%list_lookup_insert_Some Hph; [by edestruct Hnew|by eapply Hs].
  - intros j u [(<- & <- & _)|[Hne Hj]]%list_lookup_insert_Some; [exact (Hho _ _ Hi)|by eapply Hho].
Qed.

Lemma coalesced_fetch fetched body :
  th_phase t = Filling → ph = Storing body → genuine (th_sum t) body →
  ry_files w' = ry_files (po_world p) → ry_fetches w' = s64 (ry_fetches (po_world p) + 1) →
  coalesced p fetched → coalesced p' (th_sum t :: fetched).
Proof.
  intros Hold Hnew Hg Hfiles Hfetch [Hn Hc Ha Hca Hf Hs Hho].
  assert (Hown : ∀ j u, po_threads p !! j = Some u → critical (th_phase u) = true → j = i).
  { intros j u Hj Hu. eapply only_owner; [done|exact Hj|exact Hi|done|by rewrite Hold]. }
  pose proof (lookup_lt_Some _ _ _ Hi) as Hlt.
  split; simpl; rewrite ?Hfiles, ?Hfetch.
  - constructor; [|done]. intros [[b Hx]|(j & u & b & Hj & Hph & Es)]%Hca.
    + rewrite (Hf _ _ Hi Hold) in Hx. done.
    + assert (j = i) as -> by (eapply Hown; [done|by rewrite Hph]). congruence.
  - rewrite Hc, s64_succ. f_equal. lia.
  - intros s [->|Hx]%elem_of_cons.
    + split; [|apply asked_insert; [done|exists t; split; [by eapply list_elem_of_lookup_2|done]]].
      pose proof (ok_thread _ _ Hok _ _ Hi) as Ht. unfold thread_ok in Ht. rewrite Hold in Ht. by destruct Ht.
    + destruct (Ha _ Hx) as [Hv Ht]. split; [done|]. by apply asked_insert.
  - intros s [->|Hx]%elem_of_cons.
    + right. exists i, (set_phase ph t), body. by rewrite list_lookup_insert_eq.
    + destruct (Hca _ Hx) as [Hy|(j & u & b & Hj & Hph & Es)]; [by left|].
      assert (j = i) as -> by (eapply Hown; [done|by rewrite Hph]). congruence.
  - intros j u [(<- & <- & _)|[Hne Hj]]%list_lookup_insert_Some Hph; [by rewrite Hnew in Hph|by eapply Hf].
  - intros j u b [(<- & <- & _)|[Hne Hj]]%list_lookup_insert_Some Hph; [|by eapply Hs].
    simpl in *. rewrite Hnew in Hph. by injection Hph as <-.
  - intros j u [(<- & <- & _)|[Hne Hj]]%list_lookup_insert_Some; [exact (Hho _ _ Hi)|by eapply Hho].
Qed.

Lemma coalesced_store fetched body :
  th_phase t = Storing body → ph = Serving true → stored_as (th_sum t) body.1 (po_world p) w' →
  coalesced p fetched → coalesced p' fetched.
Proof.
  intros Hold Hnew [Hfetch Hst] [Hn Hc Ha Hca Hf Hs Hho].
  assert (Hown : ∀ j u, po_threads p !! j = Some u → critical (th_phase u) = true → j = i).
  { intros j u Hj Hu. eapply only_owner; [done|exact Hj|exact Hi|done|by rewrite Hold]. }
  split; simpl; rewrite ?Hfetch; [done|done|..].
  - intros s [Hv Ht]%Ha. split; [done|]. by apply asked_insert.
  - intros s Hx. left. destruct (Ha _ Hx) as [Hv _]. destruct (Hca _ Hx) as [Hy|(j & u & b & Hj & Hph & <-)].
    + by apply (rk_kept _ _ _ Hkeep).
    + assert (j = i) as -> by (eapply Hown; [done|by rewrite Hph]). rewrite Hi in Hj. injection Hj as <-. eauto.
  - intros j u [(<- & <- & _)|[Hne Hj]]%list_lookup_insert_Some Hph; [by rewrite Hnew in Hph|].
    exfalso. apply Hne. symmetry. eapply Hown; [done|by rewrite Hph].
  - intros j u b [(<- & <- & _)|[Hne Hj]]%list_lookup_insert_Some Hph; [by rewrite Hnew in Hph|by eapply Hs].
  - intros j u [(<- & <- & _)|[Hne Hj]]%list_lookup_insert_Some; [exact (Hho _ _ Hi)|by eapply Hho].
Qed.
End turned.

Lemma coalesced_turned i p p' fetched :
  pool_ok srv p → turned srv i p p' → coalesced p fetched → ∃ fetched', coalesced p' fetched'.
Proof.
  intros Hok. destruct 1 as [w Hk|t m ph mutex w Hi Hm Hr]; intros Hc.
  - exists []. by apply coalesced_start.
  - pose proof (turn_keeps _ _ _ _ Hm (po_world p)) as Hk. rewrite Hr in Hk. simpl in Hk.
    pose proof (turn_moves _ _ _ _ _ _ _ Hm Hr (co_honest _ _ Hc _ _ Hi) (fun b => co_storing _ _ Hc _ _ b Hi)) as Hmv.
    destruct Hmv as [ph w' Hold Hnew Hfill Hfiles Hfetch|body w' Hold Hg Hfiles Hfetch|body w' Hold Hst].
    + exists fetched. by apply coalesced_calm.
    + eexists. by eapply coalesced_fetch.
    + exists fetched. by eapply coalesced_store.
Qed.

(** C28: on a working disk and with honest origins, however the requests
    interleave, the relay fetches an artifact at most once: the fetches are
    counted by a list of different digests that were asked for. *)
Theorem pool_fetches_once w p :
  relay_reachable srv w → ry_fetches w = 0 → pool_run srv honest w p →
  ∃ fetched, NoDup fetched ∧ ry_fetches (po_world p) = s64 (Z.of_nat (length fetched)) ∧
    ∀ s, s ∈ fetched → ∃ t, t ∈ po_threads p ∧ th_sum t = s.
Proof.
  intros [Hc _]%relay_reachable_ok Hf Hr.
  assert (∃ fetched, coalesced p fetched) as (fetched & [Hn Hcount Ha _ _ _ _]).
  { induction Hr as [|p p' Hr [fetched IH] [rq sum Hh|i p'' Hs]].
    - exists []. by apply coalesced_start.
    - exists fetched. by apply coalesced_arrive.
    - eapply coalesced_turned; [by eapply pool_run_ok|by apply schedule_turned|exact IH]. }
  exists fetched. split; [done|]. split; [done|]. intros s [_ Ht]%Ha. exact Ht.
Qed.
End coalescing.
