(* ===== verification/Campaign.v ===== *)
(** * Offline campaigns (internal/ota/campaign.go, AtomicWrite of store.go)

    A signed assignment and its artifacts on removable media: export, import
    with a check of every digest, and installation into the directory that
    [local_media_dir] names. *)
From stdpp Require Import base tactics gmap strings list.
From Stdlib Require Import ZArith Lia Ascii.
From S2P Require Import Prelude Model Config Crypto Files Backend Metrics Topo Verify World Store TrustMeta Payload Download.
Local Open Scope Z_scope.

(** [json.MarshalIndent(v, "", "  ")] *)
Class JSONIndent (A : Type) := { json_MarshalIndent : A → bytes }.

Definition artifactFile (dir : string) (a : Artifact) : path := Join dir [a_SHA256 a +:+ ".raucb"].

Section campaign.
Context `{JSONDecode Release, JSONDecode Assignment, JSONIndent Assignment}.
Context `{MapRange, Codec, Env} {D : Type}.
Abbreviation M := (Prelude.M (World D)).

(** [for _, a := range l], left at the first error. *)
Fixpoint forM {A} (f : A → M unit) (l : list A) : M unit :=
  match l with
  | [] => mret tt
  | a :: l => _ ← f a; forM f l
  end.

(** The temporary file [os.CreateTemp] makes next to [p]. *)
Definition tempPath (p : path) (suffix : string) : path := removelast p ++ [".ota-" +:+ suffix].

(** [f.Write(b)] *)
Definition writeTemp (tmp : path) (b : bytes) : M unit :=
  n ← tick;
  match env_io n with
  | Some e => fs ← view_fs; _ ← put_fs (<[tmp := File (take (env_short n) b)]> fs); fail e
  | None => fs ← view_fs; put_fs (<[tmp := File b]> fs)
  end.

(** The rest of [AtomicWrite] once the temporary file exists: Chmod, Write,
    Sync, Close, Rename, Sync of the directory, and the deferred Remove. *)
Definition publish (tmp p : path) (b : bytes) : M unit :=
  written ← try (_ ← syscall; _ ← writeTemp tmp b; syscall);
  closed ← try syscall;
  r ← match written with
      | Err e => mret (Err e)
      | Ok _ => match closed with
                | Err e => mret (Err e)
                | Ok _ => try (_ ← Rename tmp p; _ ← syscall; syscall)
                end
      end;
  _ ← ignore (Remove tmp);
  lift r.

Definition AtomicWrite (p : path) (b : bytes) : M unit :=
  n ← tick;
  suffix ← lift (env_rand n);
  let tmp := tempPath p suffix in
  _ ← syscall;
  fs ← view_fs;
  if bool_decide (is_Some (fs !! tmp)) then fail (errors_New "file exists")
  else
    _ ← put_fs (<[tmp := File []]> fs);
    publish tmp p b.

Definition assignmentRelease (a : Assignment) : result Release := StrictJSON (env_Payload (asg_Release a)).

Definition assignmentArtifacts (a : Assignment) : result (list Artifact) :=
  rel ← assignmentRelease a; releaseArtifacts rel.

Definition assignmentFile (dir : string) : path := Join dir ["assignment.json"].

Definition ExportCampaign (dir : string) (assignment : Assignment) (artifactDir : string) : M unit :=
  _ ← syscall;   (* MkdirAll *)
  arts ← lift (assignmentArtifacts assignment);
  _ ← forM (fun a => _ ← CheckArtifact (artifactFile artifactDir a) a;
                     copyFile (artifactFile artifactDir a) (artifactFile dir a)) arts;
  AtomicWrite (assignmentFile dir) (json_MarshalIndent assignment).

Definition ImportCampaign (dir : string) : M Assignment :=
  b ← ReadFile (assignmentFile dir);
  a ← lift (StrictJSON b);
  arts ← lift (assignmentArtifacts a);
  _ ← forM (fun art => CheckArtifact (artifactFile dir art) art) arts;
  mret a.

Definition CopyToMedia (mediaDir : string) (artifactPath : path) (a : Artifact) : M path :=
  if negb (IsAbs mediaDir) then fail (errors_New "media dir must be absolute")
  else
    _ ← CheckArtifact artifactPath a;
    _ ← syscall;   (* MkdirAll *)
    _ ← copyFile artifactPath (artifactFile mediaDir a);
    mret (artifactFile mediaDir a).

Definition InstallCampaign (mediaDir campaignDir : string) (assignment : Assignment) : M unit :=
  arts ← lift (assignmentArtifacts assignment);
  forM (fun a => _ ← CopyToMedia mediaDir (artifactFile campaignDir a) a; mret tt) arts.

(** ** Facts *)
Implicit Types w : World D.

(** A path in the same directory that is named like a temporary file. *)
Definition temporary (p q : path) : Prop := ∃ suffix, q = tempPath p suffix.

Local Hint Resolve tick_touches syscall_touches : keeps.
Lemma writeTemp_touches (P : path → Prop) tmp b : P tmp → keeps (touches P) (writeTemp tmp b).
Proof.
  intros Ht. unfold writeTemp. apply keeps_bind; [apply _|keeps_auto|intros n].
  assert (Hput : ∀ x w, touches P w (put_fs (<[tmp := x]> (w_fs w)) w).2).
  { intros x w. apply put_touches. intros q Hq. by rewrite lookup_insert_ne by (by intros ->). }
  destruct (env_io n); apply view_put_touches; intros w; apply Hput.
Qed.

Lemma publish_touches (P : path → Prop) tmp p b : P tmp → P p → keeps (touches P) (publish tmp p b).
Proof.
  intros Ht Hp. pose proof (writeTemp_touches P tmp b Ht). pose proof (Remove_touches (D := D) P tmp Ht).
  pose proof (Rename_touches (D := D) P tmp p Ht Hp). unfold publish. keeps_auto.
Qed.

Lemma AtomicWrite_touches p b : keeps (touches (fun q => q = p ∨ temporary p q)) (AtomicWrite p b).
Proof.
  unfold AtomicWrite. apply keeps_bind; [apply _|keeps_auto|intros n].
  apply keeps_bind; [apply _|keeps_auto|intros suffix]. apply keeps_bind; [apply _|keeps_auto|intros _].
  set (P := fun q => q = p ∨ temporary p q). set (tmp := tempPath p suffix).
  assert (Ht : P tmp) by (right; by exists suffix). assert (Hp : P p) by (by left).
  apply view_put_touches. intros w. destruct (bool_decide _); [done|].
  unfold mbind, M_bind. simpl. etrans; [apply (put_touches P (<[tmp := File []]> (w_fs w)))|].
  { intros q Hq. apply lookup_insert_ne. by intros ->. }
  by apply publish_touches.
Qed.

Lemma writeTemp_content tmp b w u w' : writeTemp tmp b w = (Ret u, w') → w_fs w' !! tmp = Some (File b).
Proof.
  unfold writeTemp, view_fs, put_fs. intros (n & w1 & _ & Hc)%bind_returns. destruct (env_io n).
  - by do 2 apply bind_returns in Hc as (? & ? & _ & Hc).
  - apply bind_returns in Hc as (fs & w2 & _ & Hc). injection Hc as _ <-. apply lookup_insert_eq.
Qed.

(** Old content, or the new one; and the new one when the call succeeds. *)
Definition old_or_new (p : path) (b : bytes) w (o : outcome unit) w' : Prop :=
  (w_fs w' !! p = w_fs w !! p ∧ o ≠ Ret tt) ∨ w_fs w' !! p = Some (File b).

Lemma try_syscall_fs w : w_fs (try (syscall (D := D)) w).2 = w_fs w.
Proof. unfold try, syscall, tick, mbind, M_bind. destruct (env_crash _); [done|]. by destruct (env_io _). Qed.

Lemma bind_run {A B} (m : M A) (k : A → M B) w :
  (m ≫= k) w = match m w with
    | (Ret a, w') => k a w' | (Fail e, w') => (Fail e, w') | (Died, w') => (Died, w') end.
Proof. done. Qed.

Lemma view_run {B} (k : FS → M B) w : (view_fs ≫= k) w = k (w_fs w) w.
Proof. done. Qed.

Lemma old_or_new_bind {A} p b (m : M A) k w :
  w_fs (m w).2 !! p = w_fs w !! p →
  (∀ a w1, m w = (Ret a, w1) → old_or_new p b w1 (k a w1).1 (k a w1).2) →
  old_or_new p b w ((m ≫= k) w).1 ((m ≫= k) w).2.
Proof.
  intros Hm Hk. unfold mbind, M_bind. destruct (m w) as [[a|e|] w1]; simpl in *; [|by left..].
  destruct (Hk a w1 eq_refl) as [[E ?]|?]; [left|by right]. by rewrite E.
Qed.

Lemma Rename_outcome p q x w :
  w_fs w !! p = Some x →
  ((∃ u, (Rename p q w).1 = Ret u) ∧ w_fs (Rename p q w).2 = <[q := x]> (delete p (w_fs w))) ∨
  ((∀ u, (Rename p q w).1 ≠ Ret u) ∧ w_fs (Rename p q w).2 = w_fs w).
Proof.
  intros Hx. unfold Rename, syscall, tick, view_fs, mbind, M_bind.
  destruct (env_crash _); [by right|]. destruct (env_io _); [by right|]. simpl. rewrite Hx. left. by split; [exists tt|].
Qed.

Lemma two_syscalls_fs w : w_fs ((_ ← syscall (D := D); syscall) w).2 = w_fs w.
Proof.
  unfold syscall, tick, mbind, M_bind. destruct (env_crash _); [done|]. destruct (env_io _); [done|].
  simpl. destruct (env_crash _); [done|]. by destruct (env_io _).
Qed.

(** Renaming the temporary file and syncing the directory: the new content is
    there, or nothing has changed and the call has not succeeded. *)
Lemma rename_sync tmp p b w o w' :
  w_fs w !! tmp = Some (File b) →
  try (_ ← Rename tmp p; _ ← syscall; syscall (D := D)) w = (o, w') →
  w_fs w' !! p = Some (File b) ∨ (w_fs w' !! p = w_fs w !! p ∧ ∀ u, o ≠ Ret (Ok u)).
Proof.
  intros Htmp. unfold try, mbind at 1, M_bind at 1. pose proof (Rename_outcome tmp p _ w Htmp) as Ho.
  destruct (Rename tmp p w) as [[u|e|] w4]; simpl in Ho.
  - destruct Ho as [[_ Ef]|[Hno _]]; [|by destruct (Hno u)]. intros Ht. left.
    assert (Ek : w_fs w' = w_fs w4); [|rewrite Ek, Ef; apply lookup_insert_eq].
    pose proof (two_syscalls_fs w4) as E. destruct ((_ ← syscall; syscall) w4) as [[?|?|] ?]; injection Ht as _ <-; exact E.
  - destruct Ho as [[[? ?] _]|[_ Ef]]; [done|]. intros [= <- <-]. right. by rewrite Ef.
  - destruct Ho as [[[? ?] _]|[_ Ef]]; [done|]. intros [= <- <-]. right. by rewrite Ef.
Qed.

Lemma publish_atomic tmp p b w : tmp ≠ p → old_or_new p b w (publish tmp p b w).1 (publish tmp p b w).2.
Proof.
  intros Hne. set (Q := fun q => q = tmp).
  assert (HQ : ∀ A (m : M A) w1, keeps (touches Q) m → w_fs (m w1).2 !! p = w_fs w1 !! p)
    by (intros A m w1 Ht; apply (Ht w1); congruence).
  pose proof (writeTemp_touches Q tmp b eq_refl) as Hwt.
  assert (Hrm : keeps (touches Q) (ignore (Remove (D := D) tmp))).
  { apply keeps_ignore; [apply _|by apply Remove_touches]. }
  unfold publish. apply old_or_new_bind; [apply HQ; keeps_auto; done|]. intros written w1 Hw.
  apply old_or_new_bind; [by rewrite try_syscall_fs|]. intros closed w2 Hc.
  assert (Hfail : ∀ e, old_or_new p b w2 ((r ← mret (Err e : result unit); _ ← ignore (Remove tmp); lift r) w2).1
    ((r ← mret (Err e : result unit); _ ← ignore (Remove tmp); lift r) w2).2).
  { intros e. apply old_or_new_bind; [done|]. intros r w3 Hr. injection Hr as <- <-.
    apply old_or_new_bind; [by apply HQ|]. by left. }
  destruct written as [[]|e]; [|apply Hfail]. destruct closed as [[]|e]; [|apply Hfail].
  assert (Htmp : w_fs w2 !! tmp = Some (File b)).
  { pose proof (try_syscall_fs w1) as E. rewrite Hc in E. simpl in E. rewrite E. clear E.
    apply try_returns in Hw. apply bind_returns in Hw as (? & w3 & _ & Hw).
    apply bind_returns in Hw as (? & w4 & Hwr & Hw). apply syscall_fs in Hw. rewrite Hw.
    by apply writeTemp_content in Hwr. }
  rewrite bind_run. destruct (try (_ ← Rename tmp p; _ ← syscall; syscall) w2) as [[r|e|] w3] eqn:Er;
    destruct (rename_sync _ _ _ _ _ _ Htmp Er) as [E|[E Hno]]; simpl.
  - right. pose proof (HQ _ _ w3 Hrm) as Ek. rewrite bind_run.
    destruct (ignore (Remove tmp) w3) as [[?|?|] w4]; [destruct r|..]; simpl in *; by rewrite Ek.
  - left. pose proof (HQ _ _ w3 Hrm) as Ek. rewrite bind_run.
    destruct r as [u|e]; [by destruct (Hno u)|].
    destruct (ignore (Remove tmp) w3) as [[?|?|] w4]; simpl in *; rewrite Ek, E; done.
  - by right.
  - by left.
  - by right.
  - by left.
Qed.

Lemma AtomicWrite_old_or_new p b w :
  ¬ temporary p p → old_or_new p b w (AtomicWrite p b w).1 (AtomicWrite p b w).2.
Proof.
  intros Hp. unfold AtomicWrite.
  assert (Hs : ∀ w1, w_fs (syscall (D := D) w1).2 = w_fs w1).
  { intros w1. unfold syscall, tick, mbind, M_bind. destruct (env_crash _); [done|]. by destruct (env_io _). }
  apply old_or_new_bind; [unfold tick; by destruct (env_crash _)|]. intros n w1 _.
  apply old_or_new_bind; [by destruct (env_rand n)|]. intros suffix w2 _.
  apply old_or_new_bind; [by rewrite Hs|]. intros u w3 _.
  apply old_or_new_bind; [done|]. intros fs w4 Hv. injection Hv as <- <-.
  assert (Hne : tempPath p suffix ≠ p) by (intros E; apply Hp; by exists suffix).
  destruct (bool_decide _); [by left|]. apply old_or_new_bind; [simpl; by apply lookup_insert_ne|].
  intros _ w5 _. by apply publish_atomic.
Qed.

(** [AtomicWrite] replaces a file atomically: whatever fails and wherever
    the process dies, the file has its old content or exactly the new one,
    and it has the new one when the call succeeds.  (The target is not itself
    named like a temporary file.) *)
Theorem AtomicWrite_atomic p b w :
  ¬ temporary p p →
  (w_fs (AtomicWrite p b w).2 !! p = w_fs w !! p ∧ (AtomicWrite p b w).1 ≠ Ret tt) ∨
  w_fs (AtomicWrite p b w).2 !! p = Some (File b).
Proof. apply AtomicWrite_old_or_new. Qed.

(** ** File names *)

Lemma artifactFile_inj dir a a' : artifactFile dir a = artifactFile dir a' → a_SHA256 a = a_SHA256 a'.
Proof. unfold artifactFile, Join. intros [= E]%app_inv_head. by apply append_inj_suffix in E. Qed.

Lemma length_list_ascii s : length (String.list_ascii_of_string s) = String.length s.
Proof. induction s; simpl; congruence. Qed.

Lemma digest_head s : digestPattern s = true → ∃ c t, s = String c t ∧ is_lower_hex c = true ∧ String.length t = 63%nat.
Proof.
  unfold digestPattern. intros [Hl Hf]%andb_prop. apply Nat.eqb_eq in Hl. destruct s as [|c t]; [done|].
  simpl in *. apply andb_prop in Hf as [Hc _]. exists c, t. split; [done|]. split; [done|lia].
Qed.

Lemma artifact_not_metadata dir dir' a q :
  digestPattern (a_SHA256 a) = true → q = assignmentFile dir ∨ temporary (assignmentFile dir) q →
  q ≠ artifactFile dir' a.
Proof.
  intros (c & t & E & Hc & Ht)%digest_head Hq Heq.
  assert (Hl : last q = Some (String c (t +:+ ".raucb"))).
  { rewrite Heq. unfold artifactFile, Join. rewrite last_snoc, E. done. }
  destruct Hq as [->|[suffix ->]].
  - unfold assignmentFile, Join in Hl. rewrite last_snoc in Hl. injection Hl as <- Hl.
    apply (f_equal (fun s => length (String.list_ascii_of_string s))) in Hl.
    rewrite ascii_app, length_app, !length_list_ascii in Hl. simpl in Hl. lia.
  - unfold tempPath in Hl. rewrite last_snoc in Hl. injection Hl as <- _. done.
Qed.

Lemma assignment_not_temporary dir : ¬ temporary (assignmentFile dir) (assignmentFile dir).
Proof.
  intros [suffix E]. apply (f_equal last) in E. unfold tempPath, assignmentFile, Join in E.
  rewrite !last_snoc in E. done.
Qed.

(** ** Loops over artifacts *)

Lemma holds_touches (P : path → Prop) w w' p a :
  touches P w w' → ¬ P p → holds_artifact (w_fs w) p a → holds_artifact (w_fs w') p a.
Proof. intros Ht Hp (b & Hb & ?). exists b. by rewrite (Ht p Hp). Qed.

(** A loop that puts every artifact where it belongs and touches nothing else. *)
Lemma forM_delivers (f : Artifact → M unit) dir l w w' :
  (∀ a w1 w2, a ∈ l → f a w1 = (Ret tt, w2) → holds_artifact (w_fs w2) (artifactFile dir a) a) →
  (∀ a, keeps (touches (fun q => q = artifactFile dir a)) (f a)) →
  NoDup (map a_SHA256 l) → forM f l w = (Ret tt, w') →
  ∀ a, a ∈ l → holds_artifact (w_fs w') (artifactFile dir a) a.
Proof.
  intros Hf Ht. revert w. induction l as [|x l IH]; intros w Hnd Hl a Ha; [by apply not_elem_of_nil in Ha|].
  simpl in Hnd. apply NoDup_cons in Hnd as [Hx Hnd]. simpl in Hl. apply bind_returns in Hl as ([] & w1 & E & Hl).
  apply elem_of_cons in Ha as [->|Ha].
  - apply Hf in E; [|left]. assert (Hk : keeps (touches (fun q => ∃ y, y ∈ l ∧ q = artifactFile dir y)) (forM f l)).
    { clear -Ht. induction l as [|y l IH]; simpl; [apply keeps_ret; apply _|]. apply keeps_bind; [apply _| |intros _].
      - intros w. eapply touches_weaken; [|apply Ht]. intros q ->. exists y. split; [left|done].
      - intros w. eapply touches_weaken; [|apply IH]. intros q (z & ? & ->). exists z. split; [by right|done]. }
    specialize (Hk w1). rewrite Hl in Hk. eapply holds_touches; [exact Hk| |exact E].
    intros (y & Hy & Eq%artifactFile_inj). apply Hx. rewrite Eq. by apply list_elem_of_fmap_2.
  - eapply IH; [intros; eapply Hf; [by right|done]|done|done|done].
Qed.

Lemma copy_delivers src dst a w w' :
  src ≠ dst → (_ ← CheckArtifact src a; copyFile src dst) w = (Ret tt, w') → holds_artifact (w_fs w') dst a.
Proof.
  intros Hne (u & w1 & Hc & Hcopy)%bind_returns. destruct u. apply CheckArtifact_holds in Hc.
  by eapply copyFile_holds.
Qed.

Lemma artifactFile_dirs dir dir' a :
  components dir ≠ components dir' → artifactFile dir a ≠ artifactFile dir' a.
Proof. unfold artifactFile, Join. intros Hne [E _]%app_inj_2; done. Qed.

Lemma ExportCampaign_holds dir artifactDir asg arts w w' :
  components dir ≠ components artifactDir → assignmentArtifacts asg = Ok arts →
  ExportCampaign dir asg artifactDir w = (Ret tt, w') →
  w_fs w' !! assignmentFile dir = Some (File (json_MarshalIndent asg)) ∧
  ∀ a, a ∈ arts → holds_artifact (w_fs w') (artifactFile dir a) a.
Proof.
  intros Hne Harts. unfold ExportCampaign. intros (u & w1 & _ & He)%bind_returns.
  apply bind_returns in He as (arts' & w2 & Hl & He). rewrite Harts in Hl. injection Hl as <- <-.
  apply bind_returns in He as ([] & w3 & Hloop & He).
  unfold assignmentArtifacts in Harts. apply result_bind_ok in Harts as (rel & _ & Harts).
  apply releaseArtifacts_sound in Harts as (_ & [Hnd Hwf] & _). split.
  - pose proof (AtomicWrite_old_or_new (assignmentFile dir) (json_MarshalIndent asg) w3
      (assignment_not_temporary dir)) as Ho. rewrite He in Ho. by destruct Ho as [[_ Hno]|?].
  - intros a Ha. assert (Hh : holds_artifact (w_fs w3) (artifactFile dir a) a).
    { eapply forM_delivers; [| |exact Hnd|exact Hloop|done].
      - intros x w4 w5 _ Hx. eapply copy_delivers; [|exact Hx]. apply artifactFile_dirs. congruence.
      - intros x. apply keeps_bind; [apply _|apply CheckArtifact_touches|intros _; by apply copyFile_touches]. }
    pose proof (AtomicWrite_touches (assignmentFile dir) (json_MarshalIndent asg) w3) as Ht. rewrite He in Ht.
    eapply holds_touches; [exact Ht| |exact Hh]. intros Hq.
    eapply artifact_not_metadata; [apply (Hwf a Ha)|exact Hq|done].
Qed.

Lemma forM_checks dir l w :
  disk_works → (∀ a, a ∈ l → holds_artifact (w_fs w) (artifactFile dir a) a) →
  ∃ n, forM (fun a => CheckArtifact (artifactFile dir a) a) l w = (Ret tt, set_w_tick n w).
Proof.
  intros Hb. revert w. induction l as [|x l IH]; intros w Hl; simpl; [exists (w_tick w); by destruct w|].
  unfold mbind, M_bind. rewrite CheckArtifact_works by done.
  rewrite (proj2 (checkFile_iff _ _ _) (Hl x (list_elem_of_here _ _))). simpl.
  destruct (IH (set_w_tick (S (w_tick w)) w)) as [n E]; [intros; apply Hl; by right|]. exists n. by rewrite E.
Qed.

(** C38: what [ExportCampaign] wrote to another directory, [ImportCampaign]
    accepts and returns: every artifact is complete and the assignment is
    the one exported. *)
Theorem campaign_roundtrip dir artifactDir asg w w' :
  disk_works → components dir ≠ components artifactDir →
  StrictJSON (json_MarshalIndent asg) = Ok asg →
  ExportCampaign dir asg artifactDir w = (Ret tt, w') →
  ∃ w'', ImportCampaign dir w' = (Ret asg, w'').
Proof.
  intros Hb Hne Hj He.
  destruct (assignmentArtifacts asg) as [arts|e] eqn:Ea.
  - destruct (ExportCampaign_holds _ _ _ _ _ _ Hne Ea He) as [Hf Hh].
    unfold ImportCampaign, ReadFile, view_fs, mbind, M_bind. rewrite syscall_works by done. simpl.
    rewrite Hf. simpl. rewrite Hj. simpl. rewrite Ea. simpl.
    match goal with |- context [forM _ arts ?x] => destruct (forM_checks dir arts x Hb Hh) as [n ->] end.
    by eexists.
  - unfold ExportCampaign in He. apply bind_returns in He as (u & w1 & _ & He).
    apply bind_returns in He as (arts & w2 & Hl & _). by rewrite Ea in Hl.
Qed.

(** After [InstallCampaign] into the configured media directory the
    agent finds every artifact of the campaign there, so the download needs
    neither relay nor origin. *)
Theorem campaign_installed_is_local c mediaDir campaignDir asg arts w w' :
  disk_works → components mediaDir ≠ components campaignDir → c_LocalMediaDir c = mediaDir →
  assignmentArtifacts asg = Ok arts →
  InstallCampaign mediaDir campaignDir asg w = (Ret tt, w') →
  ∃ w'', artifactsLocal c arts w' = (Ret true, w'').
Proof.
  intros Hb Hne Hc Ea Hi. unfold InstallCampaign in Hi. apply bind_returns in Hi as (arts' & w1 & Hl & Hi).
  rewrite Ea in Hl. injection Hl as <- <-.
  unfold assignmentArtifacts in Ea. apply result_bind_ok in Ea as (rel & _ & Ea).
  apply releaseArtifacts_sound in Ea as (Hnil & [Hnd Hwf] & _).
  assert (Habs : IsAbs mediaDir = true).
  { destruct arts as [|x arts]; [done|]. simpl in Hi. apply bind_returns in Hi as (? & ? & Hx & _).
    unfold CopyToMedia in Hx. by destruct (IsAbs mediaDir). }
  assert (Hh : ∀ a, a ∈ arts → holds_artifact (w_fs w') (artifactFile mediaDir a) a).
  { intros a Ha. eapply forM_delivers; [| |exact Hnd|exact Hi|done].
    - intros x w2 w3 _ Hx. apply bind_returns in Hx as (p & w4 & Hx & Hr). injection Hr as <-.
      unfold CopyToMedia in Hx. rewrite Habs in Hx. simpl in Hx.
      apply bind_returns in Hx as ([] & w5 & Hk & Hx). apply CheckArtifact_holds in Hk.
      apply bind_returns in Hx as (? & w6 & Hs & Hx). apply syscall_fs in Hs.
      apply bind_returns in Hx as ([] & w7 & Hcp & Hx). injection Hx as _ <-. rewrite <- Hs in Hk.
      eapply copyFile_holds; [|exact Hk|exact Hcp]. apply artifactFile_dirs. congruence.
    - intros x. unfold CopyToMedia. apply keeps_bind; [apply _| |intros ?; keeps_auto].
      destruct (negb _); [keeps_auto|].
      apply keeps_bind; [apply _|apply CheckArtifact_touches|intros _].
      apply keeps_bind; [apply _|apply syscall_touches|intros _].
      apply keeps_bind; [apply _|by apply copyFile_touches|intros _; keeps_auto]. }
  unfold artifactsLocal. destruct arts as [|x0 arts0] eqn:Earts; [done|]. rewrite <- Earts in *. clear Earts x0 arts0.
  rewrite Hc. assert (Hne0 : eqs mediaDir "" = false) by (by destruct mediaDir).
  rewrite Hne0, orb_false_r.
  destruct (length arts =? 0)%nat eqn:El; [apply Nat.eqb_eq, length_zero_iff_nil in El; done|].
  clear El Hnil Hi. revert w' Hh. induction arts as [|x l IH]; intros w' Hh; simpl; [by eexists|].
  unfold localMediaFile. rewrite Hc, Hne0, (proj1 (Hwf x (list_elem_of_here _ _))). simpl.
  unfold mediaPath. rewrite Hc. change (Join mediaDir [a_SHA256 x +:+ ".raucb"]) with (artifactFile mediaDir x).
  unfold view_fs, mbind, M_bind. rewrite syscall_works by done. simpl.
  destruct (Hh x (list_elem_of_here _ _)) as (b & Hf & Hs). rewrite Hf.
  rewrite CheckArtifact_works by done. simpl.
  rewrite (proj2 (checkFile_iff (w_fs w') _ _)) by (by exists b). simpl.
  apply NoDup_cons in Hnd as [_ Hnd].
  apply IH; [done|intros; apply Hwf; by right|intros; apply Hh; by right].
Qed.

Lemma copyFile_in_place p b w :
  disk_works → w_fs w !! p = Some (File b) →
  ∃ w', copyFile p p w = (Ret tt, w') ∧ w_fs w' !! p = Some (File []).
Proof.
  intros Hb Hf. unfold copyFile. rewrite bind_run. unfold ReadFile. rewrite bind_run, syscall_works by done.
  rewrite view_run. simpl. rewrite Hf. simpl. rewrite bind_run, syscall_works by done. rewrite view_run. simpl.
  rewrite Hf, bool_decide_eq_true_2 by done.
  unfold copyTo, tick, view_fs, put_fs, mbind, M_bind. simpl.
  match goal with |- context [env_crash ?n] => destruct (Hb n) as [-> Hio]; rewrite Hio end. simpl.
  rewrite syscall_works by done. simpl. eexists. split; [done|]. simpl. apply lookup_insert_eq.
Qed.

(** A campaign installed onto itself is destroyed: [copyFile] truncates
    the artifact it has just verified, and the call reports success. *)
Theorem install_in_place_destroys dir asg x w :
  disk_works → IsAbs dir = true → assignmentArtifacts asg = Ok [x] →
  holds_artifact (w_fs w) (artifactFile dir x) x →
  ∃ w', InstallCampaign dir dir asg w = (Ret tt, w') ∧ w_fs w' !! artifactFile dir x = Some (File []).
Proof.
  intros Hb Habs Ea (b & Hf & Hs). unfold InstallCampaign. rewrite bind_run, Ea. cbn [lift mret M_ret forM].
  rewrite bind_run, bind_run. unfold CopyToMedia. rewrite Habs. cbn [negb].
  rewrite bind_run, CheckArtifact_works by done.
  rewrite (proj2 (checkFile_iff (w_fs w) _ _)) by (by exists b). cbn [of_result].
  rewrite bind_run, syscall_works by done. rewrite bind_run.
  destruct (copyFile_in_place (artifactFile dir x) b (set_w_tick (S (S (w_tick w))) w)) as (w' & E & Hw'); [done|done|].
  change (w_tick (set_w_tick (S (w_tick w)) w)) with (S (w_tick w)).
  change (set_w_tick (S (S (w_tick w))) (set_w_tick (S (w_tick w)) w)) with (set_w_tick (S (S (w_tick w))) w).
  rewrite E. by exists w'.
Qed.
End campaign.
