(* ===== verification/SiteLink.v ===== *)
(** * An agent behind a site relay (download.go, internal/relay/relay.go)

    The agent's HTTP client and the relay's handler put together: a request
    for the relay's URL is answered by [Relay.relay_Handler] on the directory
    the relay has at that moment.  A relay that holds the artifact supplies
    the agent whatever the origin does. *)
From stdpp Require Import base tactics gmap strings list.
From Stdlib Require Import ZArith Lia Ascii.
From S2P Require Import Prelude Model Config Crypto Files Backend Metrics Topo Verify World Store TrustMeta Payload Download Relay Campaign.
Local Open Scope Z_scope.

(** ** The bearer token *)

Lemma prefix_append s t : String.prefix s (s +:+ t) = true.
Proof.
  induction s as [|c s IH]; [by destruct t|]. change (String c s +:+ t) with (String c (s +:+ t)). simpl.
  destruct (ascii_dec c c); [exact IH|done].
Qed.

Lemma length_append s t : String.length (s +:+ t) = (String.length s + String.length t)%nat.
Proof. induction s as [|c s IH]; [done|]. change (String c s +:+ t) with (String c (s +:+ t)). simpl. by rewrite IH. Qed.

Lemma substring_all s : String.substring 0 (String.length s) s = s.
Proof. induction s as [|c s IH]; [done|]. simpl. by rewrite IH. Qed.

Lemma substring_append s t : String.substring (String.length s) (String.length t) (s +:+ t) = t.
Proof.
  induction s as [|c s IH]; [apply substring_all|]. change (String c s +:+ t) with (String c (s +:+ t)). exact IH.
Qed.

Lemma CutPrefix_append p s : CutPrefix (p +:+ s) p = Some s.
Proof.
  unfold CutPrefix. rewrite prefix_append, length_append.
  replace (String.length p + String.length s - String.length p)%nat with (String.length s) by lia.
  by rewrite substring_append.
Qed.

Lemma authorize_token srv : rl_Token srv ≠ "" → relay_authorize srv ("Bearer " +:+ rl_Token srv) = true.
Proof.
  intros Hne. unfold relay_authorize. rewrite (proj2 (eqs_false _ _) Hne), CutPrefix_append. apply eqs_refl.
Qed.

(** ** The link *)

(** What reaches the handler, and what the agent's client makes of the
    handler's response. *)
Definition toRelay (rq : HTTPRequest) (sum : string) : relayRq :=
  mkRelayRq "GET" ["artifacts"; sum] (rq_Authorization rq) (rq_ArtifactURL rq).
Definition fromRelay (rs : relayRs) : HTTPResponse :=
  mkResponse [] (ry_status rs) "" "" (blen (ry_body rs)) (ry_body rs) false.

Section link.
Context `{MapRange, NetURL, Net, Codec, Env, RelayEnv} {D : Type}.
Implicit Types w : World D.
Context (c : Config) (srv : RelayServer).

(** Requests to [base] reach the relay, whose directory is [rw n] when the
    agent's n-th effect happens. *)
Definition relay_link (base : URL) (rw : nat → RelayWorld) : Prop :=
  ∀ n rq sum rs rw', rq_URL rq = u_Scheme base +:+ "://" +:+ u_Host base +:+ "/artifacts/" +:+ sum →
    relay_Handler srv (toRelay rq sum) (rw n) = (Ret rs, rw') → net_Do n rq = Ok (fromRelay rs).

(** The configuration of an agent that shares the relay's token. *)
Record relay_configured (base : URL) w : Prop := {
  rc_url : c_RelayURL c ≠ "" ∧ url_Parse (c_RelayURL c) = Some base;
  rc_token : ∃ raw, w_fs w !! components (c_RelayTokenFile c) = Some (File raw) ∧ TrimSpace raw = rl_Token srv;
  rc_secret : rl_Token srv ≠ "";
}.

(** An artifact the agent may download. *)
Record downloadable (a : Artifact) w : Prop := {
  dl_media : c_LocalMediaDir c = "";
  dl_url : ∃ u, url_Parse (a_URL a) = Some u ∧ u_Scheme u ≠ "file" ∧ checkURL c u = Ok tt;
  dl_digest : digestPattern (a_SHA256 a) = true;
  dl_size : 0 < a_Size a ≤ c_MaxArtifactBytes c;
  dl_part : match w_fs w !! partPath c a with Some (Symlink | Directory | Special) => False | _ => True end;
}.

Lemma openTrunc_works p w :
  disk_works → match w_fs w !! p with Some (Symlink | Directory | Special) => False | _ => True end →
  openTrunc p w = (Ret tt, set_w_fs (<[p := File []]> (w_fs w)) (set_w_tick (S (w_tick w)) w)).
Proof.
  intros Hd Hp. unfold openTrunc, view_fs, mbind, M_bind. rewrite syscall_works by done. simpl.
  by destruct (w_fs w !! p) as [[]|].
Qed.

Lemma copyBody_works p old limit resp w :
  disk_works → rs_BodyErr resp = false →
  copyBody p old limit resp w =
    (Ret (blen (take (Z.to_nat limit) (rs_Body resp)), false),
     set_w_fs (<[p := File (old ++ take (Z.to_nat limit) (rs_Body resp))]> (w_fs w)) (set_w_tick (S (w_tick w)) w)).
Proof.
  intros Hd He. unfold copyBody, tick, mbind, M_bind. destruct (Hd (w_tick w)) as [-> Hio]. simpl.
  rewrite Hio. simpl. by rewrite He.
Qed.

Lemma try_works {A} (m : Prelude.M (World D) A) w x w' : m w = (Ret x, w') → try m w = (Ret (Ok x), w').
Proof. intros Hm. unfold try. by rewrite Hm. Qed.

Lemma Rename_ticks p q w w' : disk_works → Rename p q w = (Ret tt, w') → w_tick w' = S (w_tick w).
Proof.
  intros Hd. unfold Rename. rewrite bind_run, syscall_works, view_run by done.
  destruct (_ !! p); [|done]. by intros [= <-].
Qed.

Lemma receiveRelay_works a resp w :
  disk_works → downloadable a w → rs_BodyErr resp = false → blen (rs_Body resp) = a_Size a →
  digest (rs_Body resp) = a_SHA256 a →
  ∃ w', receiveRelay c a resp w = (Ret (mkFetched (Some (finalPath c a)) (a_Size a) false None), w') ∧
    (w_tick w' ≤ w_tick w + 6)%nat.
Proof.
  intros Hd [_ _ _ _ Hp] He Hl Hdg.
  assert (Htake : take (Z.to_nat (a_Size a + 1)) (rs_Body resp) = rs_Body resp).
  { apply take_ge. unfold blen in Hl. lia. }
  unfold receiveRelay, orReturn. rewrite bind_run, (try_works _ _ _ _ (openTrunc_works _ _ Hd Hp)).
  rewrite bind_run, copyBody_works by done. rewrite Htake. simpl.
  do 2 (rewrite bind_run, (try_works _ _ _ _ (syscall_works Hd _)); simpl). rewrite Hl, Z.eqb_refl. simpl.
  set (w1 := set_w_tick _ _). assert (Hf : w_fs w1 !! partPath c a = Some (File (rs_Body resp))) by apply lookup_insert_eq.
  rewrite bind_run. unfold try at 1. rewrite CheckArtifact_works by done.
  rewrite (proj2 (checkFile_iff _ _ _)) by (exists (rs_Body resp); done). simpl.
  rewrite bind_run.
  match goal with |- context [try (Rename _ _) ?x] => destruct (Rename_works Hd _ (finalPath c a) _ x Hf) as (w2 & Hr & _) end.
  rewrite (try_works _ _ _ _ Hr). exists w2. split; [done|]. apply Rename_ticks in Hr; [|done]. simpl in *. lia.
Qed.

Lemma ReadFile_works p b w :
  disk_works → w_fs w !! p = Some (File b) → ReadFile p w = (Ret b, set_w_tick (S (w_tick w)) w).
Proof. intros Hd Hb. unfold ReadFile. rewrite bind_run, syscall_works, view_run by done. simpl. by rewrite Hb. Qed.

Lemma fetchFromRelay_works base rw a w :
  disk_works → (∀ n, re_io n = None) → (∀ n, re_crash n = false) →
  relay_link base rw → relay_configured base w → downloadable a w →
  (∀ n, ∃ b, ry_files (rw n) !! a_SHA256 a = Some b ∧ blen b = a_Size a ∧ digest b = a_SHA256 a) →
  ∃ w', fetchFromRelay c a w = (Ret (Some (mkFetched (Some (finalPath c a)) (a_Size a) false None)), w') ∧
    (w_tick w' ≤ w_tick w + 8)%nat.
Proof.
  intros Hd Hio Hcr Hlink [[Hne Hru] (raw & Hraw & Htok) Hsec] Hdl Hholds.
  unfold fetchFromRelay. rewrite bind_run, (try_works _ _ _ _ (ReadFile_works _ _ _ Hd Hraw)).
  rewrite Htok, (proj2 (eqs_false _ _) Hsec), Hru. set (w1 := set_w_tick _ w). rewrite bind_run.
  unfold tick. destruct (Hd (w_tick w1)) as [-> _]. set (rq := mkRequest _ _ _ _).
  destruct (Hholds (w_tick w1)) as (b & Hb & Hl & Hdig).
  rewrite (Hlink _ rq (a_SHA256 a) (mkRelayRs 200 b) (set_ry_tick (2 + ry_tick (rw (w_tick w1))) (rw (w_tick w1)))).
  - assert (downloadable a (set_w_tick (S (w_tick w1)) w1)) as Hdl' by (by destruct Hdl; split).
    destruct (receiveRelay_works a (fromRelay (mkRelayRs 200 b)) _ Hd Hdl' eq_refl Hl Hdig) as (w' & Hw & Ht).
    simpl in *. rewrite bind_run, Hw. eexists. split; [reflexivity|lia].
  - done.
  - apply relay_serves_from_cache with (sum := a_SHA256 a); try done; [by apply authorize_token|].
    rewrite validDigest_pattern. by destruct Hdl.
Qed.

Lemma fetch_by_relay base rw a w :
  disk_works → (∀ n, re_io n = None) → (∀ n, re_crash n = false) →
  relay_link base rw → relay_configured base w → downloadable a w →
  (∀ n, ∃ b, ry_files (rw n) !! a_SHA256 a = Some b ∧ blen b = a_Size a ∧ digest b = a_SHA256 a) →
  ∃ w', fetch c a w = (Ret (mkFetched (Some (finalPath c a)) (a_Size a) false None), w') ∧
    holds_artifact (w_fs w') (finalPath c a) a ∧ (w_tick w' ≤ w_tick w + 10)%nat.
Proof.
  intros Hd Hio Hcr Hlink Hcf Hdl Hholds.
  assert (∃ w', fetch c a w = (Ret (mkFetched (Some (finalPath c a)) (a_Size a) false None), w') ∧
    (w_tick w' ≤ w_tick w + 10)%nat) as (w' & Hw' & Ht);
    [|exists w'; split; [done|]; split; [by apply (fetch_delivers c a _ _ _ Hw')|done]].
  destruct (Hdl) as [Hmedia (u & Hu & Hscheme & Hcheck) Hdg Hsize Hpart].
  unfold fetch, localMediaFile, orReturn. rewrite Hmedia. rewrite bind_run. unfold try at 1. simpl.
  rewrite Hu, (proj2 (eqs_false _ _) Hscheme), Hcheck, Hdg. simpl.
  rewrite (proj2 (Z.leb_gt _ _)) by lia. rewrite Z.gtb_ltb, (proj2 (Z.ltb_ge _ _)) by lia. simpl.
  rewrite bind_run, (try_works _ _ _ _ (syscall_works Hd _)).
  rewrite bind_run. unfold try at 1. rewrite CheckArtifact_works by done.
  destruct (checkFile _ _ _) as [[]|e]; simpl; [eexists; split; [done|simpl; lia]|].
  rewrite (proj2 (eqs_false _ _) (proj1 (rc_url _ _ Hcf))). simpl. rewrite bind_run.
  edestruct (fetchFromRelay_works base rw a) as (w' & -> & Ht); try done; [| |simpl; exists w'; split; [done|simpl in Ht; lia]].
  - destruct Hcf. by split.
  - by destruct Hdl; split.
Qed.

(** C30: an agent that shares the token of a relay which holds the artifact
    gets it, on working disks, whatever the origin answers; what it has in
    its cache is the signed artifact. *)
Theorem relay_supplies_agent base rw a w :
  disk_works → (∀ n, re_io n = None) → (∀ n, re_crash n = false) →
  relay_link base rw → relay_configured base w → downloadable a w →
  (∀ n, ∃ b, ry_files (rw n) !! a_SHA256 a = Some b ∧ blen b = a_Size a ∧ digest b = a_SHA256 a) →
  ∃ w', fetch c a w = (Ret (mkFetched (Some (finalPath c a)) (a_Size a) false None), w') ∧
    holds_artifact (w_fs w') (finalPath c a) a.
Proof.
  intros Hd Hio Hcr Hlink Hcf Hdl Hholds.
  destruct (fetch_by_relay base rw a w Hd Hio Hcr Hlink Hcf Hdl Hholds) as (w' & Hf & Hh & _). by exists w'.
Qed.
End link.
