(* ===== verification/Rauc.v ===== *)
(** * RAUC backend (internal/ota/rauc.go, LinuxBootID of backend.go)

    The adapter from the [Backend] interface to RAUC's D-Bus service.  The
    bus, the service behind it and the system manager are the class [Bus]; a
    call may change their state and may fail. *)
From stdpp Require Import base tactics gmap strings list.
From Stdlib Require Import ZArith Lia.
From S2P Require Import Prelude Model Crypto Files Backend.
Local Open Scope Z_scope.

(** A D-Bus value, as far as the type assertions of the adapter tell. *)
Inductive variant := VString (s : string) | VInt32 (z : Z) | VOther.

Record raucSlot := mkRaucSlot { rs_Name : string; rs_Properties : gmap string variant }.

(** What the [select] of [Install] receives next. *)
Inductive selected :=
  | SelDone                                         (* ctx.Done() *)
  | SelClosed                                       (* the signal channel is closed *)
  | SelSignal (name : string) (body : list variant).

Class Bus (D : Type) := {
  bus_Get : string → D → result variant * D;             (* Properties.Get *)
  bus_GetPrimary : D → result string * D;
  bus_GetSlotStatus : D → result (list raucSlot) * D;
  bus_AddMatch : D → result unit * D;                    (* AddMatchSignal *)
  bus_InstallBundle : path → D → result unit * D;
  bus_Signals : D → list selected;                       (* until the context expires *)
  bus_Mark : string → string → D → result (string * string) * D;
  bus_Reboot : D → result unit * D;                      (* login1.Manager.Reboot *)
  bus_BootID : D → result bytes * D;                     (* /proc/sys/kernel/random/boot_id *)
}.

Definition raucInterface : string := "de.pengutronix.rauc.Installer".

(** [LinuxBootID] on the content of the file. *)
Definition LinuxBootID (file : result bytes) : result string :=
  b ← file;
  let v := TrimSpace b in
  if eqs v "" then errorf "empty boot ID" else Ok v.

(** [v, _ := p[key].Value().(string)] *)
Definition stringOf (p : gmap string variant) (key : string) : string :=
  match p !! key with Some (VString s) => s | _ => "" end.

(** The filter and the body of the loop over the slots. *)
Definition bootable (slot : raucSlot) : bool :=
  negb (negb (eqs (stringOf (rs_Properties slot) "class") "rootfs")
        || eqs (stringOf (rs_Properties slot) "bootname") "").
Definition slotOf (slot : raucSlot) : Slot :=
  mkSlot (rs_Name slot) (stringOf (rs_Properties slot) "bundle.version")
    (eqs (stringOf (rs_Properties slot) "boot-status") "good").

Fixpoint collectSlots (slots : list raucSlot) (booted : string) (out : list Slot) : string * list Slot :=
  match slots with
  | [] => (booted, out)
  | slot :: slots =>
      if negb (bootable slot) then collectSlots slots booted out
      else
        let booted := if eqs (stringOf (rs_Properties slot) "state") "booted" then rs_Name slot else booted in
        collectSlots slots booted (out ++ [slotOf slot])
  end.

(** The [select] loop of [Install]; the engine's context always expires. *)
Fixpoint awaitCompleted (l : list selected) : result unit :=
  match l with
  | [] | SelDone :: _ => errorf "RAUC completion unknown; backend may still be installing"
  | SelClosed :: _ => errorf "RAUC bus closed; installation outcome unknown"
  | SelSignal name body :: l =>
      if negb (eqs name (raucInterface +:+ ".Completed")) || negb (length body =? 1)%nat
      then awaitCompleted l
      else match head body with
      | Some (VInt32 code) =>
          if negb (code =? 0) then errorf "RAUC installation failed with code" else Ok tt
      | _ => errorf "malformed RAUC completion"
      end
  end.

Section rauc.
Context {D : Type} `{Bus D}.

(** Calls that hand the state of the bus on and stop at the first error. *)
Definition Call (A : Type) : Type := D → result A * D.
Local Instance call_ret : MRet Call := fun A a d => (Ok a, d).
Local Instance call_bind : MBind Call := fun A B k m d =>
  match m d with (Ok a, d) => k a d | (Err e, d) => (Err e, d) end.
Definition failC {A} (msg : string) : Call A := fun d => (errorf msg, d).

Definition failE {A} (e : error) : Call A := fun d => (Err e, d).
Definition awaitC : Call unit := fun d => (awaitCompleted (bus_Signals d), d).

Definition stringProperty (name : string) : Call string :=
  v ← (bus_Get name : Call variant);
  match v with VString s => mret s | _ => failC ("RAUC property " +:+ name +:+ " not a string") end.

(** Reading the boot id: the error of the read belongs to [LinuxBootID]. *)
Definition bootFile : Call (result bytes) := fun d => let '(file, d) := bus_BootID d in (Ok file, d).
Definition liftC {A} (r : result A) : Call A := fun d => (r, d).

Definition rauc_Status : Call DeviceStatus :=
  operation ← stringProperty "Operation";
  compatible ← stringProperty "Compatible";
  file ← bootFile;
  bootID ← liftC (LinuxBootID file);
  primary ← (bus_GetPrimary : Call string);
  slots ← (bus_GetSlotStatus : Call (list raucSlot));
  let '(booted, out) := collectSlots slots "" [] in
  if eqs booted "" then failC "RAUC did not identify booted rootfs"
  else mret (mkStatus bootID booted primary operation compatible out).

(** An expired context fails the first call that carries it. *)
Definition rauc_Install (fs : FS) (ctx : option error) (p : path) (r : Release) : Call unit :=
  _ ← (bus_AddMatch : Call unit);
  match ctx with
  | Some e => failE e
  | None =>
      s ← rauc_Status;
      if negb (eqs (ds_Operation s) "idle") then failC "RAUC busy"
      else if negb (eqs (ds_Compatible s) (r_Compatible r)) then failC "RAUC compatible mismatch"
      else
        _ ← (bus_InstallBundle p : Call unit);
        awaitC
  end.

Definition rauc_Mark (state slot : string) : Call unit :=
  if negb (eqs state "good") && negb (eqs state "bad") && negb (eqs state "active")
  then failC "invalid mark state"
  else
    '(actual, _) ← (bus_Mark state slot : Call (string * string));
    if negb (eqs actual slot) then failC "RAUC marked an unexpected slot" else mret tt.

Definition rauc_Reboot : Call unit := bus_Reboot.

(** The engine drives RAUC through the same interface as the simulator. *)
Definition RAUCBackend : Backend D := {|
  bk_Status := rauc_Status;
  bk_Install := rauc_Install;
  bk_Mark := rauc_Mark;
  bk_Reboot := rauc_Reboot;
|}.

(** ** Facts *)

Lemma call_bind_ok {A B} (m : Call A) (k : A → Call B) d b d' :
  (m ≫= k) d = (Ok b, d') → ∃ a d1, m d = (Ok a, d1) ∧ k a d1 = (Ok b, d').
Proof. unfold mbind, call_bind. destruct (m d) as [[a|e] d1]; [eauto|done]. Qed.

(** The name [collectSlots] leaves: the last bootable slot in state "booted". *)
Lemma collectSlots_spec slots booted out :
  ∃ b, collectSlots slots booted out = (b, out ++ map slotOf (base.filter (fun s => bootable s = true) slots)) ∧
    (b = booted ∨ ∃ s, s ∈ slots ∧ bootable s = true ∧ stringOf (rs_Properties s) "state" = "booted" ∧ rs_Name s = b).
Proof.
  revert booted out. induction slots as [|s slots IH]; intros booted out; simpl.
  { exists booted. rewrite app_nil_r. auto. }
  rewrite filter_cons. destruct (bootable s) eqn:Eb; simpl.
  - destruct (IH (if eqs (stringOf (rs_Properties s) "state") "booted" then rs_Name s else booted)
                 (out ++ [slotOf s])) as (b & E & Hb).
    exists b. rewrite E, <- app_assoc. split; [done|]. destruct Hb as [->|(x & ? & ?)]; [|right; exists x; set_solver].
    destruct (eqs _ "booted") eqn:Es; [|by left]. reflect_bools. right. exists s. set_solver.
  - destruct (IH booted out) as (b & E & Hb). exists b. split; [done|].
    destruct Hb as [->|(x & ? & ?)]; [by left|right; exists x; set_solver].
Qed.

(** A signal the wait skips, and a wait that ends well. *)
Definition skipped (x : selected) : Prop :=
  ∃ name body, x = SelSignal name body ∧ (name ≠ raucInterface +:+ ".Completed" ∨ length body ≠ 1%nat).
Definition completed (l : list selected) : Prop :=
  ∃ l1 l2, l = l1 ++ SelSignal (raucInterface +:+ ".Completed") [VInt32 0] :: l2 ∧ Forall skipped l1.

Lemma awaitCompleted_iff l : awaitCompleted l = Ok tt ↔ completed l.
Proof.
  unfold completed. induction l as [|x l IH].
  { split; [done|]. intros (l1 & l2 & E & _). by destruct l1. }
  split.
  - destruct x as [| |name body]; [done..|]. cbn [awaitCompleted].
    destruct (negb (eqs name _) || negb _) eqn:En.
    + rewrite IH. intros (l1 & l2 & -> & Hf). exists (SelSignal name body :: l1), l2. split; [done|].
      constructor; [|done]. exists name, body. split; [done|].
      apply orb_true_iff in En as [En|En]; reflect_bools; [by left|right]. by apply Nat.eqb_neq.
    + reflect_bools. subst name. destruct body as [|v [|? ?]]; [done| |done].
      simpl. destruct v as [|code|]; [done| |done]. destruct (negb (code =? 0)) eqn:Ec; [done|]. reflect_bools.
      apply Z.eqb_eq in Ec as ->. intros _. by exists [], l.
  - intros (l1 & l2 & E & Hf). destruct l1 as [|y l1].
    + injection E as -> ->. cbn [awaitCompleted]. by rewrite eqs_refl.
    + injection E as -> ->. apply Forall_cons in Hf as [(name & body & -> & Hs) Hf].
      cbn [awaitCompleted]. destruct (negb (eqs name _) || negb _) eqn:En; [apply IH; eauto|].
      reflect_bools. apply Nat.eqb_eq in H1. by destruct Hs.
Qed.

(** C33: RAUC reports an installation as successful exactly when the service
    was idle and of the release's compatible, took the bundle at this path,
    and then signalled completion with code 0 before any other completion,
    the end of the bus, or the end of the context. *)
Theorem rauc_install_success fs ctx p r d d' :
  rauc_Install fs ctx p r d = (Ok tt, d') ↔
  ctx = None ∧ ∃ d1 s d2, bus_AddMatch d = (Ok tt, d1) ∧ rauc_Status d1 = (Ok s, d2) ∧
    ds_Operation s = "idle" ∧ ds_Compatible s = r_Compatible r ∧
    bus_InstallBundle p d2 = (Ok tt, d') ∧ completed (bus_Signals d').
Proof.
  unfold rauc_Install. split.
  - intros ([] & d1 & Ha & Hi)%call_bind_ok. destruct ctx; [done|]. split; [done|].
    apply call_bind_ok in Hi as (s & d2 & Hs & Hi). destruct (negb _) eqn:E1; [done|].
    destruct (negb (eqs (ds_Compatible s) _)) eqn:E2; [done|]. reflect_bools.
    apply call_bind_ok in Hi as ([] & d3 & Hb & Hw). injection Hw as Hw <-.
    exists d1, s, d2. repeat (split; [done|]). by apply awaitCompleted_iff.
  - intros (-> & d1 & s & d2 & Ha & Hs & Ho & Hc & Hb & Hw%awaitCompleted_iff).
    unfold mbind, call_bind. rewrite Ha, Hs, Ho, Hc, !eqs_refl. simpl. rewrite Hb. unfold awaitC. by rewrite Hw.
Qed.

Lemma rauc_Status_slots d s d' :
  rauc_Status d = (Ok s, d') →
  ∃ slots d1, bus_GetSlotStatus d1 = (Ok slots, d') ∧
    ds_Slots s = map slotOf (base.filter (fun x => bootable x = true) slots) ∧
    ∃ x, x ∈ slots ∧ bootable x = true ∧ stringOf (rs_Properties x) "state" = "booted" ∧ rs_Name x = ds_Booted s.
Proof.
  unfold rauc_Status. intros (op & d1 & _ & Hs)%call_bind_ok.
  do 4 apply call_bind_ok in Hs as (? & ? & _ & Hs). apply call_bind_ok in Hs as (slots & d6 & Hg & Hs).
  destruct (collectSlots_spec slots "" []) as (b & E & Hb). rewrite E in Hs.
  destruct (eqs b "") eqn:Eb; [done|]. reflect_bools. injection Hs as <- <-. exists slots. eexists. split; [done|].
  simpl. split; [done|]. destruct Hb as [->|?]; [done|done].
Qed.

(** With RAUC the engine's target is a real alternative: the device has
    exactly two bootable rootfs slots, one of them is the booted one, and
    [Other] names the other. *)
Theorem rauc_target_is_other_rootfs d s d' target :
  rauc_Status d = (Ok s, d') → Other s = Ok target →
  ∃ slots d1 a b, bus_GetSlotStatus d1 = (Ok slots, d') ∧
    base.filter (fun x => bootable x = true) slots ≡ₚ [a; b] ∧
    stringOf (rs_Properties a) "state" = "booted" ∧ rs_Name a = ds_Booted s ∧
    rs_Name b = target ∧ target ≠ ds_Booted s.
Proof.
  intros Hs Ho. destruct (rauc_Status_slots _ _ _ Hs) as (slots & d1 & Hg & Esl & x & Hx & Hxb & Hxs & Hxn).
  destruct (Other_distinct _ _ Ho) as (Hne & _ & b & o & Hbo & Hb & Ho').
  set (l := base.filter (fun x => bootable x = true) slots) in *.
  assert (Hxl : x ∈ l) by (by apply list_elem_of_filter).
  rewrite Esl in Hbo. exists slots, d1. fold l.
  destruct l as [|y [|z [|? ?]]]; try (destruct Hbo; discriminate). simpl in Hbo.
  assert (Hcase : x = y ∨ x = z) by (apply elem_of_cons in Hxl as [->|Hxl]; [by left|];
    apply list_elem_of_singleton in Hxl; by right).
  destruct Hcase as [-> | ->].
  - exists y, z. repeat (split; [done|]). split; [|done]. destruct Hbo as [[= <- <-]|[= <- <-]]; simpl in *; congruence.
  - exists z, y. split; [done|]. split; [apply Permutation_swap|]. repeat (split; [done|]). split; [|done].
    destruct Hbo as [[= <- <-]|[= <- <-]]; simpl in *; congruence.
Qed.
End rauc.
