(* ===== verification/Engine.v ===== *)
(** * The update engine (internal/ota/engine.go, internal/ota/boot.go)

    Acceptance of an assignment, the job state machine, operator commands
    and the confirmation of normal boots. *)
From stdpp Require Import base tactics gmap strings list.
From Stdlib Require Import ZArith Lia.
From S2P Require Import Prelude Model Config Crypto Files Backend Metrics Trace Topo Verify World Store TrustMeta Payload Download.
Local Open Scope Z_scope.

(** [addEvent]: append to the outbox under the next 64-bit sequence number. *)
Definition addEvent (d : Database) (j : Job) (now : time) : result Database :=
  if events_len d >=? 10000 then errorf "event outbox full; update paused"
  else
    let seq := u64 (db_EventSequence d + 1) in
    Ok (set_db_Events (db_Events d ++ [mkEvent seq (j_JobID j) (j_State j) (j_Error j) now])
          (set_db_EventSequence seq d)).

(** [i] of [Ack]: drop the events up to [sequence]. *)
Fixpoint drop_acked (sequence : Z) (l : list Event) : list Event :=
  match l with
  | e :: l' => if e_Sequence e <=? sequence then drop_acked sequence l' else l
  | [] => []
  end.

Section engine.
Context `{MapRange, Limits, LocalZone, NetURL, Net, Ed25519, LineJSON}.
Context `{JSONDecode Release, JSONEncode Assignment, JSONDecode multiSigned, JSONDecode rootMeta,
          JSONDecode snapshotMeta, JSONDecode timestampMeta, JSONDecode targetsMeta}.
Context `{Codec, Env} {D : Type} `{Backend D}.
Context (c : Config).
Abbreviation M := (Prelude.M (World D)).

(** ** Locking *)

(** [e.mu.Lock(); defer e.mu.Unlock()] *)
Definition locked {A} (m : M A) : M A :=
  _ ← modify (set_w_mu true);
  r ← try m;
  _ ← modify (set_w_mu false);
  lift r.

(** [if !e.mu.TryLock() { return errors.New(busy) }] *)
Definition tryLocked {A} (busy : string) (m : M A) : M A :=
  w ← get;
  if w_mu w then fail (errors_New busy) else locked m.

(** ** Saving a transition *)

Definition randomHex : M string := n ← tick; lift (env_rand n).

(** [nextSpan]: the span and the job with its new ids. *)
Definition nextSpan (j : Job) (prev : time) (message : string) : M (Span * Job) :=
  j ← (if eqs (j_TraceID j) "" then id ← randomHex; mret (set_j_TraceID id j) else mret j);
  id ← randomHex;
  mret (jobSpan (c_DeviceID c) j id prev message, set_j_SpanID id j).

(** The closure [save] hands to [Store.Update]. *)
Definition save_fn (j : Job) (d : Database) : result Database :=
  let d := set_db_Jobs (<[j_JobID j := j]> (db_Jobs d)) d in
  let d := if Terminal (j_State j) then set_db_Active "" d else d in
  addEvent d j (j_Updated j).

Definition settlePayloads (j : Job) (state : State) : M unit :=
  _ ← (if bool_decide (state = Committed)
       then commitSidePayloads (c_StateDir c) (r_Targets (j_Release j)) else mret tt);
  if (bool_decide (state = RolledBack) || bool_decide (state = Failed)) && j_PayloadsApplied j
  then ignore (rollbackSidePayloads (c_StateDir c) (r_Targets (j_Release j))) else mret tt.

Definition save (j : Job) (state : State) (message : string) : M unit :=
  let prev := j_Updated j in
  now ← Now;
  let j := set_j_Updated now (set_j_Error message (set_j_State state j)) in
  _ ← settlePayloads j state;
  _ ← stats (observeState now state);
  d ← View;
  let j := match db_Jobs d !! j_JobID j with
           | Some prevJob => set_j_SpanID (j_SpanID prevJob) (set_j_TraceID (j_TraceID prevJob) j)
           | None => j
           end in
  '(span, j) ← nextSpan j prev message;
  _ ← Update (fun d => lift (save_fn j d));
  if env_spans then modify (fun w => set_w_spans (Export span (w_spans w)) w) else mret tt.

(** ** Submit *)

Definition gateMeasuredBoot (r : Release) : M unit :=
  if negb (r_RequiresMeasuredBoot r) then mret tt
  else match env_measured with
  | None => fail (errors_New "measured boot quote path is not available")
  | Some quote => n ← tick; match quote n with Some e => fail e | None => mret tt end
  end.

(** The closure [Submit] hands to [Store.Update]. *)
Definition submit_fn (a : Assignment) (j : Job) (supply : supplyDecision) (now : time)
    (d : Database) : M Database :=
  let r := j_Release j in
  if negb (eqs (db_Active d) "") then fail (errors_New "another update is active")
  else if events_len d >? hotEventLimit then
    fail (errors_New "journal capacity reached; export/ack events or reprovision journal under documented procedure")
  else if r_Sequence r <=? db_HighSequence d then
    fail (errors_New "replayed or downgraded release sequence")
  else
    d ← applySupplyChain d (c_StateDir c) supply (r_ID r);
    let d := set_db_Jobs (<[asg_JobID a := j]> (db_Jobs d))
               (set_db_Active (asg_JobID a) (set_db_HighSequence (r_Sequence r) d)) in
    lift (addEvent d j now).

Definition newJob (a : Assignment) (r : Release) (now : time) : Job :=
  mkJob a r (Fingerprint a) Accepted "" "" "" "" "" 0 false false 0 false "" "" now.

Definition Submit_body (a : Assignment) : M Job :=
  if negb (identifier (asg_JobID a)) || negb (eqs (asg_DeviceID a) (c_DeviceID c))
  then fail (errors_New "invalid job/device")
  else
    db ← View;
    match db_Jobs db !! asg_JobID a with
    | Some j =>
        if eqs (j_Fingerprint j) (Fingerprint a) then mret j
        else fail (errors_New "job ID reused with different assignment")
    | None =>
        now ← Now;
        r ← lift (VerifyEnvelope (asg_Release a) c now);
        _ ← gateMeasuredBoot r;
        supply ← evaluateSupplyChain c db (env_Payload (asg_Release a))
                   (env_KeyID (asg_Release a)) r now;
        if negb (After (asg_Deadline a) now) || negb (After (asg_Deadline a) (asg_NotBefore a))
           || After (asg_Deadline a) (r_Expires r)
        then fail (errors_New "invalid assignment window")
        else
          let j := newJob a r now in
          _ ← Update (submit_fn a j supply now);
          mret j
    end.

Definition Submit (a : Assignment) : M Job :=
  tryLocked "update engine busy; retry" (Submit_body a).

(** ** Steps of the state machine *)

Definition current : M (option Job) := d ← View; mret (db_Jobs d !! db_Active d).

Definition armDownload (j : Job) : M Job :=
  if negb (IsZero (j_DownloadAfter j)) || (DownloadJitter c =? 0) then mret j
  else
    arts ← lift (releaseArtifacts (j_Release j));
    local ← artifactsLocal c arts;
    if (local : bool) then mret j
    else now ← Now; mret (set_j_DownloadAfter (now + DownloadJitter c) j).

Definition noteDeferred (j : Job) (e : error) : M unit :=
  if j_Deferred j then mret tt else save (set_j_Deferred true j) Downloading (err_msg e).

Fixpoint fetch_loop (arts : list Artifact) (total : Z) (resumed : bool) : M (Z * bool * option error) :=
  match arts with
  | [] => mret (total, resumed, None)
  | a :: arts =>
      f ← fetch c a;
      let total := s64 (total + ft_n f) in
      let resumed := resumed || ft_resumed f in
      match ft_err f with
      | Some e => mret (total, resumed, Some e)
      | None => fetch_loop arts total resumed
      end
  end.

Definition fetchAll (j : Job) : M (Z * bool * option error) :=
  match releaseArtifacts (j_Release j) with
  | Err e => mret (0, false, Some e)
  | Ok arts => fetch_loop arts 0 false
  end.

Definition step_accepted (j : Job) : M unit :=
  armed ← armDownload j; save armed Downloading "".

(** Past the jitter and the download window: fetch, then [Verified]. *)
Definition step_fetch (j : Job) : M unit :=
  let j := set_j_Deferred false j in
  '(n, resumed, err) ← fetchAll j;
  elapsed ← Since;
  _ ← stats (addDownload n resumed elapsed);
  match err with
  | Some e =>
      match err_is e with
      | Some SentErrDeferred => noteDeferred j e
      | _ => fail e
      end
  | None => save j Verified ""
  end.

Definition step_downloading (j : Job) (now : time) : M unit :=
  arts ← lift (releaseArtifacts (j_Release j));
  ready ← artifactsLocal c arts;
  if negb ready && negb (IsZero (j_DownloadAfter j)) && Before now (j_DownloadAfter j)
  then noteDeferred j ErrJitter
  else match (if ready : bool then Ok tt else DownloadAllowed c now) with
  | Err e => noteDeferred j e
  | Ok _ => step_fetch j
  end.

(** The SBOM pinned by the release: [Some msg] fails the job. *)
Definition checkJobSBOM (j : Job) : M (option string) :=
  let r := j_Release j in
  if negb (eqs (r_SBOMSHA256 r) "") then
    let p := cachePath (c_StateDir c) (a_SHA256 (r_SBOM r)) in
    e ← try (CheckArtifact p (r_SBOM r));
    match e with
    | Err e => mret (Some (err_msg e))
    | Ok _ =>
        e ← try (verifySBOMSignature p r c);
        match e with Err e => mret (Some (err_msg e)) | Ok _ => mret None end
    end
  else if c_RequireSBOMSignature c || negb (eqs (r_SBOMKeyID r) "")
          || negb (length (r_SBOMSignature r) =? 0)%nat
  then mret (Some "signed SBOM is required")
  else mret None.

(** Compare what the backend reports with the journalled plan. *)
Definition step_inspect (j : Job) : M unit :=
  r ← try Status;
  match r with
  | Err _ => save j NeedsRecovery "unable to inspect installation result"
  | Ok s =>
      if negb (eqs (ds_Operation s) "idle") || negb (eqs (ds_Booted s) (j_OldSlot j))
         || negb (eqs (ds_Primary s) (j_TargetSlot j))
         || negb (eqs (VersionOf s (j_TargetSlot j)) (r_Version (j_Release j)))
      then save j NeedsRecovery "installed slot/version evidence mismatch"
      else save j AwaitingReboot ""
  end.

(** After [Installing] has been saved: call the backend and inspect. *)
Definition step_install (j : Job) (p : path) : M unit :=
  e ← try (Install p (j_Release j));
  match e with
  | Err e => save j NeedsRecovery ("installation outcome requires inspection: " +:+ err_msg e)
  | Ok _ => step_inspect j
  end.

(** The OS part of [Verified]: check the device, record the plan, install. *)
Definition step_os (j : Job) : M unit :=
  s ← Status;
  if negb (eqs (ds_Operation s) "idle") then fail (errors_New "backend busy")
  else if negb (eqs (ds_Compatible s) (c_Compatible c))
  then save j Failed "backend compatibility mismatch"
  else match Other s with
  | Err e => save j Failed (err_msg e)
  | Ok target =>
      if existsb (fun slot => eqs (s_Version slot) (r_Version (j_Release j))) (ds_Slots s)
      then save j Failed "release version already exists on device"
      else
        let p := cachePath (c_StateDir c) (a_SHA256 (r_Artifact (j_Release j))) in
        e ← try (CheckArtifact p (r_Artifact (j_Release j)));
        match e with
        | Err e => save j Failed (err_msg e)
        | Ok _ =>
            now1 ← Now;
            expired ← (if negb (Before now1 (asg_Deadline (j_Assignment j))) then mret true
                       else now2 ← Now; mret (negb (Before now2 (r_Expires (j_Release j)))));
            if (expired : bool) then save j Failed "installation window expired during verification"
            else
              let j := set_j_BootID (ds_BootID s) (set_j_TargetSlot target
                (set_j_OldVersion (VersionOf s (ds_Booted s)) (set_j_OldSlot (ds_Booted s) j))) in
              _ ← save j Installing "";
              step_install j p
        end
  end.

Definition step_verified (j : Job) : M unit :=
  sbom ← checkJobSBOM j;
  match sbom with
  | Some msg => save j Failed msg
  | None =>
      applied ← (if negb (j_PayloadsApplied j) && negb (length (r_Targets (j_Release j)) =? 0)%nat
                 then r ← try (applySidePayloads (c_StateDir c) (j_Release j) (c_Checks c));
                      match r with
                      | Err e => mret (Err e)
                      | Ok _ => mret (Ok (set_j_PayloadsApplied true j))
                      end
                 else mret (Ok j));
      match applied with
      | Err e => save j Failed (err_msg e)
      | Ok j => if negb (HasOS (j_Release j)) then save j Committed "" else step_os j
      end
  end.

Definition reboot (j : Job) : M unit :=
  let j := set_j_RebootRequested true j in
  _ ← save j AwaitingReboot "";
  e ← try Reboot;
  match e with
  | Err e => _ ← ignore (save (set_j_RebootRequested false j) AwaitingReboot "reboot request failed");
             fail e
  | Ok _ => mret tt
  end.

Definition set_healthySince (t : time) : M unit := modify (set_w_healthySince t).

Definition step_awaiting (j : Job) (now : time) : M unit :=
  s ← Status;
  if eqs (ds_BootID s) (j_BootID j) then
    if negb (eqs (ds_Booted s) (j_OldSlot j))
    then save j NeedsRecovery "slot changed without a boot ID change"
    else if negb (j_RebootRequested j) && asg_AutoReboot (j_Assignment j)
            && negb (Before now (asg_NotBefore (j_Assignment j)))
            && Before now (asg_Deadline (j_Assignment j))
    then reboot j
    else mret tt
  else if eqs (ds_Booted s) (j_OldSlot j)
  then save j RolledBack "bootloader returned to previous slot"
  else if negb (eqs (ds_Booted s) (j_TargetSlot j))
          || negb (eqs (VersionOf s (j_TargetSlot j)) (r_Version (j_Release j)))
  then save j NeedsRecovery "unexpected booted slot/version"
  else
    _ ← set_healthySince 0;
    save (set_j_BootID (ds_BootID s) (set_j_HealthStarted now j)) CheckingHealth "".

(** [e.Health]: [NewEngine] sets it to the configured checks. *)
Definition Health : M unit :=
  match env_health with
  | None => LocalHealth (c_Checks c)
  | Some health => n ← tick; match health n with Some e => fail e | None => mret tt end
  end.

(** The health window of [CheckingHealth], on the expected boot. *)
Definition step_health (j : Job) (now : time) : M unit :=
  if Before now (j_HealthStarted j)
     || negb (Before now (j_HealthStarted j + seconds (c_HealthTimeoutSeconds c)))
  then save j RollbackPending "health verification deadline exceeded"
  else
    h ← try Health;
    match h with
    | Err e =>
        _ ← set_healthySince 0;
        stats (healthFailure (match err_is e with Some (SentHealthError name) => name | _ => "health" end))
    | Ok _ =>
        w ← get;
        let since := if IsZero (w_healthySince w) then now else w_healthySince w in
        _ ← set_healthySince since;
        if Sub now since <? seconds (c_HealthStableSeconds c) then mret tt
        else save j Committing ""
    end.

Definition step_checking (j : Job) (now : time) : M unit :=
  s ← Status;
  if eqs (ds_Booted s) (j_OldSlot j)
  then save j RolledBack "bootloader returned to previous slot during verification"
  else if negb (eqs (ds_Booted s) (j_TargetSlot j))
          || negb (eqs (VersionOf s (j_TargetSlot j)) (r_Version (j_Release j)))
  then save j NeedsRecovery "health/commit slot mismatch"
  else if negb (eqs (ds_BootID s) (j_BootID j)) then
    _ ← set_healthySince 0;
    save (set_j_BootID (ds_BootID s) j) CheckingHealth "rechecking health after another boot"
  else if bool_decide (j_State j = Committing) then
    _ ← Mark "good" (j_TargetSlot j); save j Committed ""
  else step_health j now.

Definition step_rollback (j : Job) : M unit :=
  s ← Status;
  if negb (eqs (ds_Operation s) "idle") then fail (errors_New "backend busy during rollback")
  else if eqs (ds_Booted s) (j_OldSlot j) then save j RolledBack (j_Error j)
  else if negb (eqs (ds_Booted s) (j_TargetSlot j)) then save j NeedsRecovery "rollback slot mismatch"
  else
    _ ← Mark "bad" (j_TargetSlot j);
    _ ← Mark "active" (j_OldSlot j);
    Reboot.

(** The first switch of [Step]: deadline, window and signature once more. *)
Definition preinstall (j : Job) (now : time) (k : M unit) : M unit :=
  if negb (Before now (asg_Deadline (j_Assignment j)))
  then save j Failed "assignment expired before installation"
  else if Before now (asg_NotBefore (j_Assignment j)) then mret tt
  else match VerifyEnvelope (asg_Release (j_Assignment j)) c now with
  | Err e => save j Failed (err_msg e)
  | Ok _ => k
  end.

(** ** Normal boots (boot.go) *)

Definition zeroRelease : Release := releaseOf [].
Definition zeroJob : Job :=
  mkJob (mkAssignment "" "" (mkEnvelope "" [] []) 0 0 false "") zeroRelease "" (UnknownState "")
    "" "" "" "" "" 0 false false 0 false "" "" 0.

Definition later_completed (latest : Job) (p : string * Job) : Job :=
  let j := p.2 in
  if (bool_decide (j_State j = Committed) || bool_decide (j_State j = RolledBack))
     && (j_Sequence j >? j_Sequence latest) then j else latest.

Definition latestCompleted (jobs : gmap string Job) : Job :=
  fold_left later_completed (map_range jobs) zeroJob.

Definition knownVersions (latest : Job) : gmap string string :=
  let known : gmap string string := <[j_OldSlot latest := j_OldVersion latest]> ∅ in
  if bool_decide (j_State latest = Committed)
  then <[j_TargetSlot latest := r_Version (j_Release latest)]> known else known.

(** The boot was not confirmed in time: fall back to the other known slot. *)
Definition bootFallback (known : gmap string string) (s : DeviceStatus) : M unit :=
  other ← lift (Other s);
  if negb (bool_decide (known !! other = Some (VersionOf s other))) || negb (GoodOf s other)
  then fail (errors_New "normal boot health failed and no known fallback exists; board recovery required")
  else
    _ ← Mark "bad" (ds_Booted s);
    _ ← Mark "active" other;
    Reboot.

Definition confirmHealthy (s : DeviceStatus) (now : time) : M unit :=
  h ← try Health;
  match h with
  | Err _ => set_healthySince 0
  | Ok _ =>
      w ← get;
      let since := if IsZero (w_healthySince w) then now else w_healthySince w in
      _ ← set_healthySince since;
      if Sub now since <? seconds (c_HealthStableSeconds c) then mret tt
      else
        _ ← Mark "good" (ds_Booted s);
        Update (fun d => mret (set_db_BootCheck
          (mkBootCheck (bc_BootID (db_BootCheck d)) (bc_Started (db_BootCheck d)) true) d))
  end.

Definition confirmNormalBoot : M unit :=
  d ← View;
  if (size (db_Jobs d) =? 0)%nat then mret tt
  else
    s ← Status;
    if negb (eqs (ds_Operation s) "idle") then mret tt
    else if eqs (bc_BootID (db_BootCheck d)) (ds_BootID s) && bc_Confirmed (db_BootCheck d) then mret tt
    else
      let latest := latestCompleted (db_Jobs d) in
      if eqs (j_JobID latest) "" then mret tt
      else
        let known := knownVersions latest in
        if negb (bool_decide (known !! ds_Booted s = Some (VersionOf s (ds_Booted s))))
        then fail (errors_New "unrecognized normal boot; refusing mark-good")
        else
          now ← Now;
          if negb (eqs (bc_BootID (db_BootCheck d)) (ds_BootID s)) then
            _ ← set_healthySince 0;
            Update (fun d => mret (set_db_BootCheck (mkBootCheck (ds_BootID s) now false) d))
          else if Before now (bc_Started (db_BootCheck d))
                  || negb (Before now (bc_Started (db_BootCheck d)
                                       + seconds (c_HealthTimeoutSeconds c)))
          then bootFallback known s
          else confirmHealthy s now.

(** ** Step *)

Definition step_job (j : Job) (now : time) : M unit :=
  match j_State j with
  | Accepted => preinstall j now (step_accepted j)
  | Downloading => preinstall j now (step_downloading j now)
  | Verified => preinstall j now (step_verified j)
  | Installing =>
      save j NeedsRecovery "agent restarted during installation; inspect RAUC and use recover-abort"
  | AwaitingReboot => step_awaiting j now
  | CheckingHealth | Committing => step_checking j now
  | RollbackPending => step_rollback j
  | NeedsRecovery => mret tt
  | s => fail (errors_New ("unknown active state " +:+ State_string s))
  end.

Definition Step_body : M unit :=
  cur ← current;
  match cur with
  | None => confirmNormalBoot
  | Some j => now ← Now; step_job j now
  end.

(** [Step] waits for the lock. *)
Definition Step : M unit := locked Step_body.

(** ** Operator commands *)

Definition RequestReboot_body : M unit :=
  cur ← current;
  match cur with
  | None => fail (errors_New "no update awaiting reboot")
  | Some j =>
      if negb (bool_decide (j_State j = AwaitingReboot))
      then fail (errors_New "no update awaiting reboot")
      else
        now ← Now;
        if Before now (asg_NotBefore (j_Assignment j)) || negb (Before now (asg_Deadline (j_Assignment j)))
        then fail (errors_New "outside reboot window")
        else
          s ← Status;
          if negb (eqs (ds_BootID s) (j_BootID j)) || negb (eqs (ds_Booted s) (j_OldSlot j))
             || negb (eqs (ds_Operation s) "idle")
          then fail (errors_New "device has already rebooted or backend is busy")
          else reboot j
  end.

Definition RequestReboot : M unit := tryLocked "engine busy" RequestReboot_body.

Definition RecoverAbort_body : M unit :=
  cur ← current;
  match cur with
  | None => fail (errors_New "no job needs recovery")
  | Some j =>
      if negb (bool_decide (j_State j = NeedsRecovery))
      then fail (errors_New "no job needs recovery")
      else
        s ← Status;
        if negb (eqs (ds_Operation s) "idle") || negb (eqs (ds_Booted s) (j_OldSlot j))
           || eqs (j_TargetSlot j) "" || eqs (j_TargetSlot j) (j_OldSlot j)
        then fail (errors_New "recover-abort requires idle backend on original slot")
        else
          _ ← Mark "bad" (j_TargetSlot j);
          _ ← Mark "active" (j_OldSlot j);
          save j Failed "operator aborted ambiguous installation; previous slot restored"
  end.

Definition RecoverAbort : M unit := tryLocked "engine busy" RecoverAbort_body.

Definition ack_fn (sequence : Z) (d : Database) : result Database :=
  if sequence >? db_EventSequence d then errorf "ack exceeds latest event"
  else Ok (set_db_Events (drop_acked sequence (db_Events d)) d).

Definition Ack (sequence : Z) : M unit := Update (fun d => lift (ack_fn sequence d)).

(** The non-directory entries of the cache, in the order [os.ReadDir] lists
    them: sorted by file name. *)
Definition baseName (p : path) : string := default "" (last p).
Fixpoint insertEntry (p : path) (l : list path) : list path :=
  match l with
  | [] => [p]
  | q :: l' => if String.leb (baseName p) (baseName q) then p :: l else q :: insertEntry p l'
  end.
Definition cacheEntries (fs : FS) : list path :=
  foldr insertEntry []
    (filter (fun pn => removelast pn.1 = Join (c_StateDir c) ["cache"] ∧ pn.2 ≠ Directory)
       (map_to_list fs)).*1.

Fixpoint removeAll (ps : list path) : M unit :=
  match ps with
  | [] => mret tt
  | p :: ps => _ ← Remove p; removeAll ps
  end.

Definition GC_body : M unit :=
  cur ← current;
  match cur with
  | Some _ => fail (errors_New "cache cleanup requires no active job")
  | None =>
      r ← try syscall;
      match r with
      | Err e => match err_is e with Some SentNotExist => mret tt | _ => fail e end
      | Ok _ => fs ← view_fs; removeAll (cacheEntries fs)
      end
  end.

Definition GC : M unit := tryLocked "engine busy" GC_body.

(** ** Restart

    The process starts again on what survived the old one; it serves
    requests ([w_mu] is free) once the store is open. *)
Definition Restart (dirSafe lockFree : bool) : M bool :=
  _ ← modify (fun w => set_w_mu true (set_w_healthySince 0
                        (set_w_stats zeroStats (set_w_spans [] w))));
  b ← OpenStore dirSafe lockFree None;
  _ ← modify (set_w_mu false);
  mret b.

End engine.
