(* ===== verification/EngineFrame.v ===== *)
(** * What the engine's helpers leave alone

    Everything that only reads files, downloads, moves payloads or consults
    the oracle keeps the journal and the device ([frame]); backend calls keep
    the journal ([journal_frame]). *)
From stdpp Require Import base tactics gmap strings list.
From Stdlib Require Import ZArith Lia.
From S2P Require Import Prelude Model Config Crypto Files Backend Metrics Trace Topo Verify World Store TrustMeta Payload Download Engine.
Local Open Scope Z_scope.

Section frames.
Context `{MapRange, Limits, LocalZone, NetURL, Net, Ed25519, LineJSON}.
Context `{JSONDecode Release, JSONEncode Assignment, JSONDecode multiSigned, JSONDecode rootMeta,
          JSONDecode snapshotMeta, JSONDecode timestampMeta, JSONDecode targetsMeta}.
Context `{Codec, Env} {D : Type} `{Backend D}.
Context (c : Config).
Abbreviation M := (Prelude.M (World D)).
Abbreviation kf := (keeps (frame (D := D))).

Lemma modify_frame (f : World D → World D) : (∀ w, frame w (f w)) → kf (modify f).
Proof. intros Hf w. apply Hf. Qed.

Local Ltac modify_tac := apply modify_frame; intros; split; reflexivity.
Local Hint Extern 2 (keeps frame (modify _)) => modify_tac : keeps.
Local Hint Resolve tick_frame : keeps.

Lemma view_fs_frame : kf view_fs.
Proof. unfold view_fs. keeps_auto. Qed.
Lemma put_fs_frame fs : kf (put_fs fs).
Proof. unfold put_fs. keeps_auto. Qed.
Lemma stats_frame f : kf (stats f).
Proof. unfold stats. keeps_auto. Qed.
Lemma Now_frame : kf Now.
Proof. unfold Now. keeps_auto. Qed.
Lemma Since_frame : kf Since.
Proof. unfold Since. keeps_auto. Qed.
Lemma syscall_frame : kf syscall.
Proof. unfold syscall. keeps_auto. Qed.
Local Hint Resolve view_fs_frame put_fs_frame stats_frame Now_frame Since_frame syscall_frame : keeps.

Lemma CheckArtifact_frame p a : kf (CheckArtifact p a).
Proof. unfold CheckArtifact. keeps_auto. Qed.
Lemma ReadFile_frame p : kf (ReadFile p).
Proof. unfold ReadFile. keeps_auto. Qed.
Lemma Exists_frame p : kf (World.Exists p).
Proof. unfold World.Exists. keeps_auto. Qed.
Lemma Remove_frame p : kf (Remove p).
Proof. unfold Remove. keeps_auto. Qed.
Lemma Rename_frame p q : kf (Rename p q).
Proof. unfold Rename. keeps_auto. Qed.
Local Hint Resolve CheckArtifact_frame ReadFile_frame Exists_frame Remove_frame Rename_frame : keeps.
Lemma copyTo_frame p b : kf (copyTo p b).
Proof. unfold copyTo. keeps_auto. Qed.
Local Hint Resolve copyTo_frame : keeps.
Lemma copyFile_frame p q : kf (copyFile p q).
Proof. unfold copyFile. keeps_auto. Qed.
Local Hint Resolve copyFile_frame : keeps.

(** Trust metadata. *)
Lemma readSigned_frame p : kf (readSigned p).
Proof. unfold readSigned. keeps_auto. Qed.
Local Hint Resolve readSigned_frame : keeps.
Lemma loadRoot_frame dir pinned stored now : kf (loadRoot dir pinned stored now).
Proof. unfold loadRoot. keeps_auto. Qed.
Local Hint Resolve loadRoot_frame : keeps.
Lemma evaluateSupplyChain_frame db b k r now : kf (evaluateSupplyChain c db b k r now).
Proof. unfold evaluateSupplyChain. keeps_auto. Qed.
Lemma appendTransparency_frame dir id sha : kf (appendTransparency dir id sha).
Proof. unfold appendTransparency. keeps_auto. Qed.
Local Hint Resolve appendTransparency_frame : keeps.
Lemma applySupplyChain_frame d dir dec id : kf (applySupplyChain d dir dec id).
Proof. unfold applySupplyChain. keeps_auto. Qed.
Lemma verifySBOMSignature_frame p r : kf (verifySBOMSignature p r c).
Proof. unfold verifySBOMSignature. keeps_auto. Qed.
Local Hint Resolve evaluateSupplyChain_frame applySupplyChain_frame verifySBOMSignature_frame : keeps.

(** Payloads and health. *)
Lemma probe_frame ck : kf (probe ck).
Proof. unfold probe. keeps_auto. Qed.
Local Hint Resolve probe_frame : keeps.
Lemma LocalHealth_frame l : kf (LocalHealth l).
Proof. induction l; simpl; keeps_auto. Qed.
Lemma rollbackTarget_frame dir t : kf (rollbackTarget dir t).
Proof. unfold rollbackTarget. keeps_auto. Qed.
Local Hint Resolve LocalHealth_frame rollbackTarget_frame : keeps.
Lemma rollbackSidePayloads_frame dir ts : kf (rollbackSidePayloads dir ts).
Proof. induction ts; simpl; keeps_auto. Qed.
Lemma commitSidePayloads_frame dir ts : kf (commitSidePayloads dir ts).
Proof. induction ts; simpl; keeps_auto. Qed.
Lemma checkStorage_frame t : kf (checkStorage t).
Proof. unfold checkStorage. keeps_auto. Qed.
Local Hint Resolve checkStorage_frame : keeps.
Lemma prepareTarget_frame dir t : kf (prepareTarget dir t).
Proof. unfold prepareTarget. keeps_auto. Qed.
Lemma installTarget_frame dir cks t : kf (installTarget dir cks t).
Proof. unfold installTarget. keeps_auto. Qed.
Local Hint Resolve rollbackSidePayloads_frame commitSidePayloads_frame prepareTarget_frame installTarget_frame : keeps.
Lemma apply_loop_frame dir cks l touched : kf (apply_loop dir cks l touched).
Proof. revert touched. induction l; intros; simpl; keeps_auto. Qed.
Local Hint Resolve apply_loop_frame : keeps.
Lemma applySidePayloads_frame dir r cks : kf (applySidePayloads dir r cks).
Proof. unfold applySidePayloads. keeps_auto. Qed.
Local Hint Resolve applySidePayloads_frame : keeps.

(** Downloads. *)
Lemma orReturn_frame {A} (m : M A) n r k : kf m → (∀ a, kf (k a)) → kf (orReturn m n r k).
Proof. intros. unfold orReturn. keeps_auto; eauto. Qed.
Lemma writeFile_frame p b : kf (writeFile p b).
Proof. unfold writeFile. keeps_auto. Qed.
Local Hint Resolve writeFile_frame : keeps.
Local Ltac dl := repeat (keeps_step || (apply orReturn_frame; [|intros ?])).
Lemma localMediaFile_frame a : kf (localMediaFile c a).
Proof. unfold localMediaFile. dl. Qed.
Local Hint Resolve localMediaFile_frame : keeps.
Lemma all_local_frame l : kf (all_local c l).
Proof. induction l; simpl; dl. Qed.
Local Hint Resolve all_local_frame : keeps.
Lemma artifactsLocal_frame l : kf (artifactsLocal c l).
Proof. unfold artifactsLocal. dl. Qed.
Lemma stageLocal_frame a p : kf (stageLocal c a p).
Proof. unfold stageLocal. dl. Qed.
Local Hint Resolve artifactsLocal_frame stageLocal_frame : keeps.
Lemma fetchFile_frame a u : kf (fetchFile c a u).
Proof. unfold fetchFile. dl. Qed.
Lemma openTrunc_frame p : kf (openTrunc p).
Proof. unfold openTrunc. dl. Qed.
Lemma copyBody_frame p o l r : kf (copyBody p o l r).
Proof. unfold copyBody. dl. Qed.
Local Hint Resolve fetchFile_frame openTrunc_frame copyBody_frame : keeps.
Lemma receiveRelay_frame a resp : kf (receiveRelay c a resp).
Proof. unfold receiveRelay. dl. Qed.
Local Hint Resolve receiveRelay_frame : keeps.
Lemma fetchFromRelay_frame a : kf (fetchFromRelay c a).
Proof. unfold fetchFromRelay. dl. Qed.
Lemma finishDownload_frame p q : kf (finishDownload p q).
Proof. unfold finishDownload. dl. Qed.
Lemma truncate_frame p : kf (truncate p).
Proof. unfold truncate. dl. Qed.
Lemma openPart_frame p : kf (openPart p).
Proof. unfold openPart. dl. Qed.
Local Hint Resolve fetchFromRelay_frame finishDownload_frame truncate_frame openPart_frame : keeps.
Lemma acceptResponse_frame a o r : kf (acceptResponse c a o r).
Proof. unfold acceptResponse. dl. Qed.
Lemma receiveBody_frame a o off r resp : kf (receiveBody c a o off r resp).
Proof. unfold receiveBody. dl. Qed.
Local Hint Resolve acceptResponse_frame receiveBody_frame : keeps.
Lemma request_frame a o off : kf (request c a o off).
Proof. unfold request. dl. Qed.
Local Hint Resolve request_frame : keeps.
Lemma resumePart_frame a : kf (resumePart c a).
Proof. unfold resumePart. dl. Qed.
Local Hint Resolve resumePart_frame : keeps.
Lemma fetchOrigin_frame a : kf (fetchOrigin c a).
Proof. unfold fetchOrigin. dl. Qed.
Local Hint Resolve fetchOrigin_frame : keeps.
Lemma fetch_frame a : kf (fetch c a).
Proof. unfold fetch. dl. Qed.
Local Hint Resolve fetch_frame : keeps.
Lemma fetch_loop_frame l t r : kf (fetch_loop c l t r).
Proof. revert t r. induction l; intros; simpl; keeps_auto. Qed.
Local Hint Resolve fetch_loop_frame : keeps.
Lemma fetchAll_frame j : kf (fetchAll c j).
Proof. unfold fetchAll. keeps_auto. Qed.

(** Engine helpers. *)
Lemma randomHex_frame : kf randomHex.
Proof. unfold randomHex. keeps_auto. Qed.
Local Hint Resolve randomHex_frame : keeps.
Lemma nextSpan_frame j p m : kf (nextSpan c j p m).
Proof. unfold nextSpan. keeps_auto. Qed.
Lemma settlePayloads_frame j s : kf (settlePayloads c j s).
Proof. unfold settlePayloads. keeps_auto. Qed.
Lemma View_frame : kf View.
Proof. unfold View. keeps_auto. Qed.
Local Hint Resolve View_frame : keeps.
Lemma gateMeasuredBoot_frame r : kf (gateMeasuredBoot r).
Proof. unfold gateMeasuredBoot. keeps_auto. Qed.
Lemma submit_fn_frame a j s now d : kf (submit_fn c a j s now d).
Proof. unfold submit_fn. keeps_auto. Qed.
Lemma armDownload_frame j : kf (armDownload c j).
Proof. unfold armDownload. keeps_auto. Qed.
Lemma checkJobSBOM_frame j : kf (checkJobSBOM c j).
Proof. unfold checkJobSBOM. keeps_auto. Qed.
Lemma Health_frame : kf (Health c).
Proof. unfold Health. keeps_auto. Qed.
Lemma removeAll_frame l : kf (removeAll l).
Proof. induction l; simpl; keeps_auto. Qed.

End frames.

#[export] Hint Resolve tick_frame view_fs_frame put_fs_frame stats_frame Now_frame Since_frame
  syscall_frame CheckArtifact_frame LocalHealth_frame applySidePayloads_frame artifactsLocal_frame
  fetchAll_frame nextSpan_frame settlePayloads_frame View_frame gateMeasuredBoot_frame
  submit_fn_frame armDownload_frame checkJobSBOM_frame removeAll_frame
  evaluateSupplyChain_frame : keeps.
