(* ===== verification/EngineSpec.v ===== *)
(** * What the engine promises

    An abstract machine over journal snapshots and externally visible
    actions.  Its state is the durable snapshot, the snapshot the process
    believes in (they differ only after a write whose outcome was lost), and
    whether an installation was journalled but not yet started by this
    process.  Theorems about the machine are proved here once; Refine
    shows that every execution of the engine is an execution of it. *)
From stdpp Require Import base tactics gmap strings list sorting.
From Stdlib Require Import ZArith Lia.
From S2P Require Import Prelude Model Config Crypto Files Backend Topo Verify World Store TrustMeta Payload Engine.
Local Open Scope Z_scope.

(** The job [current] finds. *)
Definition activeJob (d : Database) : option Job := db_Jobs d !! db_Active d.

(** The state machine of docs/ARCHITECTURE.md as the code has it. *)
Inductive state_edge : State → State → Prop :=
  | edge_expire s : s = Accepted ∨ s = Downloading ∨ s = Verified → state_edge s Failed
  | edge_arm : state_edge Accepted Downloading
  | edge_defer : state_edge Downloading Downloading
  | edge_fetched : state_edge Downloading Verified
  | edge_payloads_only : state_edge Verified Committed
  | edge_install : state_edge Verified Installing
  | edge_installed : state_edge Installing AwaitingReboot
  | edge_ambiguous : state_edge Installing NeedsRecovery
  | edge_reboot : state_edge AwaitingReboot AwaitingReboot
  | edge_booted : state_edge AwaitingReboot CheckingHealth
  | edge_fallback s : s = AwaitingReboot ∨ s = CheckingHealth ∨ s = Committing ∨ s = RollbackPending →
      state_edge s RolledBack
  | edge_mismatch s : s = AwaitingReboot ∨ s = CheckingHealth ∨ s = Committing ∨ s = RollbackPending →
      state_edge s NeedsRecovery
  | edge_recheck s : s = CheckingHealth ∨ s = Committing → state_edge s CheckingHealth
  | edge_unhealthy : state_edge CheckingHealth RollbackPending
  | edge_healthy : state_edge CheckingHealth Committing
  | edge_commit : state_edge Committing Committed
  | edge_abort : state_edge NeedsRecovery Failed.

(** A job that has not touched the device yet. *)
Definition waiting (s : State) : bool :=
  match s with Accepted | Downloading | Verified => true | _ => false end.

Section spec.
Context `{MapRange, Limits, Ed25519, JSONDecode Release, JSONEncode Assignment}.
Context (c : Config).

(** The release was signed by a trusted key and verified for this device. *)
Definition trusted (j : Job) : Prop :=
  asg_DeviceID (j_Assignment j) = c_DeviceID c ∧ identifier (j_JobID j) = true ∧
  ∃ now, VerifyEnvelope (asg_Release (j_Assignment j)) c now = Ok (j_Release j).

(** At some moment of the step the assignment was in its window and its
    envelope verified again. *)
Definition permitted (j : Job) : Prop :=
  ∃ now r, asg_NotBefore (j_Assignment j) ≤ now < asg_Deadline (j_Assignment j) ∧
    VerifyEnvelope (asg_Release (j_Assignment j)) c now = Ok r.

(** One transition of a job: identity is kept, the slot plan is fixed when
    installation starts and never changes afterwards. *)
Record job_edge (j j' : Job) : Prop := {
  je_assignment : j_Assignment j' = j_Assignment j;
  je_release : j_Release j' = j_Release j;
  je_fingerprint : j_Fingerprint j' = j_Fingerprint j;
  je_state : state_edge (j_State j) (j_State j');
  je_permitted : waiting (j_State j) = true → j_State j' ≠ Failed → permitted j;
  je_plan : j_State j' ≠ Installing →
    j_OldSlot j' = j_OldSlot j ∧ j_OldVersion j' = j_OldVersion j ∧ j_TargetSlot j' = j_TargetSlot j;
  je_install : j_State j' = Installing → j_TargetSlot j' ≠ j_OldSlot j' ∧ j_TargetSlot j' ≠ "";
}.

(** Only the supply-chain fields differ, and the snapshot version advances. *)
Record trust_step (d d' : Database) : Prop := {
  tr_rest : d' = set_db_SnapshotSHA (db_SnapshotSHA d') (set_db_SnapshotVersion (db_SnapshotVersion d')
    (set_db_RootVersion (db_RootVersion d') (set_db_RootPayload (db_RootPayload d') d)));
  tr_snapshot : db_SnapshotVersion d ≤ db_SnapshotVersion d';
}.

(** What one transaction does before compaction. *)
Inductive op (d : Database) : Database → Prop :=
  | op_submit a r now dt d1 :
      let j := newJob a r now in
      db_Active d = "" → db_Jobs d !! asg_JobID a = None → trusted j →
      VerifyEnvelope (asg_Release a) c now = Ok r →
      now < asg_Deadline a → asg_NotBefore a < asg_Deadline a → asg_Deadline a ≤ r_Expires r →
      db_HighSequence d < r_Sequence r → trust_step d dt →
      addEvent (set_db_Jobs (<[asg_JobID a := j]> (db_Jobs dt))
                 (set_db_Active (asg_JobID a) (set_db_HighSequence (r_Sequence r) dt))) j now = Ok d1 →
      op d d1
  | op_save j j' d1 :
      activeJob d = Some j → job_edge j j' → save_fn j' d = Ok d1 → op d d1
  | op_ack n d1 : ack_fn n d = Ok d1 → op d d1
  | op_boot b : activeJob d = None → op d (set_db_BootCheck b d).

(** A transaction: an operation, compaction, validation. *)
Definition txn (d d' : Database) : Prop :=
  ∃ d1 spilled, op d d1 ∧ compactHot d1 = Ok (d', spilled) ∧ db_ok d'.

(** The slots and versions a normal boot may confirm. *)
Definition knownSlots (d : Database) : gmap string string :=
  knownVersions (latestCompleted (db_Jobs d)).

(** The device runs a boot that is not confirmed, and no job is active. *)
Definition unconfirmed (m : Database) : Prop :=
  activeJob m = None ∧ bc_Confirmed (db_BootCheck m) = false.

(** A boot to leave and a slot to fall back to. *)
Record fallback (m : Database) (booted other : string) : Prop := {
  fb_unconfirmed : unconfirmed m;
  fb_booted : is_Some (knownSlots m !! booted);
  fb_other : is_Some (knownSlots m !! other);
  fb_distinct : other ≠ booted;
}.

Inductive may_mark (m : Database) : string → string → Prop :=
  | mark_commit j : activeJob m = Some j → j_State j = Committing →
      may_mark m "good" (j_TargetSlot j)
  | mark_abandon j : activeJob m = Some j → j_State j = RollbackPending ∨ j_State j = NeedsRecovery →
      may_mark m "bad" (j_TargetSlot j)
  | mark_restore j : activeJob m = Some j → j_State j = RollbackPending ∨ j_State j = NeedsRecovery →
      may_mark m "active" (j_OldSlot j)
  | mark_boot slot : unconfirmed m → is_Some (knownSlots m !! slot) → may_mark m "good" slot
  | mark_leave booted other : fallback m booted other → may_mark m "bad" booted
  | mark_fallback booted other : fallback m booted other → may_mark m "active" other.

Inductive may_reboot (m : Database) : Prop :=
  | reboot_target j : activeJob m = Some j → j_State j = AwaitingReboot →
      j_RebootRequested j = true → may_reboot m
  | reboot_rollback j : activeJob m = Some j → j_State j = RollbackPending → may_reboot m
  | reboot_boot booted other : fallback m booted other → may_reboot m.

Record spec := mkSpec { sp_durable : Database; sp_memory : Database; sp_armed : bool }.

Definition installing (d : Database) : bool :=
  match activeJob d with Some j => bool_decide (j_State j = Installing) | None => false end.

(** An installation may start: journalled by this process, file checked. *)
Record may_install (s : spec) (fs : FS) (p : path) (r : Release) : Prop := {
  mi_synced : sp_memory s = sp_durable s;
  mi_armed : sp_armed s = true;
  mi_job : ∃ j, activeJob (sp_durable s) = Some j ∧ j_State j = Installing ∧ j_Release j = r;
  mi_path : p = cachePath (c_StateDir c) (a_SHA256 (r_Artifact r));
  mi_file : holds_artifact fs p (r_Artifact r);
}.

Inductive spec_step : spec → option Action → spec → Prop :=
  (** a transaction commits; a change to [Installing] arms the installation *)
  | spec_commit d a d' : txn d d' →
      spec_step (mkSpec d d a) (Some (AJournal d'))
        (mkSpec d' d' (installing d' && (negb (installing d) || a)))
  (** it commits but the process is told that it failed *)
  | spec_lost d a d' : txn d d' →
      spec_step (mkSpec d d a) (Some (AJournal d')) (mkSpec d' d false)
  | spec_restart d m a : spec_step (mkSpec d m a) None (mkSpec d d false)
  | spec_install s fs p r : may_install s fs p r →
      spec_step s (Some (AInstall fs p r)) (mkSpec (sp_durable s) (sp_memory s) false)
  | spec_mark s state slot : may_mark (sp_memory s) state slot →
      spec_step s (Some (AMark state slot)) s
  | spec_reboot s : may_reboot (sp_memory s) → spec_step s (Some AReboot) s.

Inductive spec_run : list Action → spec → Prop :=
  | run_init : spec_run [] (mkSpec initialDatabase initialDatabase false)
  | run_action t s a s' : spec_run t s → spec_step s (Some a) s' → spec_run (t ++ [a]) s'
  | run_silent t s s' : spec_run t s → spec_step s None s' → spec_run t s'.

End spec.

(** ** The invariant of journal snapshots *)
Section facts.
Context `{MapRange, Limits, Ed25519, JSONDecode Release, JSONEncode Assignment}.
Context (c : Config).

Record good (d : Database) : Prop := {
  gd_ok : db_ok d;
  gd_noempty : db_Jobs d !! "" = None;
  gd_trusted : ∀ id j, db_Jobs d !! id = Some j → trusted c j;
  gd_sequence : ∀ j, activeJob d = Some j → j_Sequence j = db_HighSequence d;
  gd_plan : ∀ j, activeJob d = Some j → waiting (j_State j) = false →
    j_TargetSlot j ≠ j_OldSlot j ∧ j_TargetSlot j ≠ "";
  gd_events : 0 ≤ db_EventSequence d < 2 ^ 64;
}.

Lemma good_initial : good initialDatabase.
Proof.
  pose proof hotJobLimit_nonneg. split; try (intros ? ?; done); [|done|done].
  split; simpl; try done; try (intros ? ?; done); unfold jobs_len, events_len; simpl; rewrite ?map_size_empty; lia.
Qed.

Lemma active_nonterminal d j : good d → activeJob d = Some j → Terminal (j_State j) = false.
Proof.
  intros Hg Hj. destruct (dk_active _ (gd_ok _ Hg)) as (j' & Hj' & Ht).
  - intros E. unfold activeJob in Hj. rewrite E, (gd_noempty _ Hg) in Hj. done.
  - unfold activeJob in Hj. congruence.
Qed.

Lemma active_key d j : good d → activeJob d = Some j → db_Active d = j_JobID j.
Proof. intros Hg Hj. by apply (dk_all_jobs _ (gd_ok _ Hg)) in Hj as [? _ _ _ _]. Qed.

(** Without an active reference there is no active job, and conversely. *)
Lemma no_active d : good d → activeJob d = None ↔ db_Active d = "".
Proof.
  intros Hg. split.
  - intros Hn. destruct (decide (db_Active d = "")) as [|Hne]; [done|].
    destruct (dk_active _ (gd_ok _ Hg) Hne) as (j & Hj & _). unfold activeJob in Hn. congruence.
  - unfold activeJob. intros ->. apply (gd_noempty _ Hg).
Qed.

Lemma compact_active d d' spilled :
  db_Jobs d !! "" = None → compactHot d = Ok (d', spilled) →
  activeJob d' = activeJob d ∧ db_HighSequence d' = db_HighSequence d ∧
  db_Active d' = db_Active d ∧ db_Jobs d' ⊆ db_Jobs d ∧
  db_EventSequence d' = db_EventSequence d ∧ db_Events d' = db_Events d ∧
  db_SnapshotVersion d' = db_SnapshotVersion d.
Proof.
  intros He Hc. apply compactHot_ok in Hc as [[Hr Hs _ Hk] _]; [|done].
  assert (Ha : db_Active d' = db_Active d) by by rewrite Hr.
  split; [|rewrite Hr; simpl; repeat split; try done]. unfold activeJob. rewrite Ha.
  destruct (db_Jobs d !! db_Active d) as [j|] eqn:Ej.
  - destruct (Hk _ _ Ej) as [?|[_ [? _]]]; done.
  - destruct (db_Jobs d' !! db_Active d) eqn:E'; [|done].
    eapply lookup_weaken in E'; [|done]. congruence.
Qed.

Lemma addEvent_ok d j now d' :
  addEvent d j now = Ok d' →
  d' = set_db_Events (db_Events d ++ [mkEvent (u64 (db_EventSequence d + 1)) (j_JobID j) (j_State j) (j_Error j) now])
         (set_db_EventSequence (u64 (db_EventSequence d + 1)) d).
Proof. unfold addEvent. destruct (_ >=? _); [discriminate|]. by intros [= <-]. Qed.

Lemma ack_fn_ok n d d' : ack_fn n d = Ok d' → d' = set_db_Events (drop_acked n (db_Events d)) d.
Proof. unfold ack_fn. destruct (_ >? _); [discriminate|]. by intros [= <-]. Qed.

Lemma save_fn_ok j d d' :
  save_fn j d = Ok d' →
  db_Jobs d' = <[j_JobID j := j]> (db_Jobs d) ∧
  db_Active d' = (if Terminal (j_State j) then "" else db_Active d) ∧
  db_HighSequence d' = db_HighSequence d ∧ db_SnapshotVersion d' = db_SnapshotVersion d ∧
  db_EventSequence d' = u64 (db_EventSequence d + 1) ∧
  db_Events d' = db_Events d ++ [mkEvent (u64 (db_EventSequence d + 1)) (j_JobID j) (j_State j) (j_Error j) (j_Updated j)].
Proof. unfold save_fn. intros ->%addEvent_ok. by destruct (Terminal _). Qed.

(** What a transaction does to the active job. *)
Inductive active_step (d d' : Database) : Prop :=
  | active_submit j :
      activeJob d = None → activeJob d' = Some j → j_State j = Accepted →
      db_HighSequence d < j_Sequence j → db_HighSequence d' = j_Sequence j → active_step d d'
  | active_save j j' :
      activeJob d = Some j → job_edge c j j' → db_HighSequence d' = db_HighSequence d →
      activeJob d' = (if Terminal (j_State j') then None else Some j') → active_step d d'
  | active_same :
      activeJob d' = activeJob d → db_HighSequence d' = db_HighSequence d → active_step d d'.

(** Everything an operation keeps, compaction aside. *)
Lemma op_facts d d1 :
  good d → op c d d1 →
  db_Jobs d1 !! "" = None ∧ (∀ id j, db_Jobs d1 !! id = Some j → trusted c j) ∧ active_step d d1 ∧
  (db_EventSequence d1 = db_EventSequence d ∨ db_EventSequence d1 = u64 (db_EventSequence d + 1)).
Proof.
  intros Hg [a r now dt d1' j Hact Hnew Htr Hv _ _ _ Hseq [Hrest _] Hadd|j j' d1' Hj He Hs|n d1' Ha|b Hn].
  - apply addEvent_ok in Hadd as ->. simpl.
    assert (Hjobs : db_Jobs dt = db_Jobs d) by (by rewrite Hrest). rewrite Hjobs.
    assert (Hne : asg_JobID a ≠ "") by (intros E; destruct Htr as (_ & Hid & _);
      unfold j_JobID in Hid; simpl in Hid; by rewrite E in Hid).
    split; [by rewrite lookup_insert_ne; [apply (gd_noempty _ Hg)|]|]. split.
    { intros id j0 [[? <-]|[? Hl]]%lookup_insert_Some; [done|by eapply (gd_trusted _ Hg)]. }
    split; [|right; by rewrite Hrest].
    eapply (active_submit _ _ j); simpl; [by apply no_active| |done|done|done].
    unfold activeJob. simpl. apply lookup_insert_eq.
  - pose proof Hs as (Hjobs & Hact & Hhigh & _ & Hev & _)%save_fn_ok. destruct He as [Ea Er Ef ? ? ? ?].
    assert (Hid : j_JobID j' = db_Active d) by (unfold j_JobID; rewrite Ea; symmetry; by apply active_key).
    assert (Hne : db_Active d ≠ "").
    { intros E. apply no_active in E; [|done]. congruence. }
    rewrite Hjobs, Hid. split; [by rewrite lookup_insert_ne; [apply (gd_noempty _ Hg)|]|]. split.
    { intros id j0 [[? <-]|[? Hl]]%lookup_insert_Some; [|by eapply (gd_trusted _ Hg)].
      destruct (gd_trusted _ Hg _ _ Hj) as (? & ? & ?). unfold trusted, j_JobID. rewrite Ea, Er. done. }
    split; [|by right].
    eapply (active_save _ _ j j'); [done|by split|done|]. unfold activeJob. rewrite Hact, Hjobs, Hid.
    destruct (Terminal (j_State j')); [|apply lookup_insert_eq].
    rewrite lookup_insert_ne by done. apply (gd_noempty _ Hg).
  - apply ack_fn_ok in Ha as ->. split; [apply Hg|]. split; [apply Hg|]. split; [by apply active_same|by left].
  - split; [apply Hg|]. split; [apply Hg|]. split; [by apply active_same|by left].
Qed.

Lemma txn_active d d' : good d → txn c d d' → active_step d d'.
Proof.
  intros Hg (d1 & sp & Hop & Hc & _). destruct (op_facts _ _ Hg Hop) as (He & _ & Hstep & _).
  apply compact_active in Hc as (Ha & Hh & _); [|done].
  destruct Hstep; [eapply active_submit|eapply active_save|eapply active_same]; rewrite ?Ha, ?Hh; eauto.
Qed.

Lemma active_step_good d d' :
  good d → active_step d d' →
  (∀ j, activeJob d' = Some j → j_Sequence j = db_HighSequence d') ∧
  (∀ j, activeJob d' = Some j → waiting (j_State j) = false →
     j_TargetSlot j ≠ j_OldSlot j ∧ j_TargetSlot j ≠ "").
Proof.
  intros Hg [j Hn Hj Hs Hlt Hh|j j' Hj He Hh Hj'|Ha Hh].
  - split; intros j0 Hj0; rewrite Hj0 in Hj; injection Hj as ->; [done|]. by rewrite Hs.
  - split; intros j0 Hj0; rewrite Hj' in Hj0; destruct (Terminal _) eqn:Et; try done;
      injection Hj0 as <-; destruct He as [Ea Er Ef Hst Hp Hpl Hin].
    + unfold j_Sequence. rewrite Er, Hh. by apply (gd_sequence _ Hg).
    + intros Hw. destruct (decide (j_State j' = Installing)) as [|Hni]; [by apply Hin|].
      destruct (Hpl Hni) as (-> & _ & ->). apply (gd_plan _ Hg); [done|].
      destruct Hst; naive_solver.
  - rewrite Ha, Hh. split; [apply Hg|apply Hg].
Qed.

Lemma txn_good d d' : good d → txn c d d' → good d'.
Proof.
  intros Hg Ht. pose proof (txn_active _ _ Hg Ht) as Hs.
  destruct Ht as (d1 & sp & Hop & Hc & Hok). destruct (op_facts _ _ Hg Hop) as (He & Htr & _ & Hev).
  apply compact_active in Hc as (_ & _ & _ & Hsub & Hes & _); [|done].
  destruct (active_step_good _ _ Hg Hs) as [Hseq Hplan]. split; [done| | |done|done|].
  - destruct (db_Jobs d' !! "") eqn:E; [|done]. eapply lookup_weaken in E; [|done]. congruence.
  - intros id j Hj. eapply Htr, lookup_weaken; done.
  - rewrite Hes. destruct Hev as [-> | ->]; [apply Hg|]. unfold u64. apply Z.mod_pos_bound. lia.
Qed.

(** ** The outbox and the jobs across a transaction *)

Lemma ordered_above limit p l :
  events_ordered limit p l → ∀ e, e ∈ l → p < e_Sequence e ≤ limit.
Proof.
  revert p. induction l as [|e0 l IH]; intros p Ho e Hin; [inversion Hin|].
  destruct Ho as [Hp Ho]. inversion Hin; subst; [done|]. specialize (IH _ Ho _ H6). lia.
Qed.

(** [Ack] removes exactly the acknowledged events. *)
Lemma drop_acked_filter limit p n l :
  events_ordered limit p l → drop_acked n l = filter (fun e => n < e_Sequence e) l.
Proof.
  revert p. induction l as [|e l IH]; intros p Ho; [done|]. destruct Ho as [Hp Ho]. simpl.
  destruct (Z.leb_spec (e_Sequence e) n).
  - rewrite (IH _ Ho), filter_cons_False; [done|lia].
  - rewrite filter_cons_True by lia. f_equal. clear IH. rename H4 into Hn.
    assert (Hall : ∀ e', e' ∈ l → n < e_Sequence e').
    { intros e' Hin. pose proof (ordered_above _ _ _ Ho _ Hin). lia. }
    clear Ho. induction l as [|x l IHl]; [done|].
    rewrite filter_cons_True by (apply Hall; left). f_equal. apply IHl. intros; apply Hall; by right.
Qed.

Inductive event_step (d d' : Database) : Prop :=
  | event_append e :
      db_Events d' = db_Events d ++ [e] → e_Sequence e = db_EventSequence d + 1 →
      db_EventSequence d' = db_EventSequence d + 1 → event_step d d'
  | event_ack n :
      n ≤ db_EventSequence d → db_Events d' = filter (fun e => n < e_Sequence e) (db_Events d) →
      db_EventSequence d' = db_EventSequence d → event_step d d'
  | event_same :
      db_Events d' = db_Events d → db_EventSequence d' = db_EventSequence d → event_step d d'.

(** The event number cannot wrap: the wrapped database is refused. *)
Lemma append_no_wrap d d' e :
  good d → db_ok d' → db_Events d' = db_Events d ++ [e] → e_Sequence e = u64 (db_EventSequence d + 1) →
  u64 (db_EventSequence d + 1) = db_EventSequence d + 1.
Proof.
  intros Hg Hok He Hs. destruct (decide (db_EventSequence d + 1 = 2 ^ 64)) as [E|E].
  - assert (Hin : e ∈ db_Events d') by (rewrite He; set_solver).
    apply (ordered_above _ _ _ (dk_events _ Hok)) in Hin.
    rewrite Hs, E in Hin. unfold u64 in Hin. rewrite Z.mod_same in Hin; lia.
  - apply u64_small. pose proof (gd_events _ Hg). lia.
Qed.

Lemma txn_events d d' : good d → txn c d d' → event_step d d'.
Proof.
  intros Hg (d1 & sp & Hop & Hc & Hok). destruct (op_facts _ _ Hg Hop) as (He & _).
  apply compact_active in Hc as (_ & _ & _ & _ & Hes & Hev & _); [|done].
  destruct Hop as [a r now dt d1' j _ _ _ _ _ _ _ _ [Hrest _] Hadd|j j' d1' Hj Hje Hs|n d1' Ha|b Hn].
  - apply addEvent_ok in Hadd as ->. simpl in *.
    assert (E1 : db_Events dt = db_Events d) by (by rewrite Hrest).
    assert (E2 : db_EventSequence dt = db_EventSequence d) by (by rewrite Hrest).
    rewrite E1, E2 in *. pose proof (append_no_wrap _ _ _ Hg Hok Hev eq_refl) as Hw.
    rewrite Hw in *. by eapply event_append.
  - pose proof Hs as (_ & _ & _ & _ & E2 & E1)%save_fn_ok. rewrite E1, E2 in *.
    pose proof (append_no_wrap _ _ _ Hg Hok Hev eq_refl) as Hw. rewrite Hw in *. by eapply event_append.
  - unfold ack_fn in Ha. destruct (n >? db_EventSequence d) eqn:E; [done|]. injection Ha as <-. simpl in *.
    rewrite (drop_acked_filter _ _ _ _ (dk_events _ (gd_ok _ Hg))) in Hev.
    apply (event_ack _ _ n); [lia|done|done].
  - by apply event_same.
Qed.

(** What happens to a stored job: nothing, archived once finished, or one
    edge of the state machine (and perhaps archived at once). *)
Inductive job_step (d d' : Database) (id : string) (j : Job) : Prop :=
  | job_kept : db_Jobs d' !! id = Some j → job_step d d' id j
  | job_archived : db_Jobs d' !! id = None → Terminal (j_State j) = true → job_step d d' id j
  | job_moved j' : activeJob d = Some j → id = db_Active d → job_edge c j j' →
      db_Jobs d' !! id = Some j' → job_step d d' id j
  | job_finished j' : activeJob d = Some j → id = db_Active d → job_edge c j j' →
      db_Jobs d' !! id = None → Terminal (j_State j') = true → job_step d d' id j.

Lemma compact_job d d' sp id j :
  db_Jobs d !! "" = None → compactHot d = Ok (d', sp) → db_Jobs d !! id = Some j →
  db_Jobs d' !! id = Some j ∨ (db_Jobs d' !! id = None ∧ Terminal (j_State j) = true).
Proof.
  intros He Hc Hj. apply compactHot_ok in Hc as [[Hr Hs _ Hk] _]; [|done].
  destruct (Hk _ _ Hj) as [?|[_ [_ Ht]]]; [by left|].
  destruct (db_Jobs d' !! id) as [j0|] eqn:E; [left|by right].
  eapply lookup_weaken in E; [|done]. congruence.
Qed.

Lemma txn_jobs d d' id j :
  good d → txn c d d' → db_Jobs d !! id = Some j → job_step d d' id j.
Proof.
  intros Hg (d1 & sp & Hop & Hc & _) Hj. destruct (op_facts _ _ Hg Hop) as (He & _).
  assert (Hsame : db_Jobs d1 !! id = Some j → job_step d d' id j).
  { intros Hj1. destruct (compact_job _ _ _ _ _ He Hc Hj1) as [?|[? ?]];
      [by apply job_kept|by apply job_archived]. }
  destruct Hop as [a r now dt d1' j0 _ Hnew _ _ _ _ _ _ [Hrest _] Hadd|j0 j' d1' Hact Hje Hs|n d1' Ha|b Hn].
  - apply Hsame. apply addEvent_ok in Hadd as ->. simpl.
    rewrite lookup_insert_ne by congruence. by rewrite Hrest.
  - pose proof Hs as (Hjobs & _)%save_fn_ok.
    assert (Hid : j_JobID j' = db_Active d).
    { unfold j_JobID. rewrite (je_assignment _ _ _ Hje). symmetry. by apply active_key. }
    destruct (decide (id = db_Active d)) as [->|Hne].
    + assert (j0 = j) as -> by (unfold activeJob in Hact; congruence).
      assert (Hj1 : db_Jobs d1' !! db_Active d = Some j') by (rewrite Hjobs, Hid; apply lookup_insert_eq).
      destruct (compact_job _ _ _ _ _ He Hc Hj1) as [?|[? ?]]; [by eapply job_moved|by eapply job_finished].
    + apply Hsame. rewrite Hjobs, Hid, lookup_insert_ne; done.
  - apply Hsame. by apply ack_fn_ok in Ha as ->.
  - by apply Hsame.
Qed.

Lemma txn_sequences d d' :
  good d → txn c d d' → db_HighSequence d ≤ db_HighSequence d' ∧
  db_SnapshotVersion d ≤ db_SnapshotVersion d'.
Proof.
  intros Hg Ht. split; [destruct (txn_active _ _ Hg Ht); lia|].
  destruct Ht as (d1 & sp & Hop & Hc & _). destruct (op_facts _ _ Hg Hop) as (He & _).
  apply compact_active in Hc as (_ & _ & _ & _ & _ & _ & ->); [|done].
  destruct Hop as [a r now dt d1' j0 _ _ _ _ _ _ _ _ [_ Hsv] Hadd|j0 j' d1' _ _ Hs|n d1' Ha|b Hn].
  - by apply addEvent_ok in Hadd as ->.
  - apply save_fn_ok in Hs as (_ & _ & _ & -> & _). done.
  - by apply ack_fn_ok in Ha as ->.
  - done.
Qed.

(** ** Runs of the abstract machine *)

(** The snapshots that reached the disk, and the sequence numbers of the
    releases handed to [Backend.Install], in order. *)
Definition journal (t : list Action) : list Database :=
  omap (fun a => match a with AJournal d => Some d | _ => None end) t.
Definition installs (t : list Action) : list Z :=
  omap (fun a => match a with AInstall _ _ r => Some (r_Sequence r) | _ => None end) t.

(** Every snapshot follows from the one before by one transaction. *)
Fixpoint history (d : Database) (l : list Database) : Prop :=
  match l with
  | [] => True
  | d' :: l => txn c d d' ∧ history d' l
  end.

Lemma history_snoc d l d' :
  history d (l ++ [d']) ↔ history d l ∧ txn c (default d (last l)) d'.
Proof.
  revert d. induction l as [|d0 l IH]; intros d; cbn [app history]; [by simpl; tauto|].
  rewrite IH, last_cons. destruct (last l) eqn:El; simpl; tauto.
Qed.

Lemma run_good t s : spec_run c t s → good (sp_durable s) ∧ good (sp_memory s).
Proof.
  induction 1 as [|t s a s' _ [Hd Hm] Hs|t s s' _ [Hd Hm] Hs]; simpl.
  - split; apply good_initial.
  - inversion Hs; subst; simpl in *; eauto using txn_good.
  - inversion Hs; subst; simpl in *; eauto.
Qed.

Lemma run_history t s :
  spec_run c t s →
  history initialDatabase (journal t) ∧ default initialDatabase (last (journal t)) = sp_durable s.
Proof.
  induction 1 as [|t s a s' _ [Hh Hl] Hs|t s s' _ [Hh Hl] Hs]; [done| |].
  - unfold journal in *. rewrite omap_app.
    inversion Hs; subst; simpl in *; rewrite ?app_nil_r; try done;
      (rewrite history_snoc, last_snoc, Hl; done).
  - inversion Hs; subst; done.
Qed.

(** An armed installation is one the process knows to be durable. *)
Lemma run_armed t s : spec_run c t s → sp_armed s = true → sp_memory s = sp_durable s.
Proof.
  induction 1 as [|t s a s' _ IH Hs|t s s' _ IH Hs]; [done| |];
    inversion Hs; subst; simpl in *; auto; done.
Qed.

(** The process never lags more than one snapshot behind the disk. *)
Definition believed (t : list Action) (m : Database) : Prop :=
  m = default initialDatabase (last (journal t)) ∨
  ∃ l d, journal t = l ++ [d] ∧ m = default initialDatabase (last l).

Lemma journal_snoc t a :
  journal (t ++ [a]) = journal t ++ match a with AJournal d => [d] | _ => [] end.
Proof. unfold journal. rewrite omap_app. by destruct a. Qed.

Lemma run_believed t s : spec_run c t s → believed t (sp_memory s).
Proof.
  intros Hr. induction Hr as [|t s a s' Hr IH Hs|t s s' Hr IH Hs]; [by left| |];
    destruct (run_history _ _ Hr) as [_ Hl]; unfold believed in *; rewrite ?journal_snoc;
    inversion Hs; subst; simpl in *; rewrite ?app_nil_r; try done.
  - left. by rewrite last_snoc.
  - right. exists (journal t), d'. by rewrite Hl.
  - by left.
Qed.

(** Every action was permitted when it was performed. *)
Lemma run_actions t1 x t2 s :
  spec_run c (t1 ++ x :: t2) s →
  ∃ s1, spec_run c t1 s1 ∧ ∃ s2, spec_step c s1 (Some x) s2.
Proof.
  intros Hr. remember (t1 ++ x :: t2) as t eqn:E. revert t2 E.
  induction Hr as [|t s a s' Hr IH Hs|t s s' Hr IH Hs]; intros t2 E.
  - by destruct t1.
  - destruct t2 as [|y t2 _] using rev_ind.
    + apply app_inj_tail in E as [<- <-]. eauto.
    + rewrite app_comm_cons, app_assoc in E. apply app_inj_tail in E as [-> <-]. by eapply IH.
  - by eapply IH.
Qed.

(** Snapshots in a valid history are all valid. *)
Lemma history_good d l d' : good d → history d l → d' ∈ l → good d'.
Proof.
  revert d. induction l as [|d0 l IH]; intros d Hg Hh Hin; [inversion Hin|].
  destruct Hh as [Ht Hh]. assert (good d0) by eauto using txn_good.
  inversion Hin; subst; eauto.
Qed.

Lemma history_consecutive d l l1 d1 d2 l2 :
  good d → history d l → d :: l = l1 ++ d1 :: d2 :: l2 → good d1 ∧ txn c d1 d2.
Proof.
  revert d l1. induction l as [|d0 l IH]; intros d l1 Hg Hh E.
  - destruct l1 as [|? [|]]; simplify_eq.
  - destruct Hh as [Ht Hh]. destruct l1 as [|x l1]; simplify_eq/=; [done|].
    eapply (IH d0 l1); [by eapply txn_good|done|done].
Qed.

(** An installation can start only for a job that has not installed yet. *)
Definition may_start (s : spec) (j : Job) : Prop :=
  waiting (j_State j) = true ∨ (j_State j = Installing ∧ sp_armed s = true).

Record install_inv (t : list Action) (s : spec) : Prop := {
  ii_sorted : StronglySorted Z.lt (installs t);
  ii_high : ∀ q, q ∈ installs t → q ≤ db_HighSequence (sp_durable s);
  ii_fresh : ∀ j q, activeJob (sp_durable s) = Some j → may_start s j →
    q ∈ installs t → q < j_Sequence j;
}.

Lemma installs_other t a :
  (∀ fs p r, a ≠ AInstall fs p r) → installs (t ++ [a]) = installs t.
Proof.
  intros Ha. unfold installs. rewrite omap_app. destruct a; simpl; rewrite ?app_nil_r; try done.
  by destruct (Ha fs p r).
Qed.

(** A waiting state is only reached from a waiting state, [Installing] only
    from [Verified]. *)
Lemma edge_waiting s s' :
  state_edge s s' → waiting s' = true ∨ s' = Installing → waiting s = true.
Proof. intros [] [?|?]; simpl in *; naive_solver. Qed.

Lemma install_inv_commit t d a d' m' a' :
  good d → txn c d d' → (a' = true → installing d' = true ∧ (installing d = false ∨ a = true)) →
  install_inv t (mkSpec d d a) → install_inv (t ++ [AJournal d']) (mkSpec d' m' a').
Proof.
  intros Hg Ht Ha [Hs Hh Hf]. pose proof (txn_active _ _ Hg Ht) as Hstep.
  split; rewrite installs_other by done; simpl in *; [done| |].
  - intros q Hq%Hh. destruct Hstep; lia.
  - intros j q Hj Hm Hq. destruct Hstep as [j0 Hn Hj0 Hst Hlt Hhi|j0 j1 Hj0 He Hhi Hj1|Hsame Hhi].
    + rewrite Hj in Hj0. injection Hj0 as <-. apply Hh in Hq. lia.
    + rewrite Hj in Hj1. destruct (Terminal _); [done|]. injection Hj1 as <-.
      destruct He as [_ Er _ Hst _ _ _]. unfold j_Sequence. rewrite Er.
      apply (Hf j0 q Hj0); [|done]. left. eapply edge_waiting; [done|].
      destruct Hm as [?|[? _]]; auto.
    + rewrite Hsame in Hj. apply (Hf j q Hj); [|done]. destruct Hm as [?|[Hi Harm]]; [by left|].
      right. split; [done|]. destruct (Ha Harm) as [_ [Hd|?]]; [|done].
      unfold installing in Hd. rewrite Hj in Hd. by rewrite bool_decide_eq_false in Hd.
Qed.

Lemma StronglySorted_snoc (l : list Z) x :
  StronglySorted Z.lt l → (∀ q, q ∈ l → q < x) → StronglySorted Z.lt (l ++ [x]).
Proof.
  induction l as [|y l IH]; intros Hs Hx; simpl; [repeat constructor|].
  inversion Hs as [|? ? Hs' Hall]; subst. constructor; [apply IH; set_solver|].
  apply Forall_app. split; [done|]. constructor; [apply Hx; left|constructor].
Qed.

Lemma install_inv_install t s fs p r :
  good (sp_durable s) → may_install c s fs p r → install_inv t s →
  install_inv (t ++ [AInstall fs p r]) (mkSpec (sp_durable s) (sp_memory s) false).
Proof.
  intros Hg [_ Harm (j & Hj & Hst & <-) _ _] [Hs Hh Hf].
  assert (Hi : installs (t ++ [AInstall fs p (j_Release j)]) = installs t ++ [j_Sequence j])
    by (unfold installs; by rewrite omap_app).
  assert (Hlt : ∀ q, q ∈ installs t → q < j_Sequence j) by (intros; eapply Hf; eauto; by right).
  split; rewrite Hi; simpl.
  - by apply StronglySorted_snoc.
  - intros q [Hq|Hq]%elem_of_app; [by apply Hh|].
    apply list_elem_of_singleton in Hq as ->. by rewrite (gd_sequence _ Hg j Hj).
  - intros j' q Hj' [Hw|[_ ?]]; [|done]. rewrite Hj' in Hj. injection Hj as ->. by rewrite Hst in Hw.
Qed.

Lemma run_installs t s : spec_run c t s → install_inv t s.
Proof.
  induction 1 as [|t s a s' Hr IH Hs|t s s' Hr IH Hs].
  - split; [constructor|intros q Hq; inversion Hq|done].
  - destruct (run_good _ _ Hr) as [Hg _]. inversion Hs; subst; simpl in *.
    + eapply install_inv_commit; eauto. intros Ha. apply andb_prop in Ha as [Hi Ha].
      split; [done|]. apply orb_prop in Ha as [Ha|?]; [left|by right]. by apply negb_true_iff.
    + by eapply install_inv_commit.
    + by apply install_inv_install.
    + destruct IH. split; rewrite installs_other by done; done.
    + destruct IH. split; rewrite installs_other by done; done.
  - inversion Hs; subst. destruct IH as [? ? Hf]. split; [done|done|]. intros j q Hj [Hw|[_ ?]]; [|done].
    apply Hf; [done|by left].
Qed.

(** Whatever reaches [Backend.Install] was journalled, trusted and checked. *)
Lemma run_install_checked t s fs p r :
  spec_run c t s → AInstall fs p r ∈ t →
  p = cachePath (c_StateDir c) (a_SHA256 (r_Artifact r)) ∧ holds_artifact fs p (r_Artifact r) ∧
  ∃ j, trusted c j ∧ j_Release j = r ∧ j_State j = Installing ∧ j_TargetSlot j ≠ j_OldSlot j ∧
    ∃ d, d ∈ journal t ∧ activeJob d = Some j.
Proof.
  induction 1 as [|t s a s' Hr IH Hs|t s s' Hr IH Hs]; intros Hin; [inversion Hin| |by apply IH].
  assert (Hold : AInstall fs p r ∈ t → _) by exact IH.
  assert (Hmono : ∀ d, d ∈ journal t → d ∈ journal (t ++ [a])).
  { intros d Hd. unfold journal. rewrite omap_app. apply elem_of_app. by left. }
  apply elem_of_app in Hin as [Hin|Hin].
  { destruct (Hold Hin) as (? & ? & j & ? & ? & ? & ? & d & ? & ?).
    split; [done|]. split; [done|]. exists j. repeat (split; [done|]). exists d. auto. }
  apply list_elem_of_singleton in Hin as <-. inversion Hs as [| | |s0 fs0 p0 r0 Hm| |]; subst.
  destruct Hm as [_ Harm (j & Hj & Hst & <-) Hp Hf]. destruct (run_good _ _ Hr) as [Hg _].
  split; [done|]. split; [done|]. exists j. split; [by eapply (gd_trusted _ Hg)|].
  split; [done|]. split; [done|]. split; [apply (gd_plan _ Hg j Hj); by rewrite Hst|].
  exists (sp_durable s). split; [|done]. apply Hmono.
  destruct (run_history _ _ Hr) as [_ Hl]. destruct (last (journal t)) eqn:El; simpl in Hl; subst.
  - apply last_Some in El as [l' ->]. apply elem_of_app. right. left.
  - rewrite <- Hl in Hj. done.
Qed.

End facts.
