(* ===== verification/Refine.v ===== *)
(** * The engine refines its specification: the rules

    [linked s w]: the world [w] is explained by the abstract state [s].  The
    rules below carry that relation through the engine's code. *)
From stdpp Require Import base tactics gmap strings list.
From Stdlib Require Import ZArith Lia.
From S2P Require Import Prelude Model Config Crypto Files Backend Metrics Trace Topo Verify World Store TrustMeta Payload Download Engine EngineFrame EngineSpec.
Local Open Scope Z_scope.

(** [returns m R]: every value [m] returns satisfies [R]. *)
Definition returns {W A} (m : M W A) (R : A → Prop) : Prop :=
  ∀ w x w', m w = (Ret x, w') → R x.

Lemma returns_ret {W A} (x : A) (R : A → Prop) : R x → returns (mret x : M W A) R.
Proof. by intros Hx w y w' [= <- <-]. Qed.

Lemma returns_fail {W A} e (R : A → Prop) : returns (fail e : M W A) R.
Proof. by intros w y w' [=]. Qed.

Lemma returns_lift {W A} (r : result A) (R : A → Prop) :
  (∀ x, r = Ok x → R x) → returns (lift r : M W A) R.
Proof. intros Hr w y w'. destruct r; [|done]. intros [= <- _]. by apply Hr. Qed.

Lemma returns_bind {W A B} (m : M W A) (k : A → M W B) R S :
  returns m S → (∀ x, S x → returns (k x) R) → returns (m ≫= k) R.
Proof.
  intros Hm Hk w y w' Hy. unfold mbind, M_bind in Hy. destruct (m w) as [[x|e|] w1] eqn:E; try done.
  eapply Hk; [|exact Hy]. eapply Hm, E.
Qed.

Lemma returns_any {W A} (m : M W A) : returns m (fun _ => True).
Proof. by intros w x w'. Qed.

Section refine.
Context `{MapRange, Limits, LocalZone, NetURL, Net, Ed25519, LineJSON}.
Context `{JSONDecode Release, JSONEncode Assignment, JSONDecode multiSigned, JSONDecode rootMeta,
          JSONDecode snapshotMeta, JSONDecode timestampMeta, JSONDecode targetsMeta}.
Context `{Codec, Env} {D : Type} `{Backend D}.
Context (c : Config).
Abbreviation M := (Prelude.M (World D)).
Implicit Types w : World D.

(** What a restarted process would read. *)
Definition durable w : result Database :=
  match dk_snapshot (w_disk w) with
  | None => Ok initialDatabase
  | Some body => strictDB body
  end.

Record linked (s : spec) w : Prop := {
  lk_run : spec_run c (w_trace w) s;
  lk_durable : durable w = Ok (sp_durable s);
  lk_memory : w_data w = sp_memory s;
  lk_synced : w_poisoned w = false → sp_memory s = sp_durable s;
}.

(** The process believes [m]; [a]: an installation is armed. *)
Definition at_ (m : Database) (a : bool) w : Prop := ∃ d, linked (mkSpec d m a) w.
Definition explained w : Prop := ∃ s, linked s w.

Lemma at_explained m a w : at_ m a w → explained w.
Proof. intros [d Hd]. by eexists. Qed.

Lemma at_good m a w : at_ m a w → good c m.
Proof. intros [d [Hr _ _ _]]. apply (run_good c _ _ Hr). Qed.

(** ** Code that keeps the journal *)
Record jframe w w' : Prop := {
  jf_data : w_data w' = w_data w;
  jf_poisoned : w_poisoned w' = w_poisoned w;
  jf_disk : w_disk w' = w_disk w;
  jf_trace : w_trace w' = w_trace w;
}.

Global Instance jframe_preorder : PreOrder jframe.
Proof. split; [done|]. intros w1 w2 w3 [] []. split; congruence. Qed.

Lemma frame_jframe w w' : frame w w' → jframe w w'.
Proof. by intros []. Qed.

Lemma linked_jframe s w w' : jframe w w' → linked s w → linked s w'.
Proof.
  intros [E1 E2 E3 E4] [? ? ? ?]. unfold durable in *.
  split; rewrite ?E1, ?E2, ?E4; try done. unfold durable. by rewrite E3.
Qed.

Lemma at_frame m a w w' : frame w w' → at_ m a w → at_ m a w'.
Proof. intros Hf [d Hd]. exists d. eapply linked_jframe; [|done]. by apply frame_jframe. Qed.

(** [stays P mm]: [mm] keeps [P] whatever happens in it. *)
Definition stays {A} (P : World D → Prop) (mm : M A) : Prop := ∀ w, P w → P (mm w).2.

Lemma stays_frame {A} m a (mm : M A) : keeps frame mm → stays (at_ m a) mm.
Proof. intros Hk w Hw. eapply at_frame; [apply Hk|done]. Qed.

Lemma stays_modify m a (f : World D → World D) :
  (∀ w, jframe w (f w)) → stays (at_ m a) (modify f).
Proof. intros Hf w [d Hd]. exists d. eapply linked_jframe; [apply Hf|done]. Qed.

Lemma stays_try {A} P (mm : M A) : stays P mm → stays P (try mm).
Proof. intros Hm w Hw. specialize (Hm w Hw). unfold try. by destruct (mm w) as [[?|?|] ?]. Qed.

(** ** [safe P m]: from [P], every outcome of [m] is explained. *)
Definition safe {A} (P : World D → Prop) (mm : M A) : Prop := ∀ w, P w → explained (mm w).2.

Lemma safe_stays {A} m a (mm : M A) : stays (at_ m a) mm → safe (at_ m a) mm.
Proof. intros Hs w Hw. eapply at_explained, Hs, Hw. Qed.

Lemma safe_ret {A} m a (x : A) : safe (at_ m a) (mret x).
Proof. intros w Hw. by eapply at_explained. Qed.

Lemma safe_fail {A} m a e : safe (A := A) (at_ m a) (fail e).
Proof. intros w Hw. by eapply at_explained. Qed.

Lemma safe_bind {A B} m a (mm : M A) (k : A → M B) R :
  stays (at_ m a) mm → returns mm R → (∀ x, R x → safe (at_ m a) (k x)) →
  safe (at_ m a) (mm ≫= k).
Proof.
  intros Hs Hr Hk w Hw. specialize (Hs w Hw). unfold mbind, M_bind.
  destruct (mm w) as [[x|e|] w'] eqn:E; simpl in *; try by eapply at_explained.
  apply Hk; [|done]. by eapply Hr.
Qed.

Lemma safe_bind_frame {A B} m a (mm : M A) (k : A → M B) :
  keeps frame mm → (∀ x, safe (at_ m a) (k x)) → safe (at_ m a) (mm ≫= k).
Proof. intros Hm Hk. eapply safe_bind; [by apply stays_frame|apply returns_any|auto]. Qed.

Lemma safe_then {A B} P (mm : M A) (k : A → M B) :
  safe P mm → (∀ x, safe explained (k x)) → safe P (mm ≫= k).
Proof.
  intros Hm Hk w Hw. specialize (Hm w Hw). unfold mbind, M_bind.
  destruct (mm w) as [[x|e|] w']; simpl in *; [by apply Hk|done..].
Qed.

Lemma safe_ignore {A} P (mm : M A) : safe P mm → safe P (ignore mm).
Proof.
  intros Hm. apply safe_then; [|by intros x w]. intros w Hw. specialize (Hm w Hw). unfold try.
  by destruct (mm w) as [[?|?|] ?].
Qed.

(** [View] returns what the process believes. *)
Lemma safe_view {B} m a (k : Database → M B) :
  safe (at_ m a) (k m) → safe (at_ m a) (View ≫= k).
Proof.
  intros Hk w Hw. unfold View, mbind, M_bind, get, mret, M_ret. rewrite cloneDB_id.
  destruct Hw as [d Hd]. rewrite (lk_memory _ _ Hd). apply Hk. by exists d.
Qed.

(** ** Backend calls *)
Lemma linked_emit s s' x w :
  linked s w → spec_step c s (Some x) s' →
  sp_durable s' = sp_durable s → sp_memory s' = sp_memory s →
  linked s' (set_w_trace (w_trace w ++ [x]) w).
Proof.
  intros [Hr Hd Hm Hs] Hstep E1 E2. split; simpl; rewrite ?E1, ?E2; try done.
  by eapply run_action.
Qed.

(** A backend call: one tick, one action, then the device. *)
Lemma device_jframe {A} (f : D → result A * D) : keeps jframe (device f).
Proof. intros w. unfold device. by destruct (f (w_dev w)). Qed.

Lemma Status_stays m a : stays (at_ m a) Status.
Proof.
  intros w [d Hd]. exists d. eapply linked_jframe; [|done].
  assert (Hk : keeps jframe (Status (D := D))); [|apply Hk].
  unfold Status. apply keeps_bind; [apply _| |intros; apply device_jframe].
  intros w0. apply frame_jframe, tick_frame.
Qed.

Lemma action_stays {A} m a x (f : D → result A * D) (mm : M A) :
  (mm = (_ ← tick; _ ← emit x; device f)) →
  (∀ d, spec_step c (mkSpec d m a) (Some x) (mkSpec d m a)) → stays (at_ m a) mm.
Proof.
  intros -> Hx w Hw. unfold mbind, M_bind. pose proof (tick_frame w) as Ht.
  destruct (tick w) as [[n|e|] w1]; simpl in *; try by eapply at_frame.
  eapply at_frame in Hw as [d Hd]; [|done].
  exists d. eapply linked_jframe; [apply device_jframe|]. by eapply linked_emit.
Qed.

Lemma Mark_stays m a state slot : may_mark m state slot → stays (at_ m a) (Mark state slot).
Proof. intros Hm. eapply action_stays; [done|]. intros. by apply spec_mark. Qed.

Lemma Reboot_stays m a : may_reboot m → stays (at_ m a) Reboot.
Proof. intros Hm. eapply action_stays; [done|]. intros. by apply spec_reboot. Qed.

(** ** Transactions *)

(** After [Update]: the new belief, or an explained failure. *)
Definition updated (fn : Database → M Database) (m : Database) (a : bool)
    (o : outcome unit) w : Prop :=
  match o with
  | Ret _ => ∃ m' d1 sp w0 w1, fn m w0 = (Ret d1, w1) ∧ compactHot d1 = Ok (m', sp) ∧
      op c m d1 ∧ at_ m' (installing m' && (negb (installing m) || a)) w ∧ w_poisoned w = false
  | _ => explained w
  end.

Lemma linked_committed d a d' sp w :
  linked (mkSpec d d a) w → txn c d d' →
  at_ d' (installing d' && (negb (installing d) || a)) (set_w_data d' (committed d' sp w)) ∧
  explained (set_w_poisoned true (committed d' sp w)).
Proof.
  intros [Hr Hd Hm Hs] Ht. split.
  - exists d'. split; simpl; [|unfold durable; simpl; apply strict_marshal|done|done].
    eapply run_action; [done|]. by apply spec_commit.
  - exists (mkSpec d' d false). split; simpl; [|unfold durable; simpl; apply strict_marshal|done|done].
    eapply run_action; [done|]. by eapply spec_lost.
Qed.

Lemma Update_at fn m a w :
  (∀ d, keeps frame (fn d)) → returns (fn m) (op c m) →
  at_ m a w → updated fn m a (Update fn w).1 (Update fn w).2.
Proof.
  intros Hfn Hop [d Hd]. pose proof (Update_outcome fn w Hfn) as Ho.
  inversion Ho as [o w' Hf Hne Eo Ew|e w1 w' Hf Hw' Eo Ew
                  |n0 n sp o w1 w2 w' Hret Hf Hp Hc Hv Hend Eo Ew].
  - assert (explained (Update fn w).2).
    { eapply at_explained, at_frame; [done|by exists d]. }
    rewrite <- Eo in *. subst o. unfold updated. destruct (Update fn w).1 as [[]|e|] eqn:E; try done.
  - rewrite <- Eo in *. simpl. eapply (linked_jframe _ _ _ (frame_jframe _ _ Hf)) in Hd as [? ? ? ?].
    exists (mkSpec d m a). rewrite Hw'. by split.
  - rewrite (lk_memory _ _ Hd) in Hret. simpl in Hret.
    pose proof (Hop _ _ _ Hret) as Hop1.
    assert (m = d) as -> by (by apply (lk_synced _ _ Hd)).
    apply validateDatabase_iff in Hv.
    assert (Ht : txn c d n) by (by exists n0, sp).
    eapply (linked_jframe _ _ _ (frame_jframe _ _ Hf)) in Hd.
    destruct (linked_committed _ _ _ sp _ Hd Ht) as [Hat Hex].
    rewrite <- Eo in *. subst o. destruct Hend as [[E ->]|(e & E & ->)]; rewrite E; simpl; [|done].
    exists n, n0, sp, w, w1. repeat (split; [done|]). simpl. by rewrite (fr_poisoned _ _ Hf).
Qed.

Lemma Update_safe fn m a :
  (∀ d, keeps frame (fn d)) → returns (fn m) (op c m) → safe (at_ m a) (Update fn).
Proof.
  intros Hfn Hop w Hw. pose proof (Update_at fn m a w Hfn Hop Hw) as Hu.
  destruct (Update fn w) as [[[]|e|] w']; simpl in *; [|done..].
  destruct Hu as (m' & ? & ? & ? & ? & _ & _ & _ & Hat & _). by eapply at_explained.
Qed.

End refine.
