(* ===== verification/RefineEngine.v ===== *)
(** * The engine refines its specification: the handlers *)
From stdpp Require Import base tactics gmap strings list.
From Stdlib Require Import ZArith Lia.
From S2P Require Import Prelude Model Config Crypto Files Backend Metrics Trace Topo Verify World Store TrustMeta Payload Download Engine EngineFrame EngineSpec Refine.
Local Open Scope Z_scope.

(** The job [save] stores: only the trace ids and the time are its own. *)
Definition saved (j : Job) (st : State) (msg : string) (j' : Job) : Prop :=
  ∃ tid sid now, j' = set_j_SpanID sid (set_j_TraceID tid
    (set_j_Updated now (set_j_Error msg (set_j_State st j)))).

(** The edges of the state machine, for the jobs the code builds. *)
Ltac edge :=
  split; simpl; try done;
  try match goal with E : j_State _ = _ |- _ => rewrite E end;
  try (by constructor; auto); try (by intros; eauto).

Section handlers.
Context `{MapRange, Limits, LocalZone, NetURL, Net, Ed25519, LineJSON}.
Context `{JSONDecode Release, JSONEncode Assignment, JSONDecode multiSigned, JSONDecode rootMeta,
          JSONDecode snapshotMeta, JSONDecode timestampMeta, JSONDecode targetsMeta}.
Context `{Codec, Env} {D : Type} `{Backend D}.
Context (c : Config).
Abbreviation M := (Prelude.M (World D)).
Abbreviation at_ := (Refine.at_ (D := D) c).
Abbreviation explained := (Refine.explained (D := D) c).
Abbreviation safe := (Refine.safe (D := D) c).
Implicit Types w : World D.

Lemma saved_edge j0 j st msg j' :
  job_edge c j0 (set_j_State st j) → saved j st msg j' → job_edge c j0 j'.
Proof. intros [] (tid & sid & now & ->). by split. Qed.

(** After [save]: the journal holds the job in its new state. *)
Definition after_save (j : Job) (st : State) (msg : string) (m : Database) (a : bool)
    (o : outcome unit) w : Prop :=
  match o with
  | Ret _ => ∃ m' j', saved j st msg j' ∧
      activeJob m' = (if Terminal st then None else Some j') ∧
      at_ m' (installing m' && (negb (installing m) || a)) w ∧ w_poisoned w = false
  | _ => explained w
  end.

Lemma nextSpan_returns j prev msg :
  returns (nextSpan (D := D) c j prev msg) (fun p => ∃ tid sid, p.2 = set_j_SpanID sid (set_j_TraceID tid j)).
Proof.
  unfold nextSpan. eapply (returns_bind _ _ _ (fun j' => ∃ tid, j' = set_j_TraceID tid j)).
  - destruct (eqs _ _).
    + eapply returns_bind; [apply returns_any|]. intros id _. apply returns_ret. by exists id.
    + apply returns_ret. exists (j_TraceID j). by destruct j.
  - intros j' [tid ->]. eapply returns_bind; [apply returns_any|]. intros id _.
    apply returns_ret. by exists tid, id.
Qed.

Lemma active_after_op j0 j' m m' d1 sp :
  good c m → activeJob m = Some j0 → job_edge c j0 j' → save_fn j' m = Ok d1 →
  compactHot d1 = Ok (m', sp) →
  activeJob m' = (if Terminal (j_State j') then None else Some j').
Proof.
  intros Hg Hj He Hs Hc.
  assert (Hop : op c m d1) by (by eapply op_save).
  destruct (op_facts _ _ _ Hg Hop) as (Hemp & _ & _).
  destruct (compact_active _ _ _ Hemp Hc) as (-> & _).
  pose proof Hs as (Hjobs & Hact & _)%save_fn_ok.
  assert (Hid : j_JobID j' = db_Active m).
  { unfold j_JobID. rewrite (je_assignment _ _ _ He). symmetry. by eapply active_key. }
  unfold activeJob. rewrite Hact, Hjobs, Hid. destruct (Terminal _); [|apply lookup_insert_eq].
  rewrite lookup_insert_ne; [apply Hg|]. intros E. eapply no_active in E; [|done]. congruence.
Qed.

Local Hint Resolve stats_frame settlePayloads_frame Now_frame nextSpan_frame : keeps.

(** What [save] does after the span ids are drawn. *)
Lemma save_update_at j0 j st msg j' (fin : M unit) m a w :
  activeJob m = Some j0 → job_edge c j0 (set_j_State st j) → saved j st msg j' →
  keeps frame fin → at_ m a w →
  after_save j st msg m a ((_ ← Update (fun d => lift (save_fn j' d)); fin) w).1
    ((_ ← Update (fun d => lift (save_fn j' d)); fin) w).2.
Proof.
  intros Hj He Hsv Hfin Hw. unfold mbind, M_bind.
  pose proof (saved_edge _ _ _ _ _ He Hsv) as He'.
  pose proof (Update_at c (fun d => lift (save_fn j' d)) m a w) as Hu.
  destruct (Update _ w) as [[[]|e|] w']; simpl in *; [|apply Hu..]; try done;
    try (intros; apply keeps_lift; apply _);
    try (apply returns_lift; intros d1 Hd1; by eapply op_save).
  destruct Hu as (m' & d1 & sp & w0 & w1 & Hret & Hc & _ & Hat & Hpo); [..|done|].
  { intros; apply keeps_lift; apply _. }
  { apply returns_lift; intros d1 Hd1; by eapply op_save. }
  assert (Hs : save_fn j' m = Ok d1) by (destruct (save_fn j' m); by inversion Hret).
  assert (Hact : activeJob m' = (if Terminal st then None else Some j')).
  { rewrite (active_after_op j0 j' m m' d1 sp); try done; [|by eapply at_good].
    by destruct Hsv as (tid & sid & now & ->). }
  specialize (Hfin w'). destruct (fin w') as [[[]|e|] w2]; simpl in *.
  - exists m', j'. split; [done|]. split; [done|]. split; [by eapply at_frame|].
    by rewrite (fr_poisoned _ _ Hfin).
  - by eapply at_explained, at_frame.
  - by eapply at_explained, at_frame.
Qed.

(** A bind whose first part keeps everything. *)
Lemma at_bind_frame {A B} m a (mm : M A) (k : A → M B) (Q : outcome B → World D → Prop) R w :
  keeps frame mm → returns mm R → (∀ e w', explained w' → Q (Fail e) w') →
  (∀ w', explained w' → Q Died w') → at_ m a w →
  (∀ x w', R x → at_ m a w' → Q (k x w').1 (k x w').2) → Q ((mm ≫= k) w).1 ((mm ≫= k) w).2.
Proof.
  intros Hk Hr Hf Hd Hw Hq. specialize (Hk w). unfold mbind, M_bind.
  destruct (mm w) as [[x|e|] w'] eqn:E; simpl in *.
  - apply Hq; [by eapply Hr|by eapply at_frame].
  - apply Hf. by eapply at_explained, at_frame.
  - apply Hd. by eapply at_explained, at_frame.
Qed.

Lemma save_at j0 j st msg m a w :
  activeJob m = Some j0 → job_edge c j0 (set_j_State st j) → at_ m a w →
  after_save j st msg m a (save c j st msg w).1 (save c j st msg w).2.
Proof.
  intros Hj He Hw. unfold save.
  eapply at_bind_frame; [apply Now_frame|apply returns_any|done|done|done|]. intros now w1 _ Hw1.
  eapply at_bind_frame; [apply settlePayloads_frame|apply returns_any|done|done|done|]. intros _ w2 _ Hw2.
  eapply at_bind_frame; [apply stats_frame|apply returns_any|done|done|done|]. intros _ w3 _ Hw3.
  eapply at_bind_frame; [apply View_frame|apply returns_any|done|done|done|]. intros d w4 _ Hw4.
  eapply at_bind_frame; [apply nextSpan_frame|apply nextSpan_returns|done|done|done|].
  intros [span j'] w5 (tid & sid & Hj') Hw5. simpl in Hj'.
  eapply save_update_at; try done; [|destruct env_spans; [|apply keeps_ret; apply _]; intros w6; by split].
  subst j'. exists tid, sid, now. by destruct (db_Jobs d !! _).
Qed.

Lemma safe_save j0 j st msg m a :
  activeJob m = Some j0 → job_edge c j0 (set_j_State st j) → safe (at_ m a) (save c j st msg).
Proof.
  intros Hj He w Hw. pose proof (save_at _ _ _ msg _ _ _ Hj He Hw) as Hs.
  destruct (save c j st msg w) as [[[]|e|] w']; simpl in *; [|done..].
  destruct Hs as (m' & j' & _ & _ & Hat & _). by eapply at_explained.
Qed.

Lemma safe_save_bind {B} j0 j st msg m a (k : unit → M B) :
  activeJob m = Some j0 → job_edge c j0 (set_j_State st j) → Terminal st = false →
  (∀ m' j', saved j st msg j' → activeJob m' = Some j' →
     safe (at_ m' (installing m' && (negb (installing m) || a))) (k tt)) →
  safe (at_ m a) (save c j st msg ≫= k).
Proof.
  intros Hj He Ht Hk w Hw. pose proof (save_at _ _ _ msg _ _ _ Hj He Hw) as Hs.
  unfold mbind, M_bind. destruct (save c j st msg w) as [[[]|e|] w']; simpl in *; [|done..].
  destruct Hs as (m' & j' & Hsv & Hact & Hat & _). rewrite Ht in Hact. by eapply (Hk m' j').
Qed.

Lemma safe_bind_status {B} m a (k : DeviceStatus → M B) :
  (∀ s, safe (at_ m a) (k s)) → safe (at_ m a) (Status ≫= k).
Proof. intros Hk. eapply safe_bind; [apply Status_stays|apply returns_any|auto]. Qed.

Lemma safe_bind_try_status {B} m a (k : result DeviceStatus → M B) :
  (∀ s, safe (at_ m a) (k s)) → safe (at_ m a) (try Status ≫= k).
Proof.
  intros Hk. eapply safe_bind; [apply stays_try, Status_stays|apply returns_any|auto].
Qed.

Lemma safe_bind_mark {B} m a state slot (k : unit → M B) :
  may_mark m state slot → (∀ x, safe (at_ m a) (k x)) → safe (at_ m a) (Mark state slot ≫= k).
Proof. intros Hm Hk. eapply safe_bind; [by apply Mark_stays|apply returns_any|auto]. Qed.

Lemma safe_reboot m a : may_reboot m → safe (at_ m a) Reboot.
Proof. intros Hm. by apply safe_stays, Reboot_stays. Qed.

Lemma safe_bind_lift {A B} m a (r : result A) (k : A → M B) :
  (∀ x, r = Ok x → safe (at_ m a) (k x)) → safe (at_ m a) (lift r ≫= k).
Proof.
  intros Hk. eapply safe_bind; [apply stays_frame, keeps_lift; apply _| |exact Hk].
  by apply returns_lift.
Qed.

Local Hint Resolve stats_frame Now_frame Since_frame View_frame Health_frame
  applySidePayloads_frame artifactsLocal_frame fetchAll_frame armDownload_frame
  checkJobSBOM_frame syscall_frame : keeps.

Lemma set_healthySince_stays m a t : stays (at_ m a) (set_healthySince t).
Proof. by apply stays_modify. Qed.

Lemma safe_bind_since {B} m a t (k : unit → M B) :
  safe (at_ m a) (k tt) → safe (at_ m a) (set_healthySince t ≫= k).
Proof. intros Hk. eapply safe_bind; [apply set_healthySince_stays|apply returns_any|by intros []]. Qed.

(** Follow the structure of a handler. *)
Local Ltac safe_step :=
  match goal with
  | |- Refine.safe _ _ (mret _) => apply safe_ret
  | |- Refine.safe _ _ (fail _) => apply safe_fail
  | |- Refine.safe _ _ (Status ≫= _) => apply safe_bind_status; intros ?
  | |- Refine.safe _ _ (try Status ≫= _) => apply safe_bind_try_status; intros ?
  | |- Refine.safe _ _ (set_healthySince _ ≫= _) => apply safe_bind_since
  | |- Refine.safe _ _ (set_healthySince _) => apply safe_stays, set_healthySince_stays
  | |- Refine.safe _ _ (lift _ ≫= _) => apply safe_bind_lift; intros ? ?
  | |- Refine.safe _ _ (save _ _ _ _) => eapply safe_save; [eassumption|]
  | |- Refine.safe _ _ (if ?b then _ else _) => destruct b eqn:?
  | |- Refine.safe _ _ (match ?x with _ => _ end) => destruct x eqn:?
  | |- Refine.safe _ _ (_ ≫= _) => apply safe_bind_frame; [solve [keeps_auto]|intros ?]
  | |- Refine.safe _ _ _ => apply safe_stays, stays_frame; solve [keeps_auto]
  end.
Local Ltac safe_auto := repeat safe_step; try edge.

Lemma safe_noteDeferred m a j0 j e :
  activeJob m = Some j0 → (∃ t b, j = set_j_DownloadAfter t (set_j_Deferred b j0)) →
  j_State j0 = Downloading → permitted c j0 → safe (at_ m a) (noteDeferred c j e).
Proof. intros Hj (t & b & ->) Hst Hp. unfold noteDeferred. safe_auto. Qed.

Lemma armDownload_returns j :
  returns (armDownload (D := D) c j) (fun j' => ∃ t, j' = set_j_DownloadAfter t j).
Proof.
  unfold armDownload. destruct (_ || _).
  { apply returns_ret. exists (j_DownloadAfter j). by destruct j. }
  eapply returns_bind; [apply returns_any|]. intros arts _.
  eapply returns_bind; [apply returns_any|]. intros [] _.
  { apply returns_ret. exists (j_DownloadAfter j). by destruct j. }
  eapply returns_bind; [apply returns_any|]. intros now _. apply returns_ret. by eexists.
Qed.

Lemma safe_accepted m a j :
  activeJob m = Some j → j_State j = Accepted → permitted c j →
  safe (at_ m a) (step_accepted c j).
Proof.
  intros Hj Hst Hp. unfold step_accepted. eapply safe_bind; [apply stays_frame, armDownload_frame
    |apply armDownload_returns|]. intros j' [t ->]. safe_auto.
Qed.

Lemma safe_downloading m a j now :
  activeJob m = Some j → j_State j = Downloading → permitted c j →
  safe (at_ m a) (step_downloading c j now).
Proof.
  intros Hj Hst Hp. assert (Hsame : ∃ t b, j = set_j_DownloadAfter t (set_j_Deferred b j)).
  { exists (j_DownloadAfter j), (j_Deferred j). by destruct j. }
  unfold step_downloading, step_fetch.
  repeat first [eapply safe_noteDeferred; [eassumption| |done|done] | safe_step]; try edge; try done.
  all: exists (j_DownloadAfter j), false; by destruct j.
Qed.

Lemma safe_reboot_cmd m a j :
  activeJob m = Some j → j_State j = AwaitingReboot → safe (at_ m a) (reboot c j).
Proof.
  intros Hj Hst. unfold reboot. eapply safe_save_bind; [eassumption|edge|done|].
  intros m' j' (tid & sid & now & ->) Hj'.
  eapply safe_bind; [apply stays_try, Reboot_stays; by eapply reboot_target|apply returns_any|].
  intros [[]|e] _; [apply safe_ret|]. apply safe_then; [|by intros x w].
  apply safe_ignore. eapply safe_save; [eassumption|]. clear Hst. edge.
Qed.

Lemma safe_awaiting m a j now :
  activeJob m = Some j → j_State j = AwaitingReboot → safe (at_ m a) (step_awaiting c j now).
Proof.
  intros Hj Hst. unfold step_awaiting.
  repeat first [by apply safe_reboot_cmd | safe_step]; edge.
Qed.

Lemma safe_health m a j now :
  activeJob m = Some j → j_State j = CheckingHealth → safe (at_ m a) (step_health c j now).
Proof.
  intros Hj Hst. unfold step_health. repeat safe_step; edge.
Qed.

Lemma safe_checking m a j now :
  activeJob m = Some j → j_State j = CheckingHealth ∨ j_State j = Committing →
  safe (at_ m a) (step_checking c j now).
Proof.
  intros Hj Hst. unfold step_checking.
  assert (Hm : j_State j = Committing → may_mark m "good" (j_TargetSlot j)) by (by apply mark_commit).
  destruct Hst as [Hst|Hst]; rewrite Hst; simpl;
    repeat first [apply safe_bind_mark; [by auto|intros _] | by apply safe_health | safe_step]; edge.
Qed.

Lemma safe_rollback m a j :
  activeJob m = Some j → j_State j = RollbackPending → safe (at_ m a) (step_rollback c j).
Proof.
  intros Hj Hst. unfold step_rollback. repeat safe_step; try edge.
  apply safe_bind_mark; [by eapply mark_abandon; auto|]. intros _.
  apply safe_bind_mark; [by eapply mark_restore; auto|]. intros _.
  apply safe_reboot. by eapply reboot_rollback.
Qed.

(** ** Installation *)

(** The file checked just before is still there. *)
Definition at_file (m : Database) (a : bool) (p : path) (art : Artifact) w : Prop :=
  at_ m a w ∧ holds_artifact (w_fs w) p art.

Definition same_fs w w' : Prop := w_fs w' = w_fs w.
Global Instance same_fs_preorder : PreOrder same_fs.
Proof. split; [done|]. intros w1 w2 w3. unfold same_fs. congruence. Qed.

Lemma tick_same_fs : keeps same_fs (tick (D := D)).
Proof. intros w. unfold tick. by destruct (env_crash _). Qed.
Local Hint Resolve tick_same_fs : keeps.
Local Hint Extern 2 (keeps same_fs (modify _)) => (intros ?; reflexivity) : keeps.

Lemma Now_same_fs : keeps same_fs (Now (D := D)).
Proof. unfold Now. keeps_auto. Qed.
Lemma persist_same_fs d sp : keeps same_fs (persist (D := D) d sp).
Proof. unfold persist, commit, emit. keeps_auto. Qed.
Local Hint Resolve Now_same_fs persist_same_fs : keeps.
Lemma Update_same_fs fn : (∀ d, keeps same_fs (fn d)) → keeps same_fs (Update (D := D) fn).
Proof. intros Hf. unfold Update. keeps_auto. Qed.
Lemma save_installing_fs j msg : keeps same_fs (save (D := D) c j Installing msg).
Proof.
  unfold save, settlePayloads, stats, View, nextSpan, randomHex. simpl.
  repeat first [apply Update_same_fs; intros ? | keeps_step].
Qed.

Lemma Install_at m p r w :
  at_file m true p (r_Artifact r) w →
  (∃ j, activeJob m = Some j ∧ j_State j = Installing ∧ j_Release j = r) →
  p = cachePath (c_StateDir c) (a_SHA256 (r_Artifact r)) →
  match Install p r w with
  | (Died, w') => explained w'
  | (_, w') => at_ m false w'
  end.
Proof.
  intros [Hw Hf] Hj Hp. unfold Install, mbind, M_bind, view_fs, get, mret, M_ret.
  pose proof (tick_frame w) as Ht. pose proof (tick_same_fs w) as Hfs. unfold same_fs in Hfs.
  unfold tick in *. destruct (env_crash (w_tick w)); simpl in *; [by eapply at_explained, at_frame|].
  eapply at_frame in Hw as [d Hd]; [|done].
  assert (m = d) as <- by (apply (run_armed c _ _ (lk_run _ _ _ Hd)); done).
  set (w1 := set_w_tick (S (w_tick w)) w) in *. set (x := AInstall _ _ _).
  assert (Hl : linked c (mkSpec m m false) (set_w_trace (w_trace w1 ++ [x]) w1)).
  { eapply linked_emit; [exact Hd| |done|done]. apply (spec_install c (mkSpec m m true)). by split. }
  unfold device. destruct (bk_Install _ _ _ _ _) as [[[]|e] dev]; simpl.
  all: exists m; by eapply linked_jframe; [|exact Hl].
Qed.

Lemma installing_active m j : activeJob m = Some j → installing m = bool_decide (j_State j = Installing).
Proof. unfold installing. by intros ->. Qed.

Lemma saved_next j msg j1 st :
  saved j Installing msg j1 → state_edge Installing st → st ≠ Installing → job_edge c j1 (set_j_State st j).
Proof. intros (tid & sid & now & ->) He Hne. by split. Qed.

Lemma safe_inspect m a j msg j1 :
  activeJob m = Some j1 → saved j Installing msg j1 → safe (at_ m a) (step_inspect c j).
Proof.
  intros Hj Hsv. unfold step_inspect. repeat safe_step.
  all: eapply saved_next; [done|by constructor|done].
Qed.

Lemma safe_install m j msg j1 p :
  activeJob m = Some j1 → saved j Installing msg j1 →
  p = cachePath (c_StateDir c) (a_SHA256 (r_Artifact (j_Release j))) →
  safe (at_file m true p (r_Artifact (j_Release j))) (step_install c j p).
Proof.
  intros Hj Hsv Hp w Hw. unfold step_install.
  assert (Hjob : ∃ j1, activeJob m = Some j1 ∧ j_State j1 = Installing ∧ j_Release j1 = j_Release j).
  { exists j1. by destruct Hsv as (tid & sid & now & ->). }
  pose proof (Install_at m p (j_Release j) w Hw Hjob Hp) as Hi. unfold mbind, M_bind, try.
  destruct (Install p (j_Release j) w) as [[[]|e|] w']; [| |done].
  - by eapply (safe_inspect m false).
  - eapply (safe_save j1 _ _ _ m false); [done|eapply saved_next; [done|by constructor|done]|done].
Qed.

(** ** Verified *)

(** Choosing the slots, journalling the plan, installing. *)
Lemma safe_plan m a j0 j target s p msg :
  activeJob m = Some j0 → j_State j0 = Verified → permitted c j0 →
  (∃ b, j = set_j_PayloadsApplied b j0) → Other s = Ok target →
  p = cachePath (c_StateDir c) (a_SHA256 (r_Artifact (j_Release j))) →
  let j' := set_j_BootID (ds_BootID s) (set_j_TargetSlot target
    (set_j_OldVersion (VersionOf s (ds_Booted s)) (set_j_OldSlot (ds_Booted s) j))) in
  safe (at_file m a p (r_Artifact (j_Release j)))
    (_ ← save c j' Installing msg; step_install c j' p).
Proof.
  intros Hj Hst Hperm [b ->] Ho Hp j' w [Hw Hf]. apply Other_distinct in Ho as (Hne & Hne' & _).
  assert (He : job_edge c j0 (set_j_State Installing j')) by (subst j'; edge).
  pose proof (save_at _ _ _ msg _ _ _ Hj He Hw) as Hs.
  pose proof (save_installing_fs j' msg w) as Hfs. unfold same_fs in Hfs.
  unfold mbind, M_bind. destruct (save c j' Installing msg w) as [[[]|e|] w']; simpl in *; [|done..].
  destruct Hs as (m' & j1 & Hsv & Hact & Hat & _). rewrite <- Hfs in Hf.
  assert (Hi1 : j_State j1 = Installing) by (by destruct Hsv as (? & ? & ? & ->)).
  rewrite (installing_active _ _ Hj), (installing_active _ _ Hact), Hst, Hi1 in Hat.
  eapply (safe_install m' j' msg j1); [done|done|done|]. by split.
Qed.

Lemma safe_bind_file {A B} m a p art (mm : M A) (k : A → M B) :
  keeps frame mm → keeps same_fs mm → (∀ x, safe (at_file m a p art) (k x)) →
  safe (at_file m a p art) (mm ≫= k).
Proof.
  intros Hf Hs Hk w [Hw Hh]. specialize (Hf w). specialize (Hs w). unfold same_fs in Hs.
  unfold mbind, M_bind. destruct (mm w) as [[x|e|] w']; simpl in *;
    try by eapply at_explained, at_frame.
  apply Hk. split; [by eapply at_frame|by rewrite Hs].
Qed.

(** [CheckArtifact] as a test: on success the file is known. *)
Lemma safe_check {B} m a p art (k : result unit → M B) :
  (∀ e, safe (at_ m a) (k (Err e))) → safe (at_file m a p art) (k (Ok tt)) →
  safe (at_ m a) (try (CheckArtifact p art) ≫= k).
Proof.
  intros He Hk w Hw. pose proof (CheckArtifact_frame p art w) as Hf.
  unfold mbind, M_bind, try. destruct (CheckArtifact p art w) as [[[]|e|] w'] eqn:E; simpl in *.
  - apply Hk. split; [by eapply at_frame|by eapply CheckArtifact_holds].
  - apply He. by eapply at_frame.
  - by eapply at_explained, at_frame.
Qed.

Lemma safe_weaken {A} m a p art (mm : M A) : safe (at_ m a) mm → safe (at_file m a p art) mm.
Proof. intros Hs w [Hw _]. by apply Hs. Qed.

Lemma safe_os m a j0 j :
  activeJob m = Some j0 → j_State j0 = Verified → permitted c j0 →
  (∃ b, j = set_j_PayloadsApplied b j0) → safe (at_ m a) (step_os c j).
Proof.
  intros Hj Hst Hp [b Hb]. assert (Hfail : ∀ msg, safe (at_ m a) (save c j Failed msg)).
  { intros msg. eapply safe_save; [exact Hj|]. subst j. edge. }
  unfold step_os. safe_step. destruct (negb _); [apply safe_fail|].
  destruct (negb _); [apply Hfail|]. destruct (Other s) as [target|e] eqn:Ho; [|apply Hfail].
  destruct (existsb _ _); [apply Hfail|].
  apply safe_check; [intros e; apply Hfail|].
  apply safe_bind_file; [apply Now_frame|apply Now_same_fs|]. intros now1.
  apply safe_bind_file; [solve [keeps_auto]..|]. intros [].
  - apply safe_weaken, Hfail.
  - eapply safe_plan; eauto.
Qed.

Lemma safe_verified m a j :
  activeJob m = Some j → j_State j = Verified → permitted c j →
  safe (at_ m a) (step_verified c j).
Proof.
  intros Hj Hst Hp. unfold step_verified.
  apply safe_bind_frame; [apply checkJobSBOM_frame|]. intros [msg|]; [safe_step; edge|].
  eapply (safe_bind _ _ _ _ _ (fun r => match r with
    Ok j' => ∃ b, j' = set_j_PayloadsApplied b j | Err _ => True end)).
  - apply stays_frame. keeps_auto.
  - destruct (_ && _).
    + eapply returns_bind; [apply returns_any|]. intros [[]|e] _; apply returns_ret; [by eexists|done].
    + apply returns_ret. exists (j_PayloadsApplied j). by destruct j.
  - intros [j'|e] Hr; [|safe_step; edge]. destruct (negb (HasOS _)).
    + destruct Hr as [b ->]. safe_step. edge.
    + by eapply safe_os.
Qed.

Lemma safe_preinstall m a j now (k : M unit) :
  activeJob m = Some j → waiting (j_State j) = true →
  (permitted c j → safe (at_ m a) k) → safe (at_ m a) (preinstall c j now k).
Proof.
  intros Hj Hw Hk. unfold preinstall.
  destruct (negb (Before now _)) eqn:Ed.
  { eapply safe_save; [done|]. edge. apply edge_expire. destruct (j_State j); naive_solver. }
  destruct (Before now (asg_NotBefore _)) eqn:Eb; [apply safe_ret|].
  destruct (VerifyEnvelope _ _ _) as [r|e] eqn:Ev.
  - apply Hk. exists now, r. unfold Before in *. split; [lia|done].
  - eapply safe_save; [done|]. edge. apply edge_expire. destruct (j_State j); naive_solver.
Qed.

(** ** Normal boots *)
Lemma safe_bootFallback m a known s :
  unconfirmed m → known = knownSlots m → is_Some (known !! ds_Booted s) →
  safe (at_ m a) (bootFallback known s).
Proof.
  intros Hn -> Hv. unfold bootFallback. safe_step. destruct (_ || _) eqn:E; [apply safe_fail|].
  apply orb_false_elim in E as [E _]. apply negb_false_iff, bool_decide_eq_true_1 in E.
  assert (Hf : fallback m (ds_Booted s) x).
  { split; [done|done|by eexists|by eapply (Other_distinct s)]. }
  apply safe_bind_mark; [by eapply mark_leave|]. intros _.
  apply safe_bind_mark; [by eapply mark_fallback|]. intros _. apply safe_reboot. by eapply reboot_boot.
Qed.

Lemma safe_boot_update m a (f : Database → BootCheck) :
  activeJob m = None → safe (at_ m a) (Update (fun d => mret (set_db_BootCheck (f d) d))).
Proof.
  intros Hn. apply Update_safe; [intros; apply keeps_ret; apply _|].
  apply returns_ret. by apply op_boot.
Qed.

Lemma safe_confirmHealthy m a s now :
  unconfirmed m → is_Some (knownSlots m !! ds_Booted s) →
  safe (at_ m a) (confirmHealthy c s now).
Proof.
  intros Hu Hk. pose proof (proj1 Hu) as Hn. unfold confirmHealthy.
  repeat first [apply safe_bind_mark; [by apply mark_boot|intros _]
               | by apply (safe_boot_update m a (fun d => mkBootCheck _ _ true)) | safe_step].
Qed.

Lemma safe_confirmNormalBoot m a :
  activeJob m = None → safe (at_ m a) (confirmNormalBoot c).
Proof.
  intros Hn. unfold confirmNormalBoot. apply safe_view.
  destruct (_ =? _)%nat; [apply safe_ret|]. safe_step. destruct (negb _); [apply safe_ret|].
  destruct (_ && _) eqn:Ec; [apply safe_ret|]. destruct (eqs _ ""); [apply safe_ret|].
  destruct (negb (bool_decide _)) eqn:Ek; [apply safe_fail|].
  apply negb_false_iff, bool_decide_eq_true_1 in Ek. safe_step. destruct (negb _) eqn:Eb.
  { safe_step. by apply (safe_boot_update m a (fun d => mkBootCheck _ _ false)). }
  apply negb_false_iff in Eb. rewrite Eb in Ec.
  destruct (_ || _); [apply safe_bootFallback|apply safe_confirmHealthy]; try done; by eexists.
Qed.

(** ** The step *)
Lemma safe_step_job m a j now :
  activeJob m = Some j → safe (at_ m a) (step_job c j now).
Proof.
  intros Hj. unfold step_job. destruct (j_State j) eqn:Hst; try apply safe_fail.
  1-3: apply safe_preinstall; [done|by rewrite Hst|intros Hp].
  - by apply safe_accepted.
  - by apply safe_downloading.
  - by apply safe_verified.
  - safe_step. edge.
  - by apply safe_awaiting.
  - apply safe_checking; auto.
  - apply safe_checking; auto.
  - by apply safe_rollback.
  - apply safe_ret.
Qed.

Lemma safe_current {B} m a (k : option Job → M B) :
  safe (at_ m a) (k (activeJob m)) → safe (at_ m a) (current ≫= k).
Proof.
  intros Hk w Hw. assert (Hc : current w = (Ret (activeJob m), w)).
  { unfold current, View, mbind, M_bind, get, mret, M_ret. rewrite cloneDB_id.
    destruct Hw as [d Hd]. by rewrite (lk_memory _ _ _ Hd). }
  unfold mbind, M_bind. rewrite Hc. by apply Hk.
Qed.

Lemma safe_Step_body m a : safe (at_ m a) (Step_body c).
Proof.
  unfold Step_body. apply safe_current. destruct (activeJob m) as [j|] eqn:Hj.
  - safe_step. by apply safe_step_job.
  - by apply safe_confirmNormalBoot.
Qed.

(** ** Operator commands *)
Lemma safe_RequestReboot m a : safe (at_ m a) (RequestReboot_body c).
Proof.
  unfold RequestReboot_body. apply safe_current. destruct (activeJob m) as [j|] eqn:Hj; [|apply safe_fail].
  destruct (negb _) eqn:Est; [apply safe_fail|]. apply negb_false_iff, bool_decide_eq_true_1 in Est.
  repeat first [by apply safe_reboot_cmd | safe_step].
Qed.

Lemma safe_RecoverAbort m a : safe (at_ m a) (RecoverAbort_body c).
Proof.
  unfold RecoverAbort_body. apply safe_current. destruct (activeJob m) as [j|] eqn:Hj; [|apply safe_fail].
  destruct (negb _) eqn:Est; [apply safe_fail|]. apply negb_false_iff, bool_decide_eq_true_1 in Est.
  safe_step. destruct (_ || _); [apply safe_fail|].
  apply safe_bind_mark; [by eapply mark_abandon; auto|]. intros _.
  apply safe_bind_mark; [by eapply mark_restore; auto|]. intros _. safe_step. edge.
Qed.

Lemma safe_Ack m a n : safe (at_ m a) (Ack n).
Proof.
  apply Update_safe; [intros; apply keeps_lift; apply _|].
  apply returns_lift. intros d1 Hd1. by eapply op_ack.
Qed.

Local Hint Resolve removeAll_frame view_fs_frame : keeps.
Lemma safe_GC m a : safe (at_ m a) (GC_body c).
Proof. unfold GC_body. apply safe_current. destruct (activeJob m); [apply safe_fail|]. repeat safe_step. Qed.

(** ** Submit *)
Lemma applySupplyChain_returns d dir dec id :
  (sd_active dec = true → db_SnapshotVersion d ≤ sd_snapshotVersion dec) →
  returns (applySupplyChain (D := D) d dir dec id) (trust_step d).
Proof.
  intros Hv. unfold applySupplyChain. destruct (negb _) eqn:E.
  - apply returns_ret. split; [by destruct d|done].
  - eapply returns_bind; [apply returns_any|]. intros _ _. apply returns_ret.
    split; [by destruct d|]. simpl. apply Hv. by destruct (sd_active dec).
Qed.

(** A snapshot accepted for this journal is not older than its last one. *)
Lemma evaluateSupplyChain_returns db b k r now :
  returns (evaluateSupplyChain (D := D) c db b k r now)
    (fun dec => sd_active dec = true → db_SnapshotVersion db ≤ sd_snapshotVersion dec).
Proof.
  unfold evaluateSupplyChain. destruct (eqs _ _); [by apply returns_ret|].
  repeat (eapply returns_bind; [first [apply returns_lift; intros ? Hx; exact Hx|apply returns_any]|];
          intros ? ?; try match goal with |- returns (let '_ := ?x in _) _ => destruct x end;
          try match goal with |- returns (match ?x with _ => _ end) _ => destruct x end).
  apply returns_ret. intros _. simpl in *.
  match goal with E : checkSnapshot _ _ _ _ _ _ = Ok _ |- _ => by apply checkSnapshot_version in E as [? _] end.
Qed.

Lemma safe_Submit_body m a asg : safe (at_ m a) (Submit_body c asg).
Proof.
  unfold Submit_body. destruct (_ || _) eqn:Eid; [apply safe_fail|]. reflect_bools.
  apply safe_view. destruct (db_Jobs m !! asg_JobID asg) as [j0|] eqn:Hnew.
  { destruct (eqs _ _); [apply safe_ret|apply safe_fail]. }
  safe_step. safe_step. apply safe_bind_frame; [apply gateMeasuredBoot_frame|intros _].
  eapply safe_bind; [apply stays_frame, evaluateSupplyChain_frame|apply evaluateSupplyChain_returns|].
  intros supply Hsup. destruct (negb (After _ _) || _ || _) eqn:Ew; [apply safe_fail|].
  apply safe_then; [|by intros ? w]. apply Update_safe; [intros; apply submit_fn_frame|].
  unfold submit_fn. destruct (negb (eqs _ _)) eqn:Eact; [apply returns_fail|].
  destruct (events_len m >? _); [apply returns_fail|].
  destruct (_ <=? db_HighSequence m) eqn:Eseq; [apply returns_fail|]. reflect_bools.
  eapply returns_bind; [by apply applySupplyChain_returns|]. intros dt Hdt.
  apply returns_lift. intros d1 Hd1. unfold After in *. simpl in Eseq.
  eapply (op_submit c m asg _ x dt d1); try done; try lia. split; [done|]. split; [done|]. by eexists.
Qed.

End handlers.
