(* ===== verification/FleetRef.v ===== *)
(** * Fleet reference server (internal/fleetref/server.go)

    The in-memory implementation of the Fleet contract: bearer tokens per
    device, the next assignment of a device, and the events it has reported
    with the sequence acknowledged to it. *)
From stdpp Require Import base tactics gmap strings list list_numbers.
From Stdlib Require Import ZArith Lia.
From S2P Require Import Prelude Model Config Crypto Topo Verify.
Local Open Scope Z_scope.

Record Server := mkServer {
  sv_tokens : gmap string string;
  sv_assignments : gmap string Assignment;
  sv_acked : gmap string Z;
  sv_events : gmap string (gmap Z Event);
}.

Definition New : Server := mkServer ∅ ∅ ∅ ∅.

(** Reading a missing map entry gives the zero value. *)
Definition acked_of (s : Server) (dev : string) : Z := default 0 (sv_acked s !! dev).
Definition events_of (s : Server) (dev : string) : gmap Z Event := default ∅ (sv_events s !! dev).

Definition set_events (dev : string) (m : gmap Z Event) (s : Server) : Server :=
  mkServer (sv_tokens s) (sv_assignments s) (sv_acked s) (<[dev := m]> (sv_events s)).
Definition set_acked (dev : string) (n : Z) (s : Server) : Server :=
  mkServer (sv_tokens s) (sv_assignments s) (<[dev := n]> (sv_acked s)) (sv_events s).

(** ** Operator side *)

Definition RegisterDevice (dev token : string) (s : Server) : result unit * Server :=
  if eqs dev "" || eqs token "" then (errorf "device id and token required", s)
  else
    (Ok tt, mkServer (<[dev := token]> (sv_tokens s)) (sv_assignments s) (sv_acked s)
              (match sv_events s !! dev with
               | None => <[dev := ∅]> (sv_events s)
               | Some _ => sv_events s
               end)).

Definition SetAssignment (dev : string) (a : option Assignment) (s : Server) : Server :=
  mkServer (sv_tokens s)
    (match a with None => delete dev (sv_assignments s) | Some a => <[dev := a]> (sv_assignments s) end)
    (sv_acked s) (sv_events s).

Definition AckedSequence (dev : string) (s : Server) : Z := acked_of s dev.

(** *** Start of the lab server (cmd/zyvor-fleet-ref/main.go) *)

Definition set_asg_DeviceID (id : string) (a : Assignment) : Assignment :=
  mkAssignment (asg_JobID a) id (asg_Release a) (asg_NotBefore a) (asg_Deadline a) (asg_AutoReboot a)
    (asg_CampaignID a).

(** The loop over [-devices]: register each under the shared token. *)
Fixpoint registerDevices (token : string) (ids : list string) (s : Server) : result Server :=
  match ids with
  | [] => Ok s
  | id :: ids =>
      let id := TrimSpace (to_bytes id) in
      if eqs id "" then registerDevices token ids s
      else match RegisterDevice id token s with
      | (Err e, _) => Err e
      | (Ok _, s) => registerDevices token ids s
      end
  end.

(** The loop that gives each its copy of the assignment. *)
Fixpoint assignDevices (a : Assignment) (ids : list string) (s : Server) : Server :=
  match ids with
  | [] => s
  | id :: ids =>
      let id := TrimSpace (to_bytes id) in
      if eqs id "" then assignDevices a ids s
      else assignDevices a ids (SetAssignment id (Some (set_asg_DeviceID id a)) s)
  end.

Definition fleetref_main `{JSONDecode Assignment} (token devices : string) (assignment : option bytes)
    : result Server :=
  if eqs token "" || eqs devices "" then errorf "usage: zyvor-fleet-ref -token SECRET -devices id1,id2 [-assignment file.json] [-listen addr]"
  else
    ref ← registerDevices token (split_comma devices) New;
    match assignment with
    | None => Ok ref
    | Some b => a ← StrictJSON b; Ok (assignDevices a (split_comma devices) ref)
    end.

(** ** Requests *)

Record fleetRq := mkFleetRq {
  fq_method : string;
  fq_path : list string;      (* the segments of the URL path *)
  fq_auth : string;           (* Authorization *)
  fq_body : bytes;
  fq_readErr : bool;          (* reading the body fails after these bytes *)
}.

Inductive fleetBody := BText (msg : string) | BSequence (n : Z) | BAssignment (a : Assignment) | BNone.
Record fleetRs := mkFleetRs { fr_status : Z; fr_body : fleetBody }.

Definition TrimPrefix (prefix s : string) : string :=
  if String.prefix prefix s
  then String.substring (String.length prefix) (String.length s - String.length prefix) s else s.

Definition authorize (auth dev : string) (s : Server) : bool :=
  match sv_tokens s !! dev with
  | None => false
  | Some want => eqs (TrimSpace (to_bytes (TrimPrefix "Bearer " auth))) want
  end.

Definition getAssignment (dev auth : string) (s : Server) : fleetRs :=
  if negb (authorize auth dev s) then mkFleetRs 401 (BText "unauthorized")
  else match sv_assignments s !! dev with
  | None => mkFleetRs 204 BNone
  | Some a => mkFleetRs 200 (BAssignment a)
  end.

(** The loop over the batch; [true] is a conflict, which stops it. *)
Fixpoint store_batch (evs : list Event) (store : gmap Z Event) : gmap Z Event * bool :=
  match evs with
  | [] => (store, false)
  | ev :: evs =>
      match store !! e_Sequence ev with
      | Some prev =>
          if negb (eqs (e_JobID prev) (e_JobID ev)) || negb (bool_decide (e_State prev = e_State ev))
          then (store, true) else store_batch evs store
      | None => store_batch evs (<[e_Sequence ev := ev]> store)
      end
  end.

(** [for { next := acked + 1; ... }] in uint64; [None] is fuel running out. *)
Fixpoint advance (fuel : nat) (store : gmap Z Event) (acked : Z) : option Z :=
  let next := u64 (acked + 1) in
  match store !! next with
  | None => Some acked
  | Some _ => match fuel with O => None | S fuel => advance fuel store next end
  end.

(** Each round of [advance] finds another stored event, so the size of the
    store bounds it ([advance_enough]). *)
Definition next_ack (store : gmap Z Event) (acked : Z) : Z :=
  default acked (advance (size store) store acked).

Definition last_sequence (evs : list Event) : Z :=
  match last evs with Some e => e_Sequence e | None => 0 end.

Section server.
Context `{JSONDecode (list Event)}.

Definition postEvents (dev auth : string) (bd : bytes) (readErr : bool) (s : Server)
    : fleetRs * Server :=
  if negb (authorize auth dev s) then (mkFleetRs 401 (BText "unauthorized"), s)
  else if limit_err 524288 bd readErr then (mkFleetRs 400 (BText "read error"), s)
  else match StrictJSON (limit_read 524288 bd) with
  | Err _ => (mkFleetRs 400 (BText "invalid events"), s)
  | Ok evs =>
      if (length evs =? 0)%nat || (100 <? length evs)%nat
      then (mkFleetRs 400 (BText "event batch size"), s)
      else
        let '(store, conflict) := store_batch evs (events_of s dev) in
        let s := set_events dev store s in
        if (conflict : bool) then (mkFleetRs 409 (BText "conflicting event"), s)
        else
          let acked := Z.min (next_ack store (acked_of s dev)) (last_sequence evs) in
          (mkFleetRs 200 (BSequence acked), set_acked dev acked s)
  end.

(** A "GET" pattern of [http.ServeMux] also serves HEAD. *)
Definition is_get (method : string) : bool := eqs method "GET" || eqs method "HEAD".

(** [Handler]: the three routes; a path with another method is 405. *)
Definition serve (rq : fleetRq) (s : Server) : fleetRs * Server :=
  match fq_path rq with
  | ["v1"; "devices"; dev; "assignment"] =>
      if eqs dev "" then (mkFleetRs 404 (BText "404 page not found"), s)
      else if is_get (fq_method rq) then (getAssignment dev (fq_auth rq) s, s)
      else (mkFleetRs 405 (BText "Method Not Allowed"), s)
  | ["v1"; "devices"; dev; "events"] =>
      if eqs dev "" then (mkFleetRs 404 (BText "404 page not found"), s)
      else if eqs (fq_method rq) "POST" then postEvents dev (fq_auth rq) (fq_body rq) (fq_readErr rq) s
      else (mkFleetRs 405 (BText "Method Not Allowed"), s)
  | ["healthz"] =>
      if is_get (fq_method rq) then (mkFleetRs 200 (BText "ok"), s)
      else (mkFleetRs 405 (BText "Method Not Allowed"), s)
  | _ => (mkFleetRs 404 (BText "404 page not found"), s)
  end.

(** ** Executions *)
Inductive server_step (s : Server) : Server → Prop :=
  | srv_register dev token : server_step s (RegisterDevice dev token s).2
  | srv_assign dev a : server_step s (SetAssignment dev a s)
  | srv_request rq : server_step s (serve rq s).2.

Inductive server_reachable : Server → Prop :=
  | srv_new : server_reachable New
  | srv_step s s' : server_reachable s → server_step s s' → server_reachable s'.
End server.

(** ** The acknowledgement loop *)

Lemma advance_none fuel store acked :
  advance fuel store acked = None →
  ∀ i, 1 ≤ i ≤ Z.of_nat fuel + 1 → is_Some (store !! u64 (acked + i)).
Proof.
  revert acked. induction fuel as [|fuel IH]; intros acked Ha i Hi; cbn [advance] in Ha;
    destruct (store !! u64 (acked + 1)) as [e|] eqn:E; try done.
  - assert (i = 1) as -> by lia. by rewrite E.
  - destruct (decide (i = 1)) as [->|Hne]; [by rewrite E|].
    specialize (IH _ Ha (i - 1) ltac:(lia)). unfold u64 in *.
    rewrite Zplus_mod_idemp_l in IH. by replace (acked + 1 + (i - 1)) with (acked + i) in IH by lia.
Qed.

Lemma size_keys {A} (store : gmap Z A) (l : list Z) :
  NoDup l → (∀ k, k ∈ l → is_Some (store !! k)) → (length l ≤ size store)%nat.
Proof.
  intros Hnd Hl. rewrite <- size_dom, <- (size_list_to_set (C := gset Z) l) by done.
  apply subseteq_size. intros k. rewrite elem_of_list_to_set, elem_of_dom. apply Hl.
Qed.

(** Fewer than 2^64 stored events: the loop ends, below a missing one. *)
Lemma advance_enough store acked :
  Z.of_nat (size store) < 2 ^ 64 → ∃ n, advance (size store) store acked = Some n.
Proof.
  intros Hs. destruct (advance (size store) store acked) as [n|] eqn:E; [by exists n|]. exfalso.
  set (l := map (fun i => u64 (acked + i)) (seqZ 1 (Z.of_nat (size store) + 1))).
  assert (Hl : (length l ≤ size store)%nat).
  { apply size_keys.
    - apply NoDup_fmap_2_strong; [|apply NoDup_seqZ]. intros x y Hx%elem_of_seqZ Hy%elem_of_seqZ He.
      unfold u64 in He. pose proof (Z_div_mod_eq_full (acked + x) (2 ^ 64)).
      pose proof (Z_div_mod_eq_full (acked + y) (2 ^ 64)). nia.
    - intros k (i & -> & Hi%elem_of_seqZ)%list_elem_of_fmap. eapply advance_none; [done|lia]. }
  subst l. rewrite length_map, length_seqZ in Hl. lia.
Qed.

Lemma advance_stops fuel store acked n :
  advance fuel store acked = Some n →
  store !! u64 (n + 1) = None ∧
  ∃ k, 0 ≤ k ≤ Z.of_nat fuel ∧ u64 n = u64 (acked + k) ∧
    ∀ i, 1 ≤ i ≤ k → is_Some (store !! u64 (acked + i)).
Proof.
  revert acked. induction fuel as [|fuel IH]; intros acked; cbn [advance];
    destruct (store !! u64 (acked + 1)) as [e|] eqn:E; try done.
  1,3: intros [= <-]; split; [done|]; exists 0; rewrite Z.add_0_r; split; [lia|]; split; [done|lia].
  intros Ha. apply IH in Ha as (Hn & k & Hk & En & Hs). split; [done|].
  assert (Eu : ∀ j, u64 (u64 (acked + 1) + j) = u64 (acked + (j + 1))).
  { intros j. unfold u64. rewrite Zplus_mod_idemp_l. f_equal. lia. }
  exists (k + 1). split; [lia|]. split; [by rewrite En, Eu|]. intros i Hi.
  destruct (decide (i = 1)) as [->|]; [by rewrite E|].
  replace i with (i - 1 + 1) by lia. rewrite <- Eu. apply Hs. lia.
Qed.

(** The acknowledgement loop of [postEvents] has no bound of its own; on
    every store of fewer than 2^64 events it ends, after at most as many
    rounds as there are events, at the first sequence number (in uint64) whose
    successor is missing. *)
Theorem fleetref_ack_terminates store acked :
  Z.of_nat (size store) < 2 ^ 64 →
  ∃ n k, advance (size store) store acked = Some n ∧ next_ack store acked = n ∧
    0 ≤ k ≤ Z.of_nat (size store) ∧ u64 n = u64 (acked + k) ∧
    (∀ i, 1 ≤ i ≤ k → is_Some (store !! u64 (acked + i))) ∧ store !! u64 (n + 1) = None.
Proof.
  intros Hs. destruct (advance_enough store acked Hs) as [n Hn].
  destruct (advance_stops _ _ _ _ Hn) as (Hnext & k & Hk & En & Hall). exists n, k.
  unfold next_ack. by rewrite Hn.
Qed.

(** ** Invariants *)

(** Every sequence number from 1 up to [n] is stored. *)
Definition contiguous (store : gmap Z Event) (n : Z) : Prop := ∀ k, 1 ≤ k ≤ n → is_Some (store !! k).
Definition keyed (store : gmap Z Event) : Prop := ∀ k e, store !! k = Some e → e_Sequence e = k.

(** The server remembers that [e] happened. *)
Definition recorded (store : gmap Z Event) (e : Event) : Prop :=
  ∃ e', store !! e_Sequence e = Some e' ∧ e_JobID e' = e_JobID e ∧ e_State e' = e_State e.

Definition server_ok (s : Server) : Prop :=
  ∀ dev, 0 ≤ acked_of s dev ∧ contiguous (events_of s dev) (acked_of s dev) ∧ keyed (events_of s dev).

(** What any request or operator action keeps. *)
Definition events_kept (s s' : Server) : Prop := ∀ dev, events_of s dev ⊆ events_of s' dev.

Lemma advance_contiguous fuel store acked n :
  0 ≤ acked → contiguous store acked → advance fuel store acked = Some n →
  0 ≤ n ∧ contiguous store n.
Proof.
  revert acked. induction fuel as [|fuel IH]; intros acked H0 Hc; cbn [advance];
    destruct (store !! u64 (acked + 1)) as [e|] eqn:E; try done; try (by intros [= <-]).
  pose proof (Z.mod_pos_bound (acked + 1) (2 ^ 64) ltac:(lia)).
  apply IH; [unfold u64; lia|]. intros k Hk. destruct (decide (k = u64 (acked + 1))) as [->|Hne]; [by rewrite E|].
  apply Hc. unfold u64 in *. pose proof (Z.mod_le (acked + 1) (2 ^ 64) ltac:(lia) ltac:(lia)). lia.
Qed.

Lemma next_ack_ok store acked :
  0 ≤ acked → contiguous store acked → 0 ≤ next_ack store acked ∧ contiguous store (next_ack store acked).
Proof.
  intros H0 Hc. unfold next_ack. destruct (advance _ store acked) as [n|] eqn:E; [|done].
  by apply advance_contiguous in E.
Qed.

Lemma store_batch_grows evs store : store ⊆ (store_batch evs store).1.
Proof.
  revert store. induction evs as [|ev evs IH]; intros store; [done|]. cbn [store_batch].
  destruct (store !! e_Sequence ev) as [prev|] eqn:E.
  - by destruct (negb _ || negb _).
  - etrans; [by apply insert_subseteq|apply IH].
Qed.

Lemma store_batch_keyed evs store : keyed store → keyed (store_batch evs store).1.
Proof.
  revert store. induction evs as [|ev evs IH]; intros store Hk; [done|]. cbn [store_batch].
  destruct (store !! e_Sequence ev) as [prev|] eqn:E.
  - destruct (negb _ || negb _); [done|by apply IH].
  - apply IH. intros k e. rewrite lookup_insert_Some. intros [[<- <-]|[_ ?]]; [done|by apply Hk].
Qed.

Lemma store_batch_records evs store store' :
  store_batch evs store = (store', false) → ∀ e, e ∈ evs → recorded store' e.
Proof.
  revert store. induction evs as [|ev evs IH]; intros store Hb e He; [by apply not_elem_of_nil in He|].
  cbn [store_batch] in Hb. apply elem_of_cons in He as [->|He].
  - destruct (store !! e_Sequence ev) as [prev|] eqn:E.
    + destruct (negb _ || negb _) eqn:Ec; [done|]. reflect_bools. exists prev.
      apply bool_decide_eq_true in H0. split; [|done]. eapply lookup_weaken; [done|].
      pose proof (store_batch_grows evs store) as Hg. by rewrite Hb in Hg.
    + exists ev. split; [|done]. eapply lookup_weaken; [apply lookup_insert_eq|].
      pose proof (store_batch_grows evs (<[e_Sequence ev := ev]> store)) as Hg. by rewrite Hb in Hg.
  - destruct (store !! e_Sequence ev) as [prev|]; [|by eapply IH].
    destruct (negb _ || negb _); [done|by eapply IH].
Qed.

Lemma events_of_set dev dev' m s :
  events_of (set_events dev m s) dev' = if decide (dev = dev') then m else events_of s dev'.
Proof. unfold events_of, set_events. simpl. case_decide; subst; by simplify_map_eq. Qed.

Lemma acked_of_set dev dev' n s :
  acked_of (set_acked dev n s) dev' = if decide (dev = dev') then n else acked_of s dev'.
Proof. unfold acked_of, set_acked. simpl. case_decide; subst; by simplify_map_eq. Qed.

Section facts.
Context `{JSONDecode (list Event)}.
(** A [uint64] field is decoded from a number in its range. *)
Context (events_u64 : ∀ b (evs : list Event),
  StrictJSON b = Ok evs → Forall (fun e => 0 ≤ e_Sequence e < 2 ^ 64) evs).

Lemma last_nonneg b evs : StrictJSON b = Ok evs → 0 ≤ last_sequence evs.
Proof.
  intros Hd%events_u64. unfold last_sequence. destruct (last evs) as [e|] eqn:E; [|done].
  rewrite Forall_forall in Hd. apply last_Some_elem_of, Hd in E. lia.
Qed.

Lemma ok_stored dev store s :
  server_ok s → events_of s dev ⊆ store → keyed store → server_ok (set_events dev store s).
Proof.
  intros Hok Hsub Hk dev'. destruct (Hok dev') as (H0 & Hc & Hk'). rewrite events_of_set.
  change (acked_of (set_events dev store s) dev') with (acked_of s dev').
  case_decide as Hd; subst; [|done]. split; [done|]. split; [|done].
  intros k Hr. destruct (Hc k Hr) as [e He]. exists e. by eapply lookup_weaken.
Qed.

Lemma ok_acked dev n s :
  server_ok s → 0 ≤ n → contiguous (events_of s dev) n → server_ok (set_acked dev n s).
Proof.
  intros Hok H0 Hc dev'. destruct (Hok dev') as (H0' & Hc' & Hk'). rewrite acked_of_set.
  change (events_of (set_acked dev n s) dev') with (events_of s dev').
  case_decide as Hd; [|done]. by rewrite <- Hd in *.
Qed.

(** An error response that leaves the server alone. *)
Local Ltac refused := cbn; split; [assumption|split; [intros ?; reflexivity|split; [done|by intros ? [=]]]].

(** Everything a POST does, on its only successful path. *)
Lemma postEvents_ok dev auth bd readErr s :
  server_ok s →
  let s' := (postEvents dev auth bd readErr s).2 in
  server_ok s' ∧ events_kept s s' ∧
  (authorize auth dev s = false → s' = s) ∧
  ∀ n, (postEvents dev auth bd readErr s).1 = mkFleetRs 200 (BSequence n) →
    ∃ evs, authorize auth dev s = true ∧ StrictJSON (limit_read 524288 bd) = Ok evs ∧
      acked_of s' dev = n ∧ n ≤ last_sequence evs ∧ contiguous (events_of s' dev) n ∧
      ∀ e, e ∈ evs → recorded (events_of s' dev) e.
Proof.
  intros Hok. unfold postEvents. destruct (authorize auth dev s) eqn:Ha; [|refused]. simpl.
  destruct (limit_err _ _ _); [refused|].
  destruct (StrictJSON _) as [evs|] eqn:Hj; [|refused]. destruct (_ || _); [refused|].
  pose proof (store_batch_grows evs (events_of s dev)) as Hg.
  pose proof (store_batch_keyed evs (events_of s dev) (proj2 (proj2 (Hok dev)))) as Hk.
  destruct (store_batch evs (events_of s dev)) as [store conflict] eqn:Hb. simpl in *.
  pose proof (ok_stored dev store s Hok Hg Hk) as Hok1.
  assert (Hkept : events_kept s (set_events dev store s)).
  { intros dev'. rewrite events_of_set. case_decide as Hd; [by rewrite <- Hd|done]. }
  destruct conflict; [split; [done|split; [done|split; [done|by intros ? [=]]]]|]. simpl. set (s1 := set_events dev store s) in *.
  destruct (Hok1 dev) as (H0 & Hc & _).
  assert (Hev : events_of s1 dev = store) by (unfold s1; rewrite events_of_set; by case_decide).
  rewrite Hev in Hc. destruct (next_ack_ok store (acked_of s1 dev) H0 Hc) as [Hn0 Hnc].
  set (n := Z.min _ _). assert (Hn : 0 ≤ n) by (pose proof (last_nonneg _ _ Hj); lia).
  assert (Hcn : contiguous store n) by (intros k Hr; apply Hnc; lia).
  split; [apply ok_acked; [done|done|by rewrite Hev]|]. split; [exact Hkept|]. split; [done|].
  intros m [= <-]. exists evs. split; [done|]. split; [done|]. rewrite acked_of_set.
  change (events_of (set_acked dev n s1) dev) with (events_of s1 dev). rewrite Hev.
  split; [by case_decide|]. split; [lia|]. split; [done|]. by eapply store_batch_records.
Qed.
End facts.

(** ** Claims *)
Section claims.
Context `{JSONDecode (list Event)}.
Context (events_u64 : ∀ b (evs : list Event),
  StrictJSON b = Ok evs → Forall (fun e => 0 ≤ e_Sequence e < 2 ^ 64) evs).

Lemma serve_cases rq s :
  ((serve rq s).2 = s ∧ ∀ n, (serve rq s).1 ≠ mkFleetRs 200 (BSequence n)) ∨
  ∃ dev, fq_path rq = ["v1"; "devices"; dev; "events"] ∧
    serve rq s = postEvents dev (fq_auth rq) (fq_body rq) (fq_readErr rq) s.
Proof.
  unfold serve, getAssignment.
  repeat match goal with
  | |- context [match ?x with _ => _ end] => destruct x
  | |- _ => by left
  | |- _ => by right; eauto
  end.
Qed.

Lemma serve_ok rq s : server_ok s → server_ok (serve rq s).2 ∧ events_kept s (serve rq s).2.
Proof.
  intros Hok. destruct (serve_cases rq s) as [[-> _]|(dev & _ & ->)].
  { split; [done|]. by intros dev. }
  edestruct (postEvents_ok events_u64) as (? & ? & _); eauto.
Qed.

Lemma step_ok s s' : server_ok s → server_step s s' → server_ok s' ∧ events_kept s s'.
Proof.
  intros Hok Hs. destruct Hs as [dev token|dev a|rq]; [| |by apply serve_ok].
  - unfold RegisterDevice. destruct (_ || _); [split; [done|]; by intros dev'|]. simpl.
    assert (He : ∀ dev', events_of (mkServer (<[dev := token]> (sv_tokens s)) (sv_assignments s) (sv_acked s)
      (match sv_events s !! dev with None => <[dev := ∅]> (sv_events s) | Some _ => sv_events s end)) dev'
      = events_of s dev').
    { intros dev'. unfold events_of. simpl. destruct (sv_events s !! dev) eqn:E; [done|].
      destruct (decide (dev = dev')) as [<-|]; by simplify_map_eq; rewrite ?E. }
    split; intros dev'; rewrite He; [apply (Hok dev')|done].
  - split; [exact Hok|]. by intros dev'.
Qed.

Lemma reachable_ok s : server_reachable s → server_ok s.
Proof.
  induction 1 as [|s0 s1 _ IH Hs]; [|by apply (step_ok s0)].
  intros dev. split; [done|]. split; [|done]. intros k Hk. change (1 ≤ k ≤ 0) in Hk. lia.
Qed.

(** C31: in every reachable state of the reference server the acknowledged
    sequence of a device is contiguous (all events from 1 up to it are
    stored, each under its own number), and no request or operator action
    ever alters or removes a stored event. *)
Theorem fleetref_invariant s s' :
  server_reachable s → server_step s s' → server_ok s ∧ server_ok s' ∧ events_kept s s'.
Proof. intros Hr%reachable_ok Hs. split; [done|]. by apply step_ok. Qed.

(** What an acknowledgement says. *)
Lemma serve_ack_sound s rq n s' :
  server_reachable s → serve rq s = (mkFleetRs 200 (BSequence n), s') →
  ∃ dev evs, fq_path rq = ["v1"; "devices"; dev; "events"] ∧ authorize (fq_auth rq) dev s = true ∧
    StrictJSON (limit_read 524288 (fq_body rq)) = Ok evs ∧
    AckedSequence dev s' = n ∧ n ≤ last_sequence evs ∧ contiguous (events_of s' dev) n ∧
    ∀ e, e ∈ evs → recorded (events_of s' dev) e.
Proof.
  intros Hr%reachable_ok Hs. destruct (serve_cases rq s) as [[_ Hne]|(dev & Hp & E)].
  - exfalso. apply (Hne n). by rewrite Hs.
  - destruct (postEvents_ok events_u64 dev (fq_auth rq) (fq_body rq) (fq_readErr rq) s Hr) as (_ & _ & _ & Ha).
    rewrite <- E, Hs in Ha. destruct (Ha n eq_refl) as (evs & ?). by exists dev, evs.
Qed.

(** An acknowledgement is answered only to a caller that presents the
    device's token, never exceeds the last event of its batch, and is backed
    by the store: everything up to it and everything in the batch is
    recorded. *)
Theorem fleetref_ack_sound s rq n s' :
  server_reachable s → serve rq s = (mkFleetRs 200 (BSequence n), s') →
  ∃ dev evs, fq_path rq = ["v1"; "devices"; dev; "events"] ∧ authorize (fq_auth rq) dev s = true ∧
    StrictJSON (limit_read 524288 (fq_body rq)) = Ok evs ∧
    AckedSequence dev s' = n ∧ n ≤ last_sequence evs ∧ contiguous (events_of s' dev) n ∧
    ∀ e, e ∈ evs → recorded (events_of s' dev) e.
Proof. apply serve_ack_sound. Qed.

(** The acknowledged sequence can go back: replaying an old batch
    stores the last sequence of that batch, although everything up to the
    earlier one is still stored. *)
Theorem fleetref_ack_regresses dev auth bd e n s :
  authorize auth dev s = true → StrictJSON (limit_read 524288 bd) = Ok [e] →
  acked_of s dev = n → 1 ≤ e_Sequence e < n → n < 2 ^ 64 - 1 → events_of s dev !! e_Sequence e = Some e →
  events_of s dev !! (n + 1) = None →
  postEvents dev auth bd false s =
    (mkFleetRs 200 (BSequence (e_Sequence e)),
     set_acked dev (e_Sequence e) (set_events dev (events_of s dev) s)).
Proof.
  intros Ha Hj Hn He Hn64 Hs Hnext. unfold postEvents. rewrite Ha, Hj. cbn [negb limit_err andb length].
  cbn [store_batch]. simpl. rewrite Hs, eqs_refl, bool_decide_eq_true_2 by done. simpl.
  unfold next_ack, last_sequence. simpl. change (acked_of (set_events _ _ _) dev) with (acked_of s dev).
  rewrite Hn. assert (Hu : u64 (n + 1) = n + 1) by (apply u64_small; lia).
  assert (Hadv : advance (size (events_of s dev)) (events_of s dev) n = Some n)
    by (destruct (size (events_of s dev)); cbn [advance]; by rewrite Hu, Hnext).
  rewrite Hadv. simpl. by rewrite Z.min_r by lia.
Qed.

(** ** The lab server's start *)

Lemma registerDevices_runs token ids s s' :
  registerDevices token ids s = Ok s' →
  (server_reachable s → server_reachable s') ∧
  (∀ id, (∃ i, i ∈ ids ∧ TrimSpace (to_bytes i) = id ∧ id ≠ "") ∨ sv_tokens s !! id = Some token →
    sv_tokens s' !! id = Some token) ∧
  sv_assignments s' = sv_assignments s.
Proof.
  clear events_u64. revert s. induction ids as [|i ids IH]; intros s; simpl.
  { intros [= <-]. split; [done|]. split; [|done]. set_solver. }
  destruct (eqs (TrimSpace (to_bytes i)) "") eqn:E.
  - apply eqs_true in E. intros Hr. destruct (IH s Hr) as (H1 & H2 & H3). split; [done|]. split; [|done].
    intros id [(j & Hj & Ht & Hne)|?]; apply H2; [|by right]. left. exists j. split; [set_solver|done].
  - apply eqs_false in E. destruct (RegisterDevice _ token s) as [[[]|e] s1] eqn:Er; [|done].
    intros Hr. destruct (IH s1 Hr) as (H1 & H2 & H3).
    assert (E1 : sv_tokens s1 = <[TrimSpace (to_bytes i) := token]> (sv_tokens s) ∧ sv_assignments s1 = sv_assignments s).
    { unfold RegisterDevice in Er. destruct (_ || _); [done|]. by injection Er as <-. }
    destruct E1 as [E1 E2]. split; [|split; [|by rewrite H3]].
    + intros Hs. apply H1. eapply srv_step; [exact Hs|].
      replace s1 with (RegisterDevice (TrimSpace (to_bytes i)) token s).2 by (by rewrite Er). constructor.
    + intros id Hid. apply H2. destruct Hid as [(j & Hj & Ht & Hne)|Hid].
      * apply elem_of_cons in Hj as [->|Hj]; [right; rewrite E1, Ht; apply lookup_insert_eq|left; by exists j].
      * right. rewrite E1. destruct (decide (TrimSpace (to_bytes i) = id)) as [->|];
          [apply lookup_insert_eq|by rewrite lookup_insert_ne].
Qed.

Lemma assignDevices_runs a ids s :
  (server_reachable s → server_reachable (assignDevices a ids s)) ∧
  sv_tokens (assignDevices a ids s) = sv_tokens s ∧
  ∀ id, (∃ i, i ∈ ids ∧ TrimSpace (to_bytes i) = id ∧ id ≠ "") ∨ sv_assignments s !! id = Some (set_asg_DeviceID id a) →
    sv_assignments (assignDevices a ids s) !! id = Some (set_asg_DeviceID id a).
Proof.
  clear events_u64. revert s. induction ids as [|i ids IH]; intros s; simpl; [split; [done|]; split; [done|set_solver]|].
  destruct (eqs (TrimSpace (to_bytes i)) "") eqn:E.
  - apply eqs_true in E. destruct (IH s) as (H1 & H2 & H3). split; [done|]. split; [done|].
    intros id [(j & Hj & Ht & Hne)|?]; apply H3; [|by right]. left. exists j. split; [set_solver|done].
  - set (s1 := SetAssignment _ _ s). destruct (IH s1) as (H1 & H2 & H3). split; [|split; [done|]].
    + intros Hs. apply H1. eapply srv_step; [exact Hs|]. constructor.
    + intros id Hid. apply H3. destruct Hid as [(j & Hj & Ht & Hne)|Hid].
      * apply elem_of_cons in Hj as [->|Hj]; [right; rewrite <- Ht; apply lookup_insert_eq|left; by exists j].
      * right. simpl. destruct (decide (TrimSpace (to_bytes i) = id)) as [->|];
          [apply lookup_insert_eq|by rewrite lookup_insert_ne].
Qed.

(** The server [main] starts is a reachable one, and every listed device that
    presents the token is given the assignment, addressed to itself. *)
Lemma fleetref_main_delivers `{JSONDecode Assignment} token devices b a s id auth :
  fleetref_main token devices (Some b) = Ok s → StrictJSON b = Ok a →
  (∃ i, i ∈ split_comma devices ∧ TrimSpace (to_bytes i) = id ∧ id ≠ "") →
  TrimSpace (to_bytes (TrimPrefix "Bearer " auth)) = token →
  server_reachable s ∧ getAssignment id auth s = mkFleetRs 200 (BAssignment (set_asg_DeviceID id a)).
Proof.
  clear events_u64. intros Hm Ha Hid Hauth. unfold fleetref_main in Hm. destruct (_ || _); [done|].
  apply result_bind_ok in Hm as (ref & Hr & Hm). apply result_bind_ok in Hm as (a' & Ha' & Hm).
  rewrite Ha in Ha'. injection Ha' as <-. injection Hm as <-.
  destruct (registerDevices_runs _ _ _ _ Hr) as (H1 & H2 & _).
  destruct (assignDevices_runs a (split_comma devices) ref) as (H3 & H4 & H5).
  split; [apply H3, H1, srv_new|]. unfold getAssignment, authorize.
  rewrite H4, (H2 id (or_introl Hid)), Hauth, eqs_refl, (H5 id (or_introl Hid)). done.
Qed.

End claims.
