(* ===== verification/Fleet.v ===== *)
(** * Fleet synchronisation (internal/ota/fleet.go)

    The outbound client: it uploads the outbox in batches, removes what Fleet
    acknowledged, and submits the assignment Fleet has for this device. *)
From stdpp Require Import base tactics gmap strings list.
From Stdlib Require Import ZArith Lia.
From S2P Require Import Prelude Model Config Crypto Fmt Files Backend Metrics Trace Topo Verify World Store TrustMeta Payload Download Engine EngineFrame.
Local Open Scope Z_scope.

(** One exchange of [Client.Do]; a refused redirect is an error of the call. *)
Record FleetCall := mkCall {
  fc_method : string;
  fc_url : string;
  fc_auth : option string;
  fc_body : bytes;
}.
Record FleetAnswer := mkAnswer {
  fa_status : Z;
  fa_body : bytes;
  fa_err : option error;   (* reading the body ends in this error *)
}.
Class FleetNet := { fleet_Do : nat → FleetCall → result FleetAnswer }.

(** [crypto/x509] and [crypto/tls]: which PEM files are usable. *)
Class PEM := {
  pem_AppendCerts : bytes → bool;
  pem_X509KeyPair : bytes → bytes → option error;
}.

(** The client's own state: its TLS material and its token. *)
Record Fleet := mkFleet {
  fl_roots : option bytes;
  fl_cert : option (bytes * bytes);
  fl_token : string;
}.

Record ackBody := mkAckBody { ack_Sequence : Z }.

Section fleet.
Context `{MapRange, Limits, LocalZone, NetURL, Net, Ed25519, LineJSON}.
Context `{JSONDecode Release, JSONEncode Assignment, JSONDecode multiSigned, JSONDecode rootMeta,
          JSONDecode snapshotMeta, JSONDecode timestampMeta, JSONDecode targetsMeta}.
Context `{JSONDecode Assignment, JSONEncode (list Event), JSONDecode ackBody, FleetNet, PEM}.
Context `{Codec, Env} {D : Type} `{Backend D}.
Context (c : Config).
Abbreviation M := (Prelude.M (World D)).

Definition NewFleet : M Fleet :=
  roots ← (if negb (eqs (c_FleetCA c) "") then
             b ← ReadFile (components (c_FleetCA c));
             if pem_AppendCerts b then mret (Some b) else fail (errors_New "invalid Fleet CA")
           else mret None);
  cert ← (if negb (eqs (c_FleetCert c) "") || negb (eqs (c_FleetKey c) "") then
            cert ← ReadFile (components (c_FleetCert c));
            key ← ReadFile (components (c_FleetKey c));
            match pem_X509KeyPair cert key with
            | Some e => fail e
            | None => mret (Some (cert, key))
            end
          else mret None);
  token ← (if negb (eqs (c_FleetTokenFile c) "") then
             b ← ReadFile (components (c_FleetTokenFile c));
             if eqs (TrimSpace b) "" then fail (errors_New "empty Fleet token") else mret (TrimSpace b)
           else mret "");
  mret (mkFleet roots cert token).

Definition fleetCall (f : Fleet) (method suffix : string) (body : bytes) : FleetCall :=
  mkCall method (TrimRightSlash (c_FleetURL c) +:+ "/v1/devices/" +:+ c_DeviceID c +:+ suffix)
    (if negb (eqs (fl_token f) "") then Some ("Bearer " +:+ fl_token f) else None) body.

Definition fleetRequest (f : Fleet) (method suffix : string) (body : bytes) : M (bytes * Z) :=
  n ← tick;
  match fleet_Do n (fleetCall f method suffix body) with
  | Err _ => fail (errors_New "Fleet request failed")
  | Ok a =>
      let data := limit_read 524289 (fa_body a) in
      match fa_err a with
      | Some e =>
          if limit_err 524289 (fa_body a) true then fail e
          else if blen data >? 524288 then fail (errors_New "Fleet response too large")
          else mret (data, fa_status a)
      | None =>
          if blen data >? 524288 then fail (errors_New "Fleet response too large")
          else mret (data, fa_status a)
      end
  end.

(** At most a hundred events per upload. *)
Definition batch (d : Database) : list Event := take 100 (db_Events d).

Definition last_event (evs : list Event) : Z :=
  match last evs with Some e => e_Sequence e | None => 0 end.

Definition uploadEvents (f : Fleet) (events : list Event) : M unit :=
  if (0 <? length events)%nat then
    '(b, status) ← fleetRequest f "POST" "/events" (json_Marshal events);
    if negb (status =? 200) then fail (errors_New ("Fleet event HTTP " +:+ show_Z status))
    else
      ack ← lift (StrictJSON b);
      if ack_Sequence ack >? last_event events then fail (errors_New "Fleet acknowledged unsent events")
      else Ack (ack_Sequence ack)
  else mret tt.

Definition pollAssignment (f : Fleet) : M unit :=
  '(b, status) ← fleetRequest f "GET" "/assignment" [];
  if status =? 204 then mret tt
  else if negb (status =? 200) then fail (errors_New ("Fleet assignment HTTP " +:+ show_Z status))
  else
    a ← lift (StrictJSON b);
    _ ← Submit c a;
    mret tt.

Definition sync (f : Fleet) : M unit :=
  d ← View;
  _ ← uploadEvents f (batch d);
  pollAssignment f.

(** The counters and the span of one synchronisation. *)
Definition reportSync (started : time) (r : result unit) : M unit :=
  elapsed ← Since;
  _ ← stats (fleetSync (is_ok r) elapsed);
  if env_spans then
    stop ← Now;
    trace ← try randomHex;
    span ← try randomHex;
    let id r := match r with Ok s => s | Err _ => "" end in
    modify (fun w => set_w_spans
      (Export (fleetSpan (id trace) (id span) (c_DeviceID c) started stop
                 (match r with Ok _ => None | Err e => Some e end)) (w_spans w)) w)
  else mret tt.

Definition Sync (f : Fleet) : M unit :=
  started ← Now;
  r ← try (sync f);
  _ ← reportSync started r;
  lift r.

(** ** What a synchronisation does to the outbox *)

(** The outbox only grew at its end. *)
Definition appends (w w' : World D) : Prop :=
  ∃ l, db_Events (w_data w') = db_Events (w_data w) ++ l.

Global Instance appends_preorder : PreOrder appends.
Proof.
  split.
  - intros w. exists []. by rewrite app_nil_r.
  - intros w1 w2 w3 [l1 E1] [l2 E2]. exists (l1 ++ l2). by rewrite E2, E1, app_assoc.
Qed.

Lemma frame_appends w w' : frame w w' → appends w w'.
Proof. intros Hf. exists []. by rewrite (fr_data _ _ Hf), app_nil_r. Qed.

Lemma keeps_frame_appends {A} (m : M A) : keeps frame m → keeps appends m.
Proof. intros Hm w. apply frame_appends, Hm. Qed.

Lemma compact_loop_events fuel d sp d' sp' :
  compact_loop fuel d sp = Some (Ok (d', sp')) → db_Events d' = db_Events d.
Proof.
  revert d sp. induction fuel as [|fuel IH]; intros d sp; simpl;
    (destruct (jobs_len d >? hotJobLimit); [|by intros [= <- <-]]); [done|].
  destruct (fold_left _ _ _) as [id ?]. destruct (eqs id ""); [done|].
  destruct (db_Jobs d !! id); [|done]. intros Hc%IH. exact Hc.
Qed.

Lemma compactHot_events d d' sp : compactHot d = Ok (d', sp) → db_Events d' = db_Events d.
Proof.
  unfold compactHot. destruct (compact_loop _ d []) as [[[d1 s1]|]|] eqn:E; [|done..].
  simpl. destruct (events_len d1 >? 10000); [done|]. intros [= <- <-]. by eapply compact_loop_events.
Qed.

(** The outbox after a transaction: untouched, or what its closure made. *)
Lemma Update_events fn (R : list Event → list Event → Prop) (w : World D) :
  (∀ d, keeps frame (fn d)) → (∀ l, R l l) →
  (∀ d w0 d' w1, fn d w0 = (Ret d', w1) → R (db_Events d) (db_Events d')) →
  R (db_Events (w_data w)) (db_Events (w_data (Update fn w).2)).
Proof.
  intros Hf Hrefl Hfn. pose proof (Update_outcome fn w Hf) as Hu.
  destruct Hu as [o w' Hfr _|e w1 w' Hfr ->|next0 next sp o w1 w2 w' Hr Hfr _ Hc _ Ho].
  - by rewrite (fr_data _ _ Hfr).
  - simpl. by rewrite (fr_data _ _ Hfr).
  - destruct Ho as [[_ ->]|(e & _ & ->)]; simpl; [|by rewrite (fr_data _ _ Hfr)].
    rewrite (compactHot_events _ _ _ Hc). by eapply Hfn.
Qed.

Lemma submit_fn_appends a j supply now d (w0 : World D) d' w1 :
  submit_fn c a j supply now d w0 = (Ret d', w1) → ∃ k, db_Events d' = db_Events d ++ k.
Proof.
  unfold submit_fn. destruct (negb _); [done|]. destruct (_ >? _); [done|]. destruct (_ <=? _); [done|].
  intros (dt & w2 & Ht & Ha)%bind_returns.
  assert (Et : db_Events dt = db_Events d).
  { unfold applySupplyChain in Ht. destruct (negb _); [by injection Ht as <- _|].
    apply bind_returns in Ht as (? & ? & _ & Ht). by injection Ht as <- _. }
  unfold addEvent in Ha. destruct (_ >=? _); [done|]. injection Ha as <- _. rewrite <- Et. by eexists.
Qed.

Lemma Submit_appends a : keeps appends (Submit c a).
Proof.
  assert (Hb : keeps appends (Submit_body c a)).
  { unfold Submit_body. destruct (_ || _); [keeps_auto|].
    apply keeps_bind; [apply _|apply keeps_frame_appends, View_frame|intros db].
    destruct (db_Jobs db !! asg_JobID a); [destruct (eqs _ _); keeps_auto|].
    apply keeps_bind; [apply _|apply keeps_frame_appends, Now_frame|intros now].
    apply keeps_bind; [apply _|keeps_auto|intros r].
    apply keeps_bind; [apply _|apply keeps_frame_appends, gateMeasuredBoot_frame|intros _].
    apply keeps_bind; [apply _|apply keeps_frame_appends, evaluateSupplyChain_frame|intros supply].
    destruct (negb (After _ _) || _ || _); [keeps_auto|].
    apply keeps_bind; [apply _| |intros _; keeps_auto]. intros w. unfold appends.
    apply (Update_events _ (fun l l' => ∃ k, l' = l ++ k)).
    - intros d. apply submit_fn_frame.
    - intros l. exists []. by rewrite app_nil_r.
    - intros d w0 d' w1. apply submit_fn_appends. }
  unfold Submit, tryLocked, locked. intros w. unfold mbind at 1, M_bind at 1, get. simpl.
  destruct (w_mu w); [reflexivity|]. unfold mbind, M_bind, modify, try.
  specialize (Hb (set_w_mu true w)). destruct (Submit_body c a (set_w_mu true w)) as [[j|e|] w']; exact Hb.
Qed.

(** A request leaves the outbox alone. *)
Lemma fleetRequest_frame f method suffix body : keeps frame (fleetRequest f method suffix body).
Proof. unfold fleetRequest. pose proof (tick_frame (D := D)). keeps_auto; done. Qed.

(** Fleet acknowledged [ack] for the batch [evs]. *)
Definition acknowledged (f : Fleet) (evs : list Event) (ack : Z) : Prop :=
  ∃ n ans, fleet_Do n (fleetCall f "POST" "/events" (json_Marshal evs)) = Ok ans ∧
    fa_status ans = 200 ∧ StrictJSON (limit_read 524289 (fa_body ans)) = Ok (mkAckBody ack) ∧
    ack ≤ last_event evs.

Lemma uploadEvents_outbox f evs (w : World D) :
  appends w (uploadEvents f evs w).2 ∨
  ∃ ack, acknowledged f evs ack ∧
    db_Events (w_data (uploadEvents f evs w).2) = drop_acked ack (db_Events (w_data w)).
Proof.
  unfold uploadEvents. destruct (_ <? _)%nat; [|by left].
  pose proof (fleetRequest_frame f "POST" "/events" (json_Marshal evs) w) as Hf.
  unfold mbind at 1 3, M_bind at 1 3.
  destruct (fleetRequest f "POST" "/events" (json_Marshal evs) w) as [[[b status]|e|] w1] eqn:Er;
    simpl in Hf; [|by left; apply frame_appends..].
  destruct (negb (status =? 200)) eqn:Es; [left; by apply frame_appends|].
  destruct (StrictJSON b) as [[ack]|e] eqn:Ej; [|left; by apply frame_appends].
  unfold lift, mbind, M_bind, mret, M_ret. simpl. destruct (_ >? _) eqn:El; [left; by apply frame_appends|].
  assert (Hor : db_Events (w_data (Ack ack w1).2) = db_Events (w_data w1) ∨
                db_Events (w_data (Ack ack w1).2) = drop_acked ack (db_Events (w_data w1))).
  { apply (Update_events _ (fun l l' => l' = l ∨ l' = drop_acked ack l)).
    - intros d. apply keeps_lift, _.
    - by left.
    - intros d w0 d' w2. unfold ack_fn. destruct (_ >? db_EventSequence d); [done|].
      unfold lift, mret, M_ret. intros Hx. injection Hx as <- _. by right. }
  rewrite (fr_data _ _ Hf) in Hor. destruct Hor as [E|E].
  - left. exists []. by rewrite E, app_nil_r.
  - right. exists ack. split; [|done].
    unfold fleetRequest, mbind, M_bind in Er. destruct (tick w) as [[n|?|] w0]; try done.
    destruct (fleet_Do n _) as [ans|] eqn:Ed; [|done]. exists n, ans. split; [done|].
    assert (Hb : b = limit_read 524289 (fa_body ans) ∧ status = fa_status ans).
    { destruct (fa_err ans); [destruct (limit_err _ _ _); [done|]|]; (destruct (_ >? 524288); [done|]);
        by injection Er as <- <- _. }
    destruct Hb as [-> ->]. split; [lia|]. split; [done|lia].
Qed.

Lemma pollAssignment_appends f : keeps appends (pollAssignment f).
Proof.
  unfold pollAssignment. apply keeps_bind; [apply _|apply keeps_frame_appends, fleetRequest_frame|].
  intros [b status]. destruct (status =? 204); [keeps_auto|]. destruct (negb _); [keeps_auto|].
  apply keeps_bind; [apply _|keeps_auto|intros a].
  apply keeps_bind; [apply _|apply Submit_appends|intros ?; keeps_auto].
Qed.

Lemma sync_unfold f (w : World D) :
  sync f w = (_ ← uploadEvents f (batch (w_data w)); pollAssignment f) w.
Proof. unfold sync, View, mbind, M_bind, get, mret, M_ret. by rewrite cloneDB_id. Qed.

(** An event that [sync] removes was acknowledged. *)
Lemma sync_outbox f (w : World D) e :
  e ∈ db_Events (w_data w) → e ∉ db_Events (w_data (sync f w).2) →
  ∃ ack, acknowledged f (batch (w_data w)) ack ∧ e ∉ drop_acked ack (db_Events (w_data w)).
Proof.
  intros Hin Hout. rewrite sync_unfold in Hout.
  pose proof (uploadEvents_outbox f (batch (w_data w)) w) as Hu. unfold mbind, M_bind in Hout.
  assert (Hsub : ∀ w1, appends (uploadEvents f (batch (w_data w)) w).2 w1 → e ∉ db_Events (w_data w1) →
    e ∉ db_Events (w_data (uploadEvents f (batch (w_data w)) w).2)).
  { intros w1 [l ->] Hn. set_solver. }
  assert (Hout' : e ∉ db_Events (w_data (uploadEvents f (batch (w_data w)) w).2)).
  { destruct (uploadEvents f (batch (w_data w)) w) as [[u|?|] w1]; simpl in *; [|done..].
    eapply Hsub; [|exact Hout]. apply pollAssignment_appends. }
  destruct Hu as [[l E]|(ack & Ha & E)]; rewrite E in Hout'; [set_solver|]. by exists ack.
Qed.

Local Hint Resolve Since_frame Now_frame randomHex_frame stats_frame : keeps.
Local Hint Extern 2 (keeps frame (modify _)) => (intros ?; by split) : keeps.
Lemma reportSync_frame started r : keeps frame (reportSync started r).
Proof. unfold reportSync. keeps_auto. Qed.

Lemma Sync_data f (w : World D) : w_data (Sync f w).2 = w_data w ∨
  ∃ n, w_data (Sync f w).2 = w_data (sync f (set_w_tick n w)).2.
Proof.
  unfold Sync, Now, tick, mbind, M_bind, mret, M_ret. destruct (env_crash _); [by left|].
  right. exists (S (w_tick w)). unfold try.
  assert (Hk : ∀ r w1, w_data (let '(o, w2) := reportSync (env_now (w_tick w)) r w1 in
     match o with Ret _ => (lift r : M unit) w2 | Fail e => (Fail e, w2) | Died => (Died, w2) end).2 = w_data w1).
  { intros r w1. pose proof (fr_data _ _ (reportSync_frame (env_now (w_tick w)) r w1)) as E.
    destruct (reportSync _ r w1) as [[?|?|] w2]; [destruct r|..]; exact E. }
  destruct (sync f (set_w_tick (S (w_tick w)) w)) as [[u|e|] w1]; [| |done].
  - exact (Hk (Ok u) w1).
  - exact (Hk (Err e) w1).
Qed.
End fleet.
