(* ===== verification/LabServer.v ===== *)
(** * The lab Fleet server's command (cmd/zyvor-fleet-ref/main.go)

    What [main] prepares before it serves [ref.Handler()] of FleetRef: the
    devices and their assignment, the server's certificate (given, or made
    for the occasion) and the copy of it that devices trust.  Then a device
    configured with that copy and the shared token. *)
From stdpp Require Import base tactics gmap strings list.
From Stdlib Require Import ZArith Lia Ascii.
From S2P Require Import Prelude Model Config Crypto Files Backend Metrics Trace Topo Verify World Store TrustMeta Payload Download SiteLink Engine FleetRef Fleet.
Local Open Scope Z_scope.

(** ** PEM (encoding/pem) *)

Definition nl : ascii := "010"%char.
Definition endl : string := String nl "".

(** The encoding in lines of 64 characters, each with its end. *)
Fixpoint pemLines (fuel : nat) (l : list ascii) : list ascii :=
  match fuel, l with
  | S fuel, _ :: _ => take 64 l ++ nl :: pemLines fuel (drop 64 l)
  | _, _ => []
  end.
Definition pemBody (b : bytes) : string :=
  let l := String.list_ascii_of_string (base64_encode b) in
  String.string_of_list_ascii (pemLines (length l) l).

(** [pem.EncodeToMemory(&pem.Block{Type: kind, Bytes: b})] *)
Definition pem_EncodeToMemory (kind : string) (b : bytes) : bytes :=
  to_bytes ("-----BEGIN " +:+ kind +:+ "-----" +:+ endl +:+ pemBody b +:+
            "-----END " +:+ kind +:+ "-----" +:+ endl).

Lemma pemLines_filter fuel l :
  (length l ≤ fuel)%nat → Forall (fun x => N_of_ascii x ≠ 10%N ∧ N_of_ascii x ≠ 13%N) l →
  filter (fun n => n ≠ 10 ∧ n ≠ 13)%N (map N_of_ascii (pemLines fuel l)) = map N_of_ascii l.
Proof.
  revert l. induction fuel as [|fuel IH]; intros l Hf Hl; [by destruct l; [|simpl in Hf; lia]|].
  destruct l as [|x l]; [done|]. set (t := x :: l) in *. change (pemLines (S fuel) t) with (take 64 t ++ nl :: pemLines fuel (drop 64 t)).
  rewrite map_app, filter_app. rewrite filter_all.
  - change (map N_of_ascii (nl :: ?k)) with (10%N :: map N_of_ascii k). rewrite filter_cons_False by (intros [? _]; done).
    rewrite IH.
    + by rewrite <- map_app, take_drop.
    + rewrite length_drop. subst t. simpl in *. lia.
    + by apply Forall_drop.
  - intros n (c & -> & Hc)%list_elem_of_fmap. rewrite Forall_forall in Hl. apply Hl.
    eapply elem_of_take in Hc as (i & Hi & _). by eapply list_elem_of_lookup_2.
Qed.

(** A decoder that skips line ends reads the bytes back. *)
Lemma pemBody_decodes b : base64_decode (pemBody b) = Some b.
Proof.
  assert (Hb : base64_decode (base64_encode b) = Some b) by apply base64_roundtrip.
  unfold base64_decode, pemBody in *. rewrite String.list_ascii_of_string_of_list_ascii.
  set (l := String.list_ascii_of_string (base64_encode b)) in *.
  assert (Hl : Forall (fun x => N_of_ascii x ≠ 10%N ∧ N_of_ascii x ≠ 13%N) l).
  { pose proof (b64_encode_text b) as Ht. rewrite forallb_forall in Ht. apply Forall_forall. intros x Hx.
    apply list_elem_of_In, Ht in Hx. unfold b64_text in Hx. split; intros E; rewrite E in Hx; discriminate. }
  rewrite pemLines_filter by done. rewrite filter_all in Hb; [done|].
  intros n (x & -> & Hx)%list_elem_of_fmap. rewrite Forall_forall in Hl. by apply Hl.
Qed.

(** No line is longer than 64 characters. *)
Example pem_lines : pem_EncodeToMemory "T" (repeat Byte.x00 49) =
  to_bytes ("-----BEGIN T-----" +:+ endl +:+ "AAAAAAAAAAAAAAAAAAAAAAAAAAAAAAAAAAAAAAAAAAAAAAAAAAAAAAAAAAAAAAAA" +:+ endl
            +:+ "AA==" +:+ endl +:+ "-----END T-----" +:+ endl).
Proof. vm_compute. reflexivity. Qed.

(** ** Certificates (crypto/x509, crypto/tls) *)

Definition KeyUsageDigitalSignature : Z := Z.shiftl 1 0.
Definition KeyUsageKeyEncipherment : Z := Z.shiftl 1 2.
Inductive ExtKeyUsage := ExtKeyUsageServerAuth | ExtKeyUsageClientAuth.

(** The fields of [x509.Certificate] the template sets. *)
Record Template := mkTemplate {
  ct_SerialNumber : Z;
  ct_CommonName : string;
  ct_NotBefore : time;
  ct_NotAfter : time;
  ct_KeyUsage : Z;
  ct_ExtKeyUsage : list ExtKeyUsage;
  ct_IPAddresses : list string;
  ct_DNSNames : list string;
}.

(** [crypto/ecdsa] and [crypto/x509], which read randomness and time of their
    own: a key, the DER of a self-signed certificate, the DER of the key. *)
Class X509 := {
  ecdsa_GenerateKey : nat → result bytes;
  x509_CreateCertificate : nat → Template → bytes → result bytes;
  x509_MarshalECPrivateKey : bytes → result bytes;
}.

(** [tls.Certificate], by the PEM files it was made of. *)
Record tlsCert := mkTlsCert { tc_cert : bytes; tc_key : bytes }.

(** [time.Hour] *)
Definition labHour : duration := 3600 * Second.

(** The flags of the command. *)
Record labFlags := mkLabFlags {
  lf_token : string;
  lf_devices : string;
  lf_assignment : string;
  lf_cert : string;
  lf_key : string;
  lf_writeCA : string;
}.

Section lab.
Context `{X509, PEM, JSONDecode Assignment, JSONDecode (list Event)}.
Context `{Codec, Env} {D : Type} `{Backend D}.
Abbreviation M := (Prelude.M (World D)).
Implicit Types w : World D.

(** [tls.X509KeyPair] *)
Definition X509KeyPair (cert key : bytes) : M tlsCert :=
  match pem_X509KeyPair cert key with Some e => fail e | None => mret (mkTlsCert cert key) end.

(** [tls.LoadX509KeyPair] *)
Definition LoadX509KeyPair (certFile keyFile : string) : M tlsCert :=
  cert ← ReadFile (components certFile);
  key ← ReadFile (components keyFile);
  X509KeyPair cert key.

Definition labTemplate (now1 now2 : time) : Template :=
  mkTemplate 1 "zyvor-fleet-ref-lab" (now1 - labHour) (now2 + 24 * labHour)
    (Z.lor KeyUsageDigitalSignature KeyUsageKeyEncipherment) [ExtKeyUsageServerAuth]
    ["127.0.0.1"; "::1"] ["localhost"].

Definition ephemeralCert : M (tlsCert * bytes) :=
  n ← tick;
  key ← lift (ecdsa_GenerateKey n);
  now1 ← Now;
  now2 ← Now;
  n ← tick;
  der ← lift (x509_CreateCertificate n (labTemplate now1 now2) key);
  let certPEM := pem_EncodeToMemory "CERTIFICATE" der in
  keyDER ← lift (x509_MarshalECPrivateKey key);
  let keyPEM := pem_EncodeToMemory "EC PRIVATE KEY" keyDER in
  cert ← X509KeyPair certPEM keyPEM;
  mret (cert, certPEM).

Definition loadOrEphemeralCert (certFile keyFile : string) : M (tlsCert * bytes) :=
  if negb (eqs certFile "") || negb (eqs keyFile "") then
    if eqs certFile "" || eqs keyFile "" then fail (errors_New "both -cert and -key are required together")
    else
      cert ← LoadX509KeyPair certFile keyFile;
      pemBytes ← ReadFile (components certFile);
      mret (cert, pemBytes)
  else ephemeralCert.

(** [os.WriteFile(p, b, 0644)]: create or truncate, write, close. *)
Definition WriteFile (p : path) (b : bytes) : M unit :=
  _ ← syscall;
  fs ← view_fs;
  match fs !! p with
  | Some (Symlink | Directory | Special) => fail (errors_New "is not a regular file")
  | _ => _ ← put_fs (<[p := File []]> fs); copyTo p b
  end.

(** [main] up to [ServeTLS]: the server and the certificate it serves with. *)
Definition lab_main (f : labFlags) : M (Server * tlsCert) :=
  if eqs (lf_token f) "" || eqs (lf_devices f) ""
  then fail (errors_New "usage: zyvor-fleet-ref -token SECRET -devices id1,id2 [-assignment file.json] [-listen addr]")
  else
    ref ← lift (registerDevices (lf_token f) (split_comma (lf_devices f)) New);
    ref ← (if negb (eqs (lf_assignment f) "") then
             b ← ReadFile (components (lf_assignment f));
             a ← lift (StrictJSON b);
             mret (assignDevices a (split_comma (lf_devices f)) ref)
           else mret ref);
    '(tlsCert, certPEM) ← loadOrEphemeralCert (lf_cert f) (lf_key f);
    _ ← (if negb (eqs (lf_writeCA f) "") then WriteFile (components (lf_writeCA f)) certPEM else mret tt);
    _ ← syscall;   (* net.Listen *)
    mret (ref, tlsCert).

(** ** The certificate *)

Lemma X509KeyPair_returns cert key w tc w' :
  X509KeyPair cert key w = (Ret tc, w') → tc = mkTlsCert cert key ∧ pem_X509KeyPair cert key = None ∧ w' = w.
Proof. unfold X509KeyPair. destruct (pem_X509KeyPair cert key); [done|]. by intros [= <- <-]. Qed.

Lemma ReadFile_returns p w b w' :
  ReadFile p w = (Ret b, w') → w_fs w !! p = Some (File b) ∧ w_fs w' = w_fs w.
Proof.
  unfold ReadFile. intros (u & w1 & Hs & Hr)%bind_returns. apply bind_returns in Hr as (fs & w2 & Hv & Hr).
  assert (E : w_fs w1 = w_fs w).
  { unfold syscall, tick, mbind, M_bind in Hs. destruct (env_crash _); [done|]. destruct (env_io _); [done|].
    by injection Hs as _ <-. }
  injection Hv as <- <-. rewrite E in Hr. destruct (w_fs w !! p) as [[]|]; try done. by injection Hr as <- <-.
Qed.

(** The bytes written for the devices are the certificate the server
    presents, with its key; the pair is given, or made of a template that is
    valid for this host from an hour ago until a day from now. *)
Lemma loadOrEphemeralCert_returns certFile keyFile w cert pem w' :
  loadOrEphemeralCert certFile keyFile w = (Ret (cert, pem), w') →
  pem = tc_cert cert ∧ pem_X509KeyPair (tc_cert cert) (tc_key cert) = None ∧
  ((certFile ≠ "" ∧ keyFile ≠ "" ∧ w_fs w !! components certFile = Some (File (tc_cert cert)) ∧
    w_fs w !! components keyFile = Some (File (tc_key cert))) ∨
   (certFile = "" ∧ keyFile = "" ∧ ∃ n now1 now2 key der, x509_CreateCertificate n (labTemplate now1 now2) key = Ok der ∧
      tc_cert cert = pem_EncodeToMemory "CERTIFICATE" der)).
Proof.
  unfold loadOrEphemeralCert. destruct (eqs certFile "") eqn:Ec, (eqs keyFile "") eqn:Ek; cbn [negb orb]; try done.
  - unfold ephemeralCert. intros (n & w1 & _ & Hr)%bind_returns. apply bind_returns in Hr as (key & w2 & _ & Hr).
    apply bind_returns in Hr as (now1 & w3 & _ & Hr). apply bind_returns in Hr as (now2 & w4 & _ & Hr).
    apply bind_returns in Hr as (n' & w5 & _ & Hr). apply bind_returns in Hr as (der & w6 & Hd & Hr).
    apply bind_returns in Hr as (keyDER & w7 & _ & Hr). apply bind_returns in Hr as (tc & w8 & Ht & Hr).
    injection Hr as -> <- <-. apply X509KeyPair_returns in Ht as (-> & Hp & _). split; [done|]. split; [done|].
    right. apply eqs_true in Ec, Ek. split; [done|]. split; [done|]. exists n', now1, now2, key, der. split; [|done].
    unfold lift in Hd. by destruct (x509_CreateCertificate _ _ _); [injection Hd as -> _|].
  - intros (tc & w1 & Hl & Hr)%bind_returns. apply bind_returns in Hr as (b & w2 & Hb & Hr). injection Hr as -> -> <-.
    unfold LoadX509KeyPair in Hl. apply bind_returns in Hl as (c & w3 & Hc & Hl). apply bind_returns in Hl as (k & w4 & Hk & Hl).
    apply X509KeyPair_returns in Hl as (-> & Hp & ->). apply ReadFile_returns in Hc as [Hc E3], Hk as [Hk E4], Hb as [Hb _].
    rewrite E4, E3, Hc in Hb. rewrite E3 in Hk. injection Hb as <-. apply eqs_false in Ec, Ek.
    split; [done|]. split; [done|]. left. done.
Qed.

(** A device whose clock reads between the two readings of [main] and a day
    later accepts its dates. *)
Lemma labTemplate_valid now1 now2 t :
  now1 ≤ t ≤ now2 + 24 * labHour →
  ct_NotBefore (labTemplate now1 now2) ≤ t ≤ ct_NotAfter (labTemplate now1 now2).
Proof. unfold labTemplate, labHour, Second. cbn [ct_NotBefore ct_NotAfter]. lia. Qed.

(** ** The server and a device *)

Lemma WriteFile_returns p b w u w' : WriteFile p b w = (Ret u, w') → w_fs w' !! p = Some (File b).
Proof.
  unfold WriteFile. intros (u1 & w1 & _ & Hr)%bind_returns. apply bind_returns in Hr as (fs & w2 & _ & Hr).
  assert (Hc : ∀ w, copyTo p b w = (Ret u, w') → w_fs w' !! p = Some (File b)).
  { clear. intros w. unfold copyTo. intros (n & w1 & _ & Hr)%bind_returns. destruct (env_io n).
    - apply bind_returns in Hr as (fs & w2 & _ & Hr). by apply bind_returns in Hr as (x & w3 & _ & Hr).
    - apply bind_returns in Hr as (fs & w2 & _ & Hr). apply bind_returns in Hr as (x & w3 & Hp & Hr).
      injection Hp as _ <-. unfold syscall, tick, mbind, M_bind in Hr. destruct (env_crash _); [done|].
      destruct (env_io _); [done|]. injection Hr as _ <-. simpl. apply lookup_insert_eq. }
  destruct (fs !! p) as [[]|]; try done; apply bind_returns in Hr as (x & w3 & _ & Hr); by eapply Hc.
Qed.

(** What a run of [main] leaves. *)
Lemma lab_main_returns f w s cert w' :
  lf_writeCA f ≠ "" → lf_assignment f ≠ "" → lab_main f w = (Ret (s, cert), w') →
  ∃ b, w_fs w !! components (lf_assignment f) = Some (File b) ∧
    fleetref_main (lf_token f) (lf_devices f) (Some b) = Ok s ∧
    w_fs w' !! components (lf_writeCA f) = Some (File (tc_cert cert)) ∧
    ∃ w1 w2, w_fs w1 = w_fs w ∧ loadOrEphemeralCert (lf_cert f) (lf_key f) w1 = (Ret (cert, tc_cert cert), w2).
Proof.
  intros Hca%eqs_false Has%eqs_false. unfold lab_main, fleetref_main. destruct (_ || _); [done|]. rewrite Hca, Has. cbn [negb].
  intros (ref & w1 & Hreg & Hr)%bind_returns. apply bind_returns in Hr as (ref' & w2 & Hasg & Hr).
  apply bind_returns in Hr as ([tc pem] & w3 & Hcert & Hr). apply bind_returns in Hr as (u & w4 & Hw & Hr).
  apply bind_returns in Hr as (u' & w5 & Hs & Hr). injection Hr as -> -> ->.
  apply bind_returns in Hasg as (b & w6 & Hb & Hasg). apply bind_returns in Hasg as (a & w7 & Ha & Hasg).
  injection Hasg as <- <-. unfold lift in Hreg, Ha.
  destruct (registerDevices _ _ _) as [ref0|]; [|done]. injection Hreg as -> <-.
  apply ReadFile_returns in Hb as [Hb E6]. exists b. split; [done|].
  destruct (StrictJSON b) as [a0|] eqn:Ej; [|done]. injection Ha as -> <-.
  destruct (loadOrEphemeralCert_returns _ _ _ _ _ _ Hcert) as (-> & _ & _).
  split; [done|]. split; [|eauto]. apply WriteFile_returns in Hw.
  unfold syscall, tick, mbind, M_bind in Hs. destruct (env_crash _); [done|]. destruct (env_io _); [done|].
  by injection Hs as _ <-.
Qed.

(** A device set up for the lab: it trusts the file the server wrote, and its
    token is the server's. *)
Record lab_device (f : labFlags) (c : Config) w : Prop := {
  ld_ca : c_FleetCA c = lf_writeCA f;
  ld_noPair : c_FleetCert c = "" ∧ c_FleetKey c = "";
  ld_token : c_FleetTokenFile c ≠ "" ∧
    ∃ b, w_fs w !! components (c_FleetTokenFile c) = Some (File b) ∧ TrimSpace b = lf_token f;
  ld_plain : TrimSpace (to_bytes (lf_token f)) = lf_token f;
  ld_listed : ∃ i, i ∈ split_comma (lf_devices f) ∧ TrimSpace (to_bytes i) = c_DeviceID c ∧ c_DeviceID c ≠ "";
}.

Lemma TrimPrefix_app token : TrimPrefix "Bearer " ("Bearer " +:+ token) = token.
Proof.
  unfold TrimPrefix. rewrite prefix_append, length_append.
  replace (String.length "Bearer " + String.length token - String.length "Bearer ")%nat with (String.length token) by lia.
  by rewrite substring_append.
Qed.

(** The lab is set up: when the command is ready to serve, a device set up
    for it opens its Fleet client with the server's certificate as its only
    root and is handed the assignment, addressed to itself. *)
Theorem lab_serves_device f c a b w s cert w' :
  disk_works → (∀ n t k der, x509_CreateCertificate n t k = Ok der →
                             pem_AppendCerts (pem_EncodeToMemory "CERTIFICATE" der) = true) →
  lf_writeCA f ≠ "" → lf_assignment f ≠ "" → lf_cert f = "" → lf_key f = "" →
  w_fs w !! components (lf_assignment f) = Some (File b) → StrictJSON b = Ok a →
  lab_main f w = (Ret (s, cert), w') → lab_device f c w' →
  ∃ fl n, NewFleet c w' = (Ret fl, set_w_tick n w') ∧ fl_roots fl = Some (tc_cert cert) ∧ fl_cert fl = None ∧
    server_reachable s ∧
    ∀ call, call = fleetCall c fl "GET" "/assignment" [] →
    ∃ auth, fc_auth call = Some auth ∧
      getAssignment (c_DeviceID c) auth s = mkFleetRs 200 (BAssignment (set_asg_DeviceID (c_DeviceID c) a)).
Proof.
  intros Hd Hx Hca Has Hc Hk Hb Ha Hm [Eca [Ecert Ekey] [Hne (tb & Htb & Htok)] Hplain Hlist].
  destruct (lab_main_returns _ _ _ _ _ Hca Has Hm) as (b' & Hb' & Hs & Hw & w1 & w2 & _ & Hcert).
  rewrite Hb in Hb'. injection Hb' as <-.
  destruct (loadOrEphemeralCert_returns _ _ _ _ _ _ Hcert) as (_ & _ & [(Hne' & _)|(_ & _ & n & t1 & t2 & k & der & Hder & Ecp)]);
    [done|]. apply Hx in Hder. rewrite <- Ecp in Hder.
  rewrite <- Eca in Hw, Hca. unfold NewFleet. rewrite (proj2 (eqs_false _ _) Hca), Ecert, Ekey, (proj2 (eqs_false _ _) Hne).
  cbn [negb orb eqs String.eqb]. unfold mbind, M_bind. rewrite (ReadFile_works _ _ _ Hd Hw), Hder. simpl.
  rewrite (ReadFile_works _ tb) by done. rewrite Htok.
  assert (Hte : lf_token f ≠ "").
  { intros E. unfold lab_main in Hm. rewrite E in Hm. done. }
  rewrite (proj2 (eqs_false _ _) Hte). exists (mkFleet (Some (tc_cert cert)) None (lf_token f)), (S (S (w_tick w'))).
  split; [done|]. split; [done|]. split; [done|].
  edestruct fleetref_main_delivers with (id := c_DeviceID c) (auth := "Bearer " +:+ lf_token f) as [Hr Hg];
    [exact Hs|exact Ha|exact Hlist|by rewrite TrimPrefix_app|].
  split; [done|]. intros call ->. unfold fleetCall. cbn [fc_auth fl_token]. rewrite (proj2 (eqs_false _ _) Hte). eauto.
Qed.
End lab.
