(* ===== verification/API.v ===== *)
(** * Local HTTP API (internal/ota/api.go)

    The routes of [Engine.Handler]: each decodes its body, calls one
    operation of the engine or the store, and answers with its outcome. *)
From stdpp Require Import base tactics gmap strings list.
From Stdlib Require Import ZArith Lia.
From S2P Require Import Prelude Model Config Crypto Fmt Files Backend Metrics Trace Topo Verify World Store TrustMeta MetricsText Payload Download Engine EngineFrame Fleet.
Local Open Scope Z_scope.

Record apiRequest := mkApiRq {
  aq_method : string;
  aq_path : list string;
  aq_body : bytes;
  aq_readErr : bool;       (* the connection breaks after these bytes *)
}.

Inductive apiBody `{Codec} :=
  | ApiError (msg : string)
  | ApiOk
  | ApiJob (j : Job)
  | ApiStatus (deviceID backend : string) (active : option Job)
      (high_sequence event_sequence pending_events : Z)
  | ApiEvents (l : list Event)
  | ApiArchive (l : list Blob)
  | ApiMetrics (text : string)
  | ApiText (msg : string).
Record apiResponse `{Codec} := mkApiRs { ap_status : Z; ap_body : apiBody }.

Record backupBody := mkBackupBody { bb_Path : string }.

(** [decodeRequest]: at most 256 KiB, strict JSON. *)
Definition decodeRequest {A} `{JSONDecode A} (rq : apiRequest) : result A :=
  if blen (aq_body rq) >? 262144 then errorf "http: request body too large"
  else if aq_readErr rq then errorf "unexpected EOF"
  else StrictJSON (aq_body rq).

(** The patterns of the mux. *)
Inductive endpoint :=
  | EStatus | EJob (id : string) | EAssignments | EEvents | EAck | EReboot | ERecoverAbort
  | EGC | EBackup | EArchive | EMetrics.

Global Instance endpoint_eq_dec : EqDecision endpoint.
Proof. solve_decision. Defined.

Definition endpoint_of (p : list string) : option endpoint :=
  match p with
  | ["v1"; "status"] => Some EStatus
  | ["v1"; "jobs"; id] => if eqs id "" then None else Some (EJob id)
  | ["v1"; "assignments"] => Some EAssignments
  | ["v1"; "events"] => Some EEvents
  | ["v1"; "events"; "ack"] => Some EAck
  | ["v1"; "reboot"] => Some EReboot
  | ["v1"; "recover-abort"] => Some ERecoverAbort
  | ["v1"; "gc"] => Some EGC
  | ["v1"; "backup"] => Some EBackup
  | ["v1"; "archive"] => Some EArchive
  | ["metrics"] => Some EMetrics
  | _ => None
  end.

Section api.
Context `{MapRange, Limits, LocalZone, NetURL, Net, Ed25519, LineJSON, Unicode}.
Context `{JSONDecode Release, JSONEncode Assignment, JSONDecode multiSigned, JSONDecode rootMeta,
          JSONDecode snapshotMeta, JSONDecode timestampMeta, JSONDecode targetsMeta}.
Context `{JSONDecode Assignment, JSONDecode ackBody, JSONDecode backupBody}.
Context `{Codec, Env} {D : Type} `{Backend D}.
Context (c : Config).
Abbreviation M := (Prelude.M (World D)).

Definition respond (status : Z) (b : apiBody) : M apiResponse := mret (mkApiRs _ status b).

Definition apiAction (m : M unit) : M apiResponse :=
  r ← try m;
  match r with
  | Err e => respond 409 (ApiError (err_msg e))
  | Ok _ => respond 200 ApiOk
  end.

Definition getStatus : M apiResponse :=
  d ← View;
  respond 200 (ApiStatus (c_DeviceID c) (c_Backend c) (db_Jobs d !! db_Active d)
                 (db_HighSequence d) (db_EventSequence d) (events_len d)).

Definition getJob (id : string) : M apiResponse :=
  d ← View;
  match db_Jobs d !! id with
  | None => respond 404 (ApiError "job not found")
  | Some j => respond 200 (ApiJob j)
  end.

Definition postAssignment (rq : apiRequest) : M apiResponse :=
  match decodeRequest rq with
  | Err _ => respond 400 (ApiError "invalid assignment JSON")
  | Ok a =>
      r ← try (Submit c a);
      match r with
      | Err e => respond 409 (ApiError (err_msg e))
      | Ok j => respond 202 (ApiJob j)
      end
  end.

Definition getEvents : M apiResponse := d ← View; respond 200 (ApiEvents (db_Events d)).

Definition postAck (rq : apiRequest) : M apiResponse :=
  match decodeRequest rq with
  | Err _ => respond 400 (ApiError "invalid ack")
  | Ok a => apiAction (Ack (ack_Sequence a))
  end.

Definition postBackup (rq : apiRequest) : M apiResponse :=
  match decodeRequest rq with
  | Err e => respond 400 (ApiError (err_msg e))
  | Ok b =>
      if negb (IsAbs (bb_Path b)) then respond 400 (ApiError "backup destination must be absolute")
      else
        found ← World.Exists (clean_up [] (components (bb_Path b)));
        apiAction (_ ← Backup (bb_Path b) found; mret tt)
  end.

Definition getArchive : M apiResponse :=
  r ← try ExportArchive;
  match r with
  | Err e => respond 409 (ApiError (err_msg e))
  | Ok l => respond 200 (ApiArchive l)
  end.

Definition getMetrics : M apiResponse :=
  d ← View; text ← WriteMetrics c (events_len d) (db_HighSequence d); respond 200 (ApiMetrics text).

(** A pattern of the mux: its method, or 405; GET patterns also serve HEAD. *)
Definition route (want : string) (rq : apiRequest) (k : M apiResponse) : M apiResponse :=
  if eqs (aq_method rq) want || (eqs want "GET" && eqs (aq_method rq) "HEAD") then k
  else respond 405 (ApiText "Method Not Allowed").

Definition Handler (rq : apiRequest) : M apiResponse :=
  match endpoint_of (aq_path rq) with
  | Some EStatus => route "GET" rq getStatus
  | Some (EJob id) => route "GET" rq (getJob id)
  | Some EAssignments => route "POST" rq (postAssignment rq)
  | Some EEvents => route "GET" rq getEvents
  | Some EAck => route "POST" rq (postAck rq)
  | Some EReboot => route "POST" rq (apiAction (RequestReboot c))
  | Some ERecoverAbort => route "POST" rq (apiAction (RecoverAbort c))
  | Some EGC => route "POST" rq (apiAction (GC c))
  | Some EBackup => route "POST" rq (postBackup rq)
  | Some EArchive => route "GET" rq getArchive
  | Some EMetrics => route "GET" rq getMetrics
  | None => respond 404 (ApiText "404 page not found")
  end.
End api.
