(* ===== verification/Client.v ===== *)
(** * Clients of the local API

    The Go client (internal/otaclient/client.go), and the requests and the
    loop of the command line (cmd/zyvor-ota/main.go).  Both repeat a request
    that the agent refuses because its engine is busy. *)
From stdpp Require Import base tactics gmap strings list.
From Stdlib Require Import ZArith Lia Ascii.
From S2P Require Import Prelude Model Config Crypto Fmt Files Backend Metrics Trace Topo Verify World Store TrustMeta MetricsText Payload Download Engine EngineFrame Fleet API.
Local Open Scope Z_scope.

Record clientRq := mkClientRq {
  cq_method : string;
  cq_url : string;
  cq_json : bool;          (* Content-Type: application/json *)
  cq_body : bytes;
}.
Record clientRs := mkClientRs {
  cs_status : Z;
  cs_body : bytes;
  cs_readErr : bool;       (* reading the body ends in an error *)
}.

(** What a client does to the world: one exchange of [http.Client.Do], and
    the time that passes in [time.Sleep]. *)
Class Transport (W : Type) := {
  round_trip : clientRq → M W clientRs;
  sleep : W → W;
}.

(** [json.Unmarshal] of a whole document, unknown fields ignored. *)
Class JSONUnmarshal (A : Type) := { json_Unmarshal : bytes → result A }.

(** [bytes.Contains(b, sub)] *)
Fixpoint Contains (b sub : bytes) : bool :=
  bool_decide (take (length sub) b = sub) ||
  match b with [] => false | _ :: b => Contains b sub end.

(** The answer both clients wait out. *)
Definition busy (status : Z) (b : bytes) : bool :=
  (status =? 409) && Contains b (to_bytes "engine busy").

(** ** internal/otaclient *)

Record ErrorBody := mkErrorBody { eb_Error : string }.

(** [APIError.Error] *)
Definition APIError `{JSONUnmarshal ErrorBody} (status : Z) (body : bytes) : error :=
  let text := match json_Unmarshal body with
              | Ok e => if eqs (eb_Error e) "" then of_bytes body else eb_Error e
              | Err _ => of_bytes body
              end in
  errors_New ("ota api " +:+ show_Z status +:+ ": " +:+ text).

Record clientStatus := mkClientStatus {
  ct_Version : string;
  ct_DeviceID : string;
  ct_Backend : string;
  ct_Active : option Job;
  ct_HighSequence : Z;
  ct_EventSequence : Z;
  ct_PendingEvents : Z;
}.

(** [json.RawMessage]: a document as it stands. *)
Record RawMessage := mkRaw { raw_bytes : bytes }.

(** [Client.url] *)
Definition client_url (base path : string) : string :=
  TrimRightSlash (if eqs base "" then "http://unix" else base) +:+ path.

Section client.
Context {W : Type} `{Transport W, NetURL}.
Context `{JSONUnmarshal ErrorBody, JSONUnmarshal clientStatus, JSONUnmarshal Job, JSONUnmarshal (list Event),
          JSONUnmarshal RawMessage}.
Context `{JSONEncode Assignment, JSONEncode ackBody, JSONEncode backupBody}.
Context (base : string).   (* Client.Base *)
Abbreviation M := (Prelude.M W).

(** The loop of [do] with [attempts] iterations left: [attempt] is 25 less
    that number. *)
Fixpoint do_loop (attempts : nat) (rq : clientRq) (want status : Z) (last : bytes) : M bytes :=
  match attempts with
  | O => fail (APIError status last)
  | S rest =>
      rs ← round_trip rq;
      let b := limit_read 1048576 (cs_body rs) in
      if limit_err 1048576 (cs_body rs) (cs_readErr rs) then fail (errors_New "unexpected EOF")
      else if cs_status rs =? want then mret b
      else if busy (cs_status rs) b && (25 - Z.of_nat attempts <? 24) then
        _ ← modify sleep; do_loop rest rq want (cs_status rs) b
      else fail (APIError (cs_status rs) b)
  end.

Definition client_do (method path : string) (payload : option bytes) (want : Z) : M bytes :=
  match url_Parse (client_url base path) with
  | None => fail (errors_New "parse URL")
  | Some _ =>
      do_loop 25 (mkClientRq method (client_url base path) (bool_decide (is_Some payload)) (default [] payload))
        want 0 []
  end.

Definition client_Status : M clientStatus :=
  b ← client_do "GET" "/v1/status" None 200; lift (json_Unmarshal b).
Definition client_Job (id : string) : M Job :=
  b ← client_do "GET" ("/v1/jobs/" +:+ id) None 200; lift (json_Unmarshal b).
Definition client_Submit (a : Assignment) : M Job :=
  b ← client_do "POST" "/v1/assignments" (Some (json_Marshal a)) 202; lift (json_Unmarshal b).
Definition client_Events : M (list Event) :=
  b ← client_do "GET" "/v1/events" None 200; lift (json_Unmarshal b).
Definition client_Ack (sequence : Z) : M unit :=
  _ ← client_do "POST" "/v1/events/ack" (Some (json_Marshal (mkAckBody sequence))) 200; mret tt.
Definition client_Reboot : M unit := _ ← client_do "POST" "/v1/reboot" None 200; mret tt.
Definition client_RecoverAbort : M unit := _ ← client_do "POST" "/v1/recover-abort" None 200; mret tt.
Definition client_GC : M unit := _ ← client_do "POST" "/v1/gc" None 200; mret tt.
Definition client_Backup (path : string) : M unit :=
  _ ← client_do "POST" "/v1/backup" (Some (json_Marshal (mkBackupBody path))) 200; mret tt.
Definition client_Archive : M RawMessage :=
  b ← client_do "GET" "/v1/archive" None 200; lift (json_Unmarshal b).

Definition client_Metrics : M string :=
  match url_Parse (client_url base "/metrics") with
  | None => fail (errors_New "parse URL")
  | Some _ =>
      rs ← round_trip (mkClientRq "GET" (client_url base "/metrics") false []);
      let b := limit_read 1048576 (cs_body rs) in
      if limit_err 1048576 (cs_body rs) (cs_readErr rs) then fail (errors_New "unexpected EOF")
      else if negb (cs_status rs =? 200) then fail (APIError (cs_status rs) b)
      else mret (of_bytes b)
  end.

(** ** The retry loop *)

(** [held rq limit k w w1]: [k] exchanges from [w] on are refused as busy, a
    sleep after each, and lead to [w1]. *)
Inductive held (rq : clientRq) (limit : Z) : nat → W → W → Prop :=
  | held_none w : held rq limit 0 w w
  | held_more k w rs w1 w2 :
      round_trip rq w = (Ret rs, w1) → limit_err limit (cs_body rs) (cs_readErr rs) = false →
      busy (cs_status rs) (limit_read limit (cs_body rs)) = true →
      held rq limit k (sleep w1) w2 → held rq limit (S k) w w2.

(** What [do] makes of the last exchange. *)
Definition concluded (want : Z) (o : outcome clientRs) : outcome bytes :=
  match o with
  | Died => Died
  | Fail e => Fail e
  | Ret rs =>
      let b := limit_read 1048576 (cs_body rs) in
      if limit_err 1048576 (cs_body rs) (cs_readErr rs) then Fail (errors_New "unexpected EOF")
      else if cs_status rs =? want then Ret b else Fail (APIError (cs_status rs) b)
  end.

(** The exchange was answered, completely, with busy. *)
Definition refused_busy (limit : Z) (o : outcome clientRs) : bool :=
  match o with
  | Ret rs => negb (limit_err limit (cs_body rs) (cs_readErr rs)) &&
              busy (cs_status rs) (limit_read limit (cs_body rs))
  | _ => false
  end.

Lemma do_loop_run n rq want status last w :
  want ≠ 409 → (n < 25)%nat →
  ∃ k w1, (k ≤ n)%nat ∧ held rq 1048576 k w w1 ∧
    (k = n ∨ refused_busy 1048576 (round_trip rq w1).1 = false) ∧
    do_loop (S n) rq want status last w = (concluded want (round_trip rq w1).1, (round_trip rq w1).2).
Proof.
  intros Hw. revert status last w. induction n as [|n IH]; intros status last w Hn.
  - exists 0%nat, w. split; [done|]. split; [constructor|]. split; [by left|].
    cbn [do_loop]. unfold mbind, M_bind. destruct (round_trip rq w) as [[rs|e|] w1]; [|done|done]. simpl.
    destruct (limit_err _ _ _); [done|]. destruct (cs_status rs =? want); [done|].
    by rewrite andb_false_r.
  - destruct (refused_busy 1048576 (round_trip rq w).1) eqn:Eb.
    + destruct (round_trip rq w) as [[rs|e|] w1] eqn:Er; [|done|done]. simpl in Eb.
      apply andb_true_iff in Eb as [El Eb]. apply negb_true_iff in El.
      destruct (IH (cs_status rs) (limit_read 1048576 (cs_body rs)) (sleep w1)) as (k & w2 & Hk & Hh & Hl & Hd); [lia|].
      exists (S k), w2. split; [lia|]. split; [by econstructor|]. split; [destruct Hl as [->|]; auto|].
      rewrite <- Hd. cbn [do_loop]. unfold mbind at 1, M_bind at 1. rewrite Er, El, Eb.
      assert (Es : (cs_status rs =? want) = false) by (apply andb_true_iff in Eb as [Eb _]; apply Z.eqb_eq in Eb; apply Z.eqb_neq; congruence). rewrite Es.
      assert (Ea : (25 - Z.of_nat (S (S n)) <? 24) = true) by (apply Z.ltb_lt; lia). by rewrite Ea.
    + exists 0%nat, w. split; [lia|]. split; [constructor|]. split; [by right|].
      cbn [do_loop]. unfold mbind, M_bind. destruct (round_trip rq w) as [[rs|e|] w1]; [|done|done]. simpl in *.
      destruct (limit_err _ _ _); [done|]. destruct (cs_status rs =? want); [done|]. simpl in Eb. by rewrite Eb.
Qed.

(** A call of the client ends after at most 25 exchanges, all with the
    same request: every one but the last was refused as busy and followed by
    a sleep, the last is not refused as busy or is the 25th, and the call
    returns what that exchange says. *)
Theorem client_retries method path payload want u w :
  want ≠ 409 → url_Parse (client_url base path) = Some u →
  ∃ rq k w1, rq = mkClientRq method (client_url base path) (bool_decide (is_Some payload)) (default [] payload) ∧
    (k ≤ 24)%nat ∧ held rq 1048576 k w w1 ∧
    (k = 24%nat ∨ refused_busy 1048576 (round_trip rq w1).1 = false) ∧
    client_do method path payload want w = (concluded want (round_trip rq w1).1, (round_trip rq w1).2).
Proof.
  intros Hw Hu. eexists. destruct (do_loop_run 24 (mkClientRq method (client_url base path)
    (bool_decide (is_Some payload)) (default [] payload)) want 0 [] w Hw) as (k & w1 & Hrun); [lia|].
  exists k, w1. split; [done|]. unfold client_do. rewrite Hu. exact Hrun.
Qed.
End client.

(** ** The client against the agent *)

(** [JSONResponse] of an error object: its text when the message needs no
    escaping. *)
Definition dquote : string := String (ascii_of_nat 34) EmptyString.
Definition newline : string := String (ascii_of_nat 10) EmptyString.
Definition json_error (msg : string) : bytes :=
  to_bytes ("{" +:+ dquote +:+ "error" +:+ dquote +:+ ":" +:+ dquote +:+ msg +:+ dquote +:+ "}" +:+ newline).

(** Letters, digits, blanks and semicolons are encoded as they are. *)
Definition plain_text (msg : string) : bool :=
  forallb (fun c => in_range "a" "z" c || in_range "A" "Z" c || in_range "0" "9" c ||
                    Ascii.eqb c " " || Ascii.eqb c ";")
    (String.list_ascii_of_string msg).

(** The bytes [JSONResponse] writes. *)
Class Wire `{Codec} := {
  wire_body : apiBody → bytes;
  wire_error : ∀ msg, plain_text msg = true → wire_body (ApiError msg) = json_error msg;
}.

Definition busy_message (msg : string) : Prop := msg = "engine busy" ∨ msg = "update engine busy; retry".

Lemma wire_busy `{Wire} msg :
  busy_message msg → busy 409 (limit_read 1048576 (wire_body (ApiError msg))) = true.
Proof. intros [-> | ->]; rewrite wire_error by done; vm_compute; done. Qed.

Section agent.
Context `{MapRange, Limits, LocalZone, NetURL, Net, Ed25519, LineJSON, Unicode}.
Context `{JSONDecode Release, JSONEncode Assignment, JSONDecode multiSigned, JSONDecode rootMeta,
          JSONDecode snapshotMeta, JSONDecode timestampMeta, JSONDecode targetsMeta}.
Context `{JSONDecode Assignment, JSONDecode ackBody, JSONDecode backupBody}.
Context `{Codec, !Wire, Env} {D : Type} `{Backend D}.
Context `{JSONUnmarshal ErrorBody}.
Context (c : Config) (base : string).
(** What the rest of the system does to the agent while a client sleeps. *)
Context (others : World D → World D).
Implicit Types w : World D.

(** The request as the agent's mux receives it. *)
Definition arriving (rq : clientRq) (u : URL) : apiRequest :=
  mkApiRq (cq_method rq) (components (u_Path u)) (cq_body rq) false.

(** One exchange with the agent; if the agent dies the connection breaks. *)
Definition agent_trip (rq : clientRq) : M (World D) clientRs := fun w =>
  match url_Parse (cq_url rq) with
  | None => (Fail (errors_New "parse URL"), w)
  | Some u =>
      match Handler c (arriving rq u) w with
      | (Ret rs, w') => (Ret (mkClientRs (ap_status rs) (wire_body (ap_body rs)) false), w')
      | (Fail e, w') => (Fail e, w')
      | (Died, w') => (Fail (errors_New "EOF"), w')
      end
  end.

Local Instance agent : Transport (World D) := {| round_trip := agent_trip; sleep := others |}.

(** The requests that need the engine. *)
Definition engine_request (rq : apiRequest) : Prop :=
  aq_method rq = "POST" ∧
  ((endpoint_of (aq_path rq) = Some EReboot ∨ endpoint_of (aq_path rq) = Some ERecoverAbort ∨
    endpoint_of (aq_path rq) = Some EGC) ∨
   endpoint_of (aq_path rq) = Some EAssignments ∧ ∃ a : Assignment, decodeRequest rq = Ok a).

(** A busy engine refuses them and nothing happens. *)
Lemma Handler_busy rq w :
  w_mu w = true → engine_request rq →
  ∃ msg, busy_message msg ∧ Handler c rq w = (Ret (mkApiRs _ 409 (ApiError msg)), w).
Proof.
  intros Hmu [Hm Hep].
  assert (Hb : ∀ A msg (m : M (World D) A), try (tryLocked msg m) w = (Ret (Err (errors_New msg)), w)).
  { intros A msg m. unfold try, tryLocked, get, mbind, M_bind. by rewrite Hmu. }
  unfold Handler, route. rewrite Hm.
  change (eqs "POST" "POST") with true. cbn [orb].
  destruct Hep as [Hep|[-> [a Ha]]].
  - exists "engine busy". split; [by left|].
    destruct Hep as [-> |[-> | ->]]; cbv beta iota;
      unfold apiAction, RequestReboot, RecoverAbort, GC, mbind, M_bind; by rewrite Hb.
  - exists "update engine busy; retry". split; [by right|]. cbv beta iota.
    unfold postAssignment. rewrite Ha.
    unfold Submit, mbind, M_bind. by rewrite Hb.
Qed.

Lemma agent_busy rq u w :
  url_Parse (cq_url rq) = Some u → w_mu w = true → engine_request (arriving rq u) →
  ∃ rs, agent_trip rq w = (Ret rs, w) ∧ limit_err 1048576 (cs_body rs) (cs_readErr rs) = false ∧
    busy (cs_status rs) (limit_read 1048576 (cs_body rs)) = true.
Proof.
  intros Hu Hmu He. destruct (Handler_busy _ w Hmu He) as (msg & Hmsg & Hh). unfold agent_trip.
  rewrite Hu, Hh. eexists. split; [done|]. split; [done|]. simpl. by apply wire_busy.
Qed.

Lemma do_waits n k rq u want status last rs w w' :
  url_Parse (cq_url rq) = Some u → engine_request (arriving rq u) →
  (k ≤ n)%nat → (n < 25)%nat → want ≠ 409 →
  (∀ i, (i < k)%nat → w_mu (Nat.iter i others w) = true) →
  Handler c (arriving rq u) (Nat.iter k others w) = (Ret rs, w') → ap_status rs = want →
  do_loop (S n) rq want status last w = (Ret (limit_read 1048576 (wire_body (ap_body rs))), w').
Proof.
  intros Hu He Hk Hn Hw. revert n Hk Hn status last w. induction k as [|k IH]; intros n Hk Hn status last w Hmu Hh Hs.
  - cbn [do_loop]. unfold mbind, M_bind. simpl round_trip. unfold agent_trip. rewrite Hu.
    simpl in Hh. rewrite Hh. simpl. by rewrite Hs, Z.eqb_refl.
  - destruct n as [|n]; [lia|].
    destruct (agent_busy rq u w Hu (Hmu 0%nat ltac:(lia)) He) as (rs0 & Ht & El & Eb).
    cbn [do_loop]. unfold mbind at 1, M_bind at 1. simpl round_trip. rewrite Ht, El, Eb.
    assert (Es : (cs_status rs0 =? want) = false)
      by (apply andb_true_iff in Eb as [Eb _]; apply Z.eqb_eq in Eb; apply Z.eqb_neq; congruence).
    rewrite Es. assert (Ea : (25 - Z.of_nat (S (S n)) <? 24) = true) by (apply Z.ltb_lt; lia). rewrite Ea.
    transitivity (do_loop (S n) rq want (cs_status rs0) (limit_read 1048576 (cs_body rs0)) (others w)); [done|].
    apply IH; [lia|lia| | |done].
    + intros i Hi. simpl. rewrite <- Nat.iter_succ_r. apply Hmu. lia.
    + simpl. by rewrite <- Nat.iter_succ_r.
Qed.

(** A client that finds the engine busy waits for it: when the lock is
    released within 24 sleeps, the refused attempts have changed nothing, and
    the call ends as the agent handles the request in the state it is then
    in. *)
Theorem client_waits_for_engine path payload u want k rs w w' :
  url_Parse (client_url base path) = Some u →
  engine_request (mkApiRq "POST" (components (u_Path u)) (default [] payload) false) →
  (k ≤ 24)%nat → want ≠ 409 → (∀ i, (i < k)%nat → w_mu (Nat.iter i others w) = true) →
  Handler c (mkApiRq "POST" (components (u_Path u)) (default [] payload) false) (Nat.iter k others w) = (Ret rs, w') →
  ap_status rs = want →
  client_do base "POST" path payload want w = (Ret (limit_read 1048576 (wire_body (ap_body rs))), w').
Proof.
  intros Hu He Hk Hw Hmu Hh Hs. unfold client_do. rewrite Hu.
  eapply (do_waits 24 k); [exact Hu|exact He|lia|lia|done|done|exact Hh|done].
Qed.
End agent.
