(* ===== verification/Otlp.v ===== *)
(** * The OTLP exporter (internal/ota/trace.go)

    The document posted for a span, and the exporter as the agent's
    goroutines see it: a channel of 32 spans that producers fill without
    waiting, a loop that posts what it receives, and a shutdown that closes
    the channel. *)
From stdpp Require Import base tactics gmap strings list.
From Stdlib Require Import ZArith Lia Ascii.
From S2P Require Import Prelude Model Config Crypto Fmt Files Backend Verify TrustMeta Payload Download Trace.
Local Open Scope Z_scope.

(** ** The document *)

(** A Go value of type [any] that is encoded as JSON. *)
Inductive any :=
  | AString (s : string)
  | AInt (z : Z)
  | AList (l : list any)
  | AMap (l : list (string * any)).

Definition unixNano (t : time) : string := if IsZero t then "0" else FormatInt (s64 t).

Definition otlpAttr (kv : string * string) : any :=
  AMap [("key", AString kv.1); ("value", AMap [("stringValue", AString kv.2)])].

(** [for k, v := range attrs], skipping empty values. *)
Definition otlpAttrs `{MapRange} (attrs : gmap string string) : list any :=
  map otlpAttr (filter (fun kv => kv.2 ≠ "") (map_range attrs)).

Definition otlpPayload `{MapRange} (s : Span) : any :=
  let status := if sp_Error s then 2 else 1 in
  let span :=
    [("traceId", AString (sp_TraceID s)); ("spanId", AString (sp_SpanID s)); ("name", AString (sp_Name s));
     ("kind", AInt 1); ("startTimeUnixNano", AString (unixNano (sp_Start s)));
     ("endTimeUnixNano", AString (unixNano (sp_End s))); ("attributes", AList (otlpAttrs (sp_Attrs s)));
     ("status", AMap [("code", AInt status)])] ++
    (if negb (eqs (sp_ParentID s) "") then [("parentSpanId", AString (sp_ParentID s))] else []) in
  AMap [("resourceSpans", AList [AMap
    [("resource", AMap [("attributes", AList (otlpAttrs {["service.name" := "zyvor-otad"]}))]);
     ("scopeSpans", AList [AMap
       [("scope", AMap [("name", AString "github.com/zyvorai/ota")]); ("spans", AList [AMap span])]])]])].

Record otlpRq := mkOtlpRq { op_url : string; op_auth : option string; op_body : bytes }.

(** [post] up to [client.Do], and what it makes of the answer's status. *)
Definition post_request `{MapRange, JSONEncode any} (endpoint token : string) (s : Span) : otlpRq :=
  mkOtlpRq (tracesURL endpoint) (if negb (eqs token "") then Some ("Bearer " +:+ token) else None)
    (json_Marshal (otlpPayload s)).
Definition post_result (answer : result Z) : result unit :=
  status ← answer; if status >=? 300 then errorf "otlp status" else Ok tt.

(** Every attribute with a value is sent, once; nothing else is. *)
Lemma otlpAttrs_complete `{MapRange} (attrs : gmap string string) :
  otlpAttrs attrs ≡ₚ map otlpAttr (filter (fun kv => kv.2 ≠ "") (map_to_list attrs)).
Proof. unfold otlpAttrs. by rewrite map_range_perm. Qed.

(** ** The goroutines *)

Record Exporter := mkExporter {
  ex_spans : list Span;          (* the channel *)
  ex_closed : bool;
  ex_sending : option Span;      (* received by [loop], in [post] *)
  ex_posted : list Span;         (* [post] has returned *)
  ex_done : bool;                (* [loop] has returned *)
  ex_taken : list Span;          (* accepted by the channel so far *)
  ex_offered : list Span;        (* given to [Export] so far *)
}.

Definition newExporter : Exporter := mkExporter [] false None [] false [] [].

(** [Export]: a full channel drops the span; sending on a closed one is a
    run-time panic ([None]). *)
Definition exporter_Export (s : Span) (e : Exporter) : option Exporter :=
  if ex_closed e then None
  else
    let kept := (length (ex_spans e) <? 32)%nat in
    Some (mkExporter (Export s (ex_spans e)) false (ex_sending e) (ex_posted e) (ex_done e)
      (if kept then ex_taken e ++ [s] else ex_taken e) (ex_offered e ++ [s])).

(** [Shutdown] closes the channel; what it waits for is the scheduler's. *)
Definition exporter_Shutdown (e : Exporter) : option Exporter :=
  if ex_closed e then None
  else Some (mkExporter (ex_spans e) true (ex_sending e) (ex_posted e) (ex_done e) (ex_taken e) (ex_offered e)).

(** One step of [loop]: receive, return from [post], or leave; [None] when it
    has to wait or has left. *)
Definition exporter_loop (e : Exporter) : option Exporter :=
  if ex_done e then None
  else match ex_sending e, ex_spans e with
  | Some s, _ => Some (mkExporter (ex_spans e) (ex_closed e) None (ex_posted e ++ [s]) false (ex_taken e) (ex_offered e))
  | None, s :: rest => Some (mkExporter rest (ex_closed e) (Some s) (ex_posted e) false (ex_taken e) (ex_offered e))
  | None, [] => if ex_closed e then Some (mkExporter [] true None (ex_posted e) true (ex_taken e) (ex_offered e)) else None
  end.

Inductive exporter_step (e : Exporter) : Exporter → Prop :=
  | ex_export s e' : exporter_Export s e = Some e' → exporter_step e e'
  | ex_shutdown e' : exporter_Shutdown e = Some e' → exporter_step e e'
  | ex_loop e' : exporter_loop e = Some e' → exporter_step e e'.

Inductive exporter_reachable : Exporter → Prop :=
  | ex_new : exporter_reachable newExporter
  | ex_next e e' : exporter_reachable e → exporter_step e e' → exporter_reachable e'.

(** Spans leave in the order they came: posted, in flight, waiting. *)
Record exporter_ok (e : Exporter) : Prop := {
  eo_order : ex_posted e ++ option_list (ex_sending e) ++ ex_spans e = ex_taken e;
  eo_sub : ex_taken e `sublist_of` ex_offered e;
  eo_room : (length (ex_spans e) ≤ 32)%nat;
  eo_done : ex_done e = true → ex_closed e = true ∧ ex_posted e = ex_taken e;
}.

Lemma exporter_step_ok e e' : exporter_ok e → exporter_step e e' → exporter_ok e'.
Proof.
  intros [Ho Hs Hr Hd] Hst. destruct Hst as [s e' He|e' He|e' He].
  - unfold exporter_Export in He. destruct (ex_closed e) eqn:Ec; [done|]. injection He as <-.
    unfold Export. destruct (Nat.ltb_spec (length (ex_spans e)) 32); split; simpl; rewrite ?length_app; simpl.
    all: try (intros Hdone; apply Hd in Hdone; naive_solver). all: try lia.
    + by rewrite <- Ho, <- !app_assoc.
    + by apply sublist_app.
    + done.
    + by apply sublist_inserts_r.
  - unfold exporter_Shutdown in He. destruct (ex_closed e); [done|]. injection He as <-. split; simpl; naive_solver.
  - unfold exporter_loop in He. destruct (ex_done e); [done|].
    destruct (ex_sending e) as [s|], (ex_spans e) as [|x rest] eqn:Eq; simpl in *;
      [injection He as <-|injection He as <-|destruct (ex_closed e) eqn:Ec; [injection He as <-|done]|injection He as <-];
      split; simpl; try done; try lia; rewrite <- ?Ho, ?app_nil_r, <- ?app_assoc; done.
Qed.

Lemma exporter_reachable_ok e : exporter_reachable e → exporter_ok e.
Proof. induction 1 as [|e e' _ IH Hs]; [split; simpl; try done; lia|by eapply exporter_step_ok]. Qed.

(** The steps [loop] still takes once the channel is closed. *)
Definition exporter_work (e : Exporter) : nat :=
  if ex_done e then 0 else 1 + 2 * length (ex_spans e) + (if ex_sending e then 1 else 0).

Fixpoint run_loop (n : nat) (e : Exporter) : Exporter :=
  match n with
  | O => e
  | S n => match exporter_loop e with Some e' => run_loop n e' | None => e end
  end.

Lemma exporter_loop_closed e :
  ex_closed e = true → ex_done e = false →
  ∃ e', exporter_loop e = Some e' ∧ ex_closed e' = true ∧ (S (exporter_work e') = exporter_work e)%nat ∧
    ex_taken e' = ex_taken e.
Proof.
  intros Hc Hd. unfold exporter_loop, exporter_work. rewrite Hd.
  destruct (ex_sending e) as [s|], (ex_spans e) as [|x rest]; rewrite ?Hc; eexists; (split; [done|]); simpl;
    repeat split; lia.
Qed.

(** The exporter keeps order and loses nothing it accepted: in every
    interleaving of producers, sender and shutdown, the spans posted, in
    flight and waiting are those accepted, in order and each once, a
    subsequence of those offered, and at most 32 wait.  Once the channel is
    closed the sender ends, after at most two steps per waiting span and two
    more, having posted all of them. *)
Theorem exporter_drains e :
  exporter_reachable e →
  exporter_ok e ∧
  (ex_closed e = true →
    let e' := run_loop (exporter_work e) e in
    ex_done e' = true ∧ ex_posted e' = ex_taken e ∧ (exporter_work e ≤ 2 + 2 * length (ex_spans e))%nat).
Proof.
  intros Hr. pose proof (exporter_reachable_ok e Hr) as Hok. split; [done|]. intros Hc.
  assert (Hrun : ∀ n e0, exporter_ok e0 → ex_closed e0 = true → exporter_work e0 = n →
    ex_done (run_loop n e0) = true ∧ ex_posted (run_loop n e0) = ex_taken e0).
  { induction n as [|n IH]; intros e0 Hok0 Hc0 Hw.
    - simpl. unfold exporter_work in Hw. destruct (ex_done e0) eqn:Ed; [|done]. split; [done|].
      by destruct (eo_done _ Hok0 Ed).
    - destruct (ex_done e0) eqn:Ed; [unfold exporter_work in Hw; by rewrite Ed in Hw|].
      destruct (exporter_loop_closed e0 Hc0 Ed) as (e1 & El & Hc1 & Hw1 & Ht). simpl. rewrite El, <- Ht.
      apply IH; [|done|lia]. eapply exporter_step_ok; [exact Hok0|by constructor 3]. }
  destruct (Hrun _ e Hok Hc eq_refl) as [H1 H2]. split; [done|]. split; [done|].
  unfold exporter_work. destruct (ex_done e), (ex_sending e); lia.
Qed.
