(* ===== verification/StatusView.v ===== *)
(** * Status banner (cmd/zyvor-ota/statusview.go, formatOTAStatus of main.go)

    The text [status] prints: a coloured logo with five summaries, and rows
    of three aligned columns.  Text is bytes, as Go strings are. *)
From stdpp Require Import base tactics gmap strings list.
From Stdlib Require Import ZArith Lia Ascii.
From S2P Require Import Prelude Model Config Crypto Fmt Files Backend Verify TrustMeta Payload Download Trace Otlp.
Local Open Scope Z_scope.

Definition esc : ascii := ascii_of_nat 27.
Definition ansi (code : string) : string := String esc ("[" +:+ code +:+ "m").
Definition ansiRed : string := ansi "31".
Definition ansiYellow : string := ansi "33".
Definition ansiBlue : string := ansi "34".
Definition ansiGreen : string := ansi "32".
Definition ansiMagenta : string := ansi "35".
Definition ansiCyan : string := ansi "36".
Definition ansiReset : string := ansi "0".

Record Component := mkComponent { cp_Errors : Z; cp_Warnings : Z; cp_Disabled : bool }.
Definition zeroComponent : Component := mkComponent 0 0 false.

(** [strings.Join(parts, sep)] *)
Fixpoint Join_sep (sep : string) (parts : list string) : string :=
  match parts with
  | [] => ""
  | [x] => x
  | x :: parts => x +:+ sep +:+ Join_sep sep parts
  end.

Definition Summary (c : Component) : string :=
  let parts :=
    (if cp_Errors c >? 0 then ["❌ " +:+ ansiRed +:+ FormatInt (cp_Errors c) +:+ " errors" +:+ ansiReset] else []) ++
    (if cp_Warnings c >? 0 then ["⚠️  " +:+ ansiYellow +:+ FormatInt (cp_Warnings c) +:+ " warnings" +:+ ansiReset] else []) ++
    (if cp_Disabled c then ["ℹ️  " +:+ ansiCyan +:+ "disabled" +:+ ansiReset] else []) in
  if (length parts =? 0)%nat then "✅ " +:+ ansiGreen +:+ "OK" +:+ ansiReset else Join_sep ", " parts.

Record Feature := mkFeature { ft_Name : string; ft_State : Component }.
Definition okFeature (name : string) (on : bool) : Feature := mkFeature name (mkComponent 0 0 (negb on)).

Abbreviation row := (string * string * string)%type.

Record StatusView := mkStatusView {
  sv_Labels : list string;          (* five *)
  sv_Components : list Component;   (* five *)
  sv_Body : list row;
  sv_Features : list Feature;
  sv_Collection : list string;
}.

(** ** Alignment *)

Definition is_letter (c : ascii) : bool := in_range "A" "Z" c || in_range "a" "z" c.

(** [stripANSI]: [true] is the inner loop, which skips up to a letter. *)
Fixpoint strip (skipping : bool) (l : list ascii) : list ascii :=
  match l with
  | [] => []
  | c :: l =>
      if skipping then strip (negb (is_letter c)) l
      else match l with
      | c2 :: l2 => if Ascii.eqb c esc && Ascii.eqb c2 "[" then strip true l2 else c :: strip false l
      | [] => [c]
      end
  end.
Definition stripANSI (s : string) : string :=
  String.string_of_list_ascii (strip false (String.list_ascii_of_string s)).

(** The visible width, in bytes. *)
Definition width (s : string) : Z := slen (stripANSI s).

Definition spaces (n : Z) : string := String.string_of_list_ascii (repeat " "%char (Z.to_nat n)).

Definition widest (l : list string) : Z := fold_left (fun w s => if width s >? w then width s else w) l 0.

Definition padding (w : Z) (s : string) : Z := let pad := w - width s + 4 in if pad <? 4 then 4 else pad.

Definition alignRow (w1 w2 : Z) (r : row) : string :=
  let '(a, b, d) := r in
  a +:+ spaces (padding w1 a) +:+ b +:+ spaces (padding w2 b) +:+ d +:+ String (ascii_of_nat 10) "".

Definition alignRows (rows : list row) : string :=
  let w1 := widest (map (fun r => r.1.1) rows) in
  let w2 := widest (map (fun r => r.1.2) rows) in
  Join_sep "" (map (alignRow w1 w2) rows).

(** ** The banner *)

(** A header in front of the first row only. *)
Definition headed (header : string) (l : list (string * string)) : list row :=
  match l with
  | [] => []
  | x :: l => (header, x.1, x.2) :: map (fun y => ("", y.1, y.2)) l
  end.

Definition tab : string := String (ascii_of_nat 9) "".
Definition nl : string := String (ascii_of_nat 10) "".
Definition label (v : StatusView) (i : nat) : string :=
  tab +:+ default "" (sv_Labels v !! i) +:+ ":" +:+ tab +:+ Summary (default zeroComponent (sv_Components v !! i)) +:+ nl.

Definition Format (v : StatusView) : string :=
  ansiYellow +:+ " /¯¯\" +:+ nl +:+
  ansiCyan +:+ " /¯¯" +:+ ansiYellow +:+ "\__/" +:+ ansiGreen +:+ "¯¯\" +:+ ansiReset +:+ label v 0 +:+
  ansiCyan +:+ " \__" +:+ ansiRed +:+ "/¯¯\" +:+ ansiGreen +:+ "__/" +:+ ansiReset +:+ label v 1 +:+
  ansiGreen +:+ " /¯¯" +:+ ansiRed +:+ "\__/" +:+ ansiMagenta +:+ "¯¯\" +:+ ansiReset +:+ label v 2 +:+
  ansiGreen +:+ " \__" +:+ ansiBlue +:+ "/¯¯\" +:+ ansiMagenta +:+ "__/" +:+ ansiReset +:+ label v 3 +:+
  ansiBlue +:+ ansiBlue +:+ ansiBlue +:+ " \__/" +:+ ansiReset +:+ label v 4 +:+ nl +:+
  alignRows (sv_Body v ++
    headed "✨ Features" (map (fun f => (ft_Name f, Summary (ft_State f))) (sv_Features v)) ++
    headed "🔌 Collection:" (map (fun err => ("", err)) (sv_Collection v))).

(** The fields of the agent's answer, as [json.Unmarshal] leaves them; its
    error is ignored. *)
Record statusDoc := mkStatusDoc {
  sd_Version : string;
  sd_DeviceID : string;
  sd_Backend : string;
  sd_Active : bytes;               (* json.RawMessage *)
  sd_HighSequence : Z;
  sd_PendingEvents : Z;
}.
Class StatusJSON := { unmarshal_status : bytes → statusDoc }.

Definition bannerLabels : list string := ["Agent"; "Backend"; "Active job"; "Events"; "Sequence"].
Definition features : list string := ["Sign"; "Submit"; "Ack"; "Reboot"; "Recover"; "GC"; "Events"; "RAUC"].

Definition formatOTAStatus `{StatusJSON} (b : bytes) (collection : string) : string :=
  if negb (eqs collection "") && (length b =? 0)%nat then
    Format (mkStatusView bannerLabels (repeat (mkComponent 0 0 true) 5) [] [] [collection])
  else
    let st := unmarshal_status b in
    let disabled d := mkComponent 0 0 d in
    Format (mkStatusView bannerLabels
      [zeroComponent; disabled (eqs (sd_Backend st) "");
       disabled ((length (sd_Active st) =? 0)%nat || bool_decide (sd_Active st = to_bytes "null"));
       mkComponent 0 (if sd_PendingEvents st >? 0 then sd_PendingEvents st else 0) false; zeroComponent]
      [("🖥️  Device:", sd_DeviceID st, ""); ("📦 Backend:", sd_Backend st, ""); ("🚀 Version:", sd_Version st, "");
       ("🔌 Pending events:", FormatInt (sd_PendingEvents st), ""); ("🖼️  Sequence:", FormatInt (sd_HighSequence st), "")]
      (map (fun name => okFeature name (negb (eqs name "RAUC" && negb (eqs (sd_Backend st) "") &&
                                             negb (eqs (sd_Backend st) "rauc")))) features)
      (if negb (eqs collection "") then [collection] else [])).

(** ** Facts *)

Lemma widest_bound l s : s ∈ l → width s ≤ widest l.
Proof.
  unfold widest. enough (Hg : ∀ w, w ≤ fold_left (fun w s => if width s >? w then width s else w) l w ∧
    (s ∈ l → width s ≤ fold_left (fun w s => if width s >? w then width s else w) l w)) by apply Hg.
  induction l as [|x l IH]; intros w; simpl; [split; [lia|set_solver]|].
  destruct (IH (if width x >? w then width x else w)) as [H1 H2].
  assert (Hx : w ≤ (if width x >? w then width x else w) ∧ width x ≤ (if width x >? w then width x else w))
    by (destruct (Z.gtb_spec (width x) w); lia).
  split; [lia|]. intros [->|Hs]%elem_of_cons; [lia|auto].
Qed.

Lemma padding_exact l s : s ∈ l → width s + padding (widest l) s = widest l + 4.
Proof. intros Hs. pose proof (widest_bound l s Hs). unfold padding. destruct (Z.ltb_spec (widest l - width s + 4) 4); lia. Qed.

(** The columns of the banner are aligned: in every row the second column
    starts after the visible width of the widest first cell and four blanks,
    and the third the same way after the second. *)
Theorem alignRows_aligned rows a b d :
  (a, b, d) ∈ rows →
  let w1 := widest (map (fun r => r.1.1) rows) in let w2 := widest (map (fun r => r.1.2) rows) in
  ∃ p1 p2, alignRow w1 w2 (a, b, d) = a +:+ spaces p1 +:+ b +:+ spaces p2 +:+ d +:+ nl ∧
    width a + p1 = w1 + 4 ∧ width b + p2 = w2 + 4 ∧ 4 ≤ p1 ∧ 4 ≤ p2.
Proof.
  intros Hr w1 w2. exists (padding w1 a), (padding w2 b). split; [done|].
  assert (Ha : a ∈ map (fun r : row => r.1.1) rows) by (apply list_elem_of_fmap; by exists (a, b, d)).
  assert (Hb : b ∈ map (fun r : row => r.1.2) rows) by (apply list_elem_of_fmap; by exists (a, b, d)).
  split; [by apply padding_exact|]. split; [by apply padding_exact|].
  unfold padding. split; [destruct (Z.ltb_spec (w1 - width a + 4) 4)|destruct (Z.ltb_spec (w2 - width b + 4) 4)]; lia.
Qed.

(** Colours do not count towards the width of a summary. *)
Example width_ok : stripANSI (ansiGreen +:+ "OK" +:+ ansiReset) = "OK".
Proof. vm_compute. reflexivity. Qed.
