(* ===== verification/Cli.v ===== *)
(** * Command line (cmd/zyvor-ota/main.go)

    The requests the commands send to the agent and the loop that sends
    them, and the commands that work on files: key generation, signing and
    offline campaigns.  The world is the agent's, with the operator's files
    in its file system; path arguments are clean and relative to the root. *)
From stdpp Require Import base tactics gmap strings list.
From Stdlib Require Import ZArith Lia Ascii.
From S2P Require Import Prelude Model Config Crypto Fmt Files Backend Metrics Trace Topo Verify World Store TrustMeta MetricsText Payload Download Campaign Engine Fleet API Client Otlp StatusView.
Local Open Scope Z_scope.

Definition Version : string := "0.2.0".

Definition usage : string :=
  "usage: otactl [-socket PATH] version|keygen DIR|sign RELEASE KEY KEY_ID OUT|campaign-export ASSIGNMENT ARTIFACT_DIR OUT_DIR|campaign-import CAMPAIGN_DIR MEDIA_DIR|status [json]|job ID|submit ASSIGNMENT|events|ack SEQUENCE|reboot|recover-abort|gc|backup DEST|archive  (zyvor-ota is the same binary)".

(** ** strconv.ParseUint(s, 10, 64) *)
Definition digit (c : ascii) : Z := Z.of_N (N_of_ascii c) - 48.
Fixpoint parse_digits (l : list ascii) (n : Z) : option Z :=
  match l with
  | [] => Some n
  | c :: l =>
      if negb (in_range "0" "9" c) then None
      else if n * 10 + digit c >? 2 ^ 64 - 1 then None else parse_digits l (n * 10 + digit c)
  end.
Definition ParseUint (s : string) : option Z :=
  if eqs s "" then None else parse_digits (String.list_ascii_of_string s) 0.

(** The document [ackBody] builds. *)
Definition ack_json (n : Z) : bytes :=
  to_bytes ("{" +:+ dquote +:+ "sequence" +:+ dquote +:+ ":" +:+ show_Z n +:+ "}").

Definition cli_ackBody (arg : string) : result bytes :=
  match ParseUint arg with
  | None => errorf "ack SEQUENCE must be an unsigned integer"
  | Some seq => Ok (ack_json seq)
  end.

(** [strings.ContainsAny] *)
Definition ContainsAny (s chars : string) : bool :=
  existsb (fun c => existsb (Ascii.eqb c) (String.list_ascii_of_string chars)) (String.list_ascii_of_string s).

Record cliRq := mkCliRq { cl_method : string; cl_path : string; cl_body : bytes }.

(** What a command prints: a line, the agent's answer as one, or a text. *)
Inductive cliPrint :=
  | PrintLine (s : string)
  | PrintBody (b : bytes)
  | PrintText (s : string).

(** [ed25519.GenerateKey] with its source of randomness, and [ed25519.Sign]. *)
Class KeyGen := {
  ed25519_GenerateKey : nat → result (bytes * bytes);   (* public, private *)
  ed25519_Sign : bytes → bytes → bytes;
}.

(** [simulation-url], or the socket. *)
Definition cliBase `{NetURL} (simulationURL : string) : result string :=
  if negb (eqs simulationURL "") then
    match url_Parse simulationURL with
    | None => errorf "simulation-url must be http://127.0.0.1:PORT"
    | Some u =>
        if negb (eqs (u_Scheme u) "http") || negb (eqs (u_Hostname u) "127.0.0.1") || u_User u ||
           negb (eqs (u_Path u) "") || negb (eqs (u_RawQuery u) "") || negb (eqs (u_Fragment u) "")
        then errorf "simulation-url must be http://127.0.0.1:PORT"
        else Ok simulationURL
    end
  else Ok "http://unix".

Section cli.
Context `{Codec, Env} {D : Type} `{Transport (World D), NetURL}.
Context `{MapRange, JSONDecode Release, JSONEncode Release, JSONDecode Assignment, JSONIndent Assignment,
          JSONIndent Envelope, JSONEncode backupBody, KeyGen, StatusJSON}.
Abbreviation M := (Prelude.M (World D)).

(** *** Commands on files *)

(** [os.Mkdir] *)
Definition Mkdir (p : path) : M unit :=
  _ ← syscall; fs ← view_fs;
  if bool_decide (is_Some (fs !! p)) then fail (errors_New "file exists")
  else put_fs (<[p := Directory]> fs).

Definition keyFile (dir name : string) : path := Join dir [name].
Definition keyText (key : bytes) : bytes := to_bytes (base64_encode key +:+ newline).

Definition keygen (dir : string) : M unit :=
  _ ← Mkdir (components dir);
  n ← tick;
  '(pub, priv) ← lift (ed25519_GenerateKey n);
  _ ← AtomicWrite (keyFile dir "release.key") (keyText priv);
  AtomicWrite (keyFile dir "release.pub") (keyText pub).

Definition cli_sign (release keyPath keyID out : string) : M unit :=
  b ← ReadFile (components release);
  r ← lift (StrictJSON b);
  k ← ReadFile (components keyPath);
  match base64_decode (TrimSpace k) with
  | None => fail (errors_New "illegal base64 data")
  | Some key =>
      env ← lift (SignRelease ed25519_Sign r keyID key);
      AtomicWrite (components out) (json_MarshalIndent env)
  end.

Definition campaign_export (assignment artifactDir out : string) : M unit :=
  b ← ReadFile (components assignment);
  a ← lift (StrictJSON b);
  ExportCampaign out a artifactDir.

Definition campaign_import (campaignDir mediaDir : string) : M (list cliPrint) :=
  a ← ImportCampaign campaignDir;
  _ ← InstallCampaign mediaDir campaignDir a;
  mret [PrintLine (campaignDir +:+ "/assignment.json")].

(** *** Commands to the agent *)

(** The method, path and body of a command with the arguments after it. *)
Definition cliRequest (cmd : string) (args : list string) : M cliRq :=
  if eqs cmd "status" then mret (mkCliRq "GET" "/v1/status" [])
  else if eqs cmd "events" then mret (mkCliRq "GET" "/v1/events" [])
  else if eqs cmd "job" then
    match args with
    | [id] => if ContainsAny id "/?#" then fail (errors_New "job ID")
              else mret (mkCliRq "GET" ("/v1/jobs/" +:+ id) [])
    | _ => fail (errors_New "job ID")
    end
  else if eqs cmd "submit" then
    match args with
    | [file] => b ← ReadFile (components file); mret (mkCliRq "POST" "/v1/assignments" b)
    | _ => fail (errors_New "submit ASSIGNMENT_JSON")
    end
  else if eqs cmd "ack" then
    match args with
    | [seq] => b ← lift (cli_ackBody seq); mret (mkCliRq "POST" "/v1/events/ack" b)
    | _ => fail (errors_New "ack SEQUENCE")
    end
  else if eqs cmd "reboot" || eqs cmd "recover-abort" || eqs cmd "gc" then
    mret (mkCliRq "POST" ("/v1/" +:+ cmd) [])
  else if eqs cmd "backup" then
    match args with
    | [dest] => if negb (IsAbs dest) then fail (errors_New "backup DEST must be an absolute path")
                else mret (mkCliRq "POST" "/v1/backup" (json_Marshal (mkBackupBody dest)))
    | _ => fail (errors_New "backup DEST must be an absolute path")
    end
  else if eqs cmd "archive" then mret (mkCliRq "GET" "/v1/archive" [])
  else fail (errors_New "unknown command").

(** The last answer, or why there is none. *)
Inductive cliAnswer :=
  | NoAnswer (e : error)
  | Answer (status : Z) (b : bytes).

(** The loop of [run] with [attempts] iterations left. *)
Fixpoint cli_loop (attempts : nat) (rq : clientRq) (last : cliAnswer) : M cliAnswer :=
  match attempts with
  | O => mret last
  | S rest =>
      r ← try (round_trip rq);
      match r with
      | Err e => mret (NoAnswer e)
      | Ok rs =>
          let b := limit_read 8388608 (cs_body rs) in
          if limit_err 8388608 (cs_body rs) (cs_readErr rs) then fail (errors_New "unexpected EOF")
          else if busy (cs_status rs) b && (25 - Z.of_nat attempts <? 24) then
            _ ← modify sleep; cli_loop rest rq (Answer (cs_status rs) b)
          else mret (Answer (cs_status rs) b)
      end
  end.

(** The status banner is printed unless [status json] is asked for. *)
Definition wants_banner (cmd : string) (args : list string) : bool :=
  eqs cmd "status" && negb (match args with a :: _ => eqs a "json" | [] => false end).

Definition agent_error (status : Z) : option error :=
  if status >=? 300 then Some (errors_New ("agent HTTP " +:+ show_Z status)) else None.

(** Sends a request; what is printed, and the error [run] returns. *)
Definition cli_send (simulationURL cmd : string) (args : list string) (rq : cliRq) : M (list cliPrint * option error) :=
  base ← lift (cliBase simulationURL);
  match url_Parse (base +:+ cl_path rq) with
  | None => fail (errors_New "parse URL")
  | Some _ =>
      r ← cli_loop 25 (mkClientRq (cl_method rq) (base +:+ cl_path rq) true (cl_body rq)) (Answer 0 []);
      match r with
      | NoAnswer e => mret (if wants_banner cmd args then [PrintText (formatOTAStatus [] (err_msg e))] else [], Some e)
      | Answer status b =>
          if wants_banner cmd args then
            mret ([PrintText (formatOTAStatus b (match agent_error status with Some e => err_msg e | None => "" end))],
                  agent_error status)
          else mret ([PrintBody b], agent_error status)
      end
  end.

Definition quietly (m : M unit) : M (list cliPrint * option error) := _ ← m; mret ([], None).

Definition cli_run (simulationURL : string) (a : list string) : M (list cliPrint * option error) :=
  match a with
  | [] => fail (errors_New usage)
  | cmd :: args =>
      if eqs cmd "version" then mret ([PrintLine Version], None)
      else if eqs cmd "keygen" then
        match args with [dir] => quietly (keygen dir) | _ => fail (errors_New "keygen DIR") end
      else if eqs cmd "sign" then
        match args with
        | [release; key; id; out] => quietly (cli_sign release key id out)
        | _ => fail (errors_New "sign RELEASE_JSON PRIVATE_KEY KEY_ID OUTPUT_JSON")
        end
      else if eqs cmd "campaign-export" then
        match args with
        | [assignment; dir; out] => quietly (campaign_export assignment dir out)
        | _ => fail (errors_New "campaign-export ASSIGNMENT_JSON ARTIFACT_DIR OUT_DIR")
        end
      else if eqs cmd "campaign-import" then
        match args with
        | [dir; media] => l ← campaign_import dir media; mret (l, None)
        | _ => fail (errors_New "campaign-import CAMPAIGN_DIR MEDIA_DIR")
        end
      else rq ← cliRequest cmd args; cli_send simulationURL cmd args rq
  end.
End cli.

(** ** Sequence numbers *)

(** The value of a decimal numeral. *)
Definition decimal (l : list ascii) (n : Z) : Z := fold_left (fun n c => n * 10 + digit c) l n.
Definition numeral (l : list ascii) : bool := forallb (in_range "0" "9") l.

Lemma digit_range c : in_range "0" "9" c = true → 0 ≤ digit c ≤ 9.
Proof.
  unfold in_range, digit. intros [H1 H2]%andb_true_iff. apply N.leb_le in H1, H2.
  change (N_of_ascii "0") with 48%N in H1. change (N_of_ascii "9") with 57%N in H2. lia.
Qed.

Lemma decimal_grows l n : 0 ≤ n → numeral l = true → n ≤ decimal l n.
Proof.
  revert n. induction l as [|x l IH]; intros n Hn; [done|]. simpl. intros [Hx Hl]%andb_true_iff.
  apply digit_range in Hx. etrans; [|apply IH; [lia|done]]. lia.
Qed.

Lemma parse_digits_iff l n m :
  0 ≤ n < 2 ^ 64 → parse_digits l n = Some m ↔ numeral l = true ∧ decimal l n = m ∧ m < 2 ^ 64.
Proof.
  revert n. induction l as [|x l IH]; intros n Hn; simpl.
  { split; [intros [= <-]; split; [done|lia]|]. by intros (_ & -> & _). }
  destruct (in_range "0" "9" x) eqn:Ex; simpl; [|naive_solver]. pose proof (digit_range x Ex).
  destruct (Z.gtb_spec (n * 10 + digit x) (2 ^ 64 - 1)) as [Hgt|Hle]; [|apply IH; lia].
  split; [done|]. intros (Hnum & E & Hm). pose proof (decimal_grows l (n * 10 + digit x) ltac:(lia) Hnum). lia.
Qed.

Lemma digit_ascii n : (n < 10)%N → in_range "0" "9" (ascii_of_N (48 + n)) = true ∧ digit (ascii_of_N (48 + n)) = Z.of_N n.
Proof.
  intros Hn. unfold digit, in_range. rewrite N_ascii_embedding by lia.
  rewrite andb_true_iff, !N.leb_le. change (N_of_ascii "0") with 48%N. change (N_of_ascii "9") with 57%N. lia.
Qed.

Lemma dec_digits_value fuel n acc :
  (n < 2 ^ N.of_nat fuel)%N → numeral (String.list_ascii_of_string acc) = true → (0 < fuel)%nat →
  let l := String.list_ascii_of_string (dec_digits fuel n acc) in
  numeral l = true ∧ decimal l 0 = decimal (String.list_ascii_of_string acc) (Z.of_N n) ∧ l ≠ [].
Proof.
  revert n acc. induction fuel as [|fuel IH]; intros n acc Hn Hacc Hf; [lia|]. simpl.
  destruct (digit_ascii (n mod 10)) as [Hd Ed]; [by apply N.mod_lt|].
  assert (Hacc' : numeral (String.list_ascii_of_string (String (ascii_of_N (48 + n mod 10)) acc)) = true)
    by (simpl; by rewrite Hd, Hacc).
  pose proof (N.div_mod n 10 ltac:(done)) as Edm. destruct (N.eqb_spec (n / 10) 0) as [E0|Hne].
  { split; [done|]. split; [|done]. simpl. rewrite Ed. f_equal. lia. }
  rewrite Nat2N.inj_succ, N.pow_succ_r' in Hn.
  assert (Hd2 : (n / 10 < 2 ^ N.of_nat fuel)%N) by (apply N.Div0.div_lt_upper_bound; lia).
  assert (Hpos : (0 < fuel)%nat) by (destruct fuel; [by apply N.lt_1_r in Hd2|lia]).
  destruct (IH (n / 10)%N _ Hd2 Hacc' Hpos) as (H1 & H2 & H3). split; [done|]. split; [|done].
  rewrite H2. simpl. rewrite Ed. f_equal. lia.
Qed.

Lemma show_Z_value n :
  0 ≤ n → let l := String.list_ascii_of_string (show_Z n) in numeral l = true ∧ decimal l 0 = n ∧ l ≠ [].
Proof.
  intros Hn. unfold show_Z. destruct (dec_digits_value (S (N.to_nat (N.log2 (Z.to_N n)))) (Z.to_N n) "")
    as (H1 & H2 & H3); [|done|lia|split; [done|]; split; [rewrite H2; simpl; lia|done]].
  rewrite Nat2N.inj_succ, N2Nat.id. destruct (Z.to_N n) as [|p] eqn:E; [done|].
  by apply N.log2_spec.
Qed.

(** C32: [ack SEQUENCE] takes exactly the decimal numerals below 2^64 and sends
    their value in canonical form; what it sends for a printed sequence
    number is that number. *)
Theorem cli_ackBody_spec arg b :
  (cli_ackBody arg = Ok b ↔
    arg ≠ "" ∧ numeral (String.list_ascii_of_string arg) = true ∧
    decimal (String.list_ascii_of_string arg) 0 < 2 ^ 64 ∧
    b = ack_json (decimal (String.list_ascii_of_string arg) 0)) ∧
  ∀ n, 0 ≤ n < 2 ^ 64 → cli_ackBody (show_Z n) = Ok (ack_json n).
Proof.
  assert (Hiff : ∀ arg m, ParseUint arg = Some m ↔ arg ≠ "" ∧ numeral (String.list_ascii_of_string arg) = true ∧
    decimal (String.list_ascii_of_string arg) 0 = m ∧ m < 2 ^ 64).
  { clear. intros arg m. unfold ParseUint. destruct (eqs arg "") eqn:E.
    - apply eqs_true in E as ->. naive_solver.
    - apply eqs_false in E. rewrite parse_digits_iff by lia. naive_solver. }
  unfold cli_ackBody. split.
  - destruct (ParseUint arg) as [m|] eqn:E.
    + apply Hiff in E as (Hne & Hnum & <- & Hm). split; [intros [= <-]; done|]. by intros (_ & _ & _ & ->).
    + split; [done|]. intros (Hne & Hnum & Hm & ->).
      assert (Hs : ParseUint arg = Some (decimal (String.list_ascii_of_string arg) 0)) by (by apply Hiff).
      by rewrite E in Hs.
  - intros n Hn. destruct (show_Z_value n) as (H1 & H2 & H3); [lia|].
    assert (Hs : ParseUint (show_Z n) = Some n).
    { apply Hiff. split; [intros E; by rewrite E in H3|]. split; [done|]. split; [done|lia]. }
    by rewrite Hs.
Qed.

(** ** Commands and routes *)

Lemma append_assoc_char s c t : (s +:+ String c "") +:+ t = s +:+ String c t.
Proof. induction s as [|x s IH]; [done|]. exact (f_equal (String x) IH). Qed.

Lemma split_slash_one s acc :
  ContainsAny s "/?#" = false → acc +:+ s ≠ "" → split_slash s acc = [acc +:+ s].
Proof.
  revert acc. induction s as [|x s IH]; intros acc; simpl.
  - intros _ Hne. assert (E : acc +:+ "" = acc) by (clear; induction acc as [|x acc IH]; [done|exact (f_equal (String x) IH)]).
    rewrite E in *. apply eqs_false in Hne. by rewrite Hne.
  - intros [Hx Hs]%orb_false_iff Hne. apply orb_false_iff in Hx as [Hx _]. rewrite Hx.
    rewrite <- (append_assoc_char acc x s) in *. by apply IH.
Qed.

Section commands.
Context `{MapRange, Limits, LocalZone, NetURL, Net, Ed25519, LineJSON, Unicode}.
Context `{JSONDecode Release, JSONEncode Assignment, JSONDecode multiSigned, JSONDecode rootMeta,
          JSONDecode snapshotMeta, JSONDecode timestampMeta, JSONDecode targetsMeta}.
Context `{JSONDecode Assignment, JSONDecode ackBody, JSONDecode backupBody, JSONEncode backupBody}.
Context `{Codec, Env} {D : Type} `{Backend D}.
Context (c : Config).
Implicit Types w : World D.

(** The mux has no handler of its own for the request: page not found or
    method not allowed. *)
Definition unrouted (rs : apiResponse) : Prop := ∃ msg, ap_body rs = ApiText msg.

(** The pattern a request meets, and its method. *)
Definition routed (rq : cliRq) : Prop :=
  ∃ ep, endpoint_of (components (cl_path rq)) = Some ep ∧
    cl_method rq = match ep with
                   | EStatus | EJob _ | EEvents | EArchive | EMetrics => "GET"
                   | _ => "POST"
                   end.

Lemma cliRequest_routed cmd args rq w w' :
  cliRequest cmd args w = (Ret rq, w') → (cmd ≠ "job" ∨ args ≠ [""]) → routed rq.
Proof.
  unfold cliRequest. intros Hr Hjob.
  repeat match goal with
  | Hr : (if ?b then _ else _) _ = _ |- _ => destruct b eqn:?
  | Hr : (match ?args with _ => _ end) _ = _ |- _ => destruct args eqn:?
  | Hr : (_ ≫= _) _ = _ |- _ => apply bind_returns in Hr as (? & ? & _ & Hr)
  end; try done; injection Hr as <- <-; unfold routed; cbn [cl_path cl_method]; try (by eexists).
  - (* job *) simplify_eq. reflect_bools. subst. exists (EJob s).
    assert (Hne : s ≠ "") by (destruct Hjob as [?|Hj]; [done|by intros ->]).
    assert (E : components ("/v1/jobs/" +:+ s) = ["v1"; "jobs"; s]).
    { change (components ("/v1/jobs/" +:+ s)) with ("v1" :: "jobs" :: split_slash s ""). by rewrite (split_slash_one s "") by done. }
    rewrite E. simpl. apply eqs_false in Hne. by rewrite Hne.
  - (* reboot, recover-abort, gc *)
    repeat match goal with E : _ || _ = true |- _ => apply orb_true_iff in E as [E|E] end;
      match goal with E : eqs _ _ = true |- _ => apply eqs_true in E as -> end; by eexists.
Qed.

Lemma routed_Handler rq w rs w' :
  routed rq → Handler c (mkApiRq (cl_method rq) (components (cl_path rq)) (cl_body rq) false) w = (Ret rs, w') →
  ¬ unrouted rs.
Proof.
  intros (ep & Hep & Hm) Hh [msg Hbody]. unfold Handler in Hh. cbn [aq_path] in Hh. rewrite Hep, Hm in Hh.
  unfold route in Hh. cbn [aq_method] in Hh.
  destruct ep; match type of Hh with (if ?b then _ else _) _ = _ => change b with true in Hh end; cbv iota in Hh;
    unfold getStatus, getJob, getEvents, getArchive, getMetrics, postAssignment, postAck, postBackup, apiAction, respond in Hh;
    repeat match type of Hh with
    | (_ ≫= _) _ = _ => apply bind_returns in Hh as (? & ? & _ & Hh)
    | (match ?x with _ => _ end) _ = _ => destruct x
    | (if ?x then _ else _) _ = _ => destruct x
    end; unfold mret, M_ret in Hh; injection Hh as <- _; done.
Qed.

(** Every command that reaches the agent meets one of its routes with the
    right method: the mux never answers it with a page not found or a method
    not allowed of its own ([job] with an empty id aside). *)
Theorem cli_commands_are_served cmd args rq w0 w0' w rs w' :
  cliRequest cmd args w0 = (Ret rq, w0') → (cmd ≠ "job" ∨ args ≠ [""]) →
  Handler c (mkApiRq (cl_method rq) (components (cl_path rq)) (cl_body rq) false) w = (Ret rs, w') →
  ¬ unrouted rs.
Proof. intros Hr Hj. apply routed_Handler. by eapply cliRequest_routed. Qed.
End commands.

(** ** Keys and signatures *)

Lemma to_bytes_app s t : to_bytes (s +:+ t) = to_bytes s ++ to_bytes t.
Proof. induction s as [|x s IH]; [done|]. exact (f_equal (cons (byte_of_ascii x)) IH). Qed.

Lemma trim_left_id b : forallb (fun x => negb (ascii_space x)) b = true → trim_left b = b.
Proof. destruct b as [|x b]; [done|]. simpl. destruct (ascii_space x); done. Qed.

Lemma TrimSpace_line s :
  forallb (fun x => negb (ascii_space x)) (to_bytes s) = true → TrimSpace (to_bytes (s +:+ newline)) = s.
Proof.
  intros Hs. rewrite to_bytes_app. change (to_bytes newline) with [Byte.x0a]. unfold TrimSpace.
  assert (E : rev (trim_left (to_bytes s ++ [Byte.x0a])) = trim_left [Byte.x0a] ++ rev (to_bytes s) ∨
              rev (trim_left (to_bytes s ++ [Byte.x0a])) = Byte.x0a :: rev (to_bytes s)).
  { destruct (to_bytes s) as [|x b]; [by left|]. right. simpl in *. destruct (ascii_space x); [done|].
    change (x :: b ++ [Byte.x0a]) with ((x :: b) ++ [Byte.x0a]). by rewrite rev_app_distr. }
  assert (Hr : trim_left (rev (to_bytes s)) = rev (to_bytes s)).
  { apply trim_left_id. rewrite forallb_forall in *. intros x Hx. apply Hs. by apply in_rev. }
  destruct E as [-> | ->]; simpl; rewrite Hr, rev_involutive; apply String.string_of_list_byte_of_string.
Qed.

Lemma b64_text_nospace x : b64_text x = true → ascii_space (byte_of_ascii x) = false.
Proof. destruct x as [[] [] [] [] [] [] [] []]; vm_compute; done. Qed.

Lemma keyText_read key : base64_decode (TrimSpace (keyText key)) = Some key.
Proof.
  unfold keyText. rewrite TrimSpace_line; [apply base64_roundtrip|].
  pose proof (b64_encode_text key) as Ht. unfold to_bytes, String.list_byte_of_string.
  rewrite forallb_forall in *. intros y (x & <- & Hx)%in_map_iff. rewrite b64_text_nospace; [done|by apply Ht].
Qed.

Section keys.
Context `{Codec, Env} {D : Type}.
Context `{MapRange, JSONDecode Release, JSONEncode Release, JSONIndent Envelope, JSONDecode Envelope, KeyGen}.
Implicit Types w : World D.

Lemma AtomicWrite_writes p b w u w' :
  ¬ temporary p p → AtomicWrite p b w = (Ret u, w') → w_fs w' !! p = Some (File b).
Proof.
  intros Hp Hw. pose proof (AtomicWrite_old_or_new p b w Hp) as Ho. rewrite Hw in Ho.
  destruct u. by destruct Ho as [[_ Hno]|?].
Qed.

(** A file whose name does not begin like a temporary one. *)
Lemma keyFile_plain dir name q :
  String.prefix ".ota-" name = false → temporary q (keyFile dir name) → False.
Proof.
  intros Hn [suffix E]. unfold keyFile, Join, tempPath in E. apply app_inj_tail in E as [_ ->].
  by destruct suffix.
Qed.

Lemma keygen_writes dir w u w' :
  keygen dir w = (Ret u, w') →
  ∃ n pub priv, ed25519_GenerateKey n = Ok (pub, priv) ∧
    w_fs w' !! keyFile dir "release.key" = Some (File (keyText priv)) ∧
    w_fs w' !! keyFile dir "release.pub" = Some (File (keyText pub)).
Proof.
  unfold keygen. intros (? & w1 & _ & Hk)%bind_returns. apply bind_returns in Hk as (n & w2 & _ & Hk).
  apply bind_returns in Hk as ([pub priv] & w3 & Hg & Hk). apply bind_returns in Hk as (? & w4 & Hpriv & Hpub).
  exists n, pub, priv. unfold lift in Hg. destruct (ed25519_GenerateKey n) as [p|]; [|done]. injection Hg as -> _.
  split; [done|]. split.
  - pose proof (AtomicWrite_touches (keyFile dir "release.pub") (keyText pub) w4) as Ht. rewrite Hpub in Ht.
    rewrite Ht; [|intros [E|Ht']; [|by apply keyFile_plain in Ht']].
    + eapply AtomicWrite_writes; [|exact Hpriv]. intros Ht'. by apply keyFile_plain in Ht'.
    + unfold keyFile, Join in E. by apply app_inj_tail in E as [_ ?].
  - eapply AtomicWrite_writes; [|exact Hpub]. intros Ht'. by apply keyFile_plain in Ht'.
Qed.

Lemma ReadFile_content p w b w' :
  ReadFile p w = (Ret b, w') → w_fs w !! p = Some (File b) ∧ w_fs w' = w_fs w.
Proof.
  unfold ReadFile. intros (? & w1 & Hs & Hr)%bind_returns. apply syscall_fs in Hs. rewrite view_run in Hr.
  rewrite Hs in Hr. destruct (w_fs w !! p) as [[]|]; try done. injection Hr as <- <-. done.
Qed.

Lemma cli_sign_writes release keyPath id out b r key w u w' :
  ¬ temporary (components out) (components out) →
  w_fs w !! components release = Some (File b) → StrictJSON b = Ok r →
  w_fs w !! components keyPath = Some (File (keyText key)) →
  cli_sign release keyPath id out w = (Ret u, w') →
  ∃ env, SignRelease ed25519_Sign r id key = Ok env ∧
    w_fs w' !! components out = Some (File (json_MarshalIndent env)).
Proof.
  intros Hout Hrel Hr Hkey. unfold cli_sign. intros (b' & w1 & Hrd & Hs)%bind_returns.
  apply ReadFile_content in Hrd as [E1 F1]. rewrite Hrel in E1. injection E1 as <-.
  apply bind_returns in Hs as (r' & w2 & Hl & Hs). unfold lift in Hl. rewrite Hr in Hl. injection Hl as <- <-.
  apply bind_returns in Hs as (k & w3 & Hrd & Hs). apply ReadFile_content in Hrd as [E2 F2].
  rewrite F1, Hkey in E2. injection E2 as <-. rewrite keyText_read in Hs.
  apply bind_returns in Hs as (env & w4 & Hl & Hs). unfold lift in Hl.
  destruct (SignRelease _ _ _ _) as [env'|]; [|done]. injection Hl as -> <-. exists env.
  split; [done|]. by eapply AtomicWrite_writes.
Qed.

Context `{NetURL, Ed25519}.

(** C37: signing end to end: a release signed with a key [keygen] made is
    accepted by every agent that trusts the public key [keygen] wrote and for
    which the release is valid.  The generated pair is of the scheme, and
    releases and envelopes survive their JSON encoding. *)
Theorem keygen_sign_verify dir keyPath release id out c now b r r' pubFile w w1 w2 :
  keygen dir w = (Ret tt, w1) → cli_sign release keyPath id out w1 = (Ret tt, w2) →
  components keyPath = keyFile dir "release.key" → ¬ temporary (components out) (components out) →
  (∀ n pub priv, ed25519_GenerateKey n = Ok (pub, priv) →
    length pub = PublicKeySize ∧ ∀ m, ed25519_Verify pub m (ed25519_Sign priv m) = true) →
  w_fs w1 !! keyFile dir "release.pub" = Some (File pubFile) → c_TrustKeys c !! id = Some (TrimSpace pubFile) →
  w_fs w1 !! components release = Some (File b) → StrictJSON b = Ok r →
  json_Decode (json_Marshal r) = Ok (r, []) → blen (json_Marshal r) ≤ 65536 →
  (∀ sig, StrictJSON (json_MarshalIndent (mkEnvelope id (json_Marshal r) sig)) = Ok (mkEnvelope id (json_Marshal r) sig)) →
  checkMetadata r c now = Ok tt → checkContents r c = Ok r' →
  ∃ file env, w_fs w2 !! components out = Some (File file) ∧ StrictJSON file = Ok env ∧
    VerifyEnvelope env c now = Ok r'.
Proof.
  intros Hk Hs Hpath Hout Hgen Hpub Htrust Hrel Hr Hj Hlen Hji Hm Hc.
  destruct (keygen_writes _ _ _ _ Hk) as (n & pub & priv & Hg & Hfk & Hfp).
  rewrite Hpub in Hfp. injection Hfp as ->. destruct (Hgen _ _ _ Hg) as [Hl Hv].
  rewrite <- Hpath in Hfk. destruct (cli_sign_writes _ _ _ _ _ _ _ _ _ _ Hout Hrel Hr Hfk Hs) as (env & He & Hf).
  exists (json_MarshalIndent env), env. split; [done|]. split.
  { unfold SignRelease in He. apply result_bind_ok in He as (? & _ & He). injection He as <-. apply Hji. }
  eapply sign_then_verify; [exact Hv|done|done|done| |done|done|exact He].
  unfold decodeKey. rewrite keyText_read, Hl. done.
Qed.
End keys.
