(* ===== verification/System.v ===== *)
(** * The running system

    Every interleaving of the agent's operations with crashes, restarts,
    reboots and outside changes to the device and the files, and the claims
    that hold in all of them. *)
From stdpp Require Import base tactics gmap strings list sorting.
From Stdlib Require Import ZArith Lia.
From S2P Require Import Prelude Model Config Crypto Fmt Files Backend Metrics Trace Topo Verify World Store TrustMeta MetricsText Payload Download Engine EngineFrame EngineSpec Refine RefineEngine Fleet API.
Local Open Scope Z_scope.

Section system.
Context `{MapRange, Limits, LocalZone, NetURL, Net, Ed25519, LineJSON, Unicode}.
Context `{JSONDecode Release, JSONEncode Assignment, JSONDecode multiSigned, JSONDecode rootMeta,
          JSONDecode snapshotMeta, JSONDecode timestampMeta, JSONDecode targetsMeta}.
Context `{JSONDecode Assignment, JSONEncode (list Event), JSONDecode ackBody, JSONDecode backupBody, FleetNet}.
Context `{Codec, Env} {D : Type} `{Backend D}.
Context (c : Config).
Implicit Types w : World D.

(** What a caller of the agent can ask for. *)
Inductive command :=
  | CStep | CSubmit (a : Assignment) | CAck (sequence : Z)
  | CRequestReboot | CRecoverAbort | CGC
  | CSync (f : Fleet) | CRequest (rq : apiRequest).

(** The world after a command, however it ended. *)
Definition execute (cmd : command) w : World D :=
  match cmd with
  | CStep => (Step c w).2
  | CSubmit a => (Submit c a w).2
  | CAck n => (Ack n w).2
  | CRequestReboot => (RequestReboot c w).2
  | CRecoverAbort => (RecoverAbort c w).2
  | CGC => (GC c w).2
  | CSync f => (Sync c f w).2
  | CRequest rq => (Handler c rq w).2
  end.

(** A device straight from provisioning: no journal, nothing done yet. *)
Definition fresh w : Prop :=
  w_data w = initialDatabase ∧ dk_snapshot (w_disk w) = None ∧ w_trace w = [].

Inductive system_step w : World D → Prop :=
  (** the idle process serves a command *)
  | sys_command cmd : w_mu w = false → system_step w (execute cmd w)
  (** the process starts again, perhaps in vain; its predecessor may have
      died anywhere *)
  | sys_restart dirSafe lockFree : system_step w (Restart dirSafe lockFree w).2
  (** the device reboots or changes, files change, time passes *)
  | sys_outside dev fs n : system_step w (set_w_dev dev (set_w_fs fs (set_w_tick n w))).

Inductive reachable : World D → Prop :=
  | reach_fresh w : fresh w → reachable w
  | reach_step w w' : reachable w → system_step w w' → reachable w'.

(** The disk is explained by the specification; a process that serves
    commands also agrees with it. *)
Definition consistent w : Prop :=
  ∃ s, spec_run c (w_trace w) s ∧ durable w = Ok (sp_durable s) ∧ (w_mu w = false → linked c s w).

Lemma explained_consistent w : explained c w → consistent w.
Proof. intros [s Hl]. exists s. split; [apply Hl|]. split; [apply Hl|done]. Qed.

Lemma locked_safe {A} (m : M (World D) A) w :
  (∀ mem a, safe c (at_ c mem a) m) → explained c w → explained c (locked m w).2.
Proof.
  intros Hm [s Hl]. unfold locked, mbind, M_bind, modify.
  assert (Hex : explained c (m (set_w_mu true w)).2).
  { destruct s as [d mem a]. apply (Hm mem a). exists d. by eapply linked_jframe; [|done]. }
  unfold try. destruct (m (set_w_mu true w)) as [[x|e|] w']; simpl in *; [| |done];
    destruct Hex as [s' Hl']; exists s'; by eapply linked_jframe; [|done].
Qed.

Lemma tryLocked_safe {A} busy (m : M (World D) A) w :
  (∀ mem a, safe c (at_ c mem a) m) → explained c w → explained c (tryLocked busy m w).2.
Proof.
  intros Hm Hw. unfold tryLocked, mbind, M_bind, get. destruct (w_mu w); [done|].
  by apply locked_safe.
Qed.

(** [m] keeps the world explained. *)
Abbreviation stable := (stays (D := D) (explained c)).

Lemma Submit_explained a : stable (Submit c a).
Proof. intros w. apply tryLocked_safe. intros. apply safe_Submit_body. Qed.

Lemma Ack_explained n : stable (Ack (D := D) n).
Proof. intros w [[d mem a] Hl]. apply (safe_Ack c mem a). by exists d. Qed.

(** Compositional rules for code outside the lock. *)
Lemma frame_explained {A} (m : M (World D) A) : keeps frame m → stable m.
Proof. intros Hk w [s Hl]. exists s. eapply linked_jframe; [|done]. apply frame_jframe, Hk. Qed.

Lemma stays_bind {A B} P (m : M (World D) A) (k : A → M (World D) B) :
  stays P m → (∀ x, stays P (k x)) → stays P (m ≫= k).
Proof.
  intros Hm Hk w Hw. specialize (Hm w Hw). unfold mbind, M_bind.
  destruct (m w) as [[x|e|] w1]; [by apply Hk|done..].
Qed.

Lemma Sync_explained f : stable (Sync c f).
Proof.
  unfold Sync. apply stays_bind; [apply frame_explained, Now_frame|intros started].
  apply stays_bind; [apply stays_try|intros r; apply stays_bind;
    [apply frame_explained, reportSync_frame|intros _; apply frame_explained, keeps_lift, _]].
  unfold sync. apply stays_bind; [apply frame_explained, View_frame|intros d]. apply stays_bind.
  - unfold uploadEvents. destruct (_ <? _)%nat; [|apply frame_explained, keeps_ret, _].
    apply stays_bind; [apply frame_explained, fleetRequest_frame|intros [b status]].
    destruct (negb _); [apply frame_explained, keeps_fail, _|].
    apply stays_bind; [apply frame_explained, keeps_lift, _|intros ack].
    destruct (_ >? _); [apply frame_explained, keeps_fail, _|apply Ack_explained].
  - intros _. unfold pollAssignment.
    apply stays_bind; [apply frame_explained, fleetRequest_frame|intros [b status]].
    destruct (_ =? 204); [apply frame_explained, keeps_ret, _|].
    destruct (negb _); [apply frame_explained, keeps_fail, _|].
    apply stays_bind; [apply frame_explained, keeps_lift, _|intros a].
    apply stays_bind; [apply Submit_explained|intros _; apply frame_explained, keeps_ret, _].
Qed.

Lemma apiAction_explained (m : M (World D) unit) : stable m → stable (apiAction m).
Proof.
  intros Hm. apply stays_bind; [by apply stays_try|].
  intros r. destruct r; apply frame_explained, keeps_ret, _.
Qed.

Local Hint Resolve View_frame Exists_frame syscall_frame : keeps.
Lemma Handler_explained rq : stable (Handler c rq).
Proof.
  assert (Hfr : ∀ b st, stable (respond (D := D) st b)) by (intros; apply frame_explained, keeps_ret, _).
  assert (Hroute : ∀ want k, stable k → stable (route (D := D) want rq k)).
  { intros want k Hk. unfold route. by destruct (_ || _). }
  assert (Hlocked : ∀ busy (m : M (World D) unit), (∀ mem a, safe c (at_ c mem a) m) → stable (tryLocked busy m)).
  { intros busy m Hm w. by apply tryLocked_safe. }
  unfold Handler. destruct (endpoint_of (aq_path rq)) as [[]|];
  repeat match goal with
  | |- stays _ (respond _ _) => apply Hfr
  | |- stays _ (route _ _ _) => apply Hroute
  | |- stays _ (apiAction (RequestReboot _)) => apply apiAction_explained, Hlocked, safe_RequestReboot
  | |- stays _ (apiAction (RecoverAbort _)) => apply apiAction_explained, Hlocked, safe_RecoverAbort
  | |- stays _ (apiAction (GC _)) => apply apiAction_explained, Hlocked, safe_GC
  | |- stays _ getStatus => apply frame_explained; unfold getStatus, respond; keeps_auto
  | |- stays _ (getStatus _) => apply frame_explained; unfold getStatus, respond; keeps_auto
  | |- stays _ (getJob _) => apply frame_explained; unfold getJob, respond; keeps_auto
  | |- stays _ getEvents => apply frame_explained; unfold getEvents, respond; keeps_auto
  | |- stays _ (getMetrics _) => apply frame_explained; unfold getMetrics, respond; keeps_auto
  | |- stays _ getArchive => apply frame_explained; unfold getArchive, ExportArchive, respond; keeps_auto
  | |- stays _ (postBackup _) =>
      apply frame_explained; unfold postBackup, apiAction, Backup, respond; keeps_auto
  | |- stays _ (postAck _) => unfold postAck; destruct (decodeRequest rq) as [ack|];
      [apply apiAction_explained, Ack_explained|]
  | |- stays _ (postAssignment _ _) => unfold postAssignment; destruct (decodeRequest rq) as [asg|];
      [apply stays_bind; [apply stays_try, Submit_explained|intros []]|]
  | |- stays _ (match ?x with _ => _ end) => destruct x
  end.
Qed.

Lemma execute_explained cmd w : explained c w → explained c (execute cmd w).
Proof.
  intros Hw. destruct cmd; simpl.
  - apply locked_safe; [apply safe_Step_body|done].
  - by apply Submit_explained.
  - by apply Ack_explained.
  - apply tryLocked_safe; [apply safe_RequestReboot|done].
  - apply tryLocked_safe; [apply safe_RecoverAbort|done].
  - apply tryLocked_safe; [apply safe_GC|done].
  - by apply Sync_explained.
  - by apply Handler_explained.
Qed.

(** ** Start-up *)

(** What a failed start leaves alone. *)
Record survives w w' : Prop := {
  sv_disk : w_disk w' = w_disk w;
  sv_trace : w_trace w' = w_trace w;
  sv_dev : w_dev w' = w_dev w;
  sv_mu : w_mu w' = w_mu w;
}.
Global Instance survives_preorder : PreOrder survives.
Proof. split; [done|]. intros w1 w2 w3 [] []. split; congruence. Qed.

(** [load] without a state.json. *)
Definition load_snapshot : M (World D) bool :=
  q ← try syscall;
  _ ← lift (match q with Ok _ => Ok tt | Err e => Err (wrap_error "sqlite snapshot: " e) end);
  w ← get;
  match dk_snapshot (w_disk w) with
  | None => mret false
  | Some body =>
      match strictDB body with
      | Err e => fail (wrap_error "corrupt sqlite snapshot: " e)
      | Ok d => _ ← modify (set_w_data d); _ ← lift (validateDatabase d); mret false
      end
  end.

Lemma load_none w : load None w = load_snapshot w.
Proof.
  unfold load, load_snapshot, mbind, M_bind, mret, M_ret, try, lift. destruct (syscall w) as [[u|e|] w1]; [|done..].
  simpl. by destruct (dk_snapshot (w_disk w1)) as [b|].
Qed.

Lemma tick_survives : keeps survives (tick (D := D)).
Proof. intros w. unfold tick. by destruct (env_crash _). Qed.
Local Hint Resolve tick_survives : keeps.
Local Hint Extern 2 (keeps survives (modify _)) => (intros ?; by split) : keeps.

Lemma OpenStore_survives dirSafe lockFree : keeps survives (OpenStore (D := D) dirSafe lockFree None).
Proof.
  assert (Hl : keeps survives (load (D := D) None)).
  { intros w. rewrite load_none. revert w. change (keeps survives load_snapshot).
    unfold load_snapshot, syscall. keeps_auto. }
  unfold OpenStore, syscall. keeps_auto.
Qed.

Lemma syscall_ret w x w' : syscall w = (Ret x, w') → w' = set_w_tick (S (w_tick w)) w.
Proof.
  unfold syscall, tick, mbind, M_bind. destruct (env_crash _); [done|].
  destruct (env_io _); [done|]. by intros [= <- <-].
Qed.

Lemma load_ret w b w' d :
  durable w = Ok d → w_data w = initialDatabase → load None w = (Ret b, w') →
  b = false ∧ w_data w' = d ∧ w_poisoned w' = w_poisoned w.
Proof.
  intros Hd Hi. rewrite load_none. unfold load_snapshot.
  intros (q & w1 & Hq & Hl)%bind_returns. destruct q as [u|e]; [|done].
  apply try_returns, syscall_ret in Hq as ->. apply bind_returns in Hl as (u2 & w2 & Hx & Hl).
  injection Hx as _ <-. apply bind_returns in Hl as (w3 & w4 & Hx & Hl). injection Hx as <- <-.
  unfold durable in Hd. simpl in Hl. destruct (dk_snapshot (w_disk w)) as [body|].
  - rewrite Hd in Hl. apply bind_returns in Hl as (u5 & w5 & Hx & Hl). injection Hx as _ <-.
    apply bind_returns in Hl as (u6 & w6 & Hx & Hl). injection Hl as <- <-.
    destruct (validateDatabase d); [|done]. by injection Hx as _ <-.
  - injection Hd as <-. injection Hl as <- <-. done.
Qed.

Lemma OpenStore_ret dirSafe lockFree w b w' d :
  durable w = Ok d → OpenStore dirSafe lockFree None w = (Ret b, w') →
  b = false ∧ w_data w' = d ∧ w_poisoned w' = false.
Proof.
  intros Hd. unfold OpenStore. intros (? & w1 & ->%syscall_ret & Ho)%bind_returns.
  apply bind_returns in Ho as (? & w2 & ->%syscall_ret & Ho). destruct (negb dirSafe); [done|].
  apply bind_returns in Ho as (? & w3 & ->%syscall_ret & Ho). destruct (negb lockFree); [done|].
  apply bind_returns in Ho as (? & w4 & ->%syscall_ret & Ho).
  apply bind_returns in Ho as (? & w5 & Hm & Ho). injection Hm as _ <-.
  apply bind_returns in Ho as (? & w6 & ->%syscall_ret & Ho). by apply load_ret with (d := d) in Ho.
Qed.

(** A process that has just been started. *)
Definition booting w : World D :=
  set_w_mu true (set_w_healthySince 0 (set_w_stats zeroStats (set_w_spans [] w))).

Lemma Restart_unfold dirSafe lockFree w :
  Restart dirSafe lockFree w =
  match OpenStore dirSafe lockFree None (booting w) with
  | (Ret b, w') => (Ret b, set_w_mu false w')
  | (Fail e, w') => (Fail e, w')
  | (Died, w') => (Died, w')
  end.
Proof.
  unfold Restart, mbind, M_bind, modify. fold (booting w).
  by destruct (OpenStore dirSafe lockFree None (booting w)) as [[b|e|] w'].
Qed.

(** Start-up succeeds and agrees with the disk, or leaves it alone and does
    not serve. *)
Lemma Restart_consistent dirSafe lockFree w s :
  spec_run c (w_trace w) s → durable w = Ok (sp_durable s) →
  let o := (Restart dirSafe lockFree w).1 in let w' := (Restart dirSafe lockFree w).2 in
  w_disk w' = w_disk w ∧ w_trace w' = w_trace w ∧ w_dev w' = w_dev w ∧
  ((o = Ret false ∧ linked c (mkSpec (sp_durable s) (sp_durable s) false) w' ∧
    w_poisoned w' = false ∧ w_mu w' = false) ∨
   ((∀ b, o ≠ Ret b) ∧ w_mu w' = true)).
Proof.
  intros Hr Hd.
  assert (Hr' : spec_run c (w_trace w) (mkSpec (sp_durable s) (sp_durable s) false)).
  { eapply run_silent; [done|]. destruct s. apply spec_restart. }
  rewrite Restart_unfold. pose proof (OpenStore_survives dirSafe lockFree (booting w)) as [E1 E2 E3 E4].
  destruct (OpenStore dirSafe lockFree None (booting w)) as [[b|e|] w'] eqn:Eo; simpl in *.
  - apply OpenStore_ret with (d := sp_durable s) in Eo as (-> & Hdata & Hpo); [|done].
    repeat (split; [done|]). left. split; [done|].
    split; [|done]. split; simpl; [by rewrite E2|unfold durable; simpl; by rewrite E1|done|done].
  - repeat (split; [done|]). by right.
  - repeat (split; [done|]). by right.
Qed.

(** On a machine where no system call fails it succeeds. *)
Lemma load_works w :
  disk_works → (∀ d, durable w = Ok d → validateDatabase d = Ok tt) → is_ok (durable w) = true →
  ∃ b w', load None w = (Ret b, w').
Proof.
  intros Hb Hv Hok. rewrite load_none. unfold load_snapshot, try, mbind, M_bind.
  rewrite syscall_works by done. simpl. unfold durable in *.
  destruct (dk_snapshot (w_disk w)) as [body|]; [|by eauto].
  destruct (strictDB body) as [d|e]; [|done]. rewrite (Hv d eq_refl). simpl. by eauto.
Qed.

Lemma Restart_works w s :
  disk_works → spec_run c (w_trace w) s → durable w = Ok (sp_durable s) →
  (Restart true true w).1 = Ret false.
Proof.
  intros Hb Hr Hd. destruct (Restart_consistent true true w s Hr Hd) as (_ & _ & _ & [[Ho _]|[Hne _]]); [done|].
  exfalso. revert Hne. rewrite Restart_unfold. unfold OpenStore, mbind, M_bind, modify.
  repeat (rewrite syscall_works by done; cbn [negb]).
  match goal with |- context [load None ?x] => set (w0 := x) end.
  destruct (load_works w0) as (b & w' & ->); [done| | |].
  - intros d. change (durable w0) with (durable w). rewrite Hd. intros [= <-].
    apply validateDatabase_iff, (run_good c _ _ Hr).
  - change (durable w0) with (durable w). by rewrite Hd.
  - intros Hne. by destruct (Hne b).
Qed.

Lemma reachable_consistent w : reachable w → consistent w.
Proof.
  induction 1 as [w (E1 & E2 & E3)|w w' _ (s & Hr & Hd & Hl) Hstep].
  - exists (mkSpec initialDatabase initialDatabase false). rewrite E3.
    split; [constructor|]. assert (durable w = Ok initialDatabase) by (unfold durable; by rewrite E2).
    split; [done|]. intros _. split; rewrite ?E3; try done. constructor.
  - destruct Hstep as [cmd Hmu|dirSafe lockFree|dev fs n].
    + apply explained_consistent, execute_explained. exists s. by apply Hl.
    + destruct (Restart_consistent dirSafe lockFree _ _ Hr Hd) as (E1 & E2 & _ & [(_ & Hl' & _)|[_ Hmu]]).
      * apply explained_consistent. by eexists.
      * exists s. rewrite E2. split; [done|]. split; [unfold durable; by rewrite E1|]. by rewrite Hmu.
    + exists s. split; [done|]. split; [done|]. intros Hmu. by eapply linked_jframe; [|apply Hl].
Qed.

(** ** Claims *)

(** C1: every execution of the agent is an execution of the specification:
    the actions performed so far are a run of the abstract machine, and the
    durable snapshot is the one that run ends in. *)
Theorem engine_refines_spec w :
  reachable w → ∃ s, spec_run c (w_trace w) s ∧ durable w = Ok (sp_durable s).
Proof. intros (s & Hr & Hd & _)%reachable_consistent. eauto. Qed.

(** C4: across crashes, restarts and lost writes, the releases handed to
    [Backend.Install] have strictly increasing sequence numbers: none is
    installed twice, and none after a newer one. *)
Theorem installs_strictly_increase w :
  reachable w → StronglySorted Z.lt (installs (w_trace w)).
Proof. intros (s & Hr & _)%reachable_consistent. apply (run_installs c _ _ Hr). Qed.

(** C5: whatever reaches [Backend.Install] is the cached file of the release
    with exactly the signed size and digest, belongs to a release a trusted
    key signed for this device, and was journalled as [Installing] with
    distinct slots before the call. *)
Theorem install_only_verified w fs p r :
  reachable w → AInstall fs p r ∈ w_trace w →
  p = cachePath (c_StateDir c) (a_SHA256 (r_Artifact r)) ∧ holds_artifact fs p (r_Artifact r) ∧
  ∃ j, trusted c j ∧ j_Release j = r ∧ j_State j = Installing ∧ j_TargetSlot j ≠ j_OldSlot j ∧
    ∃ d, d ∈ journal (w_trace w) ∧ activeJob d = Some j.
Proof. intros (s & Hr & _)%reachable_consistent. by eapply run_install_checked. Qed.

(** C6: every snapshot that ever reached the disk is valid, follows from the
    one before by one transaction of the state machine, and the newest one is
    what a restarted process reads. *)
Theorem journal_is_a_history w :
  reachable w →
  history c initialDatabase (journal (w_trace w)) ∧
  (∀ d, d ∈ journal (w_trace w) → db_ok d) ∧
  durable w = Ok (default initialDatabase (last (journal (w_trace w)))).
Proof.
  intros (s & Hr & Hd & _)%reachable_consistent. destruct (run_history c _ _ Hr) as [Hh Hl].
  split; [done|]. split; [|by rewrite Hl]. intros d Hin.
  apply (history_good c initialDatabase (journal (w_trace w)) d); [apply good_initial|done|done].
Qed.

Lemma consecutive_snapshots w l1 d d' l2 :
  reachable w → initialDatabase :: journal (w_trace w) = l1 ++ d :: d' :: l2 →
  good c d ∧ txn c d d'.
Proof.
  intros (s & Hr & _)%reachable_consistent. destruct (run_history c _ _ Hr) as [Hh _].
  eapply history_consecutive; [apply good_initial|done].
Qed.

(** C8: between two consecutive snapshots a stored job is untouched, or was
    finished and archived, or is the active job and moved along one edge of
    the state machine with its assignment, release and (after installation
    started) slot plan intact. *)
Theorem jobs_follow_state_machine w l1 d d' l2 id j :
  reachable w → initialDatabase :: journal (w_trace w) = l1 ++ d :: d' :: l2 →
  db_Jobs d !! id = Some j → job_step c d d' id j.
Proof. intros Hr E Hj. destruct (consecutive_snapshots _ _ _ _ _ Hr E). by apply txn_jobs. Qed.

(** C11: events are numbered consecutively without wrap-around, appended at
    the end, and removed only by an acknowledgement, which removes exactly
    those numbered up to it. *)
Theorem outbox_is_reliable w l1 d d' l2 :
  reachable w → initialDatabase :: journal (w_trace w) = l1 ++ d :: d' :: l2 → event_step d d'.
Proof. intros Hr E. destruct (consecutive_snapshots _ _ _ _ _ Hr E). by eapply txn_events. Qed.

(** The highest accepted release sequence and the supply-chain snapshot
    version never decrease, so neither a replayed release nor an older
    snapshot is accepted again. *)
Theorem sequences_never_decrease w l1 d d' l2 :
  reachable w → initialDatabase :: journal (w_trace w) = l1 ++ d :: d' :: l2 →
  db_HighSequence d ≤ db_HighSequence d' ∧ db_SnapshotVersion d ≤ db_SnapshotVersion d'.
Proof. intros Hr E. destruct (consecutive_snapshots _ _ _ _ _ Hr E). by eapply txn_sequences. Qed.

(** C7: after any history, including a process that died in the middle of an
    operation, start-up either succeeds and the new process agrees with the
    disk, or it does not serve and leaves disk and device as they were; it
    never fails because of what the journal contains. *)
Theorem restart_recovers dirSafe lockFree w :
  reachable w →
  let o := (Restart dirSafe lockFree w).1 in let w' := (Restart dirSafe lockFree w).2 in
  durable w' = durable w ∧ w_dev w' = w_dev w ∧
  ((o = Ret false ∧ durable w' = Ok (w_data w') ∧ w_poisoned w' = false ∧ w_mu w' = false) ∨
   ((∀ b, o ≠ Ret b) ∧ w_mu w' = true)) ∧
  (disk_works → dirSafe = true → lockFree = true → o = Ret false).
Proof.
  intros (s & Hr & Hd & _)%reachable_consistent o w'. subst o w'.
  destruct (Restart_consistent dirSafe lockFree _ _ Hr Hd) as (E1 & _ & E3 & Hcase).
  split; [unfold durable; by rewrite E1|]. split; [done|]. split.
  - destruct Hcase as [(? & [_ Hdur Hm _] & ? & ?)|?]; [left|by right]. rewrite Hm. done.
  - intros Hb -> ->. by eapply Restart_works.
Qed.

End system.
