(* ===== verification/Typed.v ===== *)
(** * The journal's types

    Snapshots of the journal hold only values of the Go types they are
    stored in and loaded into: 64-bit numbers, the named states, digests in
    the one spelling the validators accept. *)
From stdpp Require Import base tactics gmap strings list sorting.
From Stdlib Require Import ZArith Lia.
From S2P Require Import Prelude Model Config Crypto Fmt Files Backend Metrics Trace Topo Verify World Store TrustMeta MetricsText Payload Download Engine EngineFrame EngineSpec Refine RefineEngine Fleet API System.
Local Open Scope Z_scope.

(** One of the constants of type [State]. *)
Definition named (s : State) : bool := match s with UnknownState _ => false | _ => true end.

Definition uint64 (n : Z) : Prop := 0 ≤ n < 2 ^ 64.

Record event_typed (e : Event) : Prop := {
  et_sequence : uint64 (e_Sequence e);
  et_state : named (e_State e) = true;
}.

Record job_typed (c : Config) (j : Job) : Prop := {
  jt_sequence : uint64 (j_Sequence j);
  jt_state : named (j_State j) = true;
  jt_schema : r_Schema (j_Release j) = 1 ∨ r_Schema (j_Release j) = 2;
  jt_id : identifier (j_JobID j) = true;
  jt_artifact : HasOS (j_Release j) = true →
    digestPattern (a_SHA256 (r_Artifact (j_Release j))) = true ∧ 0 < a_Size (r_Artifact (j_Release j)) ≤ c_MaxArtifactBytes c;
}.

Record well_typed (c : Config) (d : Database) : Prop := {
  wt_high : uint64 (db_HighSequence d);
  wt_sequence : uint64 (db_EventSequence d);
  wt_events : Forall event_typed (db_Events d);
  wt_jobs : map_Forall (fun _ j => job_typed c j) (db_Jobs d);
}.

Lemma uint64_u64 n : uint64 (u64 n).
Proof. unfold uint64, u64. apply Z.mod_pos_bound. lia. Qed.

Lemma edge_named s s' : state_edge s s' → named s' = true.
Proof. by destruct 1. Qed.

Section typed.
Context `{MapRange, Limits, LocalZone, NetURL, Net, Ed25519, LineJSON, Unicode}.
Context `{JSONDecode Release, JSONEncode Assignment, JSONDecode multiSigned, JSONDecode rootMeta,
          JSONDecode snapshotMeta, JSONDecode timestampMeta, JSONDecode targetsMeta}.
Context `{JSONDecode Assignment, JSONEncode (list Event), JSONDecode ackBody, JSONDecode backupBody, FleetNet}.
Context `{Codec, Env} {D : Type} `{Backend D}.
Context (c : Config).
Implicit Types (w : World D) (d : Database).

(** The decoder puts only a uint64 into a uint64 field. *)
Definition decodes_uint64 : Prop := ∀ b (r : Release) rest, json_Decode b = Ok (r, rest) → uint64 (r_Sequence r).

Context (Hdecode : decodes_uint64).

Lemma verified_uint64 env now r : VerifyEnvelope env c now = Ok r → uint64 (r_Sequence r).
Proof.
  intros (_ & _ & r0 & a & Hs & ->)%VerifyEnvelope_ok.
  rewrite (proj1 (set_r_Artifact_same _ r0)). unfold StrictJSON in Hs.
  destruct (json_Decode _) as [[v rest]|] eqn:E; [|done]. simpl in Hs. destruct (json_EOF rest); [|done].
  injection Hs as ->. by eapply Hdecode.
Qed.

(** A job from a verified envelope, in a named state. *)
Lemma trusted_typed j : trusted c j → named (j_State j) = true → job_typed c j.
Proof.
  intros (_ & Hid & now & Hv) Hst. pose proof (verified_uint64 _ _ _ Hv).
  apply VerifyEnvelope_ok in Hv as (Hs & Ha & _). split; try done. intros (? & ? & _)%Ha. done.
Qed.

Lemma event_append d e : uint64 (e_Sequence e) → named (e_State e) = true →
  Forall event_typed (db_Events d) → Forall event_typed (db_Events d ++ [e]).
Proof. intros. apply Forall_app_2; [done|]. constructor; [by split|constructor]. Qed.

Lemma drop_acked_typed n l : Forall event_typed l → Forall event_typed (drop_acked n l).
Proof. induction 1; simpl; [done|]. destruct (_ <=? _); [done|by constructor]. Qed.

Lemma op_typed d d1 : good c d → well_typed c d → op c d d1 → well_typed c d1.
Proof.
  intros Hg [Hh Hs He Hj] [a r now dt d1' j Hact Hnew Htr Hv _ _ _ Hseq [Hrest _] Hadd|j j' d1' Hjob Hedge Hsv|n d1' Ha|b Hn].
  - apply addEvent_ok in Hadd as ->. split; simpl.
    + by eapply verified_uint64.
    + apply uint64_u64.
    + rewrite Hrest. simpl. apply event_append; [apply uint64_u64|done|done].
    + rewrite Hrest. simpl. apply map_Forall_insert_2; [by apply trusted_typed|done].
  - apply save_fn_ok in Hsv as (Hjobs & _ & Hhigh & _ & Hev & Hevs).
    pose proof (edge_named _ _ (je_state _ _ _ Hedge)) as Hst.
    split; rewrite ?Hjobs, ?Hhigh, ?Hev, ?Hevs; [done|apply uint64_u64|..].
    + by apply event_append; [apply uint64_u64|..].
    + apply map_Forall_insert_2; [|done]. apply trusted_typed; [|done].
      destruct (gd_trusted _ _ Hg _ _ Hjob) as (? & ? & ?). unfold trusted, j_JobID.
      by rewrite (je_assignment _ _ _ Hedge), (je_release _ _ _ Hedge).
  - apply ack_fn_ok in Ha as ->. split; simpl; try done. by apply drop_acked_typed.
  - by split.
Qed.

Lemma txn_typed d d' : good c d → well_typed c d → txn c d d' → well_typed c d'.
Proof.
  intros Hg Hw (d1 & sp & Hop & Hc & _). pose proof (op_typed _ _ Hg Hw Hop) as [Hh Hs He Hj].
  destruct (op_facts _ _ _ Hg Hop) as (Hne & _).
  apply compact_active in Hc as (_ & E1 & _ & Hsub & E2 & E3 & _); [|done].
  split; rewrite ?E1, ?E2, ?E3; try done. intros id j Hin. eapply Hj, lookup_weaken; done.
Qed.

Lemma history_typed d l d' : good c d → well_typed c d → history c d l → d' ∈ d :: l → well_typed c d'.
Proof.
  revert d. induction l as [|d0 l IH]; intros d Hg Hw Hh Hin.
  - apply list_elem_of_singleton in Hin. by subst.
  - apply elem_of_cons in Hin as [->|Hin]; [done|]. destruct Hh as [Ht Hh].
    eapply IH; [by eapply txn_good|by eapply txn_typed|done|done].
Qed.

(** C19: whatever happens, the journal is well typed: in every snapshot that
    ever reached the disk, and in the one a restart would load, sequence
    numbers are uint64, every state of a job or an event is one of the named
    states, and every job has a valid identifier, a known schema and an
    operating-system artifact with a digest and a size within the limits. *)
Theorem journal_well_typed w :
  reachable c w →
  (∀ d, d ∈ journal (w_trace w) → well_typed c d) ∧ (∀ d, durable w = Ok d → well_typed c d).
Proof.
  intros (s & Hr & Hd & _)%reachable_consistent. destruct (run_history c _ _ Hr) as [Hh Hl].
  assert (Hall : ∀ d, d ∈ initialDatabase :: journal (w_trace w) → well_typed c d).
  { intros d. apply history_typed; [apply good_initial|by split|done]. }
  split; [intros d Hin; apply Hall; by right|]. intros d Hdd. rewrite Hd in Hdd. injection Hdd as <-. rewrite <- Hl.
  destruct (last (journal (w_trace w))) as [d|] eqn:El; [|apply Hall; left].
  apply Hall. right. by eapply last_Some_elem_of.
Qed.
End typed.
