(* ===== verification/Commands.v ===== *)
(** * Functional behaviour of the commands

    What one call does from a given world: retried and conflicting
    assignments, replayed sequences, an installation interrupted by a crash,
    jobs that need an operator, the health window. *)
From stdpp Require Import base tactics gmap strings list.
From Stdlib Require Import ZArith Lia.
From S2P Require Import Prelude Model Config Crypto Fmt Files Backend Metrics Trace Topo Verify World Store TrustMeta MetricsText Payload Download Engine EngineFrame EngineSpec.
Local Open Scope Z_scope.

Section commands.
Context `{MapRange, Limits, LocalZone, NetURL, Net, Ed25519, LineJSON, Unicode}.
Context `{JSONDecode Release, JSONEncode Assignment, JSONDecode multiSigned, JSONDecode rootMeta,
          JSONDecode snapshotMeta, JSONDecode timestampMeta, JSONDecode targetsMeta}.
Context `{Codec, Env} {D : Type} `{Backend D}.
Context (c : Config).
Implicit Types w : World D.

Lemma View_spec w : View w = (Ret (w_data w), w).
Proof. unfold View, mbind, M_bind, get, mret, M_ret. by rewrite cloneDB_id. Qed.

Lemma current_spec w : current w = (Ret (activeJob (w_data w)), w).
Proof. unfold current, mbind, M_bind. by rewrite View_spec. Qed.

Lemma mu_twice w b : w_mu w = b → set_w_mu b w = w.
Proof. intros <-. by destruct w. Qed.

(** A locked call that leaves the world alone leaves it alone. *)
Lemma tryLocked_pure {A} busy (m : M (World D) A) w r :
  w_mu w = false → m (set_w_mu true w) = (r, set_w_mu true w) → r ≠ Died →
  tryLocked busy m w = (r, w).
Proof.
  intros Hmu Hm Hr. unfold tryLocked, locked, mbind, M_bind, get, modify, try. rewrite Hmu, Hm.
  destruct r as [x|e|]; [| |done]; simpl; destruct w; simpl in *; by subst.
Qed.

(** A retried assignment gets the stored job back, a different assignment
    under a stored job id is refused; in both cases nothing at all changes. *)
Theorem Submit_known_job a j w :
  w_mu w = false → identifier (asg_JobID a) = true → asg_DeviceID a = c_DeviceID c →
  db_Jobs (w_data w) !! asg_JobID a = Some j →
  Submit c a w =
    (if eqs (j_Fingerprint j) (Fingerprint a) then Ret j
     else Fail (errors_New "job ID reused with different assignment"), w).
Proof.
  intros Hmu Hid Hdev Hj. unfold Submit. apply tryLocked_pure; [done| |by destruct (eqs _ _)].
  unfold Submit_body. rewrite Hid, Hdev, eqs_refl. simpl.
  unfold mbind, M_bind. rewrite View_spec. simpl. rewrite Hj. by destruct (eqs _ _).
Qed.

(** Neither the journal nor the device nor a file changed, and nothing was
    asked of the backend. *)
Record quiet w w' : Prop := {
  qt_data : w_data w' = w_data w;
  qt_poisoned : w_poisoned w' = w_poisoned w;
  qt_disk : w_disk w' = w_disk w;
  qt_dev : w_dev w' = w_dev w;
  qt_fs : w_fs w' = w_fs w;
  qt_trace : w_trace w' = w_trace w;
}.

Global Instance quiet_preorder : PreOrder quiet.
Proof. split; [done|]. intros w1 w2 w3 [] []. split; congruence. Qed.

Lemma tick_quiet : keeps quiet (tick (D := D)).
Proof. intros w. unfold tick. by destruct (env_crash _). Qed.
Local Hint Resolve tick_quiet : keeps.
Lemma Now_quiet : keeps quiet (Now (D := D)).
Proof. unfold Now. keeps_auto. Qed.
Lemma ReadFile_quiet p : keeps quiet (ReadFile (D := D) p).
Proof. unfold ReadFile, syscall, view_fs. keeps_auto. Qed.
Local Hint Resolve Now_quiet ReadFile_quiet : keeps.
Lemma readSigned_quiet p : keeps quiet (readSigned (D := D) p).
Proof. unfold readSigned. keeps_auto. Qed.
Local Hint Resolve readSigned_quiet : keeps.
Lemma evaluateSupplyChain_quiet db b k r now : keeps quiet (evaluateSupplyChain (D := D) c db b k r now).
Proof. unfold evaluateSupplyChain, loadRoot. keeps_auto. Qed.
Lemma gateMeasuredBoot_quiet r : keeps quiet (gateMeasuredBoot (D := D) r).
Proof. unfold gateMeasuredBoot. keeps_auto. Qed.
Local Hint Resolve evaluateSupplyChain_quiet gateMeasuredBoot_quiet : keeps.

(** [refuses m]: [m] returns no value and leaves everything alone. *)
Definition refuses {A} w (m : M (World D) A) : Prop :=
  (∀ x, (m w).1 ≠ Ret x) ∧ quiet w (m w).2.

Lemma refuses_bind {A B} w (m : M (World D) A) (k : A → M (World D) B) :
  keeps quiet m → (∀ x w', m w = (Ret x, w') → quiet w w' → refuses w' (k x)) → refuses w (m ≫= k).
Proof.
  intros Hq Hk. specialize (Hq w). unfold refuses, mbind, M_bind.
  destruct (m w) as [[x|e|] w'] eqn:E; simpl in *; [|done..].
  destruct (Hk x w' eq_refl Hq) as [? ?]. split; [done|]. by etrans.
Qed.

Lemma refuses_fail {A} w e : refuses w (fail e : M (World D) A).
Proof. by split. Qed.

(** A transaction whose closure refuses is refused. *)
Lemma refuses_update w fn :
  (∃ e, fn (w_data w) w = (Fail e, w)) → refuses w (Update fn).
Proof.
  intros [e Hfn]. unfold refuses, Update, mbind, M_bind, get. destruct (w_poisoned w); [done|].
  by rewrite cloneDB_id, Hfn.
Qed.

Lemma tryLocked_refuses {A} busy (m : M (World D) A) w :
  refuses (set_w_mu true w) m → refuses w (tryLocked busy m).
Proof.
  intros [Hr [? ? ? ? ? ?]]. unfold refuses, tryLocked, locked, mbind, M_bind, get, modify, try.
  destruct (w_mu w); [done|]. destruct (m (set_w_mu true w)) as [[x|e|] w'] eqn:E; simpl in *.
  - by destruct (Hr x).
  - split; [done|]. by split.
  - split; [done|]. by split.
Qed.

Lemma submit_fn_refuses a j supply now d w :
  db_Active d ≠ "" ∨ j_Sequence j ≤ db_HighSequence d →
  ∃ e, submit_fn c a j supply now d w = (Fail e, w).
Proof.
  unfold submit_fn. intros Hd. destruct (negb (eqs (db_Active d) "")) eqn:Ea; [by eexists|].
  destruct (events_len d >? hotEventLimit); [by eexists|]. reflect_bools.
  destruct Hd as [?|Hs]; [done|]. apply Z.leb_le in Hs. unfold j_Sequence in Hs. rewrite Hs. by eexists.
Qed.

(** C23: while a job is active, and for a release whose sequence is not above
    the highest accepted one, a new assignment is refused: no job is created,
    and journal, device and files (the transparency log included) stay as
    they are. *)
Theorem Submit_refused a w :
  db_Jobs (w_data w) !! asg_JobID a = None →
  (db_Active (w_data w) ≠ "" ∨
   ∀ now r, VerifyEnvelope (asg_Release a) c now = Ok r → r_Sequence r ≤ db_HighSequence (w_data w)) →
  (∀ j, (Submit c a w).1 ≠ Ret j) ∧ quiet w (Submit c a w).2.
Proof.
  intros Hnew Hbad. apply tryLocked_refuses. unfold Submit_body.
  destruct (_ || _); [apply refuses_fail|].
  apply refuses_bind; [unfold View; keeps_auto|]. intros db w1 Hv Hq1.
  rewrite View_spec in Hv. injection Hv as <- <-. simpl. rewrite Hnew.
  apply refuses_bind; [apply Now_quiet|]. intros now w2 _ Hq2.
  destruct (VerifyEnvelope (asg_Release a) c now) as [r|e] eqn:Hver; [|apply refuses_fail].
  apply refuses_bind; [apply keeps_ret; apply _|]. intros r' w3 Hr Hq3. injection Hr as <- <-.
  apply refuses_bind; [apply gateMeasuredBoot_quiet|]. intros _ w4 _ Hq4.
  apply refuses_bind; [apply evaluateSupplyChain_quiet|]. intros supply w5 _ Hq5.
  destruct (negb (After _ _) || _ || _); [apply refuses_fail|].
  assert (Hd : w_data w5 = w_data w).
  { by rewrite (qt_data _ _ Hq5), (qt_data _ _ Hq4), (qt_data _ _ Hq2). }
  destruct (refuses_update w5 (submit_fn c a (newJob a r now) supply now)) as [Hne Hq].
  { apply submit_fn_refuses. rewrite Hd. destruct Hbad as [?|Hb]; [by left|right]. by eapply Hb. }
  unfold refuses, mbind, M_bind. destruct (Update _ w5) as [[[]|e|] w6]; simpl in *; [|done..].
  by destruct (Hne tt).
Qed.

(** A job that needs an operator stops the engine: a step performs no
    backend call and changes neither journal nor files, whatever the time. *)
Theorem needs_recovery_blocks j w :
  activeJob (w_data w) = Some j → j_State j = NeedsRecovery → quiet w (Step c w).2.
Proof.
  intros Hj Hst.
  assert (Hb : quiet (set_w_mu true w) (Step_body c (set_w_mu true w)).2).
  { unfold Step_body, mbind, M_bind. rewrite current_spec. simpl. rewrite Hj.
    assert (Hk : keeps quiet (now ← Now; step_job c j now)); [|apply Hk].
    apply keeps_bind; [apply _|apply Now_quiet|]. intros now. unfold step_job. rewrite Hst. keeps_auto. }
  destruct Hb as [? ? ? ? ? ?]. unfold Step, locked, mbind, M_bind, modify, try.
  destruct (Step_body c (set_w_mu true w)) as [[[]|e|] w']; simpl in *; by split.
Qed.

(** After a release without an OS image has committed, its job has no
    slots on record, so the next boot of the device, healthy or not, is
    refused as unrecognized and never confirmed. *)
Theorem payload_only_boot_refused w s dev :
  let j := latestCompleted (db_Jobs (w_data w)) in
  db_Jobs (w_data w) ≠ ∅ → j_State j = Committed → j_JobID j ≠ "" →
  j_OldSlot j = "" → j_TargetSlot j = "" →
  env_crash (w_tick w) = false → bk_Status (w_dev w) = (Ok s, dev) →
  ds_Operation s = "idle" → ds_Booted s ≠ "" → bc_BootID (db_BootCheck (w_data w)) ≠ ds_BootID s →
  (confirmNormalBoot c w).1 = Fail (errors_New "unrecognized normal boot; refusing mark-good").
Proof.
  intros j Hne Hst Hid Hold Htgt Hcr Hs Hidle Hboot Hbc. unfold confirmNormalBoot.
  unfold mbind at 1, M_bind at 1. rewrite View_spec. simpl.
  assert (Hz : (size (db_Jobs (w_data w)) =? 0)%nat = false).
  { apply Nat.eqb_neq. by rewrite map_size_empty_iff. }
  rewrite Hz. unfold Status, tick, device, mbind, M_bind. rewrite Hcr. simpl. rewrite Hs. simpl.
  rewrite Hidle. simpl. rewrite (proj2 (eqs_false _ _) Hbc). simpl.
  fold j. rewrite (proj2 (eqs_false _ _) Hid).
  assert (Hk : knownVersions j !! ds_Booted s = None).
  { unfold knownVersions. rewrite Hst, Hold, Htgt. simpl. by rewrite !lookup_insert_ne by congruence. }
  rewrite Hk. done.
Qed.

End commands.
