(* ===== verification/Progress.v ===== *)
(** * Updates finish

    Total correctness of the engine: on a machine that works, with an
    artifact that can be fetched, a device that does what its backend
    promises and checks that pass, an accepted job is committed after
    finitely many calls of [Step].

    The device is known through the promises of [Dependable]; the simulator
    keeps them. *)
From stdpp Require Import base tactics gmap strings list.
From Stdlib Require Import ZArith Lia.
From S2P Require Import Prelude Model Config Crypto Files Backend Dependable Metrics Trace Topo Verify World Store TrustMeta Payload Download Engine EngineFrame EngineSpec Refine RefineEngine Commands.
Local Open Scope Z_scope.

(** ** Code that returns

    [gives m w Q]: [m] returns from [w], with a result and a world in [Q]. *)
Definition gives {W A} (m : M W A) (w : W) (Q : A → W → Prop) : Prop := ∃ x w', m w = (Ret x, w') ∧ Q x w'.

Section gives.
Context {W : Type}.

Lemma gives_ret {A} (x : A) (w : W) Q : Q x w → gives (mret x) w Q.
Proof. intros Hq. by exists x, w. Qed.

Lemma gives_bind {A B} (m : M W A) (k : A → M W B) w Q R :
  gives m w Q → (∀ x w', Q x w' → gives (k x) w' R) → gives (m ≫= k) w R.
Proof.
  intros (x & w' & Hm & Hq) Hk. destruct (Hk _ _ Hq) as (y & w2 & Hy & Hr). exists y, w2.
  split; [|done]. unfold mbind, M_bind. by rewrite Hm.
Qed.

Lemma gives_mono {A} (m : M W A) w (Q R : A → W → Prop) : gives m w Q → (∀ x w', Q x w' → R x w') → gives m w R.
Proof. intros (x & w' & Hm & Hq) Hqr. exists x, w'. auto. Qed.

Lemma gives_try {A} (m : M W A) w (Q : A → W → Prop) (R : result A → W → Prop) :
  gives m w Q → (∀ x w', Q x w' → R (Ok x) w') → gives (try m) w R.
Proof. intros (x & w' & Hm & Hq) Hqr. exists (Ok x), w'. split; [|auto]. unfold try. by rewrite Hm. Qed.

Lemma gives_try_bind {A B} (m : M W A) (k : result A → M W B) w Q R :
  gives m w Q → (∀ x w', Q x w' → gives (k (Ok x)) w' R) → gives (try m ≫= k) w R.
Proof.
  intros Hm Hk. eapply gives_bind with (Q := fun y w' => ∃ x, y = Ok x ∧ Q x w').
  - eapply gives_try; [exact Hm|]. intros x w' Hq. by exists x.
  - intros y w' (x & -> & Hq). by apply Hk.
Qed.

Lemma gives_eq {A} (m : M W A) w x w' (Q : A → W → Prop) : m w = (Ret x, w') → Q x w' → gives m w Q.
Proof. intros Hm Hq. by exists x, w'. Qed.
End gives.

(** ** The journal takes the next state *)
Section journal.
Context `{MapRange, Limits, JSONEncode Assignment}.

(** Space for [k] more events, in the outbox and in the counter. *)
Record room (k : Z) (d : Database) : Prop := {
  rm_jobs : jobs_len d ≤ hotJobLimit;
  rm_events : events_len d + k ≤ 10000;
  rm_seq : 0 ≤ db_EventSequence d ∧ db_EventSequence d + k < 2 ^ 64;
}.

Lemma events_snoc limit p l e limit' :
  events_ordered limit p l → p ≤ limit → limit < e_Sequence e ≤ limit' → events_ordered limit' p (l ++ [e]).
Proof.
  revert p. induction l as [|x l IH]; intros p Ho Hp Hlt; simpl; [lia|]. destruct Ho as [Hx Ho].
  split; [lia|]. apply IH; [done|lia|done].
Qed.

Lemma save_fn_works j0 j d k :
  db_ok d → room (k + 1) d → 0 ≤ k → db_Jobs d !! j_JobID j = Some j0 → db_Active d = j_JobID j →
  j_JobID j ≠ "" → j_Fingerprint j = Fingerprint (j_Assignment j) → j_Release j = j_Release j0 →
  knownState (j_State j) = true →
  ∃ d', save_fn j d = Ok d' ∧ db_ok d' ∧ room k d' ∧ db_Jobs d' = <[j_JobID j := j]> (db_Jobs d) ∧
    db_Active d' = (if Terminal (j_State j) then "" else j_JobID j).
Proof.
  intros Hok [Hrj Hre [Hr0 Hrs]] Hk Hj Ha Hne Hf Hrel Hst. destruct Hok as [Hs Hn Hsz Hel Hjobs Hact Hev].
  destruct (save_fn j d) as [d'|e] eqn:E.
  2:{ exfalso. unfold save_fn, addEvent in E. destruct (Terminal _); simpl in E;
        (destruct (_ >=? _) eqn:Eg; [|done]); unfold events_len in *; simpl in Eg; lia. }
  exists d'. split; [done|]. pose proof E as (Ej & Ea & Eh & _ & Eq & Ee)%save_fn_ok.
  assert (Esch : db_Schema d' = db_Schema d ∧ db_JobsNil d' = db_JobsNil d).
  { revert E. unfold save_fn. intros ->%addEvent_ok. by destruct (Terminal _). }
  rewrite u64_small in Eq, Ee by lia. rewrite Ha in Ea.
  assert (Hlen : jobs_len d' = jobs_len d).
  { unfold jobs_len. rewrite Ej, map_size_insert_Some; [done|by rewrite Hj]. }
  assert (Hevl : events_len d' = events_len d + 1).
  { unfold events_len. rewrite Ee, length_app. simpl. lia. }
  split; [|split; [|done]].
  - destruct Esch as [Es1 Es2]. split; rewrite ?Es1, ?Es2; try done; try lia.
    + intros id jj. rewrite Ej. intros [[<- <-]|[Hid Hl]]%lookup_insert_Some.
      * pose proof (Hjobs _ _ Hj) as [_ _ Hseq _ _]. split; [done|done| |done|].
        -- unfold j_Sequence in *. rewrite Hrel, Eh. lia.
        -- intros Ht. by rewrite Ea, Ht.
      * destruct (Hjobs _ _ Hl) as [? ? ? ? Hact']. split; [done|done|lia|done|]. intros Ht.
        apply Hact' in Ht. congruence.
    + rewrite Ea, Ej. destruct (Terminal (j_State j)) eqn:Et; [done|]. intros _. exists j.
      split; [apply lookup_insert_eq|done].
    + rewrite Eq, Ee. apply (events_snoc (db_EventSequence d)); simpl; [done|lia|lia].
  - split; lia.
Qed.

Lemma compact_none k d : room k d → 0 ≤ k → compactHot d = Ok (d, []).
Proof. intros [? ? _] Hk. apply compactHot_small; lia. Qed.
End journal.

(** ** A machine that works *)
Section machine.
Context `{MapRange, Limits, LocalZone, NetURL, Net, Ed25519, LineJSON}.
Context `{JSONDecode Release, JSONEncode Assignment, JSONDecode multiSigned, JSONDecode rootMeta,
          JSONDecode snapshotMeta, JSONDecode timestampMeta, JSONDecode targetsMeta}.
Context `{Codec, Env} {D : Type} `{Dependable D}.
Context (c : Config).
Implicit Types w : World D.

(** No call fails, no transaction is lost, the process lives. *)
Record machine_works : Prop := {
  mw_disk : disk_works;
  mw_tx : ∀ n, env_tx n = TxOk;
  mw_rand : ∀ n, ∃ id, env_rand n = Ok id;
  mw_ctx : ∀ n, env_ctx n = None;
}.
Context (Hmachine : machine_works).

(** The clock ticked; the journal, the device and the files did not change. *)
Record aside w w' : Prop := {
  as_tick : (w_tick w ≤ w_tick w')%nat;
  as_mu : w_mu w' = w_mu w;
  as_data : w_data w' = w_data w;
  as_poisoned : w_poisoned w' = w_poisoned w;
  as_dev : w_dev w' = w_dev w;
  as_fs : w_fs w' = w_fs w;
  as_healthy : w_healthySince w' = w_healthySince w;
}.
Global Instance aside_preorder : PreOrder aside.
Proof. split; [intros w; split; done|]. intros w1 w2 w3 [] []. split; try congruence; lia. Qed.

Lemma tick_gives w : gives tick w (fun n w' => n = w_tick w ∧ w_tick w' = S (w_tick w) ∧ aside w w').
Proof.
  destruct (mw_disk Hmachine (w_tick w)) as [Hc _]. eapply gives_eq; [unfold tick; by rewrite Hc|].
  split; [done|]. split; [done|]. split; simpl; try done; lia.
Qed.

Lemma Now_gives w : gives Now w (fun t w' => t = env_now (w_tick w) ∧ w_tick w' = S (w_tick w) ∧ aside w w').
Proof.
  unfold Now. eapply gives_bind; [apply tick_gives|]. intros n w' (-> & Hlt & Ha). by apply gives_ret.
Qed.

Lemma syscall_gives w : gives syscall w (fun _ w' => w_tick w' = S (w_tick w) ∧ aside w w').
Proof.
  unfold syscall. eapply gives_bind; [apply tick_gives|]. intros n w' (-> & Ht & Ha).
  rewrite (proj2 (mw_disk Hmachine _)). by apply gives_ret.
Qed.

Lemma gives_view {A} (k : FS → M (World D) A) w Q : gives (k (w_fs w)) w Q → gives (view_fs ≫= k) w Q.
Proof. done. Qed.

Lemma gives_modify {A} f (k : unit → M (World D) A) w Q : gives (k tt) (f w) Q → gives (modify f ≫= k) w Q.
Proof. done. Qed.

Lemma CheckArtifact_gives p a w : holds_artifact (w_fs w) p a → gives (CheckArtifact p a) w (fun _ w' => w_tick w' = S (w_tick w) ∧ aside w w').
Proof.
  intros Hh. unfold CheckArtifact. eapply gives_bind; [apply syscall_gives|]. intros ? w' [Ht Ha].
  apply gives_view. rewrite (as_fs _ _ Ha), (proj2 (checkFile_iff _ _ _) Hh). by apply gives_ret.
Qed.

Lemma randomHex_gives w : gives randomHex w (fun _ w' => w_tick w' = S (w_tick w) ∧ aside w w').
Proof.
  unfold randomHex. eapply gives_bind; [apply tick_gives|]. intros n w' (-> & Ht & Ha).
  destruct (mw_rand Hmachine (w_tick w)) as [id ->]. by apply gives_ret.
Qed.

Lemma nextSpan_gives j prev msg w :
  gives (nextSpan c j prev msg) w (fun p w' => (∃ tid sid, p.2 = set_j_SpanID sid (set_j_TraceID tid j)) ∧
    aside w w' ∧ (w_tick w' ≤ w_tick w + 2)%nat).
Proof.
  unfold nextSpan. eapply gives_bind with (Q := fun j' w' => (∃ tid, j' = set_j_TraceID tid j) ∧
    aside w w' ∧ (w_tick w' ≤ w_tick w + 1)%nat).
  - destruct (eqs _ _).
    + eapply gives_bind; [apply randomHex_gives|]. intros id w' [Ht Ha]. apply gives_ret.
      split; [eauto|]. split; [done|lia].
    + apply gives_ret. split; [exists (j_TraceID j); by destruct j|]. split; [done|lia].
  - intros j' w' ([tid ->] & Ha & Hb). eapply gives_bind; [apply randomHex_gives|]. intros id w2 [Ht Ha2]. apply gives_ret.
    split; [eauto|]. split; [by etrans|lia].
Qed.

Lemma stats_gives f w : gives (stats f) w (fun _ w' => w_tick w' = w_tick w ∧ aside w w').
Proof. eapply gives_eq; [done|]. split; [done|]. by split. Qed.

(** ** Saving a state *)

(** The process has job [j] open, with space for [k] more events, on a
    device that shows [v]. *)
Record open_job (k : Z) (j : Job) (v : DeviceStatus) w : Prop := {
  oj_poisoned : w_poisoned w = false;
  oj_db : db_ok (w_data w);
  oj_room : room k (w_data w);
  oj_active : db_Active (w_data w) = j_JobID j;
  oj_job : db_Jobs (w_data w) !! j_JobID j = Some j;
  oj_id : j_JobID j ≠ "";
  oj_shows : dp_shows (w_dev w) v;
}.

(** A job that [j] turns into keeps its identity. *)
Definition same_job (j j' : Job) : Prop :=
  j_Assignment j' = j_Assignment j ∧ j_Release j' = j_Release j ∧ j_Fingerprint j' = j_Fingerprint j.

Lemma open_aside k j v w w' : aside w w' → open_job k j v w → open_job k j v w'.
Proof.
  intros [] []. split; rewrite ?as_poisoned0, ?as_data0, ?as_dev0; done.
Qed.

Lemma open_current k j v w : open_job k j v w → activeJob (w_data w) = Some j.
Proof. intros []. unfold activeJob. by rewrite oj_active0. Qed.

(** Only the journal changed. *)
Record journaled w w' : Prop := {
  jn_tick : (w_tick w ≤ w_tick w')%nat;
  jn_mu : w_mu w' = w_mu w;
  jn_poisoned : w_poisoned w' = w_poisoned w;
  jn_dev : w_dev w' = w_dev w;
  jn_fs : w_fs w' = w_fs w;
  jn_healthy : w_healthySince w' = w_healthySince w;
}.
Global Instance journaled_preorder : PreOrder journaled.
Proof. split; [intros w; split; done|]. intros w1 w2 w3 [] []. split; try congruence; lia. Qed.
Lemma aside_journaled w w' : aside w w' → journaled w w'.
Proof. by intros []; split. Qed.

Lemma Update_gives fn d' k w :
  w_poisoned w = false → fn (w_data w) w = (Ret d', w) → db_ok d' → room k d' → 0 ≤ k →
  gives (Update fn) w (fun _ w' => w_data w' = d' ∧ journaled w w' ∧ w_tick w' = S (w_tick w)).
Proof.
  intros Hp Hs Hok Hr Hk. eapply gives_eq.
  - unfold Update, mbind, M_bind, get. rewrite Hp, cloneDB_id, Hs. simpl.
    rewrite (compact_none k) by done. simpl. rewrite (proj2 (validateDatabase_iff d') Hok). simpl.
    unfold try, persist, tick, mbind, M_bind. rewrite (proj1 (mw_disk Hmachine _)), (mw_tx Hmachine). reflexivity.
  - simpl. split; [done|]. split; [|done]. split; simpl; try done; lia.
Qed.

Lemma settlePayloads_none j st w :
  r_Targets (j_Release j) = [] → gives (settlePayloads c j st) w (fun _ w' => w' = w).
Proof.
  intros Ht. unfold settlePayloads. rewrite Ht. simpl. eapply gives_eq.
  - unfold mbind, M_bind. destruct (bool_decide (st = Committed)); simpl; destruct (_ && _); reflexivity.
  - done.
Qed.

Lemma save_gives k j0 j st msg v w :
  open_job (k + 1) j0 v w → 0 ≤ k → same_job j0 j → j_Fingerprint j0 = Fingerprint (j_Assignment j0) →
  r_Targets (j_Release j0) = [] → knownState st = true →
  gives (save c j st msg) w (fun _ w' => ∃ j', saved j st msg j' ∧ journaled w w' ∧
    db_Jobs (w_data w') !! j_JobID j0 = Some j' ∧ (Terminal st = false → open_job k j' v w') ∧
    (Terminal st = true → db_Active (w_data w') = "") ∧ (w_tick w' ≤ w_tick w + 4)%nat).
Proof.
  intros Ho Hk (Ea & Er & Ef) Hfp Ht Hst. unfold save.
  eapply gives_bind; [apply Now_gives|]. intros now w1 (_ & T1 & A1).
  eapply gives_bind; [by apply settlePayloads_none; simpl; rewrite Er|]. intros ? w2 ->.
  eapply gives_bind; [apply stats_gives|]. intros ? w3 [T3 A3].
  eapply gives_bind; [eapply gives_eq with (Q := fun d w' => d = w_data w3 ∧ w' = w3); [apply View_spec|done]|].
  intros d w4 [-> ->].
  eapply gives_bind; [apply nextSpan_gives|]. intros [span j'] w5 ((tid & sid & Hj') & A5 & T5). simpl in Hj'.
  assert (A : aside w w5) by (etrans; [exact A1|]; etrans; [exact A3|exact A5]).
  assert (Hsv : saved j st msg j').
  { subst j'. exists tid, sid, now. by destruct (db_Jobs (w_data w3) !! _). }
  assert (Hj'e : j_JobID j' = j_JobID j0 ∧ j_Assignment j' = j_Assignment j0 ∧ j_Release j' = j_Release j0 ∧
    j_Fingerprint j' = j_Fingerprint j0 ∧ j_State j' = st).
  { destruct Hsv as (? & ? & ? & ->). unfold j_JobID. simpl. by rewrite Ea. }
  destruct Hj'e as (Eid & Ea' & Er' & Ef' & Est).
  pose proof (open_aside _ _ _ _ _ A Ho) as [Hp Hdb Hroom Hact Hjob Hid Hsh].
  destruct (save_fn_works j0 j' (w_data w5) k) as (d' & Hs & Hok & Hroom' & Hjobs & Hact');
    rewrite ?Eid, ?Ea', ?Er', ?Ef', ?Est; try done.
  eapply gives_bind; [apply (Update_gives _ d' k); try done; by rewrite Hs|]. intros ? w6 (Hd & J & T6).
  rewrite Eid in Hjobs, Hact'. rewrite Est in Hact'.
  assert (Hfin : ∀ w7, w_data w7 = d' → journaled w5 w7 → w_tick w7 = w_tick w6 → ∃ j', saved j st msg j' ∧ journaled w w7 ∧
    db_Jobs (w_data w7) !! j_JobID j0 = Some j' ∧ (Terminal st = false → open_job k j' v w7) ∧
    (Terminal st = true → db_Active (w_data w7) = "") ∧ (w_tick w7 ≤ w_tick w + 4)%nat).
  { intros w7 Hd7 J7 T7. exists j'. split; [done|]. split; [etrans; [by apply aside_journaled|done]|]. rewrite Hd7.
    split; [by rewrite Hjobs, lookup_insert_eq|]. split; [|split; [intros E; by rewrite Hact', E|lia]].
    intros Hterm. rewrite Hterm in Hact'. split; rewrite ?Hd7, ?Eid; try done.
    - by rewrite (jn_poisoned _ _ J7).
    - by rewrite Hjobs, lookup_insert_eq.
    - by rewrite (jn_dev _ _ J7). }
  destruct env_spans; [|by apply gives_ret, Hfin]. eapply gives_eq; [done|]. apply Hfin; [done| |done].
  etrans; [exact J|]. by split.
Qed.

(** ** One step of an open job *)

(** What [Step] finds: the lock taken and the clock read. *)
Record stepping w w1 : Prop := {
  sp_tick : w_tick w1 = S (w_tick w);
  sp_data : w_data w1 = w_data w;
  sp_poisoned : w_poisoned w1 = w_poisoned w;
  sp_dev : w_dev w1 = w_dev w;
  sp_fs : w_fs w1 = w_fs w;
  sp_healthy : w_healthySince w1 = w_healthySince w;
}.

Lemma open_stepping k j v w w1 : stepping w w1 → open_job k j v w → open_job k j v w1.
Proof. intros [] []. split; rewrite ?sp_poisoned0, ?sp_data0, ?sp_dev0; done. Qed.

Lemma open_unlocked k j v w : open_job k j v w → open_job k j v (set_w_mu false w).
Proof. by intros []; split. Qed.

Lemma Step_gives k j v w (R : World D → Prop) :
  open_job k j v w →
  (∀ w1, stepping w w1 →
    gives (step_job c j (env_now (w_tick w))) w1 (fun _ w2 => R (set_w_mu false w2))) →
  gives (Step c) w (fun _ w' => R w').
Proof.
  intros Ho Hs. unfold Step, locked. apply gives_modify.
  eapply gives_bind with (Q := fun x w2 => x = Ok tt ∧ R (set_w_mu false w2)).
  - eapply gives_try with (Q := fun _ w2 => R (set_w_mu false w2)); [|intros [] w' Hq; done]. unfold Step_body.
    eapply gives_bind; [eapply gives_eq with (Q := fun x w' => x = Some j ∧ w' = set_w_mu true w);
      [rewrite current_spec; simpl; by rewrite (open_current k j v w Ho)|done]|].
    intros x w' [-> ->]. eapply gives_bind; [apply Now_gives|]. intros now w1 (-> & Hlt & Ha). apply Hs.
    destruct Ha. by split.
  - intros x w' [-> Hq]. apply gives_modify. by apply gives_ret.
Qed.

(** The job and what it needs. *)
Context (a : Assignment) (r : Release) (fs0 : FS) (fetchCalls : nat).

(** A reading of the clock inside the assignment's window, and readings a
    step up to the reboot can make. *)
Definition in_window (n : nat) : Prop :=
  asg_NotBefore a ≤ env_now n < asg_Deadline a ∧ env_now n < r_Expires r.
Definition on_time w : Prop := ∀ n, (w_tick w ≤ n < w_tick w + 5)%nat → in_window n.

Record update_possible : Prop := {
  up_signed : ∃ now, VerifyEnvelope (asg_Release a) c now = Ok r;
  up_auto : asg_AutoReboot a = true;
  up_os : r_Targets r = [] ∧ HasOS r = true;
  up_sbom : r_SBOMSHA256 r = "" ∧ c_RequireSBOMSignature c = false ∧ r_SBOMKeyID r = "" ∧ r_SBOMSignature r = [];
  up_artifact : releaseArtifacts r = Ok [r_Artifact r];
  up_jitter : DownloadJitter c = 0;
  up_allowed : ∀ n, DownloadAllowed c (env_now n) = Ok tt;
  up_media : c_LocalMediaDir c = "";
  up_supply : ∀ w, w_fs w = fs0 → gives (fetch c (r_Artifact r)) w (fun f w' =>
    ft_err f = None ∧ (w_tick w' ≤ w_tick w + fetchCalls)%nat);
  up_mono : ∀ m n, (m ≤ n)%nat → env_now m ≤ env_now n;
}.
Context (Hup : update_possible).

(** The job carries the assignment and its release. *)
Record plan (j : Job) : Prop := {
  pl_assignment : j_Assignment j = a;
  pl_release : j_Release j = r;
  pl_fingerprint : j_Fingerprint j = Fingerprint a;
  pl_after : j_DownloadAfter j = 0;
}.

Lemma plan_saved j st msg j' : plan j → saved j st msg j' → plan j'.
Proof. intros [] (? & ? & ? & ->). by split. Qed.

Lemma saved_state j st msg j' : saved j st msg j' → j_State j' = st.
Proof. by intros (? & ? & ? & ->). Qed.

(** [save] for a job on its plan, into a state that is not final. *)
Lemma save_plan k j0 j st msg v w :
  open_job (k + 1) j0 v w → 0 ≤ k → plan j0 → plan j → knownState st = true → Terminal st = false →
  gives (save c j st msg) w (fun _ w' => ∃ j', saved j st msg j' ∧ plan j' ∧ open_job k j' v w' ∧ journaled w w' ∧
    (w_tick w' ≤ w_tick w + 4)%nat).
Proof.
  intros Ho Hk [] Hp Hst Ht. eapply gives_mono; [eapply (save_gives k j0 j st msg v w Ho Hk)|].
  - destruct Hp. split; [congruence|]. split; congruence.
  - congruence.
  - rewrite pl_release0. apply Hup.
  - done.
  - intros ? w' (j' & Hs & Hj & _ & Hopen & _ & Hb). exists j'. split; [done|]. split; [by eapply plan_saved|]. auto.
Qed.

Lemma window_verifies n : in_window n → VerifyEnvelope (asg_Release a) c (env_now n) = Ok r.
Proof. intros [_ Hlt]. destruct (up_signed Hup) as [now Hv]. by eapply VerifyEnvelope_until. Qed.

Lemma preinstall_gives j n m w Q :
  plan j → in_window n → gives m w Q → gives (preinstall c j (env_now n) m) w Q.
Proof.
  intros [] Hwin Hm. unfold preinstall. rewrite pl_assignment0, (window_verifies n Hwin). destruct Hwin as [[? ?] ?].
  unfold Before. rewrite (proj2 (Z.ltb_lt _ _)) by done. simpl. by rewrite (proj2 (Z.ltb_ge _ _)) by done.
Qed.

(** Accepted: the download is armed. *)
Lemma step_accepted_gives k j v w :
  on_time w → open_job (k + 1) j v w → 0 ≤ k → plan j → j_State j = Accepted → w_fs w = fs0 →
  gives (Step c) w (fun _ w' => ∃ j', plan j' ∧ j_State j' = Downloading ∧ j_RebootRequested j' = j_RebootRequested j ∧
    open_job k j' v w' ∧ w_fs w' = fs0 ∧ (w_tick w ≤ w_tick w' ≤ w_tick w + 5)%nat).
Proof.
  intros Htime Ho Hk Hp Hst Hfs. eapply Step_gives; [done|]. intros w1 Hs. unfold step_job. rewrite Hst.
  apply preinstall_gives; [done|apply Htime; lia|]. unfold step_accepted, armDownload. rewrite (up_jitter Hup). simpl. rewrite orb_true_r.
  eapply gives_bind with (Q := fun x w' => x = j ∧ w' = w1); [by apply gives_ret|]. intros x w' [-> ->].
  eapply gives_mono; [eapply save_plan; try done; by eapply open_stepping|].
  intros ? w2 (j' & Hsv & Hp' & Ho' & Hj & Hb). exists j'. split; [done|]. split; [by eapply saved_state|].
  split; [by destruct Hsv as (? & ? & ? & ->)|]. split; [by apply open_unlocked|].
  simpl. split; [by rewrite (jn_fs _ _ Hj), (sp_fs _ _ Hs)|]. pose proof (jn_tick _ _ Hj). pose proof (sp_tick _ _ Hs). lia.
Qed.

(** Downloading: the artifact is fetched into the cache. *)
Lemma step_downloading_gives k j v w :
  on_time w → open_job (k + 1) j v w → 0 ≤ k → plan j → j_State j = Downloading → w_fs w = fs0 →
  gives (Step c) w (fun _ w' => ∃ j', plan j' ∧ j_State j' = Verified ∧ j_RebootRequested j' = j_RebootRequested j ∧
    open_job k j' v w' ∧ holds_artifact (w_fs w') (finalPath c (r_Artifact r)) (r_Artifact r) ∧
    (w_tick w ≤ w_tick w' ≤ w_tick w + fetchCalls + 6)%nat).
Proof.
  intros Htime Ho Hk Hp Hst Hfs. eapply Step_gives; [done|]. intros w1 Hs. unfold step_job. rewrite Hst.
  apply preinstall_gives; [done|apply Htime; lia|]. pose proof Hp as [Pa Pr Pf Pd]. unfold step_downloading. rewrite Pr, (up_artifact Hup).
  eapply gives_bind with (Q := fun x w' => x = [r_Artifact r] ∧ w' = w1); [by apply gives_ret|]. intros x w' [-> ->].
  unfold artifactsLocal. rewrite (up_media Hup). simpl.
  eapply gives_bind with (Q := fun x w' => x = false ∧ w' = w1); [by apply gives_ret|]. intros x w' [-> ->].
  rewrite Pd, (up_allowed Hup). simpl. unfold step_fetch, fetchAll. simpl. rewrite Pr, (up_artifact Hup). simpl.
  eapply gives_bind with (Q := fun x w' => x.2 = None ∧ frame w1 w' ∧
    holds_artifact (w_fs w') (finalPath c (r_Artifact r)) (r_Artifact r) ∧ (w_tick w' ≤ w_tick w1 + fetchCalls)%nat).
  - destruct (up_supply Hup w1) as (f & w2 & Hf & Hnone & Hb); [by rewrite (sp_fs _ _ Hs)|].
    eapply gives_bind; [eapply gives_eq with (Q := fun x w' => x = f ∧ w' = w2); [exact Hf|done]|].
    intros x w' [-> ->]. rewrite Hnone. apply gives_ret. split; [done|]. split.
    + pose proof (fetch_frame c (r_Artifact r) w1) as Hfr. by rewrite Hf in Hfr.
    + split; [by apply (fetch_delivers c _ _ _ _ Hf)|done].
  - intros [[n resumed] err] w2 (Hnone & Hfr & Hh & Hb2). simpl in Hnone. subst err.
    assert (Ho2 : open_job (k + 1) j v w2).
    { pose proof (open_stepping _ _ _ _ _ Hs Ho) as []. destruct Hfr. split; congruence. }
    eapply gives_bind with (Q := fun _ w' => w_tick w' = S (w_tick w2) ∧ aside w2 w').
    { unfold Since. eapply gives_bind; [apply tick_gives|]. intros ? ? (_ & ? & ?). by apply gives_ret. }
    intros el w3 [T3 A3]. eapply gives_bind; [apply stats_gives|]. intros ? w4 [T4 A4].
    eapply gives_mono; [eapply (save_plan k j); [| | |by split|done|done]|].
    + eapply open_aside; [|done]. by etrans.
    + done.
    + done.
    + intros ? w5 (j' & Hsv & Hp' & Ho' & Hj & Hb5). exists j'. split; [done|]. split; [by eapply saved_state|].
      split; [by destruct Hsv as (? & ? & ? & ->)|]. split; [by apply open_unlocked|].
      simpl. split; [by rewrite (jn_fs _ _ Hj), (as_fs _ _ A4), (as_fs _ _ A3)|].
      pose proof (sp_tick _ _ Hs). pose proof (jn_tick _ _ Hj). pose proof (fr_tick _ _ Hfr). lia.
Qed.

(** ** Backend calls *)

(** A backend call leaves the journal and the files alone. *)
Record called w w' : Prop := {
  cl_tick : (w_tick w ≤ w_tick w')%nat;
  cl_data : w_data w' = w_data w;
  cl_poisoned : w_poisoned w' = w_poisoned w;
  cl_fs : w_fs w' = w_fs w;
  cl_healthy : w_healthySince w' = w_healthySince w;
}.

Lemma open_called k j v v' w w' :
  called w w' → dp_shows (w_dev w') v' → open_job k j v w → open_job k j v' w'.
Proof. intros [] Hd []. split; rewrite ?cl_poisoned0, ?cl_data0; done. Qed.

Lemma device_gives {A} (f : D → result A * D) x d' w (Q : A → World D → Prop) :
  f (w_dev w) = (Ok x, d') → Q x (set_w_dev d' w) → gives (device f) w Q.
Proof. intros Hf Hq. eapply gives_eq; [|exact Hq]. unfold device. by rewrite Hf. Qed.

Lemma Status_gives k j v w :
  open_job k j v w → gives Status w (fun s w' => s = v ∧ open_job k j v w' ∧ called w w' ∧ w_tick w' = S (w_tick w)).
Proof.
  intros Ho. unfold Status. eapply gives_bind; [apply tick_gives|]. intros n w1 (_ & Ht & Ha).
  pose proof (open_aside _ _ _ _ _ Ha Ho) as Ho1. destruct (dp_Status _ _ (oj_shows _ _ _ _ Ho1)) as (d' & Hd & Hsh).
  eapply device_gives; [exact Hd|]. split; [done|].
  assert (Hc : called w (set_w_dev d' w1)) by (destruct Ha; by split).
  split; [|done]. by eapply open_called.
Qed.

Lemma Install_gives k j v w p rel target :
  open_job k j v w → Other v = Ok target → holds_artifact (w_fs w) p (r_Artifact rel) →
  gives (Install p rel) w (fun _ w' => open_job k j (installed target (r_Version rel) v) w' ∧ called w w' ∧
    w_tick w' = S (w_tick w)).
Proof.
  intros Ho Hot Hh. unfold Install, emit. eapply gives_bind; [apply tick_gives|]. intros n w1 (-> & Ht & Ha).
  apply gives_view. apply gives_modify. rewrite (mw_ctx Hmachine).
  pose proof (open_aside _ _ _ _ _ Ha Ho) as Ho1. rewrite <- (as_fs _ _ Ha) in Hh.
  destruct (dp_Install (w_fs w1) p rel (w_dev w1) v target) as (d' & Hd & Hsh); [apply Ho1|done|done|].
  eapply device_gives; [exact Hd|].
  match goal with |- open_job _ _ _ ?w2 ∧ _ => assert (Hc : called w w2) by (destruct Ha; by split) end.
  split; [|done]. by eapply open_called.
Qed.

Lemma Reboot_gives k j v w :
  open_job k j v w →
  gives Reboot w (fun _ w' => (called w w' ∧ w_tick w' = S (w_tick w)) ∧ ∃ bootID, bootID ≠ ds_BootID v ∧ open_job k j (rebooted bootID v) w').
Proof.
  intros Ho. unfold Reboot, emit. eapply gives_bind; [apply tick_gives|]. intros n w1 (_ & Ht & Ha). apply gives_modify.
  pose proof (open_aside _ _ _ _ _ Ha Ho) as Ho1.
  destruct (dp_Reboot (w_dev w1) v) as (d' & bootID & Hd & Hne & Hsh); [apply Ho1|].
  eapply device_gives; [exact Hd|].
  match goal with |- (called _ ?w2 ∧ _) ∧ _ => assert (Hc : called w w2) by (destruct Ha; by split) end.
  split; [done|]. exists bootID. split; [done|]. by eapply open_called.
Qed.

Lemma Mark_gives k j v w state m slot :
  open_job k j v w → parse_mark state = Some m → has_slot slot v →
  gives (Mark state slot) w (fun _ w' => open_job k j (marked m slot v) w' ∧ called w w').
Proof.
  intros Ho Hm Hs. unfold Mark, emit. eapply gives_bind; [apply tick_gives|]. intros n w1 (_ & _ & Ha). apply gives_modify.
  pose proof (open_aside _ _ _ _ _ Ha Ho) as Ho1.
  destruct (dp_Mark (w_dev w1) v state m slot) as (d' & Hd & Hsh); [apply Ho1|done|done|].
  eapply device_gives; [exact Hd|].
  match goal with |- open_job _ _ _ ?w2 ∧ _ => assert (Hc : called w w2) by (destruct Ha; by split) end.
  split; [|done]. by eapply open_called.
Qed.

(** The device before the update, and its other slot. *)
Context (v : DeviceStatus) (target : string).
Record device_fits : Prop := {
  df_idle : ds_Operation v = "idle";
  df_compatible : ds_Compatible v = c_Compatible c;
  df_other : Other v = Ok target;
  df_new : existsb (fun slot => eqs (s_Version slot) (r_Version r)) (ds_Slots v) = false;
}.
Context (Hfits : device_fits).
Abbreviation v1 := (installed target (r_Version r) v).

(** The slots the job has planned. *)
Definition planned (bootID : string) (j : Job) : Prop :=
  j_OldSlot j = ds_Booted v ∧ j_TargetSlot j = target ∧ j_BootID j = bootID.

Lemma planned_saved bootID j st msg j' : planned bootID j → saved j st msg j' → planned bootID j'.
Proof. intros ? (? & ? & ? & ->). done. Qed.

Lemma target_ne : target ≠ ds_Booted v.
Proof. by destruct (Other_distinct _ _ (df_other Hfits)). Qed.

Lemma checkJobSBOM_none j w : plan j → gives (checkJobSBOM c j) w (fun x w' => x = None ∧ w' = w).
Proof.
  intros [_ Pr _ _]. destruct (up_sbom Hup) as (E1 & E2 & E3 & E4). unfold checkJobSBOM.
  rewrite Pr, E1, E2, E3, E4. by apply gives_ret.
Qed.

(** After the installation the evidence fits the plan. *)
Lemma step_inspect_gives k j0 j w :
  open_job (k + 1) j0 v1 w → 0 ≤ k → plan j0 → plan j → planned (ds_BootID v) j →
  gives (step_inspect c j) w (fun _ w' => ∃ j', saved j AwaitingReboot "" j' ∧ plan j' ∧ open_job k j' v1 w' ∧
    (w_tick w ≤ w_tick w' ≤ w_tick w + 5)%nat).
Proof.
  intros Ho Hk Hp0 Hp (Eo & Et & Eb). unfold step_inspect.
  eapply gives_try_bind; [by eapply Status_gives|]. intros s w1 (-> & Ho1 & Hc1 & Ht1). simpl.
  rewrite (df_idle Hfits), Eo, Et, !eqs_refl, (VersionOf_installed _ _ _ (df_other Hfits)), (pl_release _ Hp), eqs_refl.
  simpl. eapply gives_mono; [by eapply save_plan|]. intros ? w2 (j' & Hsv & Hp' & Ho' & Hj & Hb). exists j'.
  repeat (split; [done|]). pose proof (jn_tick _ _ Hj). lia.
Qed.

(** Verified: the plan is journalled, the slot written and inspected. *)
Lemma step_verified_gives k j w :
  on_time w → open_job (k + 1 + 1) j v w → 0 ≤ k → plan j → j_State j = Verified →
  holds_artifact (w_fs w) (finalPath c (r_Artifact r)) (r_Artifact r) →
  gives (Step c) w (fun _ w' => ∃ j', plan j' ∧ planned (ds_BootID v) j' ∧ j_State j' = AwaitingReboot ∧
    j_RebootRequested j' = j_RebootRequested j ∧ open_job k j' v1 w' ∧
    (w_tick w ≤ w_tick w' ≤ w_tick w + 15)%nat).
Proof.
  intros Htime Ho Hk Hp Hst Hh. eapply Step_gives; [done|]. intros w1 Hs. unfold step_job. rewrite Hst.
  apply preinstall_gives; [done|apply Htime; lia|]. unfold step_verified.
  eapply gives_bind; [by apply checkJobSBOM_none|]. intros x w' [-> ->].
  pose proof Hp as [Pa Pr Pf Pd]. destruct (up_os Hup) as [Et Eos]. rewrite Pr, Et, andb_false_r.
  eapply gives_bind with (Q := fun x w' => x = Ok j ∧ w' = w1); [by apply gives_ret|]. intros x w' [-> ->].
  rewrite Pr, Eos. cbn [negb]. unfold step_os.
  eapply gives_bind; [eapply Status_gives, open_stepping; done|]. intros s w2 (-> & Ho2 & Hc2 & Ht2).
  rewrite (df_idle Hfits), (df_compatible Hfits), !eqs_refl, (df_other Hfits). cbn [negb].
  rewrite Pr, (df_new Hfits).
  assert (Hh2 : holds_artifact (w_fs w2) (cachePath (c_StateDir c) (a_SHA256 (r_Artifact r))) (r_Artifact r))
    by (by rewrite (cl_fs _ _ Hc2), (sp_fs _ _ Hs)).
  eapply gives_try_bind; [by apply CheckArtifact_gives|]. intros ? w3 [Ht3 A3].
  eapply gives_bind; [apply Now_gives|]. intros now1 w4 (-> & Ht4 & A4). pose proof (sp_tick _ _ Hs) as Ht1.
  eapply gives_bind with (Q := fun x w' => x = false ∧ w_tick w' = S (w_tick w4) ∧ aside w4 w').
  { rewrite Pa. unfold Before. destruct (Htime (w_tick w3)) as [[_ Hlt] _]; [lia|].
    rewrite (proj2 (Z.ltb_lt _ _) Hlt). simpl. eapply gives_bind; [apply Now_gives|]. intros now2 w5 (-> & T5 & A5).
    apply gives_ret. destruct (Htime (w_tick w4)) as [_ Hlt2]; [lia|]. by rewrite (proj2 (Z.ltb_lt _ _) Hlt2). }
  intros expired w5 (-> & T5 & A5).
  set (jp := set_j_BootID _ _).
  assert (Hpp : plan jp) by (by split).
  assert (A : aside w2 w5) by (etrans; [exact A3|]; etrans; [exact A4|exact A5]).
  eapply gives_bind; [eapply (save_plan (k + 1) j); [by eapply open_aside|lia|done|done|done|done]|].
  intros ? w6 (j6 & Hsv6 & Hp6 & Ho6 & Hj6 & T6). unfold step_install.
  assert (Hh6 : holds_artifact (w_fs w6) (cachePath (c_StateDir c) (a_SHA256 (r_Artifact r))) (r_Artifact r))
    by (by rewrite (jn_fs _ _ Hj6), (as_fs _ _ A)).
  rewrite (pl_release _ Hpp).
  eapply gives_try_bind; [eapply Install_gives; [done|apply Hfits|done]|]. intros ? w7 (Ho7 & Hc7 & T7).
  eapply gives_mono; [by apply (step_inspect_gives k j6 jp)|]. intros ? w8 (j8 & Hsv8 & Hp8 & Ho8 & T8).
  exists j8. split; [done|]. split; [by apply (planned_saved _ jp AwaitingReboot "")|]. split; [by eapply saved_state|].
  split; [by destruct Hsv8 as (? & ? & ? & ->)|]. split; [by apply open_unlocked|].
  pose proof (jn_tick _ _ Hj6). simpl. lia.
Qed.

(** AwaitingReboot, before the reboot: it is requested. *)
Lemma step_reboot_gives k j w :
  on_time w → open_job (k + 1) j v1 w → 0 ≤ k → plan j → planned (ds_BootID v) j → j_State j = AwaitingReboot →
  j_RebootRequested j = false →
  gives (Step c) w (fun _ w' => ∃ j' bootID, bootID ≠ ds_BootID v ∧ plan j' ∧ planned (ds_BootID v) j' ∧
    j_State j' = AwaitingReboot ∧ open_job k j' (rebooted bootID v1) w').
Proof.
  intros Htime Ho Hk Hp (Eo & Et & Eb) Hst Hrq. eapply Step_gives; [done|]. intros w1 Hs. unfold step_job. rewrite Hst.
  unfold step_awaiting. eapply gives_bind; [eapply Status_gives, open_stepping; done|]. intros s w2 (-> & Ho2 & Hc2 & Ht2).
  simpl. rewrite Eb, Eo, !eqs_refl, Hrq, (pl_assignment _ Hp), (up_auto Hup). simpl. unfold Before.
  destruct (Htime (w_tick w)) as [[Hnb Hdl] _]; [lia|].
  rewrite (proj2 (Z.ltb_ge _ _) Hnb), (proj2 (Z.ltb_lt _ _) Hdl). simpl. unfold reboot.
  eapply gives_bind; [eapply (save_plan k j); [done|done|done|by destruct Hp; split|done|done]|].
  intros ? w3 (j3 & Hsv & Hp3 & Ho3 & Hj3 & _). eapply gives_try_bind; [by eapply Reboot_gives|].
  intros ? w4 (_ & bootID & Hne & Ho4). apply gives_ret. exists j3, bootID. split; [done|]. split; [done|].
  split; [by eapply (planned_saved _ (set_j_RebootRequested true j))|]. split; [by eapply saved_state|].
  by apply open_unlocked.
Qed.

(** AwaitingReboot, after it: the health checks begin. *)
Lemma step_booted_gives k j bootID w :
  open_job (k + 1) j (rebooted bootID v1) w → 0 ≤ k → bootID ≠ ds_BootID v → plan j → planned (ds_BootID v) j →
  j_State j = AwaitingReboot →
  gives (Step c) w (fun _ w' => ∃ j' n, plan j' ∧ planned bootID j' ∧ j_State j' = CheckingHealth ∧
    j_HealthStarted j' = env_now n ∧ (n ≤ w_tick w' ≤ n + 6)%nat ∧ w_healthySince w' = 0 ∧
    open_job k j' (rebooted bootID v1) w').
Proof.
  intros Ho Hk Hne Hp (Eo & Et & Eb) Hst. eapply Step_gives; [done|]. intros w1 Hs. unfold step_job. rewrite Hst.
  unfold step_awaiting. eapply gives_bind; [eapply Status_gives, open_stepping; done|]. intros s w2 (-> & Ho2 & Hc2 & Ht2).
  cbn [ds_BootID ds_Booted rebooted]. rewrite Eb, Eo, Et, (proj2 (eqs_false _ _) Hne).
  change (ds_Primary v1) with target. rewrite (proj2 (eqs_false _ _) target_ne), eqs_refl.
  change (VersionOf (rebooted bootID v1) target) with (VersionOf v1 target).
  rewrite (VersionOf_installed _ _ _ (df_other Hfits)), (pl_release _ Hp), eqs_refl. simpl.
  apply gives_modify. set (jn := set_j_BootID _ _). set (w3 := set_w_healthySince 0 w2).
  assert (Hpn : plan jn) by (by destruct Hp; split).
  assert (Ho3 : open_job (k + 1) j (rebooted bootID v1) w3) by (by destruct Ho2; split).
  eapply gives_mono; [by apply (save_plan k j)|]. intros ? w4 (j4 & Hsv & Hp4 & Ho4 & Hj4 & T4).
  exists j4, (w_tick w). split; [done|]. split; [by eapply (planned_saved bootID jn)|].
  split; [by eapply saved_state|]. split; [by destruct Hsv as (? & ? & ? & ->)|].
  split; [destruct Hj4, Hc2, Hs; simpl in *; lia|]. split; [simpl; by rewrite (jn_healthy _ _ Hj4)|].
  by apply open_unlocked.
Qed.

(** ** The health window *)

Lemma Sub_lt t u s : Sub t u < seconds s → t - u < seconds s.
Proof.
  assert (seconds s < 2 ^ 63) by (unfold seconds, s64; pose proof (Z.mod_pos_bound (s * Second + 2 ^ 63) (2 ^ 64)); lia).
  unfold Sub. lia.
Qed.

(** The checks pass within [checkCalls] calls, and the clock goes on at a
    pace that leaves room for the stability period: a step takes at most
    [pace]. *)
Record checks_pass (checkCalls : nat) (pace : duration) : Prop := {
  cp_checks : ∀ w, gives (Health c) w (fun _ w' => aside w w' ∧ (w_tick w' ≤ w_tick w + checkCalls)%nat);
  cp_stable : ∀ m, ∃ n0, ∀ n, (n0 ≤ n)%nat → seconds (c_HealthStableSeconds c) ≤ Sub (env_now n) (env_now m);
  cp_positive : ∀ n, 0 < env_now n;
  cp_pace : ∀ n, env_now (n + checkCalls + 7) ≤ env_now n + pace;
  cp_start : pace < seconds (c_HealthTimeoutSeconds c);
  cp_room : seconds (c_HealthStableSeconds c) + 2 * pace ≤ seconds (c_HealthTimeoutSeconds c);
}.

(** The checks fail, and the clock reaches the deadline. *)
Record checks_fail : Prop := {
  cf_checks : ∀ w, ∃ e w', Health c w = (Fail e, w') ∧ aside w w';
  cf_timeout : ∀ m, ∃ n0, ∀ n, (n0 ≤ n)%nat → env_now m + seconds (c_HealthTimeoutSeconds c) ≤ env_now n;
}.

Section window.
Context (bootID : string) (checkCalls : nat) (pace : duration).
Abbreviation v2 := (rebooted bootID v1).

(** On the new slot: what the commit relies on. *)
Lemma on_target j : plan j → planned bootID j →
  eqs (ds_Booted v2) (j_OldSlot j) = false ∧ eqs (ds_Booted v2) (j_TargetSlot j) = true ∧
  eqs (VersionOf v2 (j_TargetSlot j)) (r_Version (j_Release j)) = true ∧ eqs (ds_BootID v2) (j_BootID j) = true.
Proof.
  intros Hp (Eo & Et & Eb). rewrite Eo, Et, Eb, (pl_release _ Hp). cbn [ds_Booted ds_BootID rebooted].
  change (ds_Primary v1) with target. split; [apply eqs_false, target_ne|]. split; [apply eqs_refl|].
  split; [|apply eqs_refl]. apply eqs_true. change (VersionOf v2 target) with (VersionOf v1 target).
  by apply VersionOf_installed, df_other.
Qed.

(** CheckingHealth: the job moves on once the checks have passed for long
    enough, and stays open until then. *)
Lemma step_health_gives k j n w :
  checks_pass checkCalls pace → env_now (w_tick w) < env_now n + seconds (c_HealthTimeoutSeconds c) →
  open_job (k + 1) j v2 w → 0 ≤ k → plan j → planned bootID j → j_State j = CheckingHealth →
  j_HealthStarted j = env_now n → (n ≤ w_tick w)%nat → (∃ m, w_healthySince w = env_now m) ∨ w_healthySince w = 0 →
  gives (Step c) w (fun _ w' => (w_tick w < w_tick w')%nat ∧
    ((∃ j', plan j' ∧ planned bootID j' ∧ j_State j' = Committing ∧ open_job k j' v2 w') ∨
     (open_job (k + 1) j v2 w' ∧ ∃ m, w_healthySince w' = env_now m ∧
       (w_healthySince w ≠ 0 → w_healthySince w = env_now m) ∧ (w_healthySince w = 0 → m = w_tick w) ∧
       (w_tick w' ≤ w_tick w + checkCalls + 2)%nat ∧
       Sub (env_now (w_tick w)) (env_now m) < seconds (c_HealthStableSeconds c)))).
Proof.
  intros Hpass Hin Ho Hk Hp Hpl Hst Hn Hle Hsince. eapply Step_gives; [done|]. intros w1 Hs. unfold step_job. rewrite Hst.
  unfold step_checking. eapply gives_bind; [eapply Status_gives, open_stepping; done|]. intros s w2 (-> & Ho2 & Hc2 & Ht2).
  destruct (on_target j Hp Hpl) as (E1 & E2 & E3 & E4). rewrite E1, E2, E3, E4. cbn [negb orb].
  rewrite Hst. rewrite bool_decide_false by done. unfold step_health, Before. rewrite Hn.
  rewrite (proj2 (Z.ltb_ge _ _)) by (by apply (up_mono Hup)).
  rewrite (proj2 (Z.ltb_lt _ _)) by done. cbn [negb orb].
  eapply gives_try_bind; [apply (cp_checks _ _ Hpass)|]. intros ? w3 [A3 T3].
  assert (Hlt : (w_tick w < w_tick w3)%nat) by (destruct Hs, Hc2, A3; lia).
  assert (Hsin : w_healthySince w3 = w_healthySince w).
  { by rewrite (as_healthy _ _ A3), (cl_healthy _ _ Hc2), (sp_healthy _ _ Hs). }
  eapply gives_bind with (Q := fun x w' => x = w3 ∧ w' = w3); [by eapply gives_eq|]. intros y w' [-> ->].
  rewrite Hsin. set (since := if IsZero (w_healthySince w) then _ else _).
  assert (∃ m, since = env_now m ∧ (w_healthySince w ≠ 0 → w_healthySince w = env_now m) ∧
    (w_healthySince w = 0 → m = w_tick w)) as (m & Em & Hm & Hm0).
  { subst since. unfold IsZero. destruct (Z.eqb_spec (w_healthySince w) 0) as [E|E]; [by exists (w_tick w)|].
    destruct Hsince as [[m Em]|E0]; [by exists m|done]. }
  apply gives_modify. rewrite Em. set (w4 := set_w_healthySince _ w3).
  assert (Ho4 : open_job (k + 1) j v2 w4) by (by destruct (open_aside _ _ _ _ _ A3 Ho2); split).
  destruct (Z.ltb_spec (Sub (env_now (w_tick w)) (env_now m)) (seconds (c_HealthStableSeconds c))) as [Hsub|Hsub].
  - apply gives_ret. split; [done|]. right. split; [by apply open_unlocked|]. exists m.
    repeat (split; [done|]). split; [simpl; pose proof (sp_tick _ _ Hs); lia|done].
  - eapply gives_mono; [by apply (save_plan k j)|]. intros ? w5 (j5 & Hsv & Hp5 & Ho5 & Hj5 & _).
    split; [destruct Hj5; simpl in *; lia|]. left. exists j5. split; [done|].
    split; [by apply (planned_saved _ j Committing "")|]. split; [by eapply saved_state|]. by apply open_unlocked.
Qed.

(** What a finished update leaves behind. *)
Definition committed_on w : Prop :=
  ∃ j' v', db_Jobs (w_data w) !! asg_JobID a = Some j' ∧ j_State j' = Committed ∧ j_Assignment j' = a ∧
    db_Active (w_data w) = "" ∧ dp_shows (w_dev w) v' ∧ ds_Booted v' = target ∧
    VersionOf v' target = r_Version r ∧ GoodOf v' target = true.

(** Committing: the slot is marked good and the job closed. *)
Lemma step_commit_gives k j w :
  open_job (k + 1) j v2 w → 0 ≤ k → plan j → planned bootID j → j_State j = Committing →
  gives (Step c) w (fun _ w' => committed_on w').
Proof.
  intros Ho Hk Hp Hpl Hst. eapply Step_gives; [done|]. intros w1 Hs. unfold step_job. rewrite Hst.
  unfold step_checking. eapply gives_bind; [eapply Status_gives, open_stepping; done|]. intros s w2 (-> & Ho2 & Hc2 & Ht2).
  destruct (on_target j Hp Hpl) as (E1 & E2 & E3 & E4). rewrite E1, E2, E3, E4. cbn [negb orb].
  rewrite Hst, bool_decide_true by done. destruct Hpl as (Eo & Et & Eb). rewrite Et.
  assert (Hslot : has_slot target v2) by (by apply (installed_slot target (r_Version r) v), df_other).
  eapply gives_bind; [by apply (Mark_gives (k + 1) j v2 w2 "good" MarkGood target)|]. intros ? w3 [Ho3 Hc3].
  pose proof Hp as [Pa Pr Pf _].
  eapply gives_mono; [eapply (save_gives k j j); try done; [by rewrite Pa|rewrite Pr; apply Hup]|].
  intros ? w4 (j4 & Hsv & Hj4 & Hjob & _ & Hact & _). exists j4, (marked MarkGood target v2).
  assert (Eid : j_JobID j = asg_JobID a) by (unfold j_JobID; by rewrite Pa).
  rewrite Eid in Hjob. split; [done|]. split; [by eapply saved_state|].
  split; [by destruct Hsv as (? & ? & ? & ->)|]. split; [by apply Hact|]. split; [simpl; rewrite (jn_dev _ _ Hj4); apply Ho3|].
  split; [done|]. split; [|by apply (GoodOf_marked MarkGood)]. rewrite VersionOf_marked.
  change (VersionOf v2 target) with (VersionOf v1 target). by apply VersionOf_installed, df_other.
Qed.

Fixpoint Steps (n : nat) : Prelude.M (World D) unit :=
  match n with O => mret tt | S n => _ ← Step c; Steps n end.

Lemma Steps_next w (P Q : World D → Prop) :
  gives (Step c) w (fun _ w' => P w') → (∀ w', P w' → ∃ n, gives (Steps n) w' (fun _ w2 => Q w2)) →
  ∃ n, gives (Steps n) w (fun _ w2 => Q w2).
Proof.
  intros (x & w1 & Hs & HP) Hk. destruct (Hk _ HP) as (n & Hn). exists (S n).
  eapply gives_bind; [by apply (gives_eq _ _ x w1 (fun _ w2 => w2 = w1))|]. intros ? ? ->. exact Hn.
Qed.

Lemma committing_ends k j w :
  open_job (k + 1) j v2 w → 0 ≤ k → plan j → planned bootID j → j_State j = Committing →
  ∃ n, gives (Steps n) w (fun _ w' => committed_on w').
Proof.
  intros Ho Hk Hp Hpl Hst. eapply Steps_next; [by eapply step_commit_gives|]. intros w' Hc. exists 0%nat. by apply gives_ret.
Qed.

(** The checks have passed since [env_now m]; [d] readings more are enough,
    and they are inside the health window that started at [env_now n]. *)
Lemma checking_ends d m n0 k j n w :
  checks_pass checkCalls pace →
  (∀ i, (n0 ≤ i)%nat → seconds (c_HealthStableSeconds c) ≤ Sub (env_now i) (env_now m)) →
  (n0 ≤ w_tick w + d)%nat → env_now m ≤ env_now n + pace →
  env_now (w_tick w) < env_now n + seconds (c_HealthTimeoutSeconds c) →
  open_job (k + 1 + 1) j v2 w → 0 ≤ k → plan j → planned bootID j → j_State j = CheckingHealth →
  j_HealthStarted j = env_now n → (n ≤ w_tick w)%nat → w_healthySince w = env_now m →
  ∃ n, gives (Steps n) w (fun _ w' => committed_on w').
Proof.
  intros Hpass Hn0. revert w. induction d as [|d IH]; intros w Hd Hmn Hin Ho Hk Hp Hpl Hst Hn Hle Hm;
    (eapply Steps_next; [apply (step_health_gives (k + 1) j n w); try done; [lia|left; by exists m]|]);
    intros w' [Hlt [(j' & Hp' & Hpl' & Hst' & Ho')|(Ho' & m' & Hm' & Hsame & _ & Htk & Hsub)]];
    try (by eapply committing_ends);
    (assert (Em : env_now m' = env_now m)
      by (rewrite <- Hsame; [done|]; rewrite Hm; pose proof (cp_positive _ _ Hpass m); lia));
    rewrite Em in *.
  - exfalso. specialize (Hn0 (w_tick w)). lia.
  - apply (IH w'); try done; try lia. apply Sub_lt in Hsub.
    pose proof (cp_pace _ _ Hpass (w_tick w)). pose proof (cp_room _ _ Hpass).
    assert (env_now (w_tick w') ≤ env_now (w_tick w + checkCalls + 7)) by (apply (up_mono Hup); lia). lia.
Qed.

Lemma window_ends k j n w :
  checks_pass checkCalls pace → open_job (k + 1 + 1) j v2 w → 0 ≤ k → plan j → planned bootID j →
  j_State j = CheckingHealth → j_HealthStarted j = env_now n → (n ≤ w_tick w ≤ n + 6)%nat → w_healthySince w = 0 →
  ∃ n, gives (Steps n) w (fun _ w' => committed_on w').
Proof.
  intros Hpass Ho Hk Hp Hpl Hst Hn Hle Hz.
  pose proof (cp_pace _ _ Hpass n) as Hpace. pose proof (cp_start _ _ Hpass). pose proof (cp_room _ _ Hpass).
  assert (Hfirst : env_now (w_tick w) ≤ env_now (n + checkCalls + 7)) by (apply (up_mono Hup); lia).
  eapply Steps_next; [apply (step_health_gives (k + 1) j n w); try done; try lia; by right|].
  intros w' [Hlt [(j' & Hp' & Hpl' & Hst' & Ho')|(Ho' & m & Hm & _ & Hm0 & Htk & Hsub)]]; [by eapply committing_ends|].
  rewrite (Hm0 Hz) in *. destruct (cp_stable _ _ Hpass (w_tick w)) as [n0 Hn0]. apply Sub_lt in Hsub.
  pose proof (cp_pace _ _ Hpass (w_tick w)).
  assert (env_now (w_tick w') ≤ env_now (w_tick w + checkCalls + 7)) by (apply (up_mono Hup); lia).
  eapply (checking_ends n0 (w_tick w) n0 k j n w'); try done; lia.
Qed.

(** *** Rollback *)

(** CheckingHealth with checks that fail: the job waits for the deadline. *)
Lemma step_unhealthy_gives k j n w :
  checks_fail → open_job (k + 1) j v2 w → 0 ≤ k → plan j → planned bootID j → j_State j = CheckingHealth →
  j_HealthStarted j = env_now n → (n ≤ w_tick w)%nat →
  gives (Step c) w (fun _ w' => (w_tick w < w_tick w')%nat ∧
    ((∃ j', plan j' ∧ planned bootID j' ∧ j_State j' = RollbackPending ∧ open_job k j' v2 w') ∨
     (open_job (k + 1) j v2 w' ∧ env_now (w_tick w) < env_now n + seconds (c_HealthTimeoutSeconds c)))).
Proof.
  intros Hfail Ho Hk Hp Hpl Hst Hn Hle. eapply Step_gives; [done|]. intros w1 Hs. unfold step_job. rewrite Hst.
  unfold step_checking. eapply gives_bind; [eapply Status_gives, open_stepping; done|]. intros s w2 (-> & Ho2 & Hc2 & Ht2).
  destruct (on_target j Hp Hpl) as (E1 & E2 & E3 & E4). rewrite E1, E2, E3, E4. cbn [negb orb].
  rewrite Hst. rewrite bool_decide_false by done. unfold step_health, Before. rewrite Hn.
  rewrite (proj2 (Z.ltb_ge _ _)) by (by apply (up_mono Hup)). cbn [orb].
  assert (Hlt : (w_tick w < w_tick w2)%nat) by (destruct Hs, Hc2; lia).
  destruct (Z.ltb_spec (env_now (w_tick w)) (env_now n + seconds (c_HealthTimeoutSeconds c))) as [Hin|Hout]; cbn [negb].
  - destruct (cf_checks Hfail w2) as (e & w3 & He & A3).
    eapply gives_bind with (Q := fun x w' => x = Err e ∧ w' = w3); [eapply gives_eq; [unfold try; by rewrite He|done]|].
    intros x w' [-> ->]. apply gives_modify. eapply gives_eq; [done|]. split; [destruct A3; simpl; lia|].
    right. split; [|done]. by destruct (open_aside _ _ _ _ _ A3 Ho2); split.
  - eapply gives_mono; [by apply (save_plan k j)|]. intros ? w5 (j5 & Hsv & Hp5 & Ho5 & Hj5 & _).
    split; [destruct Hj5; simpl in *; lia|]. left. exists j5. split; [done|].
    split; [by eapply (planned_saved _ j)|]. split; [by eapply saved_state|]. by apply open_unlocked.
Qed.

(** The device after the rollback: the installed slot is bad, the old one
    active and booted. *)
Abbreviation v3 := (marked MarkActive (ds_Booted v) (marked MarkBad target v2)).

Lemma has_booted : has_slot (ds_Booted v) v2.
Proof.
  destruct (Other_distinct _ _ (df_other Hfits)) as (Hne & _ & b & o & Hs & Hb & Ho).
  assert (Ebt : eqs (s_Name b) target = false) by (apply eqs_false; congruence).
  exists b. split; [|done]. simpl. destruct Hs as [-> | ->]; simpl; rewrite Ebt; [left|right; left].
Qed.

Lemma step_mark_gives k j w :
  open_job k j v2 w → plan j → planned bootID j → j_State j = RollbackPending →
  gives (Step c) w (fun _ w' => ∃ bootID', open_job k j (rebooted bootID' v3) w').
Proof.
  intros Ho Hp Hpl Hst. eapply Step_gives; [done|]. intros w1 Hs. unfold step_job. rewrite Hst.
  unfold step_rollback. eapply gives_bind; [eapply Status_gives, open_stepping; done|]. intros s w2 (-> & Ho2 & Hc2 & Ht2).
  destruct (on_target j Hp Hpl) as (E1 & E2 & _ & _). rewrite E1, E2.
  change (ds_Operation v2) with (ds_Operation v). rewrite (df_idle Hfits), eqs_refl. cbn [negb].
  destruct Hpl as (Eo & Et & Eb). rewrite Eo, Et.
  assert (Hslot : has_slot target v2) by (by apply (installed_slot target (r_Version r) v), df_other).
  eapply gives_bind; [by apply (Mark_gives k j v2 w2 "bad" MarkBad target)|]. intros ? w3 [Ho3 _].
  eapply gives_bind; [apply (Mark_gives k j (marked MarkBad target v2) w3 "active" MarkActive (ds_Booted v)); [exact Ho3|done|]|].
  { apply has_marked, has_booted. }
  intros ? w4 [Ho4 _]. eapply gives_mono; [by eapply Reboot_gives|]. intros ? w5 (_ & bootID' & _ & Ho5).
  exists bootID'. by apply open_unlocked.
Qed.

(** What a failed update leaves behind. *)
Definition rolled_back_on w : Prop :=
  ∃ j' v', db_Jobs (w_data w) !! asg_JobID a = Some j' ∧ j_State j' = RolledBack ∧ j_Assignment j' = a ∧
    db_Active (w_data w) = "" ∧ dp_shows (w_dev w) v' ∧ ds_Booted v' = ds_Booted v ∧
    VersionOf v' (ds_Booted v) = VersionOf v (ds_Booted v) ∧ GoodOf v' target = false.

Lemma VersionOf_booted : VersionOf v1 (ds_Booted v) = VersionOf v (ds_Booted v).
Proof.
  destruct (Other_distinct _ _ (df_other Hfits)) as (Hne & _ & b & o & Hs & Hb & Ho). unfold VersionOf. simpl.
  assert (Ebt : eqs (s_Name b) target = false) by (apply eqs_false; congruence).
  assert (Eot : eqs (s_Name o) target = true) by (by apply eqs_true).
  assert (Ebb : eqs (s_Name b) (ds_Booted v) = true) by (by apply eqs_true).
  assert (Eob : eqs (s_Name o) (ds_Booted v) = false) by (apply eqs_false; congruence).
  destruct Hs as [-> | ->]; simpl; rewrite ?Ebt, ?Eot; simpl; rewrite ?Ebb, ?Eob; simpl; by rewrite ?Ebb.
Qed.

Lemma step_rolledback_gives k j bootID' w :
  open_job (k + 1) j (rebooted bootID' v3) w → 0 ≤ k → plan j → planned bootID j → j_State j = RollbackPending →
  gives (Step c) w (fun _ w' => rolled_back_on w').
Proof.
  intros Ho Hk Hp (Eo & Et & Eb) Hst. eapply Step_gives; [done|]. intros w1 Hs. unfold step_job. rewrite Hst.
  unfold step_rollback. eapply gives_bind; [eapply Status_gives, open_stepping; done|]. intros s w2 (-> & Ho2 & Hc2 & Ht2).
  change (ds_Operation (rebooted bootID' v3)) with (ds_Operation v).
  change (ds_Booted (rebooted bootID' v3)) with (ds_Booted v).
  rewrite (df_idle Hfits), Eo, !eqs_refl. cbn [negb]. pose proof Hp as [Pa Pr Pf _].
  eapply gives_mono; [eapply (save_gives k j j); try done; [by rewrite Pa|rewrite Pr; apply Hup]|].
  intros ? w4 (j4 & Hsv & Hj4 & Hjob & _ & Hact & _). exists j4, (rebooted bootID' v3).
  assert (Eid : j_JobID j = asg_JobID a) by (unfold j_JobID; by rewrite Pa).
  rewrite Eid in Hjob. split; [done|]. split; [by eapply saved_state|].
  split; [by destruct Hsv as (? & ? & ? & ->)|]. split; [by apply Hact|].
  split; [simpl; rewrite (jn_dev _ _ Hj4); apply Ho2|]. split; [done|]. split.
  - change (VersionOf v3 (ds_Booted v) = VersionOf v (ds_Booted v)). rewrite !VersionOf_marked. apply VersionOf_booted.
  - change (GoodOf v3 target = false). pose proof (GoodOf_marked MarkBad target v2) as Hg.
    unfold GoodOf in *. rewrite marked_slots, find_marked. simpl in Hg. simpl.
    destruct (find_slot (markSlots MarkBad target _) target) as [sl|]; simpl in *; [|done].
    destruct (eqs _ _); apply Hg; try done; by apply (installed_slot target (r_Version r) v), df_other.
Qed.

Lemma rollback_ends k j w :
  open_job (k + 1) j v2 w → 0 ≤ k → plan j → planned bootID j → j_State j = RollbackPending →
  ∃ n, gives (Steps n) w (fun _ w' => rolled_back_on w').
Proof.
  intros Ho Hk Hp Hpl Hst. eapply Steps_next; [by eapply step_mark_gives|]. intros w1 (bootID' & Ho1).
  eapply Steps_next; [by eapply step_rolledback_gives|]. intros w' Hc. exists 0%nat. by apply gives_ret.
Qed.

Lemma unhealthy_ends d n0 k j n w :
  checks_fail → (∀ i, (n0 ≤ i)%nat → env_now n + seconds (c_HealthTimeoutSeconds c) ≤ env_now i) →
  (n0 ≤ w_tick w + d)%nat →
  open_job (k + 1 + 1) j v2 w → 0 ≤ k → plan j → planned bootID j → j_State j = CheckingHealth →
  j_HealthStarted j = env_now n → (n ≤ w_tick w)%nat → ∃ n, gives (Steps n) w (fun _ w' => rolled_back_on w').
Proof.
  intros Hfail Hn0. revert w. induction d as [|d IH]; intros w Hd Ho Hk Hp Hpl Hst Hn Hle;
    (eapply Steps_next; [apply (step_unhealthy_gives (k + 1) j n w); try done; lia|]);
    intros w' [Hlt [(j' & Hp' & Hpl' & Hst' & Ho')|(Ho' & Hin)]]; try (by eapply rollback_ends).
  - exfalso. specialize (Hn0 (w_tick w)). lia.
  - apply (IH w'); try done; lia.
Qed.
End window.

(** The calls up to the reboot are made inside the assignment's window. *)
Definition window_holds (calls : nat) w : Prop :=
  ∀ n, (w_tick w ≤ n < w_tick w + calls)%nat → in_window n.

Lemma window_on_time calls w w' :
  window_holds calls w → (w_tick w ≤ w_tick w')%nat → (w_tick w' + 5 ≤ w_tick w + calls)%nat → on_time w'.
Proof. intros Hw H1' H2' n Hn. apply Hw. lia. Qed.

(** The steps up to the health window are the same for every outcome. *)
Lemma accepted_boots j w (Q : World D → Prop) :
  open_job 8 j v w → plan j → j_State j = Accepted → j_RebootRequested j = false → w_fs w = fs0 →
  window_holds (fetchCalls + 31) w →
  (∀ bootID j' n w', open_job 2 j' (rebooted bootID v1) w' → plan j' → planned bootID j' →
    j_State j' = CheckingHealth → j_HealthStarted j' = env_now n → (n ≤ w_tick w' ≤ n + 6)%nat → w_healthySince w' = 0 →
    ∃ i, gives (Steps i) w' (fun _ w2 => Q w2)) →
  ∃ i, gives (Steps i) w (fun _ w2 => Q w2).
Proof.
  intros Ho Hp Hst Hrq Hfs Hwin HQ.
  eapply Steps_next; [apply (step_accepted_gives 7 j); try done; by apply (window_on_time (fetchCalls + 31) w); [|lia..]|].
  intros w1 (j1 & P1 & S1 & R1 & O1 & F1 & T1).
  eapply Steps_next; [apply (step_downloading_gives 6 j1); try done; by apply (window_on_time (fetchCalls + 31) w); [|lia..]|].
  intros w2 (j2 & P2 & S2 & R2 & O2 & H2' & T2).
  eapply Steps_next; [apply (step_verified_gives 4 j2); try done; by apply (window_on_time (fetchCalls + 31) w); [|lia..]|].
  intros w3 (j3 & P3 & L3 & S3 & R3 & O3 & T3).
  eapply Steps_next; [apply (step_reboot_gives 3 j3); try done; [by apply (window_on_time (fetchCalls + 31) w); [|lia..]|congruence]|].
  intros w4 (j4 & bootID & Hne & P4 & L4 & S4 & O4).
  eapply Steps_next; [by apply (step_booted_gives 2 j4 bootID)|].
  intros w5 (j5 & n & P5 & L5 & S5 & Hn & Hle & Hz & O5). by eapply HQ.
Qed.

(** On a machine that works, with a device that keeps its promises and
    checks that pass, an accepted job is committed after finitely many steps. *)
Theorem accepted_job_commits checkCalls pace j w :
  checks_pass checkCalls pace → open_job 8 j v w → plan j → j_State j = Accepted → j_RebootRequested j = false →
  w_fs w = fs0 → window_holds (fetchCalls + 31) w →
  ∃ n, gives (Steps n) w (fun _ w' => committed_on w').
Proof.
  intros Hpass Ho Hp Hst Hrq Hfs Hwin. eapply accepted_boots; try done.
  intros bootID j' n w' Ho' Hp' Hpl Hst' Hn Hle Hz. by apply (window_ends bootID checkCalls pace 0 j' n w').
Qed.

(** With checks that fail, an accepted job is rolled back after finitely many
    steps. *)
Theorem unhealthy_job_rolls_back j w :
  checks_fail → open_job 8 j v w → plan j → j_State j = Accepted → j_RebootRequested j = false → w_fs w = fs0 →
  window_holds (fetchCalls + 31) w →
  ∃ n, gives (Steps n) w (fun _ w' => rolled_back_on w').
Proof.
  intros Hfail Ho Hp Hst Hrq Hfs Hwin. eapply accepted_boots; try done.
  intros bootID j' n w' Ho' Hp' Hpl Hst' Hn Hle Hz.
  destruct (cf_timeout Hfail n) as [n0 Hn0]. apply (unhealthy_ends bootID n0 n0 0 j' n w'); try done; lia.
Qed.
End machine.
