(* ===== verification/Accept.v ===== *)
(** * An assignment is carried out

    [Submit] on an idle device accepts a valid assignment, and with Progress
    the job then ends: committed when the checks pass, rolled back when they
    fail. *)
From stdpp Require Import base tactics gmap strings list.
From Stdlib Require Import ZArith Lia.
From S2P Require Import Prelude Model Config Crypto Files Backend Dependable Metrics Trace Topo Verify World Store TrustMeta Payload Download Engine EngineFrame EngineSpec Refine RefineEngine Commands Progress.
Local Open Scope Z_scope.

Section accept.
Context `{MapRange, Limits, LocalZone, NetURL, Net, Ed25519, LineJSON}.
Context `{JSONDecode Release, JSONEncode Assignment, JSONDecode multiSigned, JSONDecode rootMeta,
          JSONDecode snapshotMeta, JSONDecode timestampMeta, JSONDecode targetsMeta}.
Context `{Codec, Env} {D : Type} `{Dependable D}.
Context (c : Config) (a : Assignment) (r : Release).
Implicit Types w : World D.

(** The assignment is for this device and fits its release. *)
Record assignable : Prop := {
  ag_job : identifier (asg_JobID a) = true;
  ag_device : asg_DeviceID a = c_DeviceID c;
  ag_measured : r_RequiresMeasuredBoot r = false;
  ag_trust : c_TrustDir c = "";
  ag_expires : asg_Deadline a ≤ r_Expires r;
}.

(** The journal is idle, has not seen the job or the sequence, and has space
    for the events of an update. *)
Record idle_journal (d : Database) : Prop := {
  ij_ok : db_ok d;
  ij_noempty : db_Jobs d !! "" = None;
  ij_idle : db_Active d = "";
  ij_new : db_Jobs d !! asg_JobID a = None;
  ij_sequence : db_HighSequence d < r_Sequence r;
  ij_jobs : jobs_len d < hotJobLimit;
  ij_events : events_len d ≤ hotEventLimit ∧ events_len d + 9 ≤ 10000;
  ij_seq : 0 ≤ db_EventSequence d ∧ db_EventSequence d + 9 < 2 ^ 64;
}.

Definition accepted (now : time) (d : Database) : Database :=
  let j := newJob a r now in
  let seq := db_EventSequence d + 1 in
  set_db_Events (db_Events d ++ [mkEvent seq (j_JobID j) (j_State j) (j_Error j) now])
    (set_db_EventSequence seq
      (set_db_Jobs (<[asg_JobID a := j]> (db_Jobs d))
        (set_db_Active (asg_JobID a) (set_db_HighSequence (r_Sequence r) d)))).

Lemma submit_fn_works now d w :
  idle_journal d → submit_fn c a (newJob a r now) inactive now d w = (Ret (accepted now d), w).
Proof.
  intros [Hok He Hi Hn Hs Hj [He1 He2] [Hs1 Hs2]]. unfold submit_fn. simpl. rewrite Hi, eqs_refl. cbn [negb].
  destruct (Z.gtb_spec (events_len d) hotEventLimit); [lia|].
  destruct (Z.leb_spec (r_Sequence r) (db_HighSequence d)); [lia|]. unfold mbind, M_bind. simpl.
  unfold addEvent, events_len in *. simpl. destruct (Z.geb_spec (Z.of_nat (length (db_Events d))) 10000); [lia|]. simpl.
  rewrite u64_small by lia. done.
Qed.

Lemma identifier_nonempty s : identifier s = true → s ≠ "".
Proof. by intros Hi ->. Qed.

Lemma accepted_ok now d :
  assignable → idle_journal d → db_ok (accepted now d) ∧ room 8 (accepted now d).
Proof.
  intros [Hid _ _ _ _] [[Hsch Hnil Hsz Hel Hjobs Hact Hev] He Hi Hn Hs Hj [He1 He2] [Hs1 Hs2]].
  apply identifier_nonempty in Hid. pose proof hotJobLimit_nonneg.
  assert (Hlen : jobs_len (accepted now d) = jobs_len d + 1).
  { unfold jobs_len. simpl. rewrite map_size_insert_None by done. lia. }
  assert (Hevl : events_len (accepted now d) = events_len d + 1).
  { unfold events_len. simpl. rewrite length_app. simpl. lia. }
  split; [split|split]; try done; try lia.
  - intros id jj. simpl. intros [[<- <-]|[Hne Hl]]%lookup_insert_Some.
    + by split.
    + destruct (Hjobs _ _ Hl) as [? ? ? ? Hact']. split; simpl; try done; [lia|]. intros Ht. apply Hact' in Ht.
      rewrite Hi in Ht. subst id. congruence.
  - intros _. exists (newJob a r now). simpl. by rewrite lookup_insert_eq.
  - simpl. apply (events_snoc (db_EventSequence d)); simpl; [done|lia|lia].
  - simpl. lia.
Qed.

(** ** Submit *)
Context (Hmachine : machine_works) (fs0 : FS) (fetchCalls : nat) (v : DeviceStatus) (target : string).
Context (Hup : update_possible (D := D) c a r fs0 fetchCalls) (Hfits : device_fits c r v target) (Hag : assignable).

(** A running agent on an idle device. *)
Record idle_device w : Prop := {
  id_mu : w_mu w = false;
  id_poisoned : w_poisoned w = false;
  id_journal : idle_journal (w_data w);
  id_shows : dp_shows (w_dev w) v;
  id_fs : w_fs w = fs0;
}.

Lemma Submit_gives w :
  idle_device w → in_window a r (w_tick w) →
  gives (Submit c a) w (fun j w' => open_job 8 j v w' ∧ plan a r j ∧ j_State j = Accepted ∧
    j_RebootRequested j = false ∧ w_fs w' = fs0 ∧ (w_tick w ≤ w_tick w' ≤ w_tick w + 2)%nat).
Proof.
  intros [Hmu Hpo Hij Hsh Hfs] Hwin. unfold Submit, tryLocked.
  eapply gives_bind with (Q := fun x w' => x = w ∧ w' = w); [by eapply gives_eq|]. intros x w' [-> ->].
  rewrite Hmu. unfold locked. apply gives_modify. set (w1 := set_w_mu true w).
  eapply gives_bind with (Q := fun x w2 => ∃ now, x = Ok (newJob a r now) ∧
    (journaled w1 w2 ∧ (w_tick w2 ≤ w_tick w + 2)%nat) ∧ w_data w2 = accepted now (w_data w)).
  2:{ intros y w2 (now & -> & [Hj Hb] & Hd). apply gives_modify. apply gives_ret.
      destruct (accepted_ok now _ Hag Hij) as [Hok Hroom]. split; [|split; [by split|split; [done|split; [done|]]]].
      - split; simpl; rewrite ?Hd; try done.
        + by rewrite (jn_poisoned _ _ Hj).
        + simpl. by rewrite lookup_insert_eq.
        + apply identifier_nonempty, Hag.
        + by rewrite (jn_dev _ _ Hj).
      - simpl. split; [by rewrite (jn_fs _ _ Hj)|]. pose proof (jn_tick _ _ Hj). simpl in *. lia. }
  apply gives_try with (Q := fun j w2 => ∃ now, j = newJob a r now ∧
    (journaled w1 w2 ∧ (w_tick w2 ≤ w_tick w + 2)%nat) ∧ w_data w2 = accepted now (w_data w)); [|intros j w2 (now & -> & ?); by exists now].
  unfold Submit_body. rewrite (ag_job Hag), (ag_device Hag), eqs_refl. cbn [negb orb].
  eapply gives_bind with (Q := fun x w' => x = w_data w ∧ w' = w1); [eapply gives_eq; [apply View_spec|done]|].
  intros d w2 [-> ->]. rewrite (ij_new _ Hij).
  eapply gives_bind; [by apply Now_gives|]. intros now w2 (-> & T2 & A2).
  change (w_tick w1) with (w_tick w). rewrite (window_verifies _ _ _ _ _ Hup _ Hwin).
  eapply gives_bind with (Q := fun x w' => x = r ∧ w' = w2); [by apply gives_ret|]. intros x w' [-> ->].
  unfold gateMeasuredBoot. rewrite (ag_measured Hag). cbn [negb].
  eapply gives_bind with (Q := fun x w' => x = tt ∧ w' = w2); [by apply gives_ret|]. intros x w' [-> ->].
  unfold evaluateSupplyChain. rewrite (ag_trust Hag), eqs_refl.
  eapply gives_bind with (Q := fun x w' => x = inactive ∧ w' = w2); [by apply gives_ret|]. intros x w' [-> ->].
  destruct Hwin as [[Hnb Hdl] _]. pose proof (ag_expires Hag). unfold After.
  rewrite (proj2 (Z.ltb_lt _ _)) by done. rewrite (proj2 (Z.ltb_lt _ _)) by lia.
  rewrite (proj2 (Z.ltb_ge _ _)) by lia. cbn [negb orb].
  set (now := env_now (w_tick w)). destruct (accepted_ok now _ Hag Hij) as [Hok Hroom].
  eapply gives_bind; [apply (Update_gives Hmachine _ (accepted now (w_data w)) 8); try done|].
  - by rewrite (as_poisoned _ _ A2).
  - rewrite (as_data _ _ A2). by apply submit_fn_works.
  - intros ? w3 (Hd3 & Hj3 & T3). apply gives_ret. exists now. split; [done|]. split; [|done].
    split; [etrans; [by apply aside_journaled|done]|]. simpl in *. lia.
Qed.

(** The window of the assignment holds for the calls up to the reboot. *)
Lemma window_shrinks n w w' :
  window_holds a r (n + 2) w → (w_tick w ≤ w_tick w' ≤ w_tick w + 2)%nat → window_holds a r n w'.
Proof. intros Hw Ht m Hm. apply Hw. lia. Qed.

Lemma window_now n w : window_holds a r (S n) w → in_window a r (w_tick w).
Proof. intros Hw. apply Hw. lia. Qed.

(** C2: a valid assignment is accepted and, after finitely many steps,
    committed: the job is closed as [Committed], the device runs the other
    slot, which has the release's version and is marked good.

    This is for a machine that works (no call fails, no write is lost, the
    process lives), a device that keeps the promises of [Dependable], an idle
    journal with space for the events, an assignment for this device with
    automatic reboot, a release with an OS image and nothing else (no side
    targets, no SBOM), no measured boot, trust directory, media directory or
    download jitter, a download that is allowed and succeeds within
    [fetchCalls] calls to the outside, a clock that does not run backwards
    and is inside the assignment's window for the [fetchCalls + 33] calls up
    to the reboot, and checks that pass within [checkCalls] calls, a step
    taking at most [pace], where the stability period and two steps fit into
    the health timeout. *)
Theorem assignment_commits checkCalls pace w :
  idle_device w → window_holds a r (fetchCalls + 33) w → checks_pass (D := D) c checkCalls pace →
  gives (Submit c a) w (fun _ w' => ∃ n, gives (Steps c n) w' (fun _ w2 => committed_on a r target w2)).
Proof.
  intros Hidle Hwin Hpass. replace (fetchCalls + 33)%nat with (S (fetchCalls + 32)) in Hwin by lia.
  eapply gives_mono; [apply Submit_gives; [done|by eapply window_now]|].
  intros j w' (Ho & Hp & Hst & Hrq & Hfs & Ht). eapply accepted_job_commits; try done.
  eapply window_shrinks; [|done]. by replace (fetchCalls + 31 + 2)%nat with (S (fetchCalls + 32)) by lia.
Qed.

(** C3: with checks that fail, a valid assignment is accepted and, after
    finitely many steps, rolled back: the job is closed as [RolledBack], the
    device runs the old slot with its old version again, and the slot that
    was written is not good.  This is for the machine, device, journal,
    assignment and release of C2, a clock inside the assignment's window for
    the [fetchCalls + 33] calls up to the reboot, and checks that fail while
    the clock goes on past the health timeout. *)
Theorem assignment_rolls_back w :
  idle_device w → window_holds a r (fetchCalls + 33) w → checks_fail (D := D) c →
  gives (Submit c a) w (fun _ w' => ∃ n, gives (Steps c n) w' (fun _ w2 => rolled_back_on a v target w2)).
Proof.
  intros Hidle Hwin Hfail. replace (fetchCalls + 33)%nat with (S (fetchCalls + 32)) in Hwin by lia.
  eapply gives_mono; [apply Submit_gives; [done|by eapply window_now]|].
  intros j w' (Ho & Hp & Hst & Hrq & Hfs & Ht). eapply unhealthy_job_rolls_back; try done.
  eapply window_shrinks; [|done]. by replace (fetchCalls + 31 + 2)%nat with (S (fetchCalls + 32)) by lia.
Qed.
End accept.
