(* ===== verification/Measure.v ===== *)
(** * The measurements (scripts/measure/main.go)

    The command that drives the engine on the simulator and a relay with a
    hundred clients, and reports what it saw: the loop [until], the device
    [newDevice] sets up, and the reports.  What a clock, SQLite's files and
    the host answer is read from the oracle or is a parameter; the size of the
    whole state directory, most of it SQLite's, is not part of the reports. *)
From stdpp Require Import base tactics gmap strings list.
From Stdlib Require Import ZArith Lia Ascii.
From S2P Require Import Prelude Model Config Crypto Files Backend Dependable Metrics Trace Topo Verify World Store TrustMeta MetricsText Payload Download Relay RelayPool Engine EngineFrame EngineSpec Refine RefineEngine Cli Commands Progress Accept.
Local Open Scope Z_scope.

Definition artifactBytes : Z := Z.shiftl 1 20.

(** [bytes.Repeat([]byte("b"), artifactBytes)] *)
Definition measurePayload (b : Byte.byte) : bytes := repeat b (Z.to_nat artifactBytes).

(** ** The device *)

Definition measureConfig (dir id host : string) (pub : bytes) : Config :=
  mkConfig id "measure-board" dir (dir +:+ "/agent.sock") "simulator" false
    {["measure" := base64_encode pub]} [host] (Z.shiftl 8 20) 0 1 0 [] [] 0 0 "" "" ""
    false "" "" "" "" "" "" false "" "" "" "" "".

Definition time_Minute : duration := 60 * Second.
Definition time_Hour : duration := 60 * time_Minute.

(** [Duration.Milliseconds] *)
Definition Milliseconds (d : duration) : Z := Z.quot d 1000000.

Definition measureRelease (c : Config) (id version : string) (seq : Z) (url : string) (now : time) : Release :=
  mkRelease 1 id seq (c_Compatible c) (c_Backend c) version (now + time_Hour)
    (mkArtifact (url +:+ "/os.raucb") (digest (measurePayload Byte.x62)) artifactBytes) "" zeroArtifact
    [] false false "" [].

Definition measureAssignment (c : Config) (id : string) (env : Envelope) (now1 now2 : time) : Assignment :=
  mkAssignment ("job-" +:+ id) (c_DeviceID c) env (now1 - time_Minute) (now2 + 30 * time_Minute) true "".

Record installReport := mkInstallReport {
  ir_artifact_bytes : Z;
  ir_wall_ms : Z;
  ir_steps : Z;
  ir_final_state : string;
  ir_booted_slot : string;
  ir_journal_bytes : Z;
  ir_journal_wal_bytes : Z;
  ir_cache_bytes : Z;
  ir_health_stable_seconds : Z;
}.
Record rollbackReport := mkRollbackReport {
  rr_wall_ms : Z;
  rr_steps : Z;
  rr_final_state : string;
  rr_booted_slot : string;
  rr_health_timeout_seconds : Z;
}.
Record recoverReport := mkRecoverReport {
  cr_time_to_needs_recovery_ms : Z;
  cr_steps_to_needs_recovery : Z;
  cr_recover_abort_wall_ms : Z;
  cr_final_state : string;
}.

Section measure.
Context `{MapRange, Limits, LocalZone, NetURL, Net, Ed25519, LineJSON}.
Context `{JSONDecode Release, JSONEncode Release, JSONEncode Assignment, JSONDecode multiSigned, JSONDecode rootMeta,
          JSONDecode snapshotMeta, JSONDecode timestampMeta, JSONDecode targetsMeta}.
Context `{Codec, Env}.
Abbreviation M := (Prelude.M (World Simulator)).
Implicit Types w : World Simulator.

(** [ed25519.GenerateKey], [ed25519.Sign] and the URL of the test server. *)
Context (generated : result (bytes * bytes)) (sign : bytes → bytes → bytes) (serverURL : string).
(** What [os.Stat] says of a file of SQLite: its size, or an error. *)
Context (sqliteFile : nat → path → option Z).

Definition newDevice (dir id version : string) (seq : Z) : M (Config * Release * Assignment) :=
  '(pub, priv) ← lift generated;
  u ← lift (match url_Parse serverURL with Some u => Ok u | None => errorf "parse" end);
  let c := measureConfig dir id (u_Host u) pub in
  _ ← lift (Validate c);
  _ ← OpenStore true true None;
  n ← tick;
  sim ← lift (NewSimulator None (env_io n) (c_Compatible c));
  _ ← modify (set_w_dev sim);
  now ← Now;
  let rel := measureRelease c id version seq serverURL now in
  env ← lift (SignRelease sign rel "measure" priv);
  now1 ← Now;
  now2 ← Now;
  mret (c, rel, measureAssignment c id env now1 now2).

(** ** until *)

(** [for _, j := range view.Jobs { if j.State == want { return } }] *)
Definition reached (want : State) (d : Database) : bool :=
  existsb (fun p => bool_decide (j_State p.2 = want)) (map_range (db_Jobs d)).

(** The steps and the error; [None] is fuel running out, which a clock that
    goes on rules out ([until_returns]). *)
Fixpoint until_loop (c : Config) (fuel : nat) (want : State) (deadline : time) (steps : Z)
    : M (option (Z * option error)) :=
  match fuel with
  | O => mret None
  | S fuel =>
      now ← Now;
      if Before now deadline then
        view ← View;
        if reached want view then mret (Some (steps, None))
        else
          let steps := s64 (steps + 1) in
          r ← try (Step c);
          match r with
          | Err e => mret (Some (steps, Some e))
          | Ok _ => until_loop c fuel want deadline steps
          end
      else mret (Some (steps, Some (errors_New ("timed out waiting for " +:+ State_string want))))
  end.

Definition until (c : Config) (fuel : nat) (want : State) (limit : duration) : M (option (Z * option error)) :=
  now ← Now; until_loop c fuel want (now + limit) 0.

(** [steps, err := until(...); if err != nil { return nil, err }] *)
Definition untilOr {A} (c : Config) (fuel : nat) (want : State) (k : Z → M (option A)) : M (option A) :=
  r ← until c fuel want (30 * Second);
  match r with
  | None => mret None
  | Some (_, Some e) => fail e
  | Some (steps, None) => k steps
  end.

(** ** The measurements *)

(** The same walk as [cacheBytes]. *)
Definition dirBytes (root : path) : M Z := fs ← view_fs; walkBytes root (map_to_list fs) 0.

Definition fileBytes (p : path) : M Z := n ← tick; mret (default 0 (sqliteFile n p)).

Definition measureInstall (fuel : nat) (dir : string) : M (option installReport) :=
  '(c, _, asg) ← newDevice dir "measure-install" "1.0.1" 1;
  _ ← Now;
  _ ← Submit c asg;
  untilOr c fuel Committed (fun steps =>
  wall ← Since;
  st ← Status;
  journal ← fileBytes (Join dir ["ota.db"]);
  wal ← fileBytes (Join dir ["ota.db-wal"]);
  cache ← dirBytes (Join dir ["cache"]);
  mret (Some (mkInstallReport artifactBytes (Milliseconds wall) steps (State_string Committed) (ds_Booted st)
                journal wal cache (c_HealthStableSeconds c)))).

(** [e.Health] is replaced by a function that fails: [env_health]. *)
Definition measureRollback (fuel : nat) (dir : string) : M (option rollbackReport) :=
  '(c, _, asg) ← newDevice dir "measure-rollback" "1.0.2" 2;
  _ ← Submit c asg;
  _ ← Now;
  untilOr c fuel RolledBack (fun steps =>
  st ← Status;
  wall ← Since;
  mret (Some (mkRollbackReport (Milliseconds wall) steps (State_string RolledBack) (ds_Booted st) (c_HealthTimeoutSeconds c)))).

Definition setFailInstall (b : bool) : M unit :=
  modify (fun w => set_w_dev (mkSim (sim_file (w_dev w)) (sim_writeErr (w_dev w)) b (FailBoot (w_dev w))) w).

Definition measureRecoverAbort (fuel : nat) (dir : string) : M (option recoverReport) :=
  '(c, _, asg) ← newDevice dir "measure-recover" "1.0.3" 3;
  _ ← setFailInstall true;
  _ ← Submit c asg;
  _ ← Now;
  untilOr c fuel NeedsRecovery (fun steps =>
  recoveryWall ← Since;
  _ ← setFailInstall false;
  _ ← Now;
  _ ← RecoverAbort c;
  abortWall ← Since;
  view ← View;
  mret (Some (mkRecoverReport (Milliseconds recoveryWall) steps (Milliseconds abortWall)
    (State_string (match db_Jobs view !! asg_JobID asg with Some j => j_State j | None => UnknownState "" end))))).
End measure.

(** ** The host *)

(** [strconv.Atoi] whose error is dropped: 0 where the text is no number,
    the nearest [int] where it is out of range. *)
Definition Atoi (s : string) : Z :=
  let l := String.list_ascii_of_string s in
  let '(neg, l) := match l with
                   | "-"%char :: l => (true, l)
                   | "+"%char :: l => (false, l)
                   | _ => (false, l)
                   end in
  if (length l =? 0)%nat || negb (numeral l) then 0
  else let n := decimal l 0 in
       if neg then Z.max (- n) (- 2 ^ 63) else Z.min n (2 ^ 63 - 1).

(** The output of [ps -o rss= -p PID], or its error. *)
Definition rssKB (out : result bytes) : Z :=
  match out with Err _ => 0 | Ok b => Atoi (TrimSpace b) end.

(** [strings.TrimSpace(os.Getenv("QUALIFY_QEMU_IMAGE"))] and what [os.Stat] says of it. *)
Definition qemuNote (image : bytes) (stat : string → result bool) : string :=
  let qemu := TrimSpace image in
  let unset := "not measured; QUALIFY_QEMU_IMAGE is unset or not a file" in
  if negb (eqs qemu "") then
    match stat qemu with
    | Ok true => "image file is present; this command does not boot QEMU"
    | _ => unset
    end
  else unset.

Record hostReport := mkHostReport {
  he_go : string; he_os : string; he_arch : string;
  he_uname : string; he_profile : string; he_qemu : string;
  he_minewing : string; he_note : string;
}.
(** The error of [uname -smr] is dropped with its output. *)
Definition environment (go os arch : string) (uname image : bytes) (stat : string → result bool) : hostReport :=
  mkHostReport go os arch (TrimSpace uname) "simulator" (qemuNote image stat) "not measured; no board run"
    "In-process simulator on this host. Install time is engine and localhost download time, not RAUC flash time.".

(** The resident memory is what [ps] printed. *)
Lemma rssKB_reads b :
  numeral (String.list_ascii_of_string (TrimSpace b)) = true → TrimSpace b ≠ "" →
  decimal (String.list_ascii_of_string (TrimSpace b)) 0 < 2 ^ 63 →
  rssKB (Ok b) = decimal (String.list_ascii_of_string (TrimSpace b)) 0.
Proof.
  unfold rssKB, Atoi. destruct (TrimSpace b) as [|x t]; [done|]. intros Hn _ Hlt.
  assert (Hx : in_range "0" "9" x = true) by (by apply andb_true_iff in Hn as [? _]).
  set (l := String.list_ascii_of_string (String x t)) in *.
  assert (E : match l with "-"%char :: l => (true, l) | "+"%char :: l => (false, l) | _ => (false, l) end = (false, l)).
  { subst l. simpl. destruct x as [[] [] [] [] [] [] [] []]; done. }
  rewrite E, Hn. cbn [negb]. rewrite orb_false_r. destruct (length l =? 0)%nat eqn:El; [by subst l|]. lia.
Qed.

(** ** The peak of the resident memory *)

(** One sample of [watch], and the last one, of [max]. *)
Definition rssSample (peak n : Z) : Z := if n >? peak then n else peak.

(** [reset], the samples of [watch] until [max], and the sample of [max]. *)
Definition rssPeak (start : Z) (watched : list Z) (last : Z) : Z := rssSample (fold_left rssSample watched start) last.

Lemma rssSample_max peak n : rssSample peak n = Z.max peak n.
Proof. unfold rssSample. rewrite Z.gtb_ltb. destruct (Z.ltb_spec peak n); lia. Qed.

(** What is reported is the largest sample of the phase. *)
Lemma rssPeak_max start watched last :
  (∀ n, n = start ∨ n ∈ watched ∨ n = last → n ≤ rssPeak start watched last) ∧
  (rssPeak start watched last = start ∨ rssPeak start watched last ∈ watched ∨ rssPeak start watched last = last).
Proof.
  unfold rssPeak. rewrite rssSample_max. revert start. induction watched as [|x l IH]; intros start; simpl.
  - split; [|lia]. intros n [-> |[Hn| ->]]; [lia|by apply not_elem_of_nil in Hn|lia].
  - rewrite rssSample_max. destruct (IH (Z.max start x)) as [Hle Hin]. split.
    + intros n [-> |[Hn| ->]]; [|apply elem_of_cons in Hn as [-> |Hn]|].
      * pose proof (Hle _ (or_introl eq_refl)). lia.
      * pose proof (Hle _ (or_introl eq_refl)). lia.
      * apply Hle. auto.
      * apply Hle. auto.
    + destruct (Z.max_spec start x) as [[_ E]|[_ E]]; rewrite E in *; rewrite elem_of_cons; tauto.
Qed.

(** [run]: the four measurements in order, each with the peak of its phase,
    up to the first that fails. *)
Section run.
Context (before : Z) (host : hostReport).
Context {I R C W : Type} (install : result I) (rollback : result R) (recovery : result C) (wan : result W).
Context (rss : nat → Z * list Z * Z).   (* the samples of each phase *)

Definition phasePeak (i : nat) : Z := let '(start, watched, last) := rss i in rssPeak start watched last.

Definition measureRun : result (hostReport * Z * (I * Z) * (R * Z) * (C * Z) * (W * Z)) :=
  i ← install;
  r ← rollback;
  c ← recovery;
  w ← wan;
  Ok (host, before, (i, phasePeak 0), (r, phasePeak 1), (c, phasePeak 2), (w, phasePeak 3)).
End run.

(** ** The loop ends *)
Section loop.
Context `{MapRange, Limits, LocalZone, NetURL, Net, Ed25519, LineJSON}.
Context `{JSONDecode Release, JSONEncode Release, JSONEncode Assignment, JSONDecode multiSigned, JSONDecode rootMeta,
          JSONDecode snapshotMeta, JSONDecode timestampMeta, JSONDecode targetsMeta}.
Context `{Codec, Env} (c : Config).
Implicit Types w : World Simulator.

(** Code never goes back to an earlier reading of the oracle. *)
Definition later w w' : Prop := (w_tick w ≤ w_tick w')%nat.
Global Instance later_preorder : PreOrder later.
Proof. split; unfold later; [intros ?|intros ? ? ?]; lia. Qed.

Lemma frame_later {A} (m : M (World Simulator) A) : keeps frame m → keeps later m.
Proof. intros Hm w. apply (fr_tick _ _ (Hm w)). Qed.

Lemma modify_later f : (∀ w, w_tick (f w) = w_tick w) → keeps later (modify f).
Proof. intros Hf w. unfold later. simpl. by rewrite Hf. Qed.

Lemma tick_later : keeps later (tick (D := Simulator)).
Proof. apply frame_later, tick_frame. Qed.

Lemma device_later {A} (f : Simulator → result A * Simulator) : keeps later (device f).
Proof. intros w. unfold device, later. destruct (f (w_dev w)). simpl. lia. Qed.

Lemma Update_later fn : (∀ d, keeps frame (fn d)) → keeps later (Update (D := Simulator) fn).
Proof.
  intros Hfn w. destruct (Update_outcome fn w Hfn) as [o w' Hf _|e w1 w' Hf ->
      |n0 n sp o w1 w2 w' _ Hf _ _ _ [[_ ->]|(e & _ & ->)]]; apply (fr_tick _ _ Hf).
Qed.

Local Hint Resolve tick_later device_later : keeps.
Local Hint Extern 1 (keeps later (modify _)) => (by apply modify_later) : keeps.
Local Hint Extern 2 (keeps later (Update _)) =>
  (apply Update_later; intros; first [apply keeps_lift; apply _ | apply keeps_ret; apply _]) : keeps.
Local Hint Extern 3 (keeps later _) => (apply frame_later; solve [eauto with keeps]) : keeps.
Local Hint Resolve stats_frame Now_frame Since_frame View_frame Health_frame applySidePayloads_frame
  artifactsLocal_frame fetchAll_frame armDownload_frame checkJobSBOM_frame
  settlePayloads_frame nextSpan_frame syscall_frame CheckArtifact_frame : keeps.

Lemma view_later : keeps later (view_fs (D := Simulator)).
Proof. apply frame_later, view_fs_frame. Qed.
Lemma Status_later : keeps later (Status (D := Simulator)).
Proof. unfold Status. keeps_auto. Qed.
Lemma Install_later p r : keeps later (Install (D := Simulator) p r).
Proof. unfold Install, emit. pose proof view_later. keeps_auto. Qed.
Lemma Mark_later state slot : keeps later (Mark (D := Simulator) state slot).
Proof. unfold Mark, emit. keeps_auto. Qed.
Lemma Reboot_later : keeps later (Reboot (D := Simulator)).
Proof. unfold Reboot, emit. keeps_auto. Qed.
Lemma save_later j st msg : keeps later (save (D := Simulator) c j st msg).
Proof. unfold save. keeps_auto. Qed.
Local Hint Resolve Status_later Install_later Mark_later Reboot_later save_later : keeps.

Lemma current_later : keeps later (current (D := Simulator)).
Proof. unfold current. keeps_auto. Qed.
Lemma noteDeferred_later j e : keeps later (noteDeferred (D := Simulator) c j e).
Proof. unfold noteDeferred. keeps_auto. Qed.
Lemma step_install_later j p : keeps later (step_install (D := Simulator) c j p).
Proof. unfold step_install, step_inspect. keeps_auto. Qed.
Lemma confirmNormalBoot_later : keeps later (confirmNormalBoot (D := Simulator) c).
Proof. unfold confirmNormalBoot, confirmHealthy, bootFallback, set_healthySince. keeps_auto. Qed.
Local Hint Resolve current_later noteDeferred_later step_install_later confirmNormalBoot_later : keeps.

Lemma step_job_later j now : keeps later (step_job (D := Simulator) c j now).
Proof.
  unfold step_job, preinstall, step_accepted, step_downloading, step_fetch, step_verified, step_os, step_awaiting, reboot,
    step_checking, step_health, step_rollback, set_healthySince. keeps_auto.
Qed.
Local Hint Resolve step_job_later : keeps.

Lemma Step_later : keeps later (Step (D := Simulator) c).
Proof. unfold Step, locked, Step_body. keeps_auto. Qed.

(** What a run of [until] may end in. *)
Definition until_ended (want : State) (o : outcome (option (Z * option error))) w' : Prop :=
  match o with
  | Ret (Some (_, None)) => reached want (w_data w') = true
  | Ret (Some (_, Some _)) | Died => True
  | Ret None | Fail _ => False
  end.

Lemma until_loop_ends fuel want deadline n0 steps w :
  (∀ i, (n0 ≤ i)%nat → deadline ≤ env_now i) → (n0 < w_tick w + fuel)%nat → (0 < fuel)%nat →
  until_ended want (until_loop c fuel want deadline steps w).1 (until_loop c fuel want deadline steps w).2.
Proof.
  intros Hclock. revert steps w. induction fuel as [|fuel IH]; intros steps w Hfuel Hpos; [lia|]. cbn [until_loop].
  unfold Now, tick, mbind, M_bind, mret, M_ret. destruct (env_crash (w_tick w)); [done|]. unfold Before.
  destruct (Z.ltb_spec (env_now (w_tick w)) deadline) as [Hlt|Hge]; [|done].
  assert (Hn0 : (w_tick w < n0)%nat).
  { destruct (Nat.lt_ge_cases (w_tick w) n0) as [|Hle]; [done|]. apply Hclock in Hle. lia. }
  rewrite View_spec. destruct (reached want _) eqn:Er; [done|]. set (w1 := set_w_tick _ w). unfold try.
  pose proof (Step_later w1) as Hl. destruct (Step c w1) as [[u|e|] w2]; simpl in Hl; [|done|done].
  apply IH; [|lia]. unfold later in Hl. simpl in Hl. lia.
Qed.

(** With a clock that goes on, [until] ends, whatever the engine does:
    with enough fuel it returns, and when it returns without an error a job
    has the state it waited for. *)
Theorem until_ends want limit w :
  (∀ t, ∃ n0, ∀ n, (n0 ≤ n)%nat → t ≤ env_now n) →
  ∃ fuel0, ∀ fuel, (fuel0 ≤ fuel)%nat →
    until_ended want (until c fuel want limit w).1 (until c fuel want limit w).2.
Proof.
  intros Hclock. destruct (Hclock (env_now (w_tick w) + limit)) as [n0 Hn0]. exists (S n0). intros fuel Hfuel.
  unfold until, Now, tick, mbind, M_bind, mret, M_ret. destruct (env_crash (w_tick w)); [done|].
  apply (until_loop_ends fuel want _ n0); [done|simpl; lia|lia].
Qed.
End loop.

(** ** The measurements end *)
Section ends.
Context `{MapRange, Limits, LocalZone, NetURL, Net, Ed25519, LineJSON}.
Context `{JSONDecode Release, JSONEncode Release, JSONEncode Assignment, JSONDecode multiSigned, JSONDecode rootMeta,
          JSONDecode snapshotMeta, JSONDecode timestampMeta, JSONDecode targetsMeta}.
Context `{Codec, Env}.
Context (generated : result (bytes * bytes)) (sign : bytes → bytes → bytes) (serverURL : string).
Context (sqliteFile : nat → path → option Z).
Context (Hclock : ∀ t, ∃ n0, ∀ n, (n0 ≤ n)%nat → t ≤ env_now n).
Implicit Types w : World Simulator.

(** With enough fuel [m] does not run out of it, and what it returns has [P]. *)
Definition ends {A} (P : A → World Simulator → Prop) (m : nat → M (World Simulator) (option A)) w : Prop :=
  ∃ fuel0, ∀ fuel, (fuel0 ≤ fuel)%nat →
    match m fuel w with
    | (Ret None, _) => False
    | (Ret (Some a), w') => P a w'
    | _ => True
    end.

Lemma ends_bind {A B} P (m : M (World Simulator) B) (k : B → nat → M (World Simulator) (option A)) w :
  (∀ b w', ends P (k b) w') → ends P (fun fuel => m ≫= fun b => k b fuel) w.
Proof.
  intros Hk. unfold ends, mbind, M_bind. destruct (m w) as [[b|e|] w']; [apply Hk|by exists 0%nat..].
Qed.

(** What follows the wait may rely on the state waited for. *)
Lemma ends_until {A} P c want (k : Z → M (World Simulator) (option A)) w :
  (∀ steps w', reached want (w_data w') = true →
     match k steps w' with (Ret None, _) => False | (Ret (Some a), w2) => P a w2 | _ => True end) →
  ends P (fun fuel => untilOr c fuel want k) w.
Proof.
  intros Hk. destruct (until_ends c want (30 * Second) w Hclock) as [fuel0 Hu]. exists fuel0. intros fuel Hf.
  specialize (Hu fuel Hf). unfold untilOr, mbind, M_bind.
  destruct (until c fuel want (30 * Second) w) as [[[[steps [e|]]|]|e|] w']; simpl in *; [done|by apply Hk|done..].
Qed.

(** Reading the report's other figures leaves the journal alone. *)
Definition same_data w w' : Prop := w_data w' = w_data w.
Global Instance same_data_preorder : PreOrder same_data.
Proof. split; unfold same_data; [done|]. intros w1 w2 w3. congruence. Qed.
Lemma tick_data : keeps same_data (tick (D := Simulator)).
Proof. intros w. unfold tick. by destruct (env_crash _). Qed.
Lemma device_data {A} (f : Simulator → result A * Simulator) : keeps same_data (device f).
Proof. intros w. unfold device, same_data. by destruct (f (w_dev w)). Qed.
Local Hint Resolve tick_data device_data : keeps.
Lemma walkBytes_data root l n : keeps same_data (walkBytes (D := Simulator) root l n).
Proof. revert n. induction l as [|[p []] l IH]; intros n; cbn [walkBytes]; keeps_auto. Qed.
Lemma dirBytes_data root : keeps same_data (dirBytes root).
Proof. unfold dirBytes, view_fs. pose proof walkBytes_data. keeps_auto. Qed.
Lemma fileBytes_data p : keeps same_data (fileBytes sqliteFile p).
Proof. unfold fileBytes. keeps_auto. Qed.
Local Hint Resolve dirBytes_data fileBytes_data : keeps.

(** [m] returns only [Some a], with [Q a]. *)
Definition reports {A} (Q : A → World Simulator → Prop) (m : M (World Simulator) (option A)) : Prop :=
  ∀ w o w', m w = (Ret o, w') → ∃ a, o = Some a ∧ Q a w'.
Lemma reports_ret {A} (Q : A → World Simulator → Prop) a : (∀ w, Q a w) → reports Q (mret (Some a)).
Proof. intros Ha w o w' [= <- _]. eauto. Qed.
Lemma reports_bind {A B} (Q : A → World Simulator → Prop) (m : M (World Simulator) B) k : (∀ b, reports Q (k b)) → reports Q (m ≫= k).
Proof. intros Hk w o w' (b & w1 & _ & E)%bind_returns. by eapply Hk. Qed.

Lemma reports_run {A} (Q : A → World Simulator → Prop) (m : M (World Simulator) (option A)) w :
  reports Q m → match m w with (Ret None, _) => False | (Ret (Some a), w') => Q a w' | _ => True end.
Proof.
  intros Hq. specialize (Hq w). destruct (m w) as [[o|e|] w']; [|done..]. by destruct (Hq o w' eq_refl) as (a & -> & Ha).
Qed.

Lemma reports_reached {A} (Q : A → World Simulator → Prop) want (m : M (World Simulator) (option A)) w :
  keeps same_data m → reports Q m → reached want (w_data w) = true →
  match m w with
  | (Ret None, _) => False
  | (Ret (Some a), w') => Q a w' ∧ reached want (w_data w') = true
  | _ => True
  end.
Proof.
  intros Hm Hq Hr. specialize (Hm w). apply (reports_run _ _ w) in Hq. destruct (m w) as [[[a|]|e|] w']; [|done..].
  split; [done|]. unfold same_data in Hm. simpl in Hm. by rewrite Hm.
Qed.

(** Both measurements of an update end, whatever the engine does, and report
    only a job that is in the journal with the state they name. *)
Theorem measureInstall_ends dir w :
  ends (fun rep w' => ir_final_state rep = State_string Committed ∧ reached Committed (w_data w') = true)
    (fun fuel => measureInstall generated sign serverURL sqliteFile fuel dir) w.
Proof.
  unfold measureInstall. apply ends_bind. intros [[c rel] asg] w1. do 2 (apply ends_bind; intros ? ?).
  apply ends_until. intros steps w2. apply (reports_reached (fun rep _ => _)); [unfold Since, Status; keeps_auto|].
  repeat (apply reports_bind; intros ?). by apply reports_ret.
Qed.

Theorem measureRollback_ends dir w :
  ends (fun rep w' => rr_final_state rep = State_string RolledBack ∧ reached RolledBack (w_data w') = true)
    (fun fuel => measureRollback generated sign serverURL fuel dir) w.
Proof.
  unfold measureRollback. apply ends_bind. intros [[c rel] asg] w1. do 2 (apply ends_bind; intros ? ?).
  apply ends_until. intros steps w2. apply (reports_reached (fun rep _ => _)); [unfold Since, Status; keeps_auto|].
  repeat (apply reports_bind; intros ?). by apply reports_ret.
Qed.

(** The third one ends too; it reports the state in which the operator's
    abort left the job. *)
Theorem measureRecoverAbort_ends dir w :
  ends (fun rep w' => ∃ id, cr_final_state rep =
          State_string (match db_Jobs (w_data w') !! id with Some j => j_State j | None => UnknownState "" end))
    (fun fuel => measureRecoverAbort generated sign serverURL fuel dir) w.
Proof.
  unfold measureRecoverAbort. apply ends_bind. intros [[c rel] asg] w1. do 3 (apply ends_bind; intros ? ?).
  apply ends_until. intros steps w2 _. apply (reports_run _ _ w2). do 5 (apply reports_bind; intros ?).
  intros w3 o w4 (view & w5 & Hv & [= <- <-])%bind_returns. rewrite View_spec in Hv. injection Hv as <- <-.
  eexists. split; [done|]. by exists (asg_JobID asg).
Qed.
End ends.

(** ** A relay with a hundred clients *)

Definition clients : nat := 100.

Record relayReport := mkRelayReport {
  wr_clients : Z;
  wr_upstream_fetches : Z;
  wr_upstream_bytes : Z;
  wr_client_bytes : Z;
  wr_wan_bytes_not_sent : Z;
}.

(** The bytes of the clients' responses, or the first error. *)
Fixpoint clientBytes (ts : list thread) : result Z :=
  match ts with
  | [] => Ok 0
  | t :: ts =>
      match th_phase t with
      | Answered rs =>
          if negb (ry_status rs =? 200) then errorf "status"
          else n ← clientBytes ts; Ok (s64 (blen (ry_body rs) + n))
      | _ => errorf "no response"
      end
  end.

(** [countReader] over a [bytes.Reader]: what is left, and the count. *)
Record countReader := mkCount { co_rest : bytes; co_n : Z }.

(** [Read] into a buffer of [k] bytes; [None] is the end. *)
Definition countRead (k : nat) (c : countReader) : option bytes * countReader :=
  if (length (co_rest c) =? 0)%nat then (None, mkCount (co_rest c) (s64 (co_n c + 0)))
  else (Some (take k (co_rest c)), mkCount (drop k (co_rest c)) (s64 (co_n c + blen (take k (co_rest c))))).

(** A copy through buffers of [k] bytes. *)
Fixpoint countCopy (fuel k : nat) (c : countReader) : countReader :=
  match fuel with
  | O => c
  | S fuel => match countRead k c with
              | (None, c) => c
              | (Some _, c) => countCopy fuel k c
              end
  end.

(** What one fetch of [body] adds to the count. *)
Definition countedBytes (k : nat) (body : bytes) : Z := co_n (countCopy (S (length body)) k (mkCount body 0)).

Lemma countCopy_all fuel k c :
  (0 < k)%nat → (length (co_rest c) < fuel)%nat → 0 ≤ co_n c → co_n c + blen (co_rest c) < 2 ^ 63 →
  co_n (countCopy fuel k c) = co_n c + blen (co_rest c).
Proof.
  intros Hk. revert c. induction fuel as [|fuel IH]; intros [rest n] Hf Hn Hb; cbn [co_rest co_n countCopy] in *; [lia|].
  unfold countRead. cbn [co_rest co_n]. destruct rest as [|x rest];
    [unfold blen in *; cbn [length Nat.eqb co_n] in *; rewrite s64_small; lia|].
  cbn [length Nat.eqb]. set (r := x :: rest) in *.
  assert (Hsplit : blen r = blen (take k r) + blen (drop k r)).
  { unfold blen. rewrite <- Nat2Z.inj_add, <- length_app, take_drop. done. }
  assert (0 ≤ blen (take k r) ∧ 0 ≤ blen (drop k r)) as [??] by (unfold blen; lia).
  rewrite IH; cbn [co_rest co_n]; rewrite ?s64_small by lia; [lia|..|lia|lia].
  rewrite length_drop. subst r. simpl in *. lia.
Qed.

(** The reader counts every byte once, whatever the buffer. *)
Lemma countedBytes_all k body : (0 < k)%nat → blen body < 2 ^ 63 → countedBytes k body = blen body.
Proof. intros Hk Hb. unfold countedBytes. rewrite countCopy_all; simpl; lia. Qed.

(** The report once every client has its response ([wg.Wait()]); [reads] is
    what the counting reader saw of one fetch. *)
Definition measureRelay (reads : Z) (p : Pool) : result relayReport :=
  total ← clientBytes (po_threads p);
  let up := s64 (ry_fetches (po_world p) * reads) in
  Ok (mkRelayReport (Z.of_nat clients) (ry_fetches (po_world p)) up total (s64 (total - up))).

Section wan.
Context `{NetURL}.

Definition measureServer : RelayServer := mkRelay "measure-token" [].
Definition relayBody : bytes := measurePayload Byte.x7a.   (* 'z' *)

(** The upstream of the measurement, on a disk that works. *)
Definition measureUpstream (body : bytes) (_ : nat) (sha : string) : result stream :=
  if negb (eqs sha (digest body)) then errorf "digest" else Ok (body, false).
Definition measureRelayEnv (body : bytes) : RelayEnv := {|
  re_crash := fun _ => false; re_io := fun _ => None; re_short := fun _ => 0%nat;
  re_Do := fun _ _ => errorf "no origin";
  re_Upstream := Some (measureUpstream body) |}.

Definition clientRequest (sum : string) : relayRq := mkRelayRq "GET" ["artifacts"; sum] "Bearer measure-token" "".

(** All clients have started. *)
Definition started (sum : string) : Pool :=
  mkPool (mkRelayWorld 0 ∅ 0 []) None (replicate clients (mkThread (clientRequest sum) sum Arrived)).

Context (body : bytes).
Local Instance wan_env : RelayEnv := measureRelayEnv body.
Abbreviation sum := (digest body).

(** A client's phase, and the cache. *)
Definition client_ok (files : gmap string bytes) (ph : phase) : Prop :=
  match ph with
  | Filling => files !! sum = None
  | Storing b => b = (body, false) ∧ files !! sum = None
  | Serving _ => files !! sum = Some body
  | Answered rs => rs = mkRelayRs 200 body ∧ files !! sum = Some body
  | _ => True
  end.

Definition fetching (p : Pool) : Prop := ∃ i t b, po_threads p !! i = Some t ∧ th_phase t = Storing b.

Record uniform (p : Pool) : Prop := {
  un_pool : pool_ok measureServer p;
  un_length : length (po_threads p) = clients;
  un_thread : ∀ i t, po_threads p !! i = Some t →
    th_rq t = clientRequest sum ∧ th_sum t = sum ∧ client_ok (ry_files (po_world p)) (th_phase t);
  un_file : ry_files (po_world p) !! sum = None ∨ ry_files (po_world p) !! sum = Some body;
  un_count : (ry_fetches (po_world p) = 0 ∧ ry_files (po_world p) !! sum = None ∧ ¬ fetching p) ∨
    (ry_fetches (po_world p) = 1 ∧ (ry_files (po_world p) !! sum = Some body ∨ fetching p));
}.

Lemma client_authorized : relay_authorize measureServer (ry_auth (clientRequest sum)) = true.
Proof. by vm_compute. Qed.

Lemma sum_valid : validDigest sum = true.
Proof. rewrite validDigest_pattern. apply digest_matches. Qed.

Lemma uniform_start : uniform (started sum).
Proof.
  assert (Ht : ∀ i t, po_threads (started sum) !! i = Some t → t = mkThread (clientRequest sum) sum Arrived).
  { intros i t [-> _]%lookup_replicate. done. }
  split.
  - split.
    + intros name b _ Hb. simpl in Hb. by rewrite lookup_empty in Hb.
    + intros i t ->%Ht. done.
    + intros i t ->%Ht. done.
    + done.
  - apply length_replicate.
  - intros i t Hi%Ht. by subst.
  - by left.
  - left. split; [done|]. split; [done|]. intros (i & t & b & Hi%Ht & Hb). by subst.
Qed.

(** What a turn of a client does. *)
Inductive client_move (w : RelayWorld) (ph : phase) : phase → option bool → RelayWorld → Prop :=
  | cm_quiet ph' mutex w' : ry_files w' = ry_files w → ry_fetches w' = ry_fetches w →
      (∀ b, ph ≠ Storing b) → (∀ b, ph' ≠ Storing b) → client_ok (ry_files w) ph' → client_move w ph ph' mutex w'
  | cm_fetch w' : ph = Filling → ry_files w' = ry_files w → ry_fetches w' = s64 (ry_fetches w + 1) →
      client_move w ph (Storing (body, false)) None w'
  | cm_store b w' : ph = Storing b → ry_fetches w' = ry_fetches w → ry_files w' !! sum = Some body →
      client_move w ph (Serving true) None w'.

Lemma client_moves t held m w ph mutex w' :
  th_rq t = clientRequest sum → th_sum t = sum → client_ok (ry_files w) (th_phase t) →
  ry_files w !! sum = None ∨ ry_files w !! sum = Some body →
  turn_of measureServer t held = Some m → m w = (Ret (ph, mutex), w') → client_move w (th_phase t) ph mutex w'.
Proof.
  intros Hrq Hsum Hok Hfile. unfold turn_of.
  assert (Hstat : ∀ hit miss, (∀ b, th_phase t ≠ Storing b) → (∀ b, hit ≠ Storing b) → (∀ b, miss ≠ Storing b) →
    (ry_files w !! sum = Some body → client_ok (ry_files w) hit) →
    (ry_files w !! sum = None → client_ok (ry_files w) miss) →
    turn_stat (th_sum t) hit miss w = (Ret (ph, mutex), w') → client_move w (th_phase t) ph mutex w').
  { intros hit miss Hnt Hh Hm Hoh Hom. unfold turn_stat, mbind, M_bind. rewrite exists_works by done.
    rewrite Hsum. destruct Hfile as [E|E]; rewrite E; intros Hr; injection Hr as <- <- <-; apply cm_quiet; auto. }
  destruct (th_phase t) as [| | | |b|locked|rs] eqn:Eph.
  - intros [= <-]. unfold turn_arrived. rewrite Hrq, client_authorized, Hsum, sum_valid. simpl. rewrite <- Hsum at 1.
    apply Hstat; done.
  - destruct held; [done|]. intros [= <-] Hr. injection Hr as <- <- <-. by apply cm_quiet.
  - intros [= <-]. apply Hstat; done.
  - intros [= <-]. unfold turn_filling. simpl. intros (n & w1 & Hn & Hr)%bind_returns.
    rewrite tick_works in Hn by done. injection Hn as <- <-. rewrite Hsum in Hr. unfold measureUpstream in Hr.
    rewrite eqs_refl in Hr. simpl in Hr. apply bind_returns in Hr as ([] & w2 & Hn & Hr). injection Hn as <-.
    injection Hr as <- <- <-. by apply cm_fetch.
  - intros [= <-]. unfold turn_storing. simpl. destruct Hok as [-> Hnone].
    intros (r & w1 & Hs & Hr)%bind_returns.
    assert (∃ w', storeUpstream (th_sum t) (body, false) w = (Ret None, w') ∧ stored_as (th_sum t) body w w')
      as (w2 & Hw & Hf & Hfs) by (by apply storeUpstream_works).
    rewrite Hw in Hs. injection Hs as <- <-. injection Hr as <- <- <-.
    eapply cm_store; [done|done|by rewrite <- Hsum].
  - intros [= <-]. unfold turn_serving. intros (rs & w1 & Hs & Hr)%bind_returns.
    unfold serveFile, ry_view, get, mret, M_ret, mbind, M_bind in Hs. rewrite syscall_tries in Hs by done. simpl in Hs.
    simpl in Hok. rewrite Hsum, Hok in Hs. injection Hs as <- <-. injection Hr as <- <- <-. by apply cm_quiet.
  - done.
Qed.

(** Other clients' phases stay right: a cached artifact stays, and only the
    owner of the mutex stores. *)
Lemma other_client p i j t u ph' mutex w' :
  uniform p → po_threads p !! i = Some t → po_threads p !! j = Some u → i ≠ j →
  client_move (po_world p) (th_phase t) ph' mutex w' → client_ok (ry_files w') (th_phase u).
Proof.
  intros Hu Hi Hj Hne Hm. destruct (un_thread _ Hu _ _ Hj) as (_ & _ & Hok).
  destruct Hm as [ph' mutex w' Hf _ _ _ _|w' _ Hf _|b w' Hst _ Hf]; [by rewrite Hf|by rewrite Hf|].
  assert (Hx : critical (th_phase u) = false).
  { destruct (critical (th_phase u)) eqn:E; [|done]. exfalso. apply Hne.
    eapply only_owner; [apply Hu|exact Hi|exact Hj|by rewrite Hst|done]. }
  destruct (th_phase u) as [| | | | | |rs]; try done. by destruct Hok as [-> _].
Qed.

Lemma fetching_insert p i t ph' owner w' :
  po_threads p !! i = Some t → (∀ b, th_phase t ≠ Storing b) → (∀ b, ph' ≠ Storing b) →
  fetching (mkPool w' owner (<[i := set_phase ph' t]> (po_threads p))) ↔ fetching p.
Proof.
  intros Hi Hold Hnew. split; intros (j & u & b & Hj & Hb).
  - simpl in Hj. apply list_lookup_insert_Some in Hj as [(<- & <- & _)|[Hne Hj]]; [by edestruct Hnew|by exists j, u, b].
  - exists j, u, b. split; [|done]. simpl. rewrite list_lookup_insert_ne; [done|]. intros <-.
    rewrite Hi in Hj. injection Hj as <-. by eapply Hold.
Qed.

Lemma uniform_turn i p p' : uniform p → schedule measureServer i p = Some p' → uniform p'.
Proof.
  intros Hu Hs. pose proof (schedule_turned _ _ _ _ Hs) as Hturn.
  pose proof (pool_ok_turned _ _ _ _ (un_pool _ Hu) Hturn) as Hpool.
  unfold schedule in Hs. destruct (po_threads p !! i) as [t|] eqn:Hi; [|done]. simpl in Hs.
  destruct (turn_of _ t _) as [m|] eqn:Hm; [|done]. simpl in Hs.
  assert (Hlive : lives m) by (by eapply turn_lives). specialize (Hlive (po_world p)).
  destruct (m (po_world p)) as [[[ph mutex]|e|] w'] eqn:Hr; [|done|done]. injection Hs as <-.
  destruct (un_thread _ Hu _ _ Hi) as (Hrq & Hsum & Hok).
  pose proof (client_moves _ _ _ _ _ _ _ Hrq Hsum Hok (un_file _ Hu) Hm Hr) as Hmv.
  pose proof (lookup_lt_Some _ _ _ Hi) as Hlt. split; [exact Hpool|simpl; rewrite length_insert; apply Hu|..].
  - intros j u Hj. simpl in Hj. apply list_lookup_insert_Some in Hj as [(<- & <- & _)|[Hne Hj]].
    + simpl. split; [done|]. split; [done|].
      destruct Hmv as [? ? ? Hf _ _ _ Hok'|? Hst Hf _|? ? _ _ Hf]; simpl; [by rewrite Hf| |done].
      rewrite Hst in Hok. split; [done|]. by rewrite Hf.
    + destruct (un_thread _ Hu _ _ Hj) as (? & ? & _). split; [done|]. split; [done|]. exact (other_client p i j t u _ _ _ Hu Hi Hj Hne Hmv).
  - simpl. destruct Hmv as [? ? ? Hf _ _ _ _|? _ Hf _|? ? _ _ Hf]; [rewrite Hf; apply Hu|rewrite Hf; apply Hu|by right].
  - destruct Hmv as [ph mutex w' Hf Hn Hold Hnew _|w' Hst Hf Hn|b w' Hst Hn Hf]; cbn [po_world].
    + rewrite Hf, Hn, (fetching_insert p i t) by done. apply Hu.
    + rewrite Hst in Hok. simpl in Hok.
      assert (Hfet : ∀ o, fetching (mkPool w' o (<[i := set_phase (Storing (body, false)) t]> (po_threads p)))).
      { intros o. exists i, (set_phase (Storing (body, false)) t), (body, false). simpl. by rewrite list_lookup_insert_eq. }
      destruct (un_count _ Hu) as [(E & _ & _)|(E & [Hx|(j & u & b & Hj & Hb)])].
      * right. split; [by rewrite Hn, E|by right].
      * congruence.
      * exfalso. assert (i = j) as <-; [|congruence].
        eapply only_owner; [apply Hu|exact Hi|exact Hj|by rewrite Hst|by rewrite Hb].
    + right. split; [|by left]. rewrite Hn.
      destruct (un_count _ Hu) as [(_ & _ & Hno)|(E & _)]; [|done]. exfalso. apply Hno. by exists i, t, b.
Qed.

Lemma uniform_turns sched p q : uniform p → turns measureServer sched p = Some q → uniform q.
Proof.
  revert p. induction sched as [|i sched IH]; intros p Hu Hs; simpl in Hs; [by simplify_eq|].
  destruct (schedule measureServer i p) as [p'|] eqn:E; [|done]. eapply IH; [|done]. by eapply uniform_turn.
Qed.

(** The clients' total, when all have the artifact. *)
Lemma clientBytes_all ts :
  (∀ t, t ∈ ts → th_phase t = Answered (mkRelayRs 200 body)) → (Z.of_nat (length ts) * blen body < 2 ^ 63) →
  clientBytes ts = Ok (Z.of_nat (length ts) * blen body).
Proof.
  induction ts as [|t ts IH]; intros Ht Hlen; [done|].
  assert (0 ≤ blen body) by (unfold blen; lia). cbn [length] in Hlen |- *.
  cbn [clientBytes]. rewrite (Ht t) by left. simpl.
  rewrite IH; [|intros u Hu; apply Ht; by right|nia]. simpl. f_equal. rewrite s64_small; nia.
Qed.

(** However the hundred clients interleave, when nobody can move every
    client has been sent the whole artifact, the relay has fetched it once,
    and the measurement reports the bytes of the other ninety-nine as not
    sent over the wide-area link. *)
Theorem measureRelay_reports k sched q :
  (0 < k)%nat → 0 < blen body < 2 ^ 50 → turns measureServer sched (started sum) = Some q →
  (∀ i, schedule measureServer i q = None) →
  measureRelay (countedBytes k body) q =
    Ok (mkRelayReport 100 1 (blen body) (100 * blen body) (99 * blen body)).
Proof.
  intros Hk Hb Hs Hstuck. rewrite countedBytes_all by lia. pose proof (uniform_turns _ _ _ uniform_start Hs) as Hu.
  assert (Hall : ∀ i t, po_threads q !! i = Some t → th_phase t = Answered (mkRelayRs 200 body)).
  { intros i t Hi. destruct (un_thread _ Hu _ _ Hi) as (_ & _ & Hok).
    destruct (decide (turns_left (th_phase t) = 0%nat)) as [E|Hne].
    - destruct (th_phase t) as [| | | | | |rs]; try done. by destruct Hok as [-> _].
    - destruct (pool_progress measureServer q i t) as (j & p' & Hj); [apply Hu|done|lia|by rewrite Hstuck in Hj]. }
  unfold measureRelay. rewrite clientBytes_all; rewrite ?(un_length _ Hu).
  - assert (Hone : ry_fetches (po_world q) = 1).
    { destruct (un_count _ Hu) as [(_ & Hnone & _)|[E _]]; [|done]. exfalso.
      destruct (lookup_lt_is_Some_2 (po_threads q) 0%nat) as [t Ht]; [rewrite (un_length _ Hu); unfold clients; lia|].
      destruct (un_thread _ Hu _ _ Ht) as (_ & _ & Hok). rewrite (Hall _ _ Ht) in Hok. destruct Hok as [_ Hf]. congruence. }
    rewrite Hone. unfold clients. cbn [mbind result_bind]. rewrite !s64_small by lia. do 2 f_equal; lia.
  - intros t [i Hi]%list_elem_of_lookup. by eapply Hall.
  - unfold clients. lia.
Qed.
End wan.
