(* ===== verification/Outcomes.v ===== *)
(** * Outcomes of a step in a reachable world

    An interrupted installation, the operator's abort, the health checks of a
    step. *)
From stdpp Require Import base tactics gmap strings list.
From Stdlib Require Import ZArith Lia.
From S2P Require Import Prelude Model Config Crypto Fmt Files Backend Metrics Trace Topo Verify World Store TrustMeta MetricsText Payload Download Engine EngineFrame EngineSpec Refine RefineEngine Fleet API System Commands.
Local Open Scope Z_scope.

Section outcomes.
Context `{MapRange, Limits, LocalZone, NetURL, Net, Ed25519, LineJSON, Unicode}.
Context `{JSONDecode Release, JSONEncode Assignment, JSONDecode multiSigned, JSONDecode rootMeta,
          JSONDecode snapshotMeta, JSONDecode timestampMeta, JSONDecode targetsMeta}.
Context `{JSONDecode Assignment, JSONEncode (list Event), JSONDecode ackBody, JSONDecode backupBody, FleetNet}.
Context `{Codec, Env} {D : Type} `{Backend D}.
Context (c : Config).
Implicit Types w : World D.

(** No backend call that changes the device: only journal writes. *)
Definition calm w w' : Prop :=
  w_dev w' = w_dev w ∧ ∃ l, w_trace w' = w_trace w ++ map AJournal l.

Global Instance calm_preorder : PreOrder calm.
Proof.
  split.
  - intros w. split; [done|]. exists []. by rewrite app_nil_r.
  - intros w1 w2 w3 [E1 [l1 T1]] [E2 [l2 T2]]. split; [congruence|]. exists (l1 ++ l2).
    by rewrite T2, T1, map_app, app_assoc.
Qed.

Lemma frame_calm w w' : frame w w' → calm w w'.
Proof. intros []. split; [done|]. exists []. by rewrite app_nil_r. Qed.

Lemma keeps_frame_calm {A} (m : M (World D) A) : keeps frame m → keeps calm m.
Proof. intros Hm w. apply frame_calm, Hm. Qed.

Lemma Update_calm fn : (∀ d, keeps frame (fn d)) → keeps calm (Update (D := D) fn).
Proof.
  intros Hfn w. destruct (Update_outcome fn w Hfn) as [o w' Hf _|e w1 w' Hf ->
      |n0 n sp o w1 w2 w' _ Hf _ _ _ [[_ ->]|(e & _ & ->)]].
  - by apply frame_calm.
  - apply (frame_calm _ _ Hf).
  - destruct Hf as [? ? ? ? Ht ? ?]. split; simpl; [done|]. exists [n]. by rewrite Ht.
  - destruct Hf as [? ? ? ? Ht ? ?]. split; simpl; [done|]. exists [n]. by rewrite Ht.
Qed.

Local Hint Resolve Now_frame settlePayloads_frame stats_frame View_frame nextSpan_frame : keeps.

Lemma save_calm j st msg : keeps calm (save (D := D) c j st msg).
Proof.
  unfold save.
  repeat (apply keeps_bind; [apply _|first [apply keeps_frame_calm; solve [eauto with keeps]
    |apply Update_calm; intros; apply keeps_lift; apply _]|intros ?]).
  destruct a3 as [span j']. apply keeps_bind; [apply _| |].
  - apply Update_calm. intros. apply keeps_lift; apply _.
  - intros _. apply keeps_frame_calm. destruct env_spans; [|apply keeps_ret; apply _]. intros w. by split.
Qed.

(** ** One step of the active job *)

Lemma reachable_at w : reachable c w → w_mu w = false → ∃ a, at_ c (w_data w) a w.
Proof.
  intros (s & _ & _ & Hl)%reachable_consistent Hmu. specialize (Hl Hmu).
  destruct s as [d m a]. exists a, d. pose proof (lk_memory _ _ _ Hl) as Hm. simpl in Hm. by subst.
Qed.

Lemma at_mu m a b w : at_ c m a w → at_ c m a (set_w_mu b w).
Proof. intros [d Hd]. exists d. by eapply linked_jframe; [|done]. Qed.

Lemma locked_spec {A} (m : M (World D) A) w :
  (locked m w).1 = (m (set_w_mu true w)).1 ∧
  jframe (m (set_w_mu true w)).2 (locked m w).2 ∧
  w_dev (locked m w).2 = w_dev (m (set_w_mu true w)).2.
Proof.
  unfold locked, mbind, M_bind, modify, try.
  by destruct (m (set_w_mu true w)) as [[x|e|] w']; simpl.
Qed.

(** [Step] with an active job: read the clock, then run the job's handler. *)
Lemma Step_body_active j w :
  activeJob (w_data w) = Some j →
  Step_body c w = if env_crash (w_tick w) then (Died, set_w_tick (S (w_tick w)) w)
    else step_job c j (env_now (w_tick w)) (set_w_tick (S (w_tick w)) w).
Proof.
  intros Hj. unfold Step_body, mbind, M_bind. rewrite current_spec. rewrite Hj.
  unfold Now, tick, mbind, M_bind, mret, M_ret. by destruct (env_crash (w_tick w)).
Qed.

Lemma Step_active j w :
  activeJob (w_data w) = Some j →
  let now := env_now (w_tick w) in
  let w1 := set_w_tick (S (w_tick w)) (set_w_mu true w) in
  ((Step c w).1 = Died ∧ calm w (Step c w).2) ∨
  ((Step c w).1 = (step_job c j now w1).1 ∧
   jframe (step_job c j now w1).2 (Step c w).2 ∧ w_dev (Step c w).2 = w_dev (step_job c j now w1).2).
Proof.
  intros Hj now w1. destruct (locked_spec (Step_body c) w) as (H1' & H2' & H3').
  unfold Step. rewrite (Step_body_active j) in H1', H2', H3' by done.
  change (w_tick (set_w_mu true w)) with (w_tick w) in *. fold now w1 in H1', H2', H3'.
  destruct (env_crash (w_tick w)); [left|by right]. simpl in *. split; [done|].
  split; [done|]. exists []. by rewrite app_nil_r, (jf_trace _ _ H2').
Qed.

(** C13: an installation interrupted by a crash is never retried: the next
    step makes no backend call and, when it succeeds, leaves the job durably
    in [NeedsRecovery]. *)
Theorem interrupted_install_not_retried j w :
  reachable c w → w_mu w = false → activeJob (w_data w) = Some j → j_State j = Installing →
  calm w (Step c w).2 ∧
  ((Step c w).1 = Ret tt → ∃ j', activeJob (w_data (Step c w).2) = Some j' ∧
     j_State j' = NeedsRecovery ∧ j_JobID j' = j_JobID j ∧
     durable (Step c w).2 = Ok (w_data (Step c w).2)).
Proof.
  intros Hr Hmu Hj Hst. destruct (reachable_at _ Hr Hmu) as [a Hat].
  destruct (Step_active j w Hj) as [[-> Hc]|(-> & Hf & Hdev)]; [done|].
  set (now := env_now _) in *. set (w1 := set_w_tick _ _) in *.
  assert (Hat1 : at_ c (w_data w) a w1).
  { destruct Hat as [d Hd]. exists d. by eapply linked_jframe; [|done]. }
  unfold step_job in *. rewrite Hst in *. set (msg := "agent restarted during installation; inspect RAUC and use recover-abort"%string) in *.
  assert (He : job_edge c j (set_j_State NeedsRecovery j)).
  { edge. }
  pose proof (save_at c j j NeedsRecovery msg _ _ _ Hj He Hat1) as Hs.
  pose proof (save_calm j NeedsRecovery msg w1) as [Hd [l Ht]].
  destruct (save c j NeedsRecovery msg w1) as [o w2]; simpl in *. split.
  - split; [by rewrite Hdev|]. exists l. by rewrite (jf_trace _ _ Hf).
  - intros ->. destruct Hs as (m' & j' & (tid & sid & t & ->) & Hact & [d Hl] & Hpo).
    pose proof (linked_jframe c _ _ _ Hf Hl) as [_ Hdur Hm Hsy]. simpl in *.
    rewrite Hm, Hdur. exists (set_j_SpanID sid (set_j_TraceID tid (set_j_Updated t (set_j_Error msg (set_j_State NeedsRecovery j))))).
    repeat (split; [done|]). rewrite Hsy; [done|]. by rewrite (jf_poisoned _ _ Hf).
Qed.

(** ** Backend calls, step by step *)

Lemma Status_ret w s w' :
  Status w = (Ret s, w') → (bk_Status (w_dev w)).1 = Ok s ∧ jframe w w' ∧
    w_healthySince w' = w_healthySince w ∧ w_tick w' = S (w_tick w).
Proof.
  unfold Status, tick, device, mbind, M_bind. destruct (env_crash _); [done|]. simpl.
  destruct (bk_Status (w_dev w)) as [[s0|e] d]; simpl; [|done]. by intros [= <- <-].
Qed.

Lemma Mark_ret state slot w w' :
  Mark state slot w = (Ret tt, w') → w_trace w' = w_trace w ++ [AMark state slot].
Proof.
  unfold Mark, tick, emit, device, modify, mbind, M_bind. destruct (env_crash _); [done|]. simpl.
  destruct (bk_Mark state slot (w_dev w)) as [[[]|e] d]; simpl; [|done]. by intros [= <-].
Qed.

(** [recover-abort] from the inside of the lock. *)
Lemma RecoverAbort_body_ret m a w w' :
  at_ c m a w → RecoverAbort_body c w = (Ret tt, w') →
  ∃ j s, activeJob m = Some j ∧ j_State j = NeedsRecovery ∧
    (bk_Status (w_dev w)).1 = Ok s ∧ ds_Operation s = "idle" ∧ ds_Booted s = j_OldSlot j ∧
    (∃ l, w_trace w' = w_trace w ++ [AMark "bad" (j_TargetSlot j); AMark "active" (j_OldSlot j)]
                         ++ map AJournal l) ∧
    activeJob (w_data w') = None ∧ durable w' = Ok (w_data w').
Proof.
  intros Hat Hret. unfold RecoverAbort_body in Hret.
  apply bind_returns in Hret as (cur & w0 & Hcur & Hret). rewrite current_spec in Hcur.
  assert (Hm : w_data w = m) by (destruct Hat as [d Hd]; apply (lk_memory _ _ _ Hd)).
  rewrite Hm in Hcur. injection Hcur as <- <-.
  destruct (activeJob m) as [j|] eqn:Hj; [|done]. destruct (negb _) eqn:Est; [done|].
  apply negb_false_iff, bool_decide_eq_true_1 in Est.
  apply bind_returns in Hret as (s & w1 & Hs & Hret).
  pose proof (Status_stays c m a w Hat) as Hat1. rewrite Hs in Hat1. simpl in Hat1.
  apply Status_ret in Hs as (Hs & Hf1 & _). destruct (_ || _) eqn:Eg; [done|]. reflect_bools.
  apply bind_returns in Hret as ([] & w2 & Hb & Hret).
  pose proof (Mark_stays c m a "bad" (j_TargetSlot j) ltac:(eapply mark_abandon; eauto) w1 Hat1) as Hat2.
  rewrite Hb in Hat2. simpl in Hat2. apply Mark_ret in Hb.
  apply bind_returns in Hret as ([] & w3 & Ha & Hret).
  pose proof (Mark_stays c m a "active" (j_OldSlot j) ltac:(eapply mark_restore; eauto) w2 Hat2) as Hat3.
  rewrite Ha in Hat3. simpl in Hat3. apply Mark_ret in Ha.
  assert (He : job_edge c j (set_j_State Failed j)).
  { edge. }
  set (msg := "operator aborted ambiguous installation; previous slot restored"%string) in *.
  pose proof (save_at c j j Failed msg _ _ _ Hj He Hat3) as Hsv.
  pose proof (save_calm j Failed msg w3) as [_ [l Hl]]. rewrite Hret in Hsv, Hl. simpl in *.
  destruct Hsv as (m' & j' & _ & Hact & [d Hd] & Hpo).
  exists j, s. repeat (split; [done|]). split.
  { exists l. by rewrite Hl, Ha, Hb, (jf_trace _ _ Hf1), <- !app_assoc. }
  destruct Hd as [_ Hdur Hmem Hsy]. simpl in *. rewrite Hmem. split; [done|].
  rewrite Hsy by done. done.
Qed.

(** C15: [recover-abort] succeeds only for a job in [NeedsRecovery] while the
    backend is idle on the original slot; it then marks the target bad and
    the original slot active, in that order, and durably closes the job. *)
Theorem recover_abort_restores w :
  reachable c w → w_mu w = false → (RecoverAbort c w).1 = Ret tt →
  ∃ j s, activeJob (w_data w) = Some j ∧ j_State j = NeedsRecovery ∧
    (bk_Status (w_dev w)).1 = Ok s ∧ ds_Operation s = "idle" ∧ ds_Booted s = j_OldSlot j ∧
    (∃ l, w_trace (RecoverAbort c w).2 = w_trace w ++
       [AMark "bad" (j_TargetSlot j); AMark "active" (j_OldSlot j)] ++ map AJournal l) ∧
    activeJob (w_data (RecoverAbort c w).2) = None ∧
    durable (RecoverAbort c w).2 = Ok (w_data (RecoverAbort c w).2).
Proof.
  intros Hr Hmu. destruct (reachable_at _ Hr Hmu) as [a Hat]. apply (at_mu _ _ true) in Hat.
  assert (Hlk : RecoverAbort c w = locked (RecoverAbort_body c) w).
  { unfold RecoverAbort, tryLocked, mbind, M_bind, get. by rewrite Hmu. }
  rewrite Hlk. destruct (locked_spec (RecoverAbort_body c) w) as (-> & [Ed _ Edk Et] & _).
  unfold durable. rewrite Ed, Edk, Et. intros Hret.
  destruct (RecoverAbort_body c (set_w_mu true w)) as [o w'] eqn:Eb. simpl in *. subst o.
  by apply (RecoverAbort_body_ret _ _ _ _ Hat Eb).
Qed.

(** ** The health window *)

(** The answer of the [n]th call to the outside makes the check pass. *)
Definition probe_passes (n : nat) (ck : Check) : Prop :=
  (ck_Kind ck = "http" ∧ env_probe n ck = Ok 200) ∨
  ((ck_Kind ck = "file" ∨ ck_Kind ck = "systemd") ∧ is_ok (env_probe n ck) = true).

(** Every configured check passes, asked one after the other from call [n]. *)
Definition healthy_at (n : nat) : Prop :=
  match env_health with
  | None => ∀ i ck, c_Checks c !! i = Some ck → probe_passes (n + i) ck
  | Some health => health n = None
  end.

Lemma probe_spec ck w r w' :
  probe ck w = (Ret r, w') → w_tick w' = S (w_tick w) ∧ (r = None ↔ probe_passes (w_tick w) ck).
Proof.
  unfold probe, tick, probe_passes, mbind, M_bind, mret, M_ret. destruct (env_crash _); [done|].
  destruct (eqs (ck_Kind ck) "file" || _) eqn:Ek.
  - intros [= <- <-]. split; [done|].
    assert (ck_Kind ck = "file" ∨ ck_Kind ck = "systemd") by (apply orb_true_iff in Ek; by rewrite !eqs_true in Ek).
    destruct (env_probe _ _); simpl; [|naive_solver]. split; [auto|done].
  - apply orb_false_iff in Ek as [E1%eqs_false E2%eqs_false]. destruct (eqs _ "http") eqn:Eh.
    + apply eqs_true in Eh. intros [= <- <-]. split; [done|].
      destruct (env_probe _ _) as [z|e]; simpl; [|naive_solver].
      destruct (Z.eqb_spec z 200) as [->|Hne]; simpl; naive_solver.
    + apply eqs_false in Eh. intros [= <- <-]. split; [done|]. naive_solver.
Qed.

Lemma LocalHealth_spec l w o w' :
  LocalHealth l w = (o, w') → o ≠ Died →
  (o = Ret tt ↔ ∀ i ck, l !! i = Some ck → probe_passes (w_tick w + i) ck).
Proof.
  revert w. induction l as [|ck l IH]; intros w; [by intros [= <- <-]|]. simpl.
  unfold mbind at 1, M_bind at 1. destruct (probe ck w) as [[r|e|] w1] eqn:Ep.
  - apply probe_spec in Ep as [Et Hr]. destruct r as [e|].
    + intros [= <- <-] _. split; [done|]. intros Hall.
      specialize (Hall 0%nat ck eq_refl). rewrite Nat.add_0_r in Hall. by apply Hr in Hall.
    + intros Hl Hd. rewrite (IH _ Hl Hd), Et. split; intros Hall.
      * intros [|i] ck' Hi; simpl in Hi; [injection Hi as <-; rewrite Nat.add_0_r; by apply Hr|].
        rewrite Nat.add_succ_r. by apply Hall.
      * intros i ck' Hi. rewrite Nat.add_succ_l, <- Nat.add_succ_r. by apply Hall.
  - exfalso. revert Ep. unfold probe, tick, mbind, M_bind, mret, M_ret. destruct (env_crash _); [done|].
    destruct (_ || _); [done|]. by destruct (eqs _ _).
  - by intros [= <- <-].
Qed.

(** [e.Health] answers as the probes of this call do. *)
Lemma Health_spec w o w' :
  Health c w = (o, w') → o ≠ Died → (o = Ret tt ↔ healthy_at (w_tick w)).
Proof.
  unfold Health, healthy_at. destruct env_health as [h|]; [|apply LocalHealth_spec].
  unfold tick, mbind, M_bind. destruct (env_crash _); [by intros [= <- <-]|].
  destruct (h (w_tick w)) as [e|]; intros [= <- <-]; done.
Qed.

(** The engine saw a stable, healthy target at [now]; the probes were the
    calls to the outside from [n] on. *)
Record healthy_window (j : Job) (now : time) (n : nat) w : Prop := {
  hw_status : ∃ s, (bk_Status (w_dev w)).1 = Ok s ∧ ds_Booted s = j_TargetSlot j ∧
    VersionOf s (j_TargetSlot j) = r_Version (j_Release j) ∧ ds_BootID s = j_BootID j;
  hw_deadline : j_HealthStarted j ≤ now < j_HealthStarted j + seconds (c_HealthTimeoutSeconds c);
  hw_checks : healthy_at n;
  hw_stable : 0 < c_HealthStableSeconds c ≤ 3600 →
    w_healthySince w ≠ 0 ∧ w_healthySince w + c_HealthStableSeconds c * Second ≤ now;
}.

(** The stability test against the start of the healthy period. *)
Lemma stable_spec now since :
  (Sub now (if IsZero since then now else since) <? seconds (c_HealthStableSeconds c)) = false →
  0 < c_HealthStableSeconds c ≤ 3600 →
  since ≠ 0 ∧ since + c_HealthStableSeconds c * Second ≤ now.
Proof.
  intros Hst Hsec. rewrite seconds_small in Hst by lia. unfold Sub, IsZero, Second in *.
  destruct (Z.eqb_spec since 0); lia.
Qed.

(** A successful [save] leaves the job in the saved state. *)
Lemma save_state m a j0 j st msg w w' :
  activeJob m = Some j0 → job_edge c j0 (set_j_State st j) → at_ c m a w →
  save c j st msg w = (Ret tt, w') → ∀ j', activeJob (w_data w') = Some j' → j_State j' = st.
Proof.
  intros Hj He Hat Hs j' Hj'. pose proof (save_at c j0 j st msg m a w Hj He Hat) as Ha.
  rewrite Hs in Ha. simpl in Ha. destruct Ha as (m' & j1 & (? & ? & ? & ->) & Hact & [d Hd] & _).
  rewrite (lk_memory _ _ _ Hd) in Hj'. simpl in Hj'. rewrite Hact in Hj'.
  destruct (Terminal st); [done|]. by injection Hj' as <-.
Qed.

(** [CheckingHealth] to [Committing], from the inside of the lock. *)
Lemma checking_committing m a j now w w' :
  activeJob m = Some j → j_State j = CheckingHealth → at_ c m a w →
  step_checking c j now w = (Ret tt, w') →
  ∀ j', activeJob (w_data w') = Some j' → j_State j' = Committing → healthy_window j now (S (w_tick w)) w.
Proof.
  intros Hj Hst Hat Hret j' Hj' Hc. unfold step_checking in Hret.
  apply bind_returns in Hret as (s & w1 & Hs & Hret).
  pose proof (Status_stays c m a w Hat) as Hat1. rewrite Hs in Hat1. simpl in Hat1.
  apply Status_ret in Hs as (Hs & _ & Hh & Htk).
  assert (Hno : ∀ j1 st msg w2, save c j1 st msg w2 = (Ret tt, w') → at_ c m a w2 →
      job_edge c j (set_j_State st j1) → st = Committing).
  { intros j1 st msg w2 Hsv Hat2 He. rewrite <- Hc. symmetry. by eapply (save_state m a j). }
  assert (Hsame : ∀ w2, frame w1 w2 → ∀ j1, activeJob (w_data w2) = Some j1 →
      j_State j1 = Committing → False).
  { intros w2 Hf j1 Hj1. rewrite (fr_data _ _ Hf) in Hj1. destruct Hat1 as [d Hd].
    rewrite (lk_memory _ _ _ Hd) in Hj1. simpl in Hj1. congruence. }
  destruct (eqs (ds_Booted s) (j_OldSlot j)).
  { eapply Hno in Hret; [done|done|edge]. }
  destruct (_ || _) eqn:Eb.
  { eapply Hno in Hret; [done|done|edge]. }
  destruct (negb (eqs (ds_BootID s) _)) eqn:Ei.
  { apply bind_returns in Hret as ([] & w2 & Hset & Hret). injection Hset as <-.
    eapply Hno in Hret; [done|by apply (set_healthySince_stays c m a 0 w1)|edge]. }
  rewrite Hst in Hret. simpl in Hret. reflect_bools. unfold step_health in Hret.
  destruct (_ || _) eqn:Ew.
  { eapply Hno in Hret; [done|done|edge]. }
  apply bind_returns in Hret as (h & w2 & Hh2 & Hret). unfold try in Hh2.
  pose proof (Health_frame c w1) as Hf2. pose proof (Health_spec w1) as Hsp.
  destruct (Health c w1) as [[[]|e|] w3] eqn:El; [..|done]; injection Hh2 as <- <-; simpl in *.
  - apply bind_returns in Hret as (w4 & w5 & Hget & Hret). injection Hget as <- <-.
    apply bind_returns in Hret as ([] & w4 & Hset & Hret). injection Hset as <-.
    destruct (Sub _ _ <? _) eqn:Es.
    2: { rewrite (fr_since _ _ Hf2), Hh in Es. split; [by exists s|unfold Before in Ew; lia| |by apply stable_spec].
      rewrite <- Htk. by apply (Hsp (Ret tt) w3). }
    injection Hret as <-. simpl in Hj'. by destruct (Hsame w3 Hf2 j').
  - apply bind_returns in Hret as ([] & w4 & Hset & Hret). injection Hset as <-.
    injection Hret as <-. simpl in Hj'. by destruct (Hsame w3 Hf2 j').
Qed.

(** A step from [CheckingHealth] to [Committing] saw a healthy window. *)
Lemma commit_window j w :
  reachable c w → w_mu w = false → activeJob (w_data w) = Some j → j_State j = CheckingHealth →
  (Step c w).1 = Ret tt →
  ∀ j', activeJob (w_data (Step c w).2) = Some j' → j_State j' = Committing →
  healthy_window j (env_now (w_tick w)) (w_tick w + 2) w.
Proof.
  intros Hr Hmu Hj Hst. destruct (reachable_at _ Hr Hmu) as [a Hat].
  destruct (Step_active j w Hj) as [[-> Hc]|(-> & Hf & _)]; [done|].
  set (now := env_now _) in *. set (w1 := set_w_tick _ _) in *. rewrite (jf_data _ _ Hf).
  unfold step_job. rewrite Hst. intros Hret j' Hj' Hcm.
  destruct (step_checking c j now w1) as [o w'] eqn:E. simpl in *. subst o.
  assert (Hat1 : at_ c (w_data w) a w1).
  { destruct Hat as [d Hd]. exists d. by eapply linked_jframe; [|done]. }
  destruct (checking_committing _ a j now w1 w' Hj Hst Hat1 E j' Hj' Hcm) as [Hs Hd Hck Hsb].
  split; [done|done| |done]. by replace (w_tick w + 2)%nat with (S (w_tick w1)) by (simpl; lia).
Qed.

End outcomes.
