(* ===== verification/Sweep.v ===== *)
(** * What every operation of the agent keeps

    A relation between worlds that holds over code outside the journal and
    the device, over transactions and over changes of the lock and the device
    holds over every operation that neither marks a slot nor reboots.  The
    clients are [Stability] (how the start of the healthy period moves) and
    [Justified] (which operations mark slots and reboot). *)
From stdpp Require Import base tactics gmap strings list.
From Stdlib Require Import ZArith Lia.
From S2P Require Import Prelude Model Config Crypto Fmt Files Backend Metrics Trace Topo Verify World Store TrustMeta MetricsText Payload Download Engine EngineFrame EngineSpec Refine RefineEngine Fleet API System.
Local Open Scope Z_scope.

(** The interface a relation offers to the sweep. *)
Class Kept `{MapRange, Limits, JSONEncode Assignment, Codec, Env} {D : Type} (R : World D → World D → Prop) : Prop := {
  kept_preorder :: PreOrder R;
  kept_frame w w' : frame w w' → R w w';
  kept_mu b w : R w (set_w_mu b w);
  kept_dev dev w : R w (set_w_dev dev w);
  kept_update fn : (∀ d, keeps frame (fn d)) → keeps R (Update fn);
}.

Section sweep.
Context `{MapRange, Limits, LocalZone, NetURL, Net, Ed25519, LineJSON, Unicode}.
Context `{JSONDecode Release, JSONEncode Assignment, JSONDecode multiSigned, JSONDecode rootMeta,
          JSONDecode snapshotMeta, JSONDecode timestampMeta, JSONDecode targetsMeta}.
Context `{JSONDecode Assignment, JSONEncode (list Event), JSONDecode ackBody, JSONDecode backupBody, FleetNet}.
Context `{Codec, Env} {D : Type} `{Backend D}.
Context (c : Config) (R : World D → World D → Prop) `{!Kept R}.

Lemma keeps_frame_kept {A} (m : M (World D) A) : keeps frame m → keeps R m.
Proof. intros Hm w. apply kept_frame, Hm. Qed.

Lemma keeps_modify_frame f : (∀ w, frame w (f w)) → keeps R (modify f).
Proof. intros Hf w. apply kept_frame, Hf. Qed.

Lemma device_kept {A} (f : D → result A * D) : keeps R (device f).
Proof. intros w. unfold device. destruct (f (w_dev w)). simpl. apply kept_dev. Qed.

Local Hint Resolve device_kept : keeps.
Local Hint Extern 1 (keeps R (modify _)) => (apply keeps_modify_frame; intros ?; by split) : keeps.
Local Hint Extern 2 (keeps R (Update _)) =>
  (apply kept_update; intros; first [apply keeps_lift; apply _ | apply keeps_ret; apply _
                                     | solve [eauto with keeps]]) : keeps.
Local Hint Extern 3 (keeps R _) => (apply keeps_frame_kept; solve [eauto with keeps]) : keeps.
Local Hint Resolve Health_frame Exists_frame reportSync_frame fleetRequest_frame : keeps.

Lemma Status_kept : keeps R Status.
Proof. unfold Status. keeps_auto. Qed.
Local Hint Resolve Status_kept : keeps.
Lemma save_kept j st msg : keeps R (save c j st msg).
Proof. unfold save. keeps_auto. Qed.
Local Hint Resolve save_kept : keeps.
Lemma noteDeferred_kept j e : keeps R (noteDeferred c j e).
Proof. unfold noteDeferred. keeps_auto. Qed.
Local Hint Resolve noteDeferred_kept : keeps.

Lemma locked_kept {A} (m : M (World D) A) : keeps R m → keeps R (locked m).
Proof.
  intros Hm w. unfold locked, mbind, M_bind, modify, try. specialize (Hm (set_w_mu true w)).
  destruct (m (set_w_mu true w)) as [[x|e|] w']; simpl in *;
    (etrans; [apply (kept_mu true)|]); [| |done]; (etrans; [exact Hm|apply kept_mu]).
Qed.

Lemma tryLocked_kept {A} busy (m : M (World D) A) : keeps R m → keeps R (tryLocked busy m).
Proof.
  intros Hm. unfold tryLocked. keeps_step; [keeps_step|]. destruct (w_mu _); [keeps_auto|by apply locked_kept].
Qed.

(** Before the installation. *)
Lemma preinstall_kept j now k : keeps R k → keeps R (preinstall c j now k).
Proof. intros Hk. unfold preinstall. keeps_auto. Qed.
Lemma step_accepted_kept j : keeps R (step_accepted c j).
Proof. unfold step_accepted. keeps_auto. Qed.
Lemma step_downloading_kept j now : keeps R (step_downloading c j now).
Proof. unfold step_downloading, step_fetch. keeps_auto. Qed.
Lemma step_verified_kept j : (∀ p r, keeps R (Install p r)) → keeps R (step_verified c j).
Proof. intros Hi. unfold step_verified, step_os, step_install, step_inspect. keeps_auto. Qed.

(** Commands that touch only the journal and the cache. *)
Lemma current_kept : keeps R current.
Proof. unfold current. keeps_auto. Qed.
Local Hint Resolve current_kept : keeps.
Lemma Submit_kept a : keeps R (Submit c a).
Proof. apply tryLocked_kept. unfold Submit_body. keeps_auto. Qed.
Lemma Ack_kept n : keeps R (Ack n).
Proof. unfold Ack. keeps_auto. Qed.
Lemma GC_kept : keeps R (GC c).
Proof. apply tryLocked_kept. unfold GC_body. keeps_auto. Qed.
Local Hint Resolve Submit_kept Ack_kept GC_kept : keeps.
Lemma Sync_kept f : keeps R (Sync c f).
Proof. unfold Sync, sync, uploadEvents, pollAssignment. keeps_auto. Qed.

(** The API, up to the two operator commands that drive the device. *)
Lemma Handler_kept rq :
  (endpoint_of (aq_path rq) = Some EReboot → keeps R (RequestReboot c)) →
  (endpoint_of (aq_path rq) = Some ERecoverAbort → keeps R (RecoverAbort c)) → keeps R (Handler c rq).
Proof.
  intros Hrr Hra. unfold Handler, route, respond, apiAction, getStatus, getJob, getEvents, getMetrics, getArchive,
    ExportArchive, postBackup, Backup, postAck, postAssignment, respond, apiAction. keeps_auto.
Qed.

(** Opening the store at start-up. *)
Lemma OpenStore_kept dirSafe lockFree :
  (∀ d w, R w (set_w_data d w)) → (∀ b d w, R w (set_w_poisoned b (set_w_data d w))) →
  keeps R (OpenStore dirSafe lockFree None).
Proof.
  intros Hd Hp.
  assert (Hl : keeps R (load (D := D) None)).
  { intros w. rewrite load_none. revert w. change (keeps R load_snapshot). unfold load_snapshot.
    repeat first [intros ?; apply Hd | keeps_step]. }
  unfold OpenStore. repeat first [exact Hl | intros ?; apply Hp | keeps_step].
Qed.

End sweep.
