(* ===== verification/Stability.v ===== *)
(** * Continuous health

    How the start of the healthy period moves through every operation,
    restart and outside change, and what that makes of the stability test
    before a commit: the checks have passed since the last failed one for the
    configured time. *)
From stdpp Require Import base tactics gmap strings list relations.
From Stdlib Require Import ZArith Lia.
From S2P Require Import Prelude Model Config Crypto Fmt Files Backend Metrics Trace Topo Verify World Store TrustMeta MetricsText Payload Download Engine EngineFrame EngineSpec Refine RefineEngine Fleet API System Commands Outcomes Sweep.
Local Open Scope Z_scope.

Section stability.
Context `{MapRange, Limits, LocalZone, NetURL, Net, Ed25519, LineJSON, Unicode}.
Context `{JSONDecode Release, JSONEncode Assignment, JSONDecode multiSigned, JSONDecode rootMeta,
          JSONDecode snapshotMeta, JSONDecode timestampMeta, JSONDecode targetsMeta}.
Context `{JSONDecode Assignment, JSONEncode (list Event), JSONDecode ackBody, JSONDecode backupBody, FleetNet}.
Context `{Codec, Env} {D : Type} `{Backend D}.
Context (c : Config).
Implicit Types w : World D.

(** ** The start of the healthy period *)

Definition since_same w w' : Prop := w_healthySince w' = w_healthySince w.

(** From call [m] on, the period starts where it started, or nowhere, or at
    the clock reading of a call since [n0]. *)
Definition since_from (n0 m : nat) w w' : Prop :=
  (m ≤ w_tick w)%nat →
  (w_tick w ≤ w_tick w')%nat ∧
  (w_healthySince w' = w_healthySince w ∨ w_healthySince w' = 0 ∨
   ∃ n, (n0 ≤ n < w_tick w')%nat ∧ w_healthySince w' = env_now n).

Lemma Update_since fn w :
  (∀ d, keeps frame (fn d)) →
  w_healthySince (Update fn w).2 = w_healthySince w ∧ (w_tick w ≤ w_tick (Update (D := D) fn w).2)%nat.
Proof.
  intros Hfn. destruct (Update_outcome fn w Hfn) as [o w' Hf _|e w1 w' Hf ->
      |n1 n sp o w1 w2 w' _ Hf _ _ _ [[_ ->]|(e & _ & ->)]]; split; apply Hf.
Qed.

Global Instance since_same_kept : Kept since_same.
Proof.
  split; unfold since_same; [|by intros ? ? []|done|done|intros fn Hfn w; by apply Update_since].
  split; [done|]. intros w1 w2 w3. congruence.
Qed.

Global Instance since_from_kept n0 m : Kept (since_from n0 m).
Proof.
  split; unfold since_from.
  - split; [naive_solver|]. intros w1 w2 w3 Ha Hb Hm. destruct (Ha Hm) as [Hm2 E2].
    destruct Hb as [Hm3 [E3|E3]]; [lia| |split; [lia|by auto]]. split; [lia|].
    rewrite E3. destruct E2 as [?|[?|(n & Hn & E)]]; [by auto..|]. right. right. exists n. split; [lia|done].
  - intros w w' [] Hm. auto.
  - auto.
  - auto.
  - intros fn Hfn w Hm. destruct (Update_since fn w Hfn). auto.
Qed.

(** The rules of [Sweep] at this relation. *)
Local Hint Extern 1 (keeps (since_from _ _) (device _)) => (apply device_kept; apply _) : keeps.
Local Hint Extern 1 (keeps (since_from _ _) (save _ _ _ _)) => (apply save_kept; apply _) : keeps.
Local Hint Extern 1 (keeps (since_from _ _) Status) => (apply Status_kept; apply _) : keeps.
Local Hint Extern 1 (keeps (since_from _ _) current) => (apply current_kept; apply _) : keeps.
Local Hint Extern 2 (keeps (since_from _ _) (Update _)) =>
  (apply kept_update; intros; first [apply keeps_lift; apply _ | apply keeps_ret; apply _]) : keeps.
Local Hint Extern 3 (keeps (since_from _ _) _) =>
  (apply keeps_frame_kept; [apply _|solve [eauto with keeps]]) : keeps.
Local Hint Resolve Health_frame : keeps.

Lemma emit_from n0 m a : keeps (since_from n0 m) (emit (D := D) a).
Proof. intros w Hm. auto. Qed.
Local Hint Resolve emit_from : keeps.
Lemma Install_from n0 m p r : keeps (since_from n0 m) (Install p r).
Proof. unfold Install. keeps_auto. Qed.
Lemma Mark_from n0 m state slot : keeps (since_from n0 m) (Mark state slot).
Proof. unfold Mark. keeps_auto. Qed.
Lemma Reboot_from n0 m : keeps (since_from n0 m) Reboot.
Proof. unfold Reboot. keeps_auto. Qed.
Local Hint Resolve Install_from Mark_from Reboot_from : keeps.
Lemma reboot_from n0 m j : keeps (since_from n0 m) (reboot c j).
Proof. unfold reboot. keeps_auto. Qed.
Local Hint Resolve reboot_from : keeps.

(** A clock reading belongs to the call that is made. *)
Lemma Now_bind_from {B} n0 m (k : time → M (World D) B) :
  (∀ n, (m ≤ n)%nat → keeps (since_from n0 (S n)) (k (env_now n))) → keeps (since_from n0 m) (Now ≫= k).
Proof.
  intros Hk w Hm. unfold Now, tick, mbind, M_bind, mret, M_ret. destruct (env_crash _); [split; [simpl; lia|auto]|].
  destruct (Hk (w_tick w) Hm (set_w_tick (S (w_tick w)) w)) as [Ht Hs]; simpl in *; [lia|]. split; [lia|done].
Qed.

Lemma reset_from n0 m : keeps (since_from n0 m) (set_healthySince 0).
Proof. intros w Hn. auto. Qed.
Local Hint Resolve reset_from : keeps.

(** The period starts now unless it has started. *)
Lemma start_from {B} n0 m n (k : time → M (World D) B) :
  (n0 ≤ n < m)%nat → (∀ t, keeps (since_from n0 m) (k t)) →
  keeps (since_from n0 m)
    (w ← get; let since := if IsZero (w_healthySince w) then env_now n else w_healthySince w in
     _ ← set_healthySince since; k since).
Proof.
  intros Hn Hk w. unfold mbind at 1, M_bind at 1. cbn [get]. set (since := if IsZero _ then _ else _).
  cbv zeta. unfold mbind at 1, M_bind at 1. cbn [set_healthySince modify].
  etrans; [|apply Hk]. intros Hw. split; [done|]. simpl. subst since.
  destruct (IsZero _); [|by auto]. right. right. exists n. split; [lia|done].
Qed.

Lemma confirmHealthy_from n0 m s n :
  (n0 ≤ n < m)%nat → keeps (since_from n0 m) (confirmHealthy c s (env_now n)).
Proof.
  intros Hn. unfold confirmHealthy. keeps_step; [keeps_auto|]. destruct a; [|keeps_auto].
  apply (start_from n0 m n (fun since => if Sub (env_now n) since <? _ then _ else _)); [done|]. intros t. keeps_auto.
Qed.

Lemma confirmNormalBoot_from n0 m : (n0 ≤ m)%nat → keeps (since_from n0 m) (confirmNormalBoot c).
Proof.
  intros Hm. unfold confirmNormalBoot, bootFallback.
  repeat first [apply Now_bind_from; intros ? ?|apply confirmHealthy_from; lia|keeps_step].
Qed.

Lemma step_health_from n0 m j n :
  (n0 ≤ n < m)%nat → keeps (since_from n0 m) (step_health c j (env_now n)).
Proof.
  intros Hn. unfold step_health. keeps_step; [keeps_auto|]. keeps_step; [keeps_auto|]. destruct a; [|keeps_auto].
  apply (start_from n0 m n (fun since => if Sub (env_now n) since <? _ then _ else _)); [done|]. intros t. keeps_auto.
Qed.

Lemma step_job_from n0 m j n :
  (n0 ≤ n < m)%nat → keeps (since_from n0 m) (step_job c j (env_now n)).
Proof.
  intros Hn. unfold step_job, step_awaiting, step_checking, step_rollback.
  repeat first [apply preinstall_kept; [apply _|] | apply step_accepted_kept; apply _
    | apply step_downloading_kept; apply _ | apply step_verified_kept; [apply _|apply Install_from]
    | by apply step_health_from | keeps_step].
Qed.

Lemma Step_from n0 m : (n0 ≤ m)%nat → keeps (since_from n0 m) (Step c).
Proof.
  intros Hm. apply locked_kept; [apply _|]. unfold Step_body.
  repeat first [apply Now_bind_from; intros ? ?|apply step_job_from; lia|by apply confirmNormalBoot_from|keeps_step].
Qed.

Lemma RequestReboot_from n0 m : keeps (since_from n0 m) (RequestReboot c).
Proof. apply tryLocked_kept; [apply _|]. unfold RequestReboot_body. keeps_auto. Qed.
Lemma RecoverAbort_from n0 m : keeps (since_from n0 m) (RecoverAbort c).
Proof. apply tryLocked_kept; [apply _|]. unfold RecoverAbort_body. keeps_auto. Qed.

Lemma execute_from n0 m cmd w : (n0 ≤ m)%nat → since_from n0 m w (execute c cmd w).
Proof.
  intros Hm. destruct cmd; simpl; [by apply Step_from|apply Submit_kept; apply _|apply Ack_kept; apply _
    |apply RequestReboot_from|apply RecoverAbort_from|apply GC_kept; apply _|apply Sync_kept; apply _|].
  apply Handler_kept; [apply _|intros _; apply RequestReboot_from|intros _; apply RecoverAbort_from].
Qed.

Lemma Restart_from n0 m dirSafe lockFree w : since_from n0 m w (Restart dirSafe lockFree w).2.
Proof.
  assert (Hb : since_from n0 m w (booting w)) by (intros Hn; auto).
  pose proof (OpenStore_kept (since_from n0 m) dirSafe lockFree ltac:(by intros ? ? ?; auto)
                ltac:(by intros ? ? ? ?; auto) (booting w)) as Ho.
  rewrite Restart_unfold. destruct (OpenStore _ _ _ _) as [[b|e|] w']; simpl in *; etrans; try exact Hb; try exact Ho.
Qed.

(** A step of the system while the count of calls goes on. *)
Definition forward w w' : Prop := system_step c w w' ∧ (w_tick w ≤ w_tick w')%nat.

Lemma forward_from n0 m w w' : (n0 ≤ m)%nat → rtc forward w w' → since_from n0 m w w'.
Proof.
  intros Hm. induction 1 as [w|w w1 w' [Hs Ht] _ IH]; [reflexivity|]. etrans; [|exact IH].
  destruct Hs as [cmd _| |dev fs n]; [by apply execute_from|apply Restart_from|]. intros Hn. auto.
Qed.

(** ** Failed checks *)

(** An unconfirmed normal boot the engine watches: idle, of the boot the
    journal names, of a slot and version a completed job left. *)
Record boot_watched (s : DeviceStatus) w : Prop := {
  bw_idle : activeJob (w_data w) = None;
  bw_status : (bk_Status (w_dev w)).1 = Ok s;
  bw_operation : ds_Operation s = "idle";
  bw_completed : j_JobID (latestCompleted (db_Jobs (w_data w))) ≠ "";
  bw_known : knownSlots (w_data w) !! ds_Booted s = Some (VersionOf s (ds_Booted s));
  bw_boot : bc_BootID (db_BootCheck (w_data w)) = ds_BootID s;
  bw_unconfirmed : bc_Confirmed (db_BootCheck (w_data w)) = false;
}.

Definition boot_in_time (now : time) w : Prop :=
  bc_Started (db_BootCheck (w_data w)) ≤ now
    < bc_Started (db_BootCheck (w_data w)) + seconds (c_HealthTimeoutSeconds c).

(** This step asked the checks, of an update or of a normal boot, and one of
    them failed.  The checks are the calls to the outside after the first two. *)
Record check_failed w : Prop := {
  cf_serving : w_mu w = false;
  cf_returned : (Step c w).1 = Ret tt;
  cf_unhealthy : ¬ healthy_at c (w_tick w + 2);
  cf_watching :
    (∃ j j', activeJob (w_data w) = Some j ∧ j_State j = CheckingHealth ∧
       activeJob (w_data (Step c w).2) = Some j' ∧ j_State j' = CheckingHealth) ∨
    (∃ s, boot_watched s w ∧ boot_in_time (env_now (w_tick w + 1)) w);
}.

Lemma locked_since {A} (mm : M (World D) A) w : w_healthySince (locked mm w).2 = w_healthySince (mm (set_w_mu true w)).2.
Proof. unfold locked, mbind, M_bind, modify, try. by destruct (mm (set_w_mu true w)) as [[x|e|] w']. Qed.

Lemma checking_resets m a j now w w' j' :
  activeJob m = Some j → j_State j = CheckingHealth → at_ c m a w →
  step_checking c j now w = (Ret tt, w') → ¬ healthy_at c (S (w_tick w)) →
  activeJob (w_data w') = Some j' → j_State j' = CheckingHealth → w_healthySince w' = 0.
Proof.
  intros Hj Hst Hat Hret Hun Hj' Hst'. unfold step_checking in Hret.
  apply bind_returns in Hret as (s & w1 & Hs & Hret).
  pose proof (Status_stays c m a w Hat) as Hat1. rewrite Hs in Hat1. simpl in Hat1.
  apply Status_ret in Hs as (Hs & _ & Hh & Htk).
  assert (Hno : ∀ st msg, save c j st msg w1 = (Ret tt, w') → job_edge c j (set_j_State st j) → st = CheckingHealth).
  { intros st msg Hsv He. rewrite <- Hst'. symmetry. by eapply (save_state c m a j). }
  destruct (eqs (ds_Booted s) (j_OldSlot j)).
  { eapply Hno in Hret; [done|edge]. }
  destruct (_ || _) eqn:Eb.
  { eapply Hno in Hret; [done|edge]. }
  destruct (negb (eqs (ds_BootID s) _)) eqn:Ei.
  { apply bind_returns in Hret as ([] & w2 & Hset & Hret). injection Hset as <-.
    pose proof (save_kept c since_same (set_j_BootID (ds_BootID s) j) CheckingHealth
      "rechecking health after another boot" (set_w_healthySince 0 w1)) as Hk. rewrite Hret in Hk. exact Hk. }
  rewrite Hst in Hret. simpl in Hret. reflect_bools. unfold step_health in Hret. destruct (_ || _) eqn:Ew.
  { eapply Hno in Hret; [done|edge]. }
  apply bind_returns in Hret as (h & w2 & Hh2 & Hret). unfold try in Hh2. pose proof (Health_spec c w1) as Hsp.
  destruct (Health c w1) as [[[]|e|] w3] eqn:El; [..|done]; injection Hh2 as <- <-; simpl in *.
  - destruct Hun. rewrite <- Htk. by apply (Hsp (Ret tt) w3).
  - apply bind_returns in Hret as ([] & w4 & Hset & Hret). injection Hset as <-. by injection Hret as <-.
Qed.

Lemma latest_empty : latestCompleted ∅ = zeroJob.
Proof.
  unfold latestCompleted. pose proof (map_range_perm (A := Job) ∅) as Hp. rewrite map_to_list_empty in Hp.
  apply Permutation_nil_r in Hp. by rewrite Hp.
Qed.

Lemma boot_resets s w w' :
  boot_watched s w → boot_in_time (env_now (w_tick w + 1)) w → ¬ healthy_at c (w_tick w + 2) →
  confirmNormalBoot c w = (Ret tt, w') → w_healthySince w' = 0.
Proof.
  intros [Hid Hs Hop Hcp Hk Hb Hu] Hin Hun Hret. unfold confirmNormalBoot in Hret.
  apply bind_returns in Hret as (d & w1 & Hv & Hret). rewrite View_spec in Hv. injection Hv as <- <-.
  destruct (_ =? 0)%nat eqn:Esz.
  { apply Nat.eqb_eq, map_size_empty_inv in Esz. by rewrite Esz, latest_empty in Hcp. }
  apply bind_returns in Hret as (s' & w1 & Hs1 & Hret).
  apply Status_ret in Hs1 as (Hs1 & _ & Hh & Htk). rewrite Hs in Hs1. injection Hs1 as <-.
  rewrite Hop, Hb, Hu, andb_false_r in Hret. cbn [negb eqs] in Hret.
  rewrite (proj2 (eqs_true "idle" "idle") eq_refl) in Hret. cbn [negb] in Hret.
  rewrite (proj2 (eqs_false _ _) Hcp) in Hret. rewrite bool_decide_eq_true_2 in Hret by exact Hk. cbn [negb] in Hret.
  apply bind_returns in Hret as (now & w2 & Hn & Hret).
  unfold Now, tick, mbind, M_bind, mret, M_ret in Hn. destruct (env_crash _); [done|]. injection Hn as <- <-.
  rewrite (proj2 (eqs_true (ds_BootID s) _) eq_refl) in Hret. cbn [negb] in Hret.
  unfold boot_in_time in Hin. rewrite Nat.add_1_r, <- Htk in Hin.
  destruct (_ || _) eqn:Ew; [unfold Before in Ew; lia|]. unfold confirmHealthy in Hret.
  apply bind_returns in Hret as (h & w3 & Hh2 & Hret). unfold try in Hh2. set (w2 := set_w_tick _ w1) in *.
  pose proof (Health_spec c w2) as Hsp. replace (w_tick w + 2)%nat with (w_tick w2) in Hun by (simpl; lia).
  destruct (Health c w2) as [[[]|e|] w4] eqn:El; [..|done]; injection Hh2 as <- <-; simpl in *.
  - destruct Hun. by apply (Hsp (Ret tt) w4).
  - by injection Hret as <-.
Qed.

(** A failed check ends the healthy period. *)
Lemma failed_resets w : reachable c w → check_failed w → w_healthySince (Step c w).2 = 0.
Proof.
  intros Hr [Hmu Hret Hun Hw]. destruct (reachable_at c _ Hr Hmu) as [a Hat]. apply (at_mu _ _ _ true) in Hat.
  unfold Step in *. rewrite locked_since. destruct (locked_spec (Step_body c) w) as (Eo & Ej & _).
  rewrite Eo in Hret. rewrite (jf_data _ _ Ej) in Hw.
  destruct Hw as [(j & j' & Hj & Hst & Hj' & Hst')|(s & [] & Hin)].
  - rewrite (Step_body_active c j) in * by done. simpl in *. destruct (env_crash (w_tick w)); [done|].
    unfold step_job in *. rewrite Hst in *. set (w1 := set_w_tick _ _) in *.
    assert (Hat1 : at_ c (w_data w) a w1) by (destruct Hat as [d Hd]; exists d; by eapply linked_jframe; [|done]).
    destruct (step_checking c j _ w1) as [o w'] eqn:E. simpl in *. subst o.
    eapply (checking_resets _ a j _ w1 w' j'); [done..| |done|done]. by replace (S (w_tick w1)) with (w_tick w + 2)%nat by (simpl; lia).
  - unfold Step_body, mbind, M_bind in *. rewrite current_spec in *. simpl in *.
    rewrite bw_idle0 in *. destruct (confirmNormalBoot c (set_w_mu true w)) as [o w'] eqn:E. simpl in *. subst o.
    by apply (boot_resets s (set_w_mu true w) w').
Qed.

(** Between a failed check and a later world, a healthy period started at a
    clock reading made in between. *)
Lemma healthy_between w1 w :
  reachable c w1 → check_failed w1 → rtc forward (Step c w1).2 w → w_healthySince w ≠ 0 →
  ∃ n, (w_tick (Step c w1).2 ≤ n < w_tick w)%nat ∧ w_healthySince w = env_now n.
Proof.
  intros Hr Hf Hp Hne. pose proof (failed_resets _ Hr Hf) as E0.
  destruct (forward_from (w_tick (Step c w1).2) _ _ _ (Nat.le_refl _) Hp (Nat.le_refl _)) as [_ [E|[E|Hn]]];
    [congruence|done|done].
Qed.

(** Since every failed check before it, the checks had passed for the
    stability period when [w] read the clock at [now]: between the two the
    clock was read, and at least that long before. *)
Definition stable_health (now : time) w : Prop :=
  0 < c_HealthStableSeconds c ≤ 3600 →
  ∀ w1, reachable c w1 → check_failed w1 → rtc forward (Step c w1).2 w →
  ∃ n, (w_tick (Step c w1).2 ≤ n < w_tick w)%nat ∧ env_now n + c_HealthStableSeconds c * Second ≤ now.

Lemma stable_from now w :
  (0 < c_HealthStableSeconds c ≤ 3600 →
     w_healthySince w ≠ 0 ∧ w_healthySince w + c_HealthStableSeconds c * Second ≤ now) →
  stable_health now w.
Proof.
  intros Hs Hsec w1 Hr Hf Hp. destruct (Hs Hsec) as [Hne Hle].
  destruct (healthy_between w1 w Hr Hf Hp Hne) as (n & Hn & E). exists n. split; [done|lia].
Qed.

(** C14: a step takes a job from [CheckingHealth] to [Committing] only when the
    device runs the target slot, version and boot the journal names, before
    the health deadline, with every configured check passing in this very
    step; and when a stability period is configured, the checks had been
    passing for that long: after every earlier step whose checks failed, with
    any operations, restarts and outside changes in between, the clock was
    read at least that long before now. *)
Theorem commit_needs_stable_health j w :
  reachable c w → w_mu w = false → activeJob (w_data w) = Some j → j_State j = CheckingHealth →
  (Step c w).1 = Ret tt →
  ∀ j', activeJob (w_data (Step c w).2) = Some j' → j_State j' = Committing →
  healthy_window c j (env_now (w_tick w)) (w_tick w + 2) w ∧ stable_health (env_now (w_tick w)) w.
Proof.
  intros Hr Hmu Hj Hst Hret j' Hj' Hc. pose proof (commit_window c j w Hr Hmu Hj Hst Hret j' Hj' Hc) as Hw.
  split; [done|]. apply stable_from, Hw.
Qed.

End stability.
