(* ===== verification/Justified.v ===== *)
(** * Why slots are marked and the device is rebooted

    Every call of [Backend.Mark] and [Backend.Reboot] with the command that
    makes it, the job or boot it is made for, what the backend reported, and
    the calls the same command made before it. *)
From stdpp Require Import base tactics gmap strings list relations.
From Stdlib Require Import ZArith Lia.
From S2P Require Import Prelude Model Config Crypto Fmt Files Backend Metrics Trace Topo Verify World Store TrustMeta MetricsText Payload Download Engine EngineFrame EngineSpec Refine RefineEngine Fleet API System Commands Outcomes Sweep Stability.
Local Open Scope Z_scope.

Section justified.
Context `{MapRange, Limits, LocalZone, NetURL, Net, Ed25519, LineJSON, Unicode}.
Context `{JSONDecode Release, JSONEncode Assignment, JSONDecode multiSigned, JSONDecode rootMeta,
          JSONDecode snapshotMeta, JSONDecode timestampMeta, JSONDecode targetsMeta}.
Context `{JSONDecode Assignment, JSONEncode (list Event), JSONDecode ackBody, JSONDecode backupBody, FleetNet}.
Context `{Codec, Env} {D : Type} `{Backend D}.
Context (c : Config).
Implicit Types w : World D.

(** ** Reasons *)

(** The operator's commands, on the agent itself or through its API. *)
Definition asks_reboot (cmd : command) : Prop :=
  cmd = CRequestReboot ∨
  ∃ rq, cmd = CRequest rq ∧ endpoint_of (aq_path rq) = Some EReboot ∧ aq_method rq = "POST".
Definition asks_abort (cmd : command) : Prop :=
  cmd = CRecoverAbort ∨
  ∃ rq, cmd = CRequest rq ∧ endpoint_of (aq_path rq) = Some ERecoverAbort ∧ aq_method rq = "POST".

(** A job about to be committed runs the slot, version and boot it should. *)
Record committing (j : Job) (s : DeviceStatus) w : Prop := {
  cg_job : activeJob (w_data w) = Some j ∧ j_State j = Committing;
  cg_status : (bk_Status (w_dev w)).1 = Ok s;
  cg_boot : ds_Booted s = j_TargetSlot j ∧ VersionOf s (j_TargetSlot j) = r_Version (j_Release j) ∧
    ds_BootID s = j_BootID j;
}.

(** A job to be rolled back still runs its target, and the backend is idle. *)
Record rolling_back (j : Job) (s : DeviceStatus) w : Prop := {
  rb_job : activeJob (w_data w) = Some j ∧ j_State j = RollbackPending;
  rb_status : (bk_Status (w_dev w)).1 = Ok s;
  rb_boot : ds_Operation s = "idle" ∧ ds_Booted s = j_TargetSlot j ∧ ds_Booted s ≠ j_OldSlot j;
}.

(** A job that needs recovery, on its original slot with an idle backend. *)
Record aborting (j : Job) (s : DeviceStatus) w : Prop := {
  ab_job : activeJob (w_data w) = Some j ∧ j_State j = NeedsRecovery;
  ab_status : (bk_Status (w_dev w)).1 = Ok s;
  ab_boot : ds_Operation s = "idle" ∧ ds_Booted s = j_OldSlot j ∧
    j_TargetSlot j ≠ "" ∧ j_TargetSlot j ≠ j_OldSlot j;
}.

(** A normal boot that passed its checks for long enough, in time. *)
Record boot_proved (s : DeviceStatus) w : Prop := {
  bp_watched : boot_watched s w;
  bp_in_time : boot_in_time c (env_now (w_tick w + 1)) w;
  bp_healthy : healthy_at c (w_tick w + 2);
  bp_stable : stable_health c (env_now (w_tick w + 1)) w;
}.

(** A normal boot outside its window, with a good slot of a known version to go to. *)
Record boot_lost (s : DeviceStatus) (other : string) w : Prop := {
  bl_watched : boot_watched s w;
  bl_late : ¬ boot_in_time c (env_now (w_tick w + 1)) w;
  bl_other : Other s = Ok other;
  bl_known : knownSlots (w_data w) !! other = Some (VersionOf s other);
  bl_good : GoodOf s other = true;
}.

(** Why [cmd] marks a slot, after the actions it already performed. *)
Inductive mark_reason (cmd : command) w : list Action → string → string → Prop :=
  | good_commit j s : cmd = CStep → committing j s w →
      mark_reason cmd w [] "good" (j_TargetSlot j)
  | bad_rollback j s : cmd = CStep → rolling_back j s w →
      mark_reason cmd w [] "bad" (j_TargetSlot j)
  | active_rollback j s : cmd = CStep → rolling_back j s w →
      mark_reason cmd w [AMark "bad" (j_TargetSlot j)] "active" (j_OldSlot j)
  | bad_abort j s : asks_abort cmd → aborting j s w →
      mark_reason cmd w [] "bad" (j_TargetSlot j)
  | active_abort j s : asks_abort cmd → aborting j s w →
      mark_reason cmd w [AMark "bad" (j_TargetSlot j)] "active" (j_OldSlot j)
  | good_boot s : cmd = CStep → boot_proved s w →
      mark_reason cmd w [] "good" (ds_Booted s)
  | bad_boot s other : cmd = CStep → boot_lost s other w →
      mark_reason cmd w [] "bad" (ds_Booted s)
  | active_boot s other : cmd = CStep → boot_lost s other w →
      mark_reason cmd w [AMark "bad" (ds_Booted s)] "active" other.

(** A job that waits on its original slot, within its window at [now]. *)
Record reboot_due (j : Job) (s : DeviceStatus) (now : time) w : Prop := {
  rd_job : activeJob (w_data w) = Some j ∧ j_State j = AwaitingReboot;
  rd_status : (bk_Status (w_dev w)).1 = Ok s;
  rd_boot : ds_BootID s = j_BootID j ∧ ds_Booted s = j_OldSlot j;
  rd_window : asg_NotBefore (j_Assignment j) ≤ now < asg_Deadline (j_Assignment j);
}.

(** The request of the reboot is in the journal. *)
Definition request_written (j : Job) (d : Database) : Prop :=
  ∃ j', activeJob d = Some j' ∧ j_JobID j' = j_JobID j ∧ j_State j' = AwaitingReboot ∧
    j_RebootRequested j' = true.

Inductive reboot_reason (cmd : command) w : list Action → Prop :=
  | auto_reboot j s d : cmd = CStep → reboot_due j s (env_now (w_tick w)) w →
      asg_AutoReboot (j_Assignment j) = true → j_RebootRequested j = false → request_written j d →
      reboot_reason cmd w [AJournal d]
  | operator_reboot j s d : asks_reboot cmd → reboot_due j s (env_now (w_tick w)) w →
      ds_Operation s = "idle" → request_written j d →
      reboot_reason cmd w [AJournal d]
  | rollback_reboot j s : cmd = CStep → rolling_back j s w →
      reboot_reason cmd w [AMark "bad" (j_TargetSlot j); AMark "active" (j_OldSlot j)]
  | boot_reboot s other : cmd = CStep → boot_lost s other w →
      reboot_reason cmd w [AMark "bad" (ds_Booted s); AMark "active" other].

(** ** Operations that neither mark nor reboot *)

Definition inert (a : Action) : Prop :=
  match a with AMark _ _ | AReboot => False | _ => True end.

Definition plainly w w' : Prop := ∃ t, w_trace w' = w_trace w ++ t ∧ Forall inert t.

Global Instance plainly_kept : Kept plainly.
Proof.
  assert (Hsame : ∀ w w', w_trace w' = w_trace w → plainly w w').
  { intros w w' E. exists []. by rewrite app_nil_r. }
  split; [split| | | |].
  - intros w. by apply Hsame.
  - intros w1 w2 w3 (t1 & E1 & I1) (t2 & E2 & I2). exists (t1 ++ t2). rewrite E2, E1, app_assoc. by rewrite Forall_app.
  - intros w w' []. by apply Hsame.
  - intros. by apply Hsame.
  - intros. by apply Hsame.
  - intros fn Hfn w. destruct (Update_outcome fn w Hfn) as [o w' [] _|e w1 w' [] ->
      |n1 n sp o w1 w2 w' _ [] _ _ _ [[_ ->]|(e & _ & ->)]]; [by apply Hsame..| |];
      exists [AJournal n]; simpl; (split; [congruence|by repeat constructor]).
Qed.

Lemma Install_plain p r : keeps plainly (Install (D := D) p r).
Proof.
  unfold Install. apply keeps_bind; [apply _|apply keeps_frame_kept; [apply _|apply tick_frame]|intros n].
  apply keeps_bind; [apply _|apply keeps_frame_kept; [apply _|apply view_fs_frame]|intros fs].
  apply keeps_bind; [apply _| |intros _; apply device_kept; apply _].
  intros w. exists [AInstall fs p r]. split; [done|by repeat constructor].
Qed.

(** ** Following a command *)
Section track.
Context (cmd : command) (w0 : World D).

Definition reason (t : list Action) (a : Action) : Prop :=
  match a with
  | AMark state slot => mark_reason cmd w0 t state slot
  | AReboot => reboot_reason cmd w0 t
  | _ => True
  end.

Definition justified (t : list Action) : Prop := ∀ t1 a t2, t = t1 ++ a :: t2 → reason t1 a.

Lemma justified_nil : justified [].
Proof. by intros [] ? ?. Qed.

Lemma justified_snoc t a : justified t → reason t a → justified (t ++ [a]).
Proof.
  intros Ht Ha t1 b t2. destruct t2 as [|x t2 _] using rev_ind.
  - intros [-> [= ->]]%app_inj_tail. done.
  - rewrite app_comm_cons, app_assoc. intros [E _]%app_inj_tail. by eapply Ht.
Qed.

Lemma justified_inert t t' : justified t → Forall inert t' → justified (t ++ t').
Proof.
  intros Ht. induction t' as [|a t' IH] using rev_ind; [by rewrite app_nil_r|].
  intros [Hi Ha]%Forall_app. rewrite app_assoc. apply justified_snoc; [by apply IH|].
  inversion Ha; subst. by destruct a.
Qed.

(** The actions of the command so far. *)
Definition on_track w (t : list Action) : Prop := w_trace w = w_trace w0 ++ t ∧ justified t.
Definition fine w : Prop := ∃ t, on_track w t.

Lemma track_same w w' t : on_track w t → w_trace w' = w_trace w → on_track w' t.
Proof. intros [E Hj] E'. split; [congruence|done]. Qed.

Lemma track_plain {A} (m : M (World D) A) w : keeps plainly m → fine w → fine (m w).2.
Proof.
  intros Hm (t & E & Hj). destruct (Hm w) as (t' & E' & Hi). exists (t ++ t'). split; [by rewrite E', E, app_assoc|].
  by apply justified_inert.
Qed.

Lemma track_bind {A B} (m : M (World D) A) (k : A → M (World D) B) w :
  fine (m w).2 → (∀ x w1, m w = (Ret x, w1) → fine (k x w1).2) → fine ((m ≫= k) w).2.
Proof. unfold mbind, M_bind. destruct (m w) as [[x|e|] w1]; auto. Qed.

Lemma track_Status {B} (k : DeviceStatus → M (World D) B) w t :
  on_track w t →
  (∀ s w1, (bk_Status (w_dev w)).1 = Ok s → on_track w1 t → jframe w w1 →
     w_healthySince w1 = w_healthySince w → w_tick w1 = S (w_tick w) → fine (k s w1).2) →
  fine ((Status ≫= k) w).2.
Proof.
  intros Ht Hk. apply track_bind; [apply track_plain; [apply Status_kept; apply _|by exists t]|].
  intros s w1 (Hs & Hf & Hh & Htk)%Status_ret. apply Hk; try done. eapply track_same; [done|apply Hf].
Qed.

(** A call that emits one action: it dies before, or the action happened. *)
Lemma track_emit {A} a (f : D → result A * D) w t :
  on_track w t → reason t a →
  fine ((_ ← tick; _ ← emit a; device f) w).2 ∧
  ∀ x w1, (_ ← tick; _ ← emit a; device f) w = (Ret x, w1) → on_track w1 (t ++ [a]).
Proof.
  intros [E Hj] Hr.
  assert (Ha : on_track (set_w_trace (w_trace w ++ [a]) w) (t ++ [a])).
  { split; simpl; [by rewrite E, app_assoc|by apply justified_snoc]. }
  unfold tick, emit, device, modify, mbind, M_bind. destruct (env_crash _); simpl; [by split; [exists t|]|].
  destruct (f (w_dev w)) as [[x|e] d]; simpl; (split; [exists (t ++ [a]); by eapply track_same|]); [|done].
  intros ? ? [= <- <-]. by eapply track_same.
Qed.

Lemma track_Mark {B} state slot (k : unit → M (World D) B) w t :
  on_track w t → mark_reason cmd w0 t state slot →
  (∀ w1, on_track w1 (t ++ [AMark state slot]) → fine (k tt w1).2) →
  fine ((Mark state slot ≫= k) w).2.
Proof.
  intros Ht Hr Hk. destruct (track_emit (AMark state slot) (bk_Mark state slot) w t Ht Hr) as [Hf Hon].
  apply track_bind; [exact Hf|]. intros [] w1 E. by apply Hk, (Hon tt).
Qed.

Lemma track_Reboot w t : on_track w t → reboot_reason cmd w0 t → fine (Reboot w).2.
Proof. intros Ht Hr. apply (track_emit AReboot bk_Reboot w t Ht Hr). Qed.

Lemma track_locked {A} (m : M (World D) A) : fine (m (set_w_mu true w0)).2 → fine (locked m w0).2.
Proof.
  destruct (locked_spec m w0) as (_ & Hf & _). intros (t & Ht). exists t. eapply track_same; [done|apply Hf].
Qed.

Lemma track_start w : w_trace w = w_trace w0 → on_track w [].
Proof. intros E. split; [by rewrite app_nil_r|apply justified_nil]. Qed.

Lemma track_tryLocked {A} busy (m : M (World D) A) : fine (m (set_w_mu true w0)).2 → fine (tryLocked busy m w0).2.
Proof.
  intros Hm. unfold tryLocked, mbind, M_bind, get. destruct (w_mu w0); [exists []; by apply track_start|].
  by apply track_locked.
Qed.

Lemma track_save j st msg w : fine w → fine (save c j st msg w).2.
Proof. apply track_plain, save_kept; apply _. Qed.
End track.

(** ** The handlers *)

Local Ltac saves := apply track_save; by eexists.

Lemma track_rollback w0 j w :
  activeJob (w_data w0) = Some j → j_State j = RollbackPending → w_dev w = w_dev w0 →
  on_track CStep w0 w [] → fine CStep w0 (step_rollback c j w).2.
Proof.
  intros Hj Hst Hdev Ht. unfold step_rollback. eapply track_Status; [done|]. intros s w1 Hs Ht1 _ _ _.
  rewrite Hdev in Hs. destruct (negb (eqs (ds_Operation s) _)) eqn:E1; [by exists []|].
  destruct (eqs (ds_Booted s) (j_OldSlot j)) eqn:E2; [saves|].
  destruct (negb (eqs (ds_Booted s) _)) eqn:E3; [saves|]. reflect_bools.
  assert (Hr : rolling_back j s w0) by by split.
  eapply track_Mark; [done|by eapply bad_rollback|]. intros w2 Ht2.
  eapply track_Mark; [done|by eapply active_rollback|]. intros w3 Ht3.
  eapply track_Reboot; [done|by eapply rollback_reboot].
Qed.

Lemma track_checking w0 j now w :
  activeJob (w_data w0) = Some j → w_dev w = w_dev w0 →
  on_track CStep w0 w [] → fine CStep w0 (step_checking c j now w).2.
Proof.
  intros Hj Hdev Ht. unfold step_checking. eapply track_Status; [done|]. intros s w1 Hs Ht1 _ _ _.
  rewrite Hdev in Hs. destruct (eqs (ds_Booted s) (j_OldSlot j)) eqn:E1; [saves|].
  destruct (negb (eqs (ds_Booted s) _) || _) eqn:E2; [saves|].
  assert (Hsince : ∀ t, keeps plainly (set_healthySince (D := D) t)).
  { intros t w2. exists []. by rewrite app_nil_r. }
  destruct (negb (eqs (ds_BootID s) _)) eqn:E3.
  { apply track_bind; [apply track_plain; [apply Hsince|by eexists]|]. intros [] w2 E. apply track_save.
    injection E as <-. by eexists. }
  destruct (bool_decide (j_State j = Committing)) eqn:E4.
  - apply bool_decide_eq_true in E4. apply orb_false_iff in E2 as [E2 E5]. reflect_bools.
    eapply track_Mark; [done|eapply good_commit; [done|by split]|]. intros w2 Ht2. saves.
  - apply track_plain; [|by eexists]. unfold step_health.
    repeat first [apply save_kept; apply _ | apply Hsince | keeps_step
      | apply keeps_frame_kept; [apply _|first [apply Health_frame|apply stats_frame]]].
Qed.

(** A saved request is the newest snapshot. *)
Lemma save_written j st msg w w' :
  save c j st msg w = (Ret tt, w') → w_trace w' = w_trace w ++ [AJournal (w_data w')].
Proof.
  assert (Hfr : ∀ A (m : M (World D) A) w1 x w2, keeps frame m → m w1 = (Ret x, w2) → w_trace w2 = w_trace w1).
  { intros A m w1 x w2 Hm E. specialize (Hm w1). rewrite E in Hm. apply (fr_trace _ _ Hm). }
  unfold save. intros (now & w1 & E1%Hfr & Hs)%bind_returns; [|apply Now_frame].
  apply bind_returns in Hs as (x2 & w2 & E2%Hfr & Hs); [|apply settlePayloads_frame].
  apply bind_returns in Hs as (x3 & w3 & E3%Hfr & Hs); [|apply stats_frame].
  apply bind_returns in Hs as (d & w4 & E4%Hfr & Hs); [|apply View_frame].
  apply bind_returns in Hs as ([span j'] & w5 & E5%Hfr & Hs); [|apply nextSpan_frame].
  apply bind_returns in Hs as ([] & w6 & E6 & Hs).
  pose proof (Update_outcome (fun d => lift (save_fn j' d)) w5 (fun d => keeps_lift _ _)) as Ho.
  rewrite E6 in Ho. simpl in Ho.
  inversion Ho as [? ? ? Hne| |n1 n sp ? w7 w8 ? _ [] _ _ _ [[_ ->]|(e & ? & _)]]; subst; [done| |done].
  assert (Hw : w_trace w' = w_trace (set_w_data n (committed n sp w8)) ∧ w_data w' = n) by (by destruct env_spans; injection Hs as <-).
  destruct Hw as [-> ->]. simpl. congruence.
Qed.

Lemma track_reboot cmd w0 j m a w :
  activeJob m = Some j → j_State j = AwaitingReboot → at_ c m a w → on_track cmd w0 w [] →
  (∀ d, request_written j d → reboot_reason cmd w0 [AJournal d]) → fine cmd w0 (reboot c j w).2.
Proof.
  intros Hj Hst Hat Ht Hr. unfold reboot. set (j1 := set_j_RebootRequested true j).
  apply track_bind; [saves|]. intros [] w1 Es. pose proof (save_written _ _ _ _ _ Es) as Ew.
  assert (He : job_edge c j (set_j_State AwaitingReboot j1)) by edge.
  pose proof (save_at c j j1 AwaitingReboot "" m a w Hj He Hat) as Ha. rewrite Es in Ha. simpl in Ha.
  destruct Ha as (m' & j' & (tid & sid & now & Ej) & Hact & [d Hd] & _).
  pose proof (lk_memory _ _ _ Hd) as Hm. simpl in Hm. rewrite Hm in Ew.
  assert (Ht1 : on_track cmd w0 w1 [AJournal m']).
  { destruct Ht as [E _]. rewrite app_nil_r in E. split; [by rewrite Ew, E|].
    apply (justified_snoc cmd w0 []); [apply justified_nil|done]. }
  assert (Hreq : request_written j m') by (exists j'; by rewrite Ej in Hact |- * ).
  apply track_bind; [unfold try; pose proof (track_Reboot cmd w0 w1 _ Ht1 (Hr _ Hreq)); by destruct (Reboot w1) as [[]]|].
  intros r w2 Er. assert (Hf : fine cmd w0 w2).
  { pose proof (track_Reboot cmd w0 w1 _ Ht1 (Hr _ Hreq)) as Hf. unfold try in Er.
    by destruct (Reboot w1) as [[]]; injection Er as _ <-. }
  apply track_plain; [|done]. destruct r; keeps_auto. apply save_kept; apply _.
Qed.

Lemma at_jframe m a w w' : jframe w w' → at_ c m a w → at_ c m a w'.
Proof. intros Hf [d Hd]. exists d. by eapply linked_jframe. Qed.

Lemma track_awaiting w0 j a w :
  activeJob (w_data w0) = Some j → j_State j = AwaitingReboot → w_dev w = w_dev w0 →
  at_ c (w_data w0) a w → on_track CStep w0 w [] →
  fine CStep w0 (step_awaiting c j (env_now (w_tick w0)) w).2.
Proof.
  intros Hj Hst Hdev Hat Ht. unfold step_awaiting. eapply track_Status; [done|]. intros s w1 Hs Ht1 Hf _ _.
  rewrite Hdev in Hs. apply (at_jframe _ _ _ _ Hf) in Hat.
  destruct (eqs (ds_BootID s) (j_BootID j)) eqn:E1.
  - destruct (negb (eqs (ds_Booted s) _)) eqn:E2; [saves|]. destruct (_ && _ && _ && _) eqn:E3; [|by eexists].
    reflect_bools. unfold Before in *. eapply track_reboot; [done..|]. intros d Hd.
    eapply auto_reboot; try done. split; try done. lia.
  - destruct (eqs (ds_Booted s) _); [saves|]. destruct (_ || _); [saves|].
    apply track_bind; [by eexists|]. intros [] w2 E. injection E as <-. saves.
Qed.

Lemma track_bootFallback w0 s w :
  boot_watched s w0 → ¬ boot_in_time c (env_now (w_tick w0 + 1)) w0 →
  on_track CStep w0 w [] → fine CStep w0 (bootFallback (knownSlots (w_data w0)) s w).2.
Proof.
  intros Hw Hl Ht. unfold bootFallback. apply track_bind; [by destruct (Other s); eexists|].
  intros other w1 E. destruct (Other s) as [o|] eqn:Eo; [|done]. injection E as <- <-.
  destruct (_ || _) eqn:Eg; [by eexists|]. apply orb_false_iff in Eg as [Ek Eg].
  apply negb_false_iff, bool_decide_eq_true_1 in Ek. apply negb_false_iff in Eg.
  assert (Hb : boot_lost s o w0) by by split.
  eapply track_Mark; [done|by eapply bad_boot|]. intros w2 Ht2.
  eapply track_Mark; [done|by eapply active_boot|]. intros w3 Ht3.
  eapply track_Reboot; [done|by eapply boot_reboot].
Qed.

Lemma track_confirmHealthy w0 s w :
  boot_watched s w0 → boot_in_time c (env_now (w_tick w0 + 1)) w0 →
  w_healthySince w = w_healthySince w0 → w_tick w = (w_tick w0 + 2)%nat →
  on_track CStep w0 w [] → fine CStep w0 (confirmHealthy c s (env_now (w_tick w0 + 1)) w).2.
Proof.
  intros Hw Hin Hsince Htk Ht. unfold confirmHealthy. pose proof (Health_frame c w) as Hf.
  pose proof (Health_spec c w) as Hsp. apply track_bind.
  { apply track_plain; [apply keeps_try, keeps_frame_kept; [apply _|apply Health_frame]|by eexists]. }
  intros r w1 Er. unfold try in Er. destruct (Health c w) as [[[]|e|] w2]; [..|done]; injection Er as <- <-; simpl in Hf.
  all: assert (Ht2 : on_track CStep w0 w2 []) by (eapply track_same; [done|apply Hf]).
  2: by exists [].
  unfold mbind at 1, M_bind at 1. cbn [get]. cbv zeta. unfold mbind at 1, M_bind at 1. cbn [set_healthySince modify].
  set (w3 := set_w_healthySince _ w2).
  assert (Ht3 : on_track CStep w0 w3 []) by (by eapply track_same).
  destruct (Sub _ _ <? _) eqn:Es; [by eexists|]. rewrite (fr_since _ _ Hf), Hsince in Es.
  assert (Hb : boot_proved s w0).
  { split; [done|done|rewrite <- Htk; by apply (Hsp (Ret tt) w2)|]. by apply stable_from, stable_spec. }
  eapply track_Mark; [done|by eapply good_boot|]. intros w4 Ht4.
  apply track_plain; [|by eexists]. apply kept_update. intros d. apply keeps_ret. apply _.
Qed.

Lemma track_confirmNormalBoot w0 w :
  activeJob (w_data w0) = None → w_data w = w_data w0 → w_dev w = w_dev w0 →
  w_healthySince w = w_healthySince w0 → w_tick w = w_tick w0 →
  on_track CStep w0 w [] → fine CStep w0 (confirmNormalBoot c w).2.
Proof.
  intros Hn Hd Hdev Hsi Htk Ht. unfold confirmNormalBoot. unfold mbind at 1, M_bind at 1. rewrite View_spec, Hd.
  destruct (_ =? 0)%nat; [by eexists|]. eapply track_Status; [done|]. intros s w1 Hs Ht1 _ Hsi1 Htk1.
  rewrite Hdev in Hs. destruct (negb (eqs (ds_Operation s) _)) eqn:Eop; [by eexists|].
  destruct (eqs (bc_BootID _) _ && _) eqn:Ec; [by eexists|]. destruct (eqs (j_JobID _) "") eqn:Ej; [by eexists|].
  destruct (negb (bool_decide _)) eqn:Ek; [by eexists|]. apply negb_false_iff, bool_decide_eq_true_1 in Ek.
  apply track_bind; [apply track_plain; [apply keeps_frame_kept; [apply _|apply Now_frame]|by eexists]|].
  intros now w2 E. unfold Now, tick, mbind, M_bind, mret, M_ret in E. destruct (env_crash _); [done|]. injection E as <- <-.
  set (w2 := set_w_tick _ w1). assert (Ht2 : on_track CStep w0 w2 []) by (by eapply track_same).
  replace (w_tick w1) with (w_tick w0 + 1)%nat by lia. destruct (negb (eqs (bc_BootID _) _)) eqn:Eb.
  { apply track_bind; [by exists []|]. intros [] w3 E. injection E as <-.
    apply track_plain; [|by exists []]. apply kept_update. intros d. apply keeps_ret. apply _. }
  assert (Hw : boot_watched s w0).
  { apply negb_false_iff in Eb. rewrite Eb in Ec. apply eqs_false in Ej. reflect_bools. by split. }
  destruct (_ || _) eqn:Ew; unfold Before in Ew.
  - apply track_bootFallback; [done| |done]. unfold boot_in_time. lia.
  - apply track_confirmHealthy; try done; [unfold boot_in_time; lia|change (w_healthySince w1 = w_healthySince w0); congruence|simpl; lia].
Qed.

Lemma track_Step w0 : reachable c w0 → w_mu w0 = false → fine CStep w0 (Step c w0).2.
Proof.
  intros Hr Hmu. destruct (reachable_at c _ Hr Hmu) as [a Hat]. apply track_locked.
  unfold Step_body. unfold mbind at 1, M_bind at 1. rewrite current_spec. cbn [w_data set_w_mu].
  destruct (activeJob (w_data w0)) as [j|] eqn:Hj; [|apply track_confirmNormalBoot; try done; by apply track_start].
  unfold Now, tick, mbind, M_bind, mret, M_ret. cbn [w_tick set_w_mu].
  destruct (env_crash (w_tick w0)); [exists []; by apply track_start|].
  set (w1 := set_w_tick _ _). assert (Ht : on_track CStep w0 w1 []) by (by apply track_start).
  assert (Hat1 : at_ c (w_data w0) a w1) by (by eapply (at_jframe _ _ w0 w1)).
  assert (Hplain : ∀ m : M (World D) unit, keeps plainly m → fine CStep w0 (m w1).2) by (intros m Hm; apply track_plain; [done|by eexists]).
  unfold step_job. destruct (j_State j) eqn:Hst.
  - apply Hplain, preinstall_kept, step_accepted_kept; apply _.
  - apply Hplain, preinstall_kept, step_downloading_kept; apply _.
  - apply Hplain, preinstall_kept, step_verified_kept; [apply _..|apply Install_plain].
  - apply track_save. by eexists.
  - by eapply track_awaiting.
  - by apply track_checking.
  - by apply track_checking.
  - apply Hplain, keeps_fail, _.
  - by apply track_rollback.
  - apply Hplain, keeps_fail, _.
  - apply Hplain, keeps_fail, _.
  - apply Hplain, keeps_ret, _.
  - apply Hplain, keeps_fail, _.
Qed.

Lemma track_RequestReboot cmd w0 :
  reachable c w0 → w_mu w0 = false → asks_reboot cmd → fine cmd w0 (RequestReboot c w0).2.
Proof.
  intros Hr Hmu Hask. destruct (reachable_at c _ Hr Hmu) as [a Hat]. apply track_tryLocked.
  assert (Ht : on_track cmd w0 (set_w_mu true w0) []) by (by apply track_start).
  unfold RequestReboot_body. unfold mbind at 1, M_bind at 1. rewrite current_spec. cbn [w_data set_w_mu].
  destruct (activeJob (w_data w0)) as [j|] eqn:Hj; [|by eexists].
  destruct (negb _) eqn:Est; [by eexists|]. apply negb_false_iff, bool_decide_eq_true_1 in Est.
  apply track_bind; [apply track_plain; [apply keeps_frame_kept; [apply _|apply Now_frame]|by eexists]|].
  intros now w1 E. unfold Now, tick, mbind, M_bind, mret, M_ret in E. destruct (env_crash _); [done|]. injection E as <- <-.
  cbn [w_tick set_w_mu]. set (w1 := set_w_tick _ _). assert (Ht1 : on_track cmd w0 w1 []) by (by apply track_start).
  destruct (_ || _) eqn:Ew; [by eexists|]. eapply track_Status; [done|]. intros s w2 Hs Ht2 Hf _ _.
  destruct (negb _ || _ || _) eqn:Eg; [by eexists|]. reflect_bools. unfold Before in *.
  eapply track_reboot; [done|done|by eapply at_jframe; [|eapply (at_jframe _ _ _ w1); [|exact Hat]]|done|].
  intros d Hd. eapply operator_reboot; try done. split; try done. lia.
Qed.

Lemma track_RecoverAbort cmd w0 :
  asks_abort cmd → fine cmd w0 (RecoverAbort c w0).2.
Proof.
  intros Hask. apply track_tryLocked.
  assert (Ht : on_track cmd w0 (set_w_mu true w0) []) by (by apply track_start).
  unfold RecoverAbort_body. unfold mbind at 1, M_bind at 1. rewrite current_spec. cbn [w_data set_w_mu].
  destruct (activeJob (w_data w0)) as [j|] eqn:Hj; [|by eexists].
  destruct (negb _) eqn:Est; [by eexists|]. apply negb_false_iff, bool_decide_eq_true_1 in Est.
  eapply track_Status; [done|]. intros s w1 Hs Ht1 _ _ _. destruct (_ || _) eqn:Eg; [by eexists|].
  apply orb_false_iff in Eg as [Eg E3%eqs_false]. apply orb_false_iff in Eg as [Eg E4%eqs_false]. reflect_bools.
  assert (Hr : aborting j s w0) by by split.
  eapply track_Mark; [done|by eapply bad_abort|]. intros w2 Ht2.
  eapply track_Mark; [done|by eapply active_abort|]. intros w3 Ht3. saves.
Qed.

Lemma apiAction_world (m : M (World D) unit) w : (apiAction m w).2 = (m w).2.
Proof. unfold apiAction, try, mbind, M_bind. by destruct (m w) as [[[]|e|] w1]. Qed.

Lemma track_Handler w0 rq :
  reachable c w0 → w_mu w0 = false → fine (CRequest rq) w0 (Handler c rq w0).2.
Proof.
  intros Hr Hmu.
  assert (Hstart : fine (CRequest rq) w0 w0) by (exists []; by apply track_start).
  assert (Hroute : ∀ m, (aq_method rq = "POST" → fine (CRequest rq) w0 (m w0).2) →
            fine (CRequest rq) w0 (route "POST" rq (apiAction m) w0).2).
  { intros m Hm. unfold route. destruct (eqs (aq_method rq) "POST") eqn:Em; [|done]. simpl.
    rewrite apiAction_world. apply Hm. by apply eqs_true. }
  destruct (decide (endpoint_of (aq_path rq) = Some EReboot)) as [E|E1].
  { unfold Handler. rewrite E. apply Hroute. intros Em. apply track_RequestReboot; [done..|]. right. eauto. }
  destruct (decide (endpoint_of (aq_path rq) = Some ERecoverAbort)) as [E|E2].
  { unfold Handler. rewrite E. apply Hroute. intros Em. apply track_RecoverAbort. right. eauto. }
  apply track_plain; [|done]. by apply Handler_kept; [apply _|..].
Qed.

(** Every mark and reboot of a command has its reason. *)
Lemma track_execute cmd w0 : reachable c w0 → w_mu w0 = false → fine cmd w0 (execute c cmd w0).
Proof.
  intros Hr Hmu.
  assert (Hplain : ∀ A (m : M (World D) A), keeps plainly m → fine cmd w0 (m w0).2).
  { intros A m Hm. apply track_plain; [done|]. exists []. by apply track_start. }
  destruct cmd; simpl.
  - by apply track_Step.
  - apply Hplain, Submit_kept; apply _.
  - apply Hplain, Ack_kept; apply _.
  - apply track_RequestReboot; [done..|by left].
  - apply track_RecoverAbort. by left.
  - apply Hplain, GC_kept; apply _.
  - apply Hplain, Sync_kept; apply _.
  - by apply track_Handler.
Qed.

Lemma track_position cmd w0 t1 a t2 :
  fine cmd w0 (execute c cmd w0) → w_trace (execute c cmd w0) = w_trace w0 ++ t1 ++ a :: t2 → reason cmd w0 t1 a.
Proof. intros (t & E & Hj) E'. rewrite E in E'. apply app_inv_head in E'. by eapply Hj. Qed.

Lemma reachable_believed w : reachable c w → w_mu w = false → believed (w_trace w) (w_data w).
Proof.
  intros (s & Hr & _ & Hl)%reachable_consistent Hmu. rewrite (lk_memory _ _ _ (Hl Hmu)). by eapply run_believed.
Qed.

(** Start-up performs no action. *)
Lemma Restart_silent dirSafe lockFree w : w_trace (Restart dirSafe lockFree w).2 = w_trace w.
Proof.
  rewrite Restart_unfold. pose proof (OpenStore_survives dirSafe lockFree (booting w)) as [_ Et _ _].
  by destruct (OpenStore dirSafe lockFree None (booting w)) as [[b|e|] w'].
Qed.

(** ** Claims *)

(** C9: a slot is marked only for one of these reasons, each with what the
    backend reported at the start of the command that marks it.  "good": the
    step of a job in [Committing] that runs the journalled target slot,
    version and boot; or the step of an idle agent on an unconfirmed boot of
    a slot and version a completed job left, inside its window, with every
    check passing in that step and stable since the last failed one.  "bad"
    and then "active": the target and the original slot of a job whose
    rollback is pending or which the operator aborts, with the backend idle;
    or the booted and the other slot when the clock is outside the window of
    an unconfirmed boot and the other slot is good and of a known version.  What the
    agent holds in memory is the newest snapshot, or the one before it when
    the outcome of the last write was lost.  Start-up marks nothing. *)
Theorem marks_justified w :
  reachable c w →
  (∀ cmd t1 state slot t2, w_mu w = false →
     w_trace (execute c cmd w) = w_trace w ++ t1 ++ AMark state slot :: t2 →
     believed (w_trace w) (w_data w) ∧ mark_reason cmd w t1 state slot) ∧
  (∀ dirSafe lockFree, w_trace (Restart dirSafe lockFree w).2 = w_trace w).
Proof.
  intros Hr. split; [|intros; apply Restart_silent]. intros cmd t1 state slot t2 Hmu E.
  split; [by apply reachable_believed|]. by apply (track_position _ _ _ _ _ (track_execute cmd w Hr Hmu) E).
Qed.

(** C10: the device is rebooted only for a job that waits on its original slot
    within its window, automatically or by the operator's request, right
    after the request was written to the journal; or right after the two
    marks of a pending rollback, or of the fall back from an unconfirmed boot
    when the clock is outside its window.  An agent on a confirmed boot never reboots by
    itself. *)
Theorem reboots_justified cmd w t1 t2 :
  reachable c w → w_mu w = false → w_trace (execute c cmd w) = w_trace w ++ t1 ++ AReboot :: t2 →
  believed (w_trace w) (w_data w) ∧ reboot_reason cmd w t1.
Proof.
  intros Hr Hmu E. split; [by apply reachable_believed|].
  by apply (track_position _ _ _ _ _ (track_execute cmd w Hr Hmu) E).
Qed.

End justified.
