(* ===== verification/Remote.v ===== *)
(** * Callers of the agent

    What the local API and Fleet can rely on: an accepted assignment is
    durable, a refused request changes nothing, and an event leaves the
    outbox only when the server has recorded it. *)
From stdpp Require Import base tactics gmap strings list.
From Stdlib Require Import ZArith Lia.
From S2P Require Import Prelude Model Config Crypto Fmt Files Backend Metrics Trace Topo Verify World Store TrustMeta MetricsText Payload Download Engine EngineFrame EngineSpec Refine RefineEngine FleetRef Fleet API System Commands Outcomes.
Local Open Scope Z_scope.

Section remote.
Context `{MapRange, Limits, LocalZone, NetURL, Net, Ed25519, LineJSON, Unicode}.
Context `{JSONDecode Release, JSONEncode Assignment, JSONDecode multiSigned, JSONDecode rootMeta,
          JSONDecode snapshotMeta, JSONDecode timestampMeta, JSONDecode targetsMeta}.
Context `{JSONDecode Assignment, JSONEncode (list Event), JSONDecode ackBody, JSONDecode backupBody, FleetNet}.
Context `{Codec, Env} {D : Type} `{Backend D}.
Context (c : Config).
Implicit Types w : World D.

(** ** Acceptance *)

(** The new job is in the database its transaction wrote. *)
Lemma submit_fn_stores a r supply now d w next0 w1 next sp :
  good c d → asg_JobID a ≠ "" →
  submit_fn c a (newJob a r now) supply now d w = (Ret next0, w1) →
  compactHot next0 = Ok (next, sp) →
  db_Jobs next !! asg_JobID a = Some (newJob a r now).
Proof.
  intros Hg Hid. unfold submit_fn. destruct (negb _); [done|]. destruct (_ >? _); [done|].
  destruct (_ <=? _); [done|]. intros (dt & w2 & Ht & Ha)%bind_returns Hc.
  assert (Et : db_Jobs dt = db_Jobs d).
  { unfold applySupplyChain in Ht. destruct (negb _); [by injection Ht as <- _|].
    apply bind_returns in Ht as (? & ? & _ & Ht). by injection Ht as <- _. }
  unfold addEvent in Ha. destruct (_ >=? _); [done|]. unfold lift, mret, M_ret in Ha. injection Ha as <- _.
  apply compactHot_ok in Hc as [[_ _ _ Hk] _];
    [|simpl; rewrite lookup_insert_ne, Et by done; apply (gd_noempty _ _ Hg)].
  destruct (Hk (asg_JobID a) (newJob a r now)) as [?|[_ [Hne _]]]; [apply lookup_insert_eq|done|].
  by destruct Hne.
Qed.

Lemma Submit_body_returns a w j w' :
  good c (w_data w) → Submit_body c a w = (Ret j, w') →
  db_Jobs (w_data w') !! asg_JobID a = Some j ∧ w_poisoned w' = w_poisoned w.
Proof.
  intros Hg Hs. unfold Submit_body in Hs. destruct (_ || _) eqn:Eid; [done|]. reflect_bools.
  assert (Hne : asg_JobID a ≠ "") by (intros E; by rewrite E in *).
  apply bind_returns in Hs as (d & w1 & Hv & Hs). rewrite View_spec in Hv. injection Hv as <- <-.
  destruct (db_Jobs (w_data w) !! asg_JobID a) as [j0|] eqn:Ej.
  { destruct (eqs _ _); [|done]. by injection Hs as <- <-. }
  assert (Hstep : ∀ A (m : M (World D) A) w1 x w2, keeps frame m → m w1 = (Ret x, w2) →
    frame w w1 → frame w w2).
  { intros A m w1 x w2 Hk E Hf. specialize (Hk w1). rewrite E in Hk. by etrans. }
  apply bind_returns in Hs as (now & w1 & Hn & Hs). eapply Hstep in Hn; [|apply Now_frame|reflexivity].
  apply bind_returns in Hs as (r & w2 & Hl & Hs). eapply Hstep in Hl; [|apply keeps_lift, _|done].
  apply bind_returns in Hs as (? & w3 & Hm & Hs). eapply Hstep in Hm; [|apply gateMeasuredBoot_frame|done].
  apply bind_returns in Hs as (supply & w4 & He & Hs). eapply Hstep in He; [|apply evaluateSupplyChain_frame|done].
  destruct (negb (After _ _) || _ || _); [done|]. apply bind_returns in Hs as (u & w5 & Hu & Hs).
  injection Hs as <- <-. pose proof (Update_outcome (submit_fn c a (newJob a r now) supply now) w4
    ltac:(intros; apply submit_fn_frame)) as Ho. rewrite Hu in Ho. cbn [fst snd] in Ho.
  inversion Ho as [o w' Hf Hno|?|next0 next sp o w6 w7 w' Hr Hf Hp Hc Hv Hend]; subst; [by destruct u|].
  destruct Hend as [[_ ->]|(e & ? & _)]; [|done]. simpl.
  rewrite (fr_data _ _ He) in Hr. split; [by eapply submit_fn_stores|].
  by rewrite (fr_poisoned _ _ Hf), (fr_poisoned _ _ He).
Qed.

(** C21: an assignment the API accepts with 202 is durable: unless the store
    had already refused writes, the job it answers with is in the snapshot a
    restarted process reads. *)
Theorem api_accepted_is_durable rq j w w' :
  reachable c w → w_mu w = false → w_poisoned w = false →
  Handler c rq w = (Ret (mkApiRs _ 202 (ApiJob j)), w') →
  ∃ d, durable w' = Ok d ∧ db_Jobs d !! j_JobID j = Some j.
Proof.
  intros Hr Hmu Hp Hh.
  assert (Hs : ∃ a, Submit c a w = (Ret j, w')).
  { revert Hh. unfold Handler. destruct (endpoint_of (aq_path rq)) as [[]|]; unfold route, respond, getStatus, getJob, getEvents, getArchive, getMetrics,
      postAck, postBackup, apiAction, postAssignment, mret, M_ret;
    repeat (match goal with
    | |- (_ ≫= _) _ = _ → _ => intros (? & ? & ? & Hh)%bind_returns; revert Hh
    | |- (match ?x with _ => _ end) _ = _ → _ => destruct x eqn:?
    | |- _ = _ → _ => intros [= ]
    end; try done). subst. eexists. by eapply try_returns. }
  destruct Hs as [a Hs]. destruct (reachable_at c w Hr Hmu) as [ar Hat].
  assert (Hex : explained c w') by (pose proof (Submit_explained c a w) as Hx; rewrite Hs in Hx;
    apply Hx; by eapply at_explained).
  unfold Submit, tryLocked, mbind, M_bind, get in Hs. rewrite Hmu in Hs.
  destruct (locked_spec (Submit_body c a) w) as (Eo & Hj & _). rewrite Hs in Eo, Hj. simpl in Eo, Hj.
  destruct (Submit_body c a (set_w_mu true w)) as [o w1] eqn:Eb. simpl in Eo, Hj. subst o.
  destruct (Submit_body_returns _ _ _ _ (at_good _ _ _ _ Hat : good c (w_data (set_w_mu true w))) Eb) as [Hin Hpo].
  destruct Hex as [s [Hrun Hd Hm Hsy]]. exists (sp_durable s). split; [done|].
  assert (Hpw : w_poisoned w' = false) by (by rewrite (jf_poisoned _ _ Hj), Hpo).
  rewrite <- (Hsy Hpw), <- Hm, (jf_data _ _ Hj).
  assert (Hkey : j_JobID j = asg_JobID a); [|by rewrite Hkey].
  assert (Hok : db_ok (sp_memory s)) by (rewrite (Hsy Hpw); apply (gd_ok _ _ (proj1 (run_good c _ _ Hrun)))).
  rewrite <- Hm, (jf_data _ _ Hj) in Hok. by destruct (dk_all_jobs _ Hok _ _ Hin).
Qed.

Local Hint Resolve tick_quiet : keeps.
Lemma View_quiet : keeps quiet (View (D := D)).
Proof. unfold View. keeps_auto. Qed.
Lemma syscall_quiet : keeps quiet (syscall (D := D)).
Proof. unfold syscall. keeps_auto. Qed.
Local Hint Resolve View_quiet syscall_quiet : keeps.
Lemma Exists_quiet p : keeps quiet (World.Exists (D := D) p).
Proof. unfold World.Exists, view_fs. keeps_auto. Qed.
Local Hint Resolve Exists_quiet : keeps.

Definition is_read (method : string) : bool := eqs method "GET" || eqs method "HEAD".

Lemma apiAction_status (m : M (World D) unit) w rs w' :
  apiAction m w = (Ret rs, w') → ap_status rs = 200 ∨ ap_status rs = 409.
Proof.
  unfold apiAction. intros (r & w1 & _ & Hr)%bind_returns. destruct r; injection Hr as <- _; auto.
Qed.

(** Reading requests, and requests answered as malformed (400), unknown
    (404) or with the wrong method (405), leave journal, device and files as
    they were. *)
Theorem api_reads_and_refusals_are_quiet rq rs w w' :
  Handler c rq w = (Ret rs, w') →
  (is_read (aq_method rq) = true ∨ ap_status rs = 400 ∨ ap_status rs = 404 ∨ ap_status rs = 405) →
  quiet w w'.
Proof.
  intros Hh Hcase.
  assert (Hq : ∀ m : M (World D) (apiResponse), keeps quiet m → m w = (Ret rs, w') → quiet w w').
  { intros m Hk E. specialize (Hk w). by rewrite E in Hk. }
  assert (Hpost : ∀ k, route "POST" rq k w = (Ret rs, w') →
    (ap_status rs = 400 ∨ ap_status rs = 404 ∨ ap_status rs = 405 → k w = (Ret rs, w') → quiet w w') →
    quiet w w').
  { unfold route, is_read in *. intros k. destruct (eqs (aq_method rq) "POST") eqn:Em; simpl.
    - intros Hk Himp. apply Himp; [|done]. destruct Hcase as [Hg|?]; [|done]. reflect_bools. by rewrite Em in Hg.
    - intros Hk _. by injection Hk as _ <-. }
  revert Hh. unfold Handler. destruct (endpoint_of (aq_path rq)) as [[]|];
    first [intros Hh; apply (Hpost _ Hh); clear Hpost; intros Hst Hk
          | apply Hq; unfold route, respond, getStatus, getJob, getEvents, getArchive, getMetrics, ExportArchive; keeps_auto].
  all: try (apply apiAction_status in Hk; lia).
  - unfold postAssignment in Hk. destruct (decodeRequest rq); [|by injection Hk as _ <-].
    apply bind_returns in Hk as (r & w1 & _ & Hk). destruct r; injection Hk as <- <-; simpl in Hst; lia.
  - unfold postAck in Hk. destruct (decodeRequest rq); [|by injection Hk as _ <-].
    apply apiAction_status in Hk. lia.
  - revert Hk. apply Hq. unfold postBackup, apiAction, Backup, respond. keeps_auto.
Qed.

(** ** Delivery of events *)

Lemma ordered_split limit p l1 l2 e1 e2 :
  events_ordered limit p (l1 ++ l2) → e1 ∈ l1 → e2 ∈ l2 → e_Sequence e1 < e_Sequence e2.
Proof.
  revert p. induction l1 as [|x l1 IH]; intros p Ho Hx Hy; [by apply not_elem_of_nil in Hx|].
  destruct Ho as [_ Ho]. apply elem_of_cons in Hx as [->|Hx]; [|by eapply IH].
  eapply ordered_above; [exact Ho|]. set_solver.
Qed.

(** What an acknowledgement within the batch removes was in the batch. *)
Lemma acked_in_batch limit p l n e :
  events_ordered limit p l → n ≤ last_event (take 100 l) → 0 ≤ p →
  e ∈ l → e ∉ drop_acked n l → e ∈ take 100 l.
Proof.
  intros Ho Hn Hp Hin Hout. rewrite (drop_acked_filter _ _ _ _ Ho) in Hout.
  assert (Hle : e_Sequence e ≤ n).
  { destruct (decide (n < e_Sequence e)); [|lia]. destruct Hout. by apply list_elem_of_filter. }
  pose proof (ordered_above _ _ _ Ho e Hin) as Hpos.
  rewrite <- (take_drop 100 l) in Hin. apply elem_of_app in Hin as [?|Hdrop]; [done|]. exfalso.
  unfold last_event in Hn. destruct (last (take 100 l)) as [x|] eqn:Ex; [|lia].
  apply last_Some_elem_of in Ex. rewrite <- (take_drop 100 l) in Ho.
  pose proof (ordered_split _ _ _ _ _ _ Ho Ex Hdrop). lia.
Qed.

(** The reference server behind the network: [srv n] is its state when the
    exchange at position [n] of the oracle takes place. *)
Section reference.
Context `{JSONDecode (list Event)} (srv : nat → Server) (f : Fleet).

Definition upload_request (evs : list Event) : fleetRq :=
  mkFleetRq "POST" ["v1"; "devices"; c_DeviceID c; "events"]
    (default "" (fc_auth (fleetCall c f "POST" "/events" (json_Marshal evs)))) (json_Marshal evs) false.

Context (srv_reachable : ∀ n, server_reachable (srv n))
  (events_u64 : ∀ b (evs : list Event),
     StrictJSON b = Ok evs → Forall (fun e => 0 ≤ e_Sequence e < 2 ^ 64) evs)
  (net_reference : ∀ n evs ans,
     fleet_Do n (fleetCall c f "POST" "/events" (json_Marshal evs)) = Ok ans → fa_status ans = 200 →
     ∃ k, (serve (upload_request evs) (srv n)).1 = mkFleetRs 200 (BSequence k)).

(** C12: no event is lost on its way to Fleet.  When a synchronisation of a
    reachable agent removes an event from the outbox, the reference server
    answered the upload that contained it and has recorded it.  The batch has
    to fit the 512 KiB the server reads and to survive its JSON encoding. *)
Theorem outbox_reaches_fleet w e :
  reachable c w → w_mu w = false →
  blen (json_Marshal (batch (w_data w))) ≤ 524288 →
  StrictJSON (json_Marshal (batch (w_data w))) = Ok (batch (w_data w)) →
  e ∈ db_Events (w_data w) → e ∉ db_Events (w_data (Sync c f w).2) →
  ∃ n, recorded (events_of (serve (upload_request (batch (w_data w))) (srv n)).2 (c_DeviceID c)) e.
Proof.
  intros Hr Hmu Hsize Hjson Hin Hout. destruct (reachable_at c w Hr Hmu) as [ar Hat].
  pose proof (at_good _ _ _ _ Hat) as Hg. pose proof (dk_events _ (gd_ok _ _ Hg)) as Ho.
  destruct (Sync_data c f w) as [E|[t E]]; rewrite E in Hout; [done|].
  destruct (sync_outbox c f (set_w_tick t w) e Hin Hout) as (ack & (n & ans & Hdo & Hst & _ & Hle) & Hdrop).
  exists n. destruct (net_reference n _ _ Hdo Hst) as [k Hk].
  change (w_data (set_w_tick t w)) with (w_data w) in *. set (rq := upload_request (batch (w_data w))) in *.
  destruct (serve rq (srv n)) as [rs s'] eqn:Es. simpl in Hk. subst rs.
  destruct (serve_ack_sound events_u64 (srv n) rq k s' (srv_reachable n) Es)
    as (dev & evs & Hp & _ & Hj & _ & _ & _ & Hrec).
  injection Hp as <-. simpl in Hj. unfold limit_read in Hj. rewrite (proj2 (Z.leb_le _ _) Hsize) in Hj.
  rewrite Hjson in Hj. injection Hj as <-. apply Hrec.
  by eapply acked_in_batch.
Qed.
End reference.
End remote.
