(* ===== verification/Daemon.v ===== *)
(** * The agent process (cmd/zyvor-otad/main.go, ListenUnix of api.go)

    Start-up in the order of [run], the socket it listens on, and the loops
    that call the engine: the one-second ticker, the Fleet ticker and the
    requests of the API, one call at a time as the engine's mutex orders
    them. *)
From stdpp Require Import base tactics gmap strings list.
From Stdlib Require Import ZArith Lia Ascii.
From S2P Require Import Prelude Model Config Crypto Fmt Files Backend Metrics Trace Topo Verify World Store TrustMeta MetricsText Payload Download Engine EngineFrame EngineSpec Refine RefineEngine Fleet API System.
Local Open Scope Z_scope.

(** ** Addresses *)

Fixpoint last_index (x : ascii) (l : list ascii) : option nat :=
  match l with
  | [] => None
  | c :: l => match last_index x l with
              | Some i => Some (S i)
              | None => if Ascii.eqb c x then Some 0%nat else None
              end
  end.
Fixpoint first_index (x : ascii) (l : list ascii) : option nat :=
  match l with
  | [] => None
  | c :: l => if Ascii.eqb c x then Some 0%nat else S <$> first_index x l
  end.
Definition has (x : ascii) (l : list ascii) : bool := existsb (Ascii.eqb x) l.

(** [net.SplitHostPort]: host and port, or [None] for an error. *)
Definition SplitHostPort (hostport : string) : option (string * string) :=
  let l := String.list_ascii_of_string hostport in
  i ← last_index ":" l;
  let port := drop (S i) l in
  let done_ host j k :=
    if has "[" (drop j l) || has "]" (drop k l) then None
    else Some (String.string_of_list_ascii host, String.string_of_list_ascii port) in
  match l with
  | "["%char :: _ =>
      stop ← first_index "]" l;
      if (S stop =? i)%nat then done_ (take (stop - 1) (drop 1 l)) 1%nat (S stop) else None
  | _ => if has ":" (take i l) then None else done_ (take i l) 0%nat 0%nat
  end.

(** ** Sockets *)

(** What a path of the socket directory is: a socket, with or without a
    process that accepts connections, or anything else. *)
Inductive sockNode :=
  | Sock (live : bool) (mode : Z)
  | NotSock.

Record Daemon `{Codec} (D : Type) := mkDaemon {
  dm_world : World D;
  dm_sock : gmap string sockNode;
}.
Arguments mkDaemon {_ _}.
Arguments dm_world {_ _}.
Arguments dm_sock {_ _}.

(** Opening the device: [NewSimulator] or [NewRAUC]. *)
Class OpenDevice (D : Type) := { open_device : Config → D → result unit * D }.
Global Instance open_simulator : OpenDevice Simulator := {|
  open_device := fun c s =>
    match NewSimulator (Some (sim_file s)) (sim_writeErr s) (c_Compatible c) with
    | Ok s' => (Ok tt, s')
    | Err e => (Err e, s)
    end |}.

(** [NewRAUC]: the device is what answers on the system bus, once
    [dbus.ConnectSystemBus] has connected to it. *)
Definition open_rauc {D} (ConnectSystemBus : D → result unit * D) : OpenDevice D := {|
  open_device := fun _ d => match ConnectSystemBus d with (Ok _, d) => (Ok tt, d) | (Err e, d) => (Err e, d) end |}.

(** What [run] has prepared when it is ready. *)
Record Running := mkRunning {
  rn_config : Config;
  rn_token : string;               (* of the OTLP exporter *)
  rn_fleet : option Fleet;
}.

Section daemon.
Context `{MapRange, Limits, LocalZone, NetURL, Net, Ed25519, LineJSON, Unicode}.
Context `{JSONDecode Release, JSONEncode Assignment, JSONDecode multiSigned, JSONDecode rootMeta,
          JSONDecode snapshotMeta, JSONDecode timestampMeta, JSONDecode targetsMeta}.
Context `{JSONDecode Assignment, JSONEncode (list Event), JSONDecode ackBody, JSONDecode backupBody, FleetNet}.
Context `{JSONDecode Config, PEM}.
Context `{Codec, Env} {D : Type} `{Backend D, OpenDevice D}.
Abbreviation M := (Prelude.M (Daemon D)).
Implicit Types s : Daemon D.

(** A step of the agent proper, inside the process. *)
Definition inner {A} (m : Prelude.M (World D) A) : M A := fun s =>
  let '(o, w) := m (dm_world s) in (o, mkDaemon w (dm_sock s)).

Definition put_sock (path : string) (n : option sockNode) : M unit :=
  modify (fun s => mkDaemon (dm_world s) (partial_alter (fun _ => n) path (dm_sock s))).

Definition is_not_exist (e : error) : bool :=
  match err_is e with Some SentNotExist => true | _ => false end.

(** [net.Listen("unix", path)] and [os.Chmod(path, 0600)]; closing the
    listener removes its socket.  [Bind] creates it with the process's umask. *)
Definition bind_socket (path : string) : M unit :=
  _ ← inner syscall;
  s ← get;
  match dm_sock s !! path with
  | Some _ => fail (errors_New "bind: address already in use")
  | None =>
      _ ← put_sock path (Some (Sock true 493));
      r ← try (inner syscall);
      match r with
      | Err e => _ ← put_sock path None; fail e
      | Ok _ => put_sock path (Some (Sock true 384))
      end
  end.

Definition ListenUnix (path : string) : M unit :=
  _ ← inner syscall;   (* MkdirAll *)
  st ← try (inner syscall);
  s ← get;
  match st, dm_sock s !! path with
  | Err e, _ => if is_not_exist e then bind_socket path else fail e
  | Ok _, None => bind_socket path
  | Ok _, Some NotSock => fail (errors_New "refusing to replace non-socket path")
  | Ok _, Some (Sock live _) =>
      dialed ← try (inner syscall);
      if is_ok dialed && live then fail (errors_New "socket already in use")
      else
        _ ← inner syscall;   (* Remove *)
        _ ← put_sock path None;
        bind_socket path
  end.

(** ** Start-up *)

(** [NewOTLPExporter]: the token it sends. *)
Definition NewOTLPExporter (c : Config) : Prelude.M (World D) string :=
  _ ← lift (validateOTLP c);
  if eqs (c_OTLPEndpoint c) "" then fail (errors_New "otlp_endpoint is empty")
  else if negb (eqs (c_OTLPTokenFile c) "") then
    b ← ReadFile (components (c_OTLPTokenFile c));
    if eqs (TrimSpace b) "" then fail (errors_New "empty otlp token") else mret (TrimSpace b)
  else mret "".

Definition openDevice (c : Config) : Prelude.M (World D) unit := _ ← tick; device (open_device c).

(** The listener: the simulator's loopback address, or the socket. *)
Definition listen (c : Config) (simListen : string) : M unit :=
  if negb (eqs simListen "") then
    if negb (eqs (c_Backend c) "simulator")
       || match SplitHostPort simListen with Some (host, _) => negb (eqs host "127.0.0.1") | None => true end
    then fail (errors_New "simulation-listen requires simulator backend and 127.0.0.1")
    else inner syscall
  else ListenUnix (c_Socket c).

Definition start (dirSafe lockFree : bool) (config simListen : string) : M Running :=
  b ← inner (ReadFile (components config));
  c ← lift (StrictJSON b);
  _ ← lift (Validate c);
  _ ← inner (Restart dirSafe lockFree);
  _ ← inner (openDevice c);
  token ← (if negb (eqs (c_OTLPEndpoint c) "") then inner (NewOTLPExporter c) else mret "");
  fleet ← (if negb (eqs (c_FleetURL c) "") then f ← inner (NewFleet c); mret (Some f) else mret None);
  _ ← listen c simListen;
  mret (mkRunning c token fleet).

(** ** Serving *)

(** What calls the engine next. *)
Inductive moment :=
  | Ticked                    (* the one-second ticker *)
  | FleetTicked               (* the start of the Fleet loop and its ticker *)
  | Requested (rq : apiRequest).

Definition command_of (r : Running) (m : moment) : option command :=
  match m with
  | Ticked => Some CStep
  | FleetTicked => CSync <$> rn_fleet r
  | Requested rq => Some (CRequest rq)
  end.

(** The process serves until it dies. *)
Fixpoint serve_moments (r : Running) (l : list moment) (w : World D) : World D :=
  match l with
  | [] => w
  | m :: l =>
      if w_mu w then w
      else serve_moments r l (match command_of r m with
                              | Some cmd => execute (rn_config r) cmd w
                              | None => w
                              end)
  end.

(** [activeIDs], for the log. *)
Definition activeIDs (d : Database) : string * string * string :=
  match db_Jobs d !! db_Active d with
  | Some j => (asg_JobID (j_Assignment j), r_ID (j_Release j), asg_CampaignID (j_Assignment j))
  | None => ("", "", "")
  end.

(** ** The socket *)

(** A step that leaves the sockets alone. *)
Definition same_sock {A} (m : M A) : Prop := ∀ s, dm_sock (m s).2 = dm_sock s.

Lemma inner_sock {A} (m : Prelude.M (World D) A) : same_sock (inner m).
Proof. intros s. unfold inner. by destruct (m (dm_world s)). Qed.

Lemma try_inner_sock {A} (m : Prelude.M (World D) A) : same_sock (try (inner m)).
Proof. intros s. unfold try, inner. by destruct (m (dm_world s)) as [[] ?]. Qed.

(** What [bind_socket] may do: only the free path changes, and on success it
    is a private socket of this process. *)
Definition socket_step (path : string) s (o : outcome unit) s' : Prop :=
  (∀ q, q ≠ path → dm_sock s' !! q = dm_sock s !! q) ∧
  (dm_sock s !! path = Some NotSock → dm_sock s' !! path = Some NotSock ∧ o ≠ Ret tt) ∧
  (o = Ret tt → dm_sock s' !! path = Some (Sock true 384)).

Lemma socket_quiet path s o s' : dm_sock s' = dm_sock s → o ≠ Ret tt → socket_step path s o s'.
Proof. intros E Ho. split; [by rewrite E|]. split; [by rewrite E|done]. Qed.

Lemma socket_after {A} path (m : M A) (k : A → M unit) s0 s :
  dm_sock s = dm_sock s0 → same_sock m →
  (∀ a s1, dm_sock s1 = dm_sock s0 → socket_step path s0 (k a s1).1 (k a s1).2) →
  socket_step path s0 ((m ≫= k) s).1 ((m ≫= k) s).2.
Proof.
  intros Es Hm Hk. unfold mbind, M_bind. specialize (Hm s). rewrite Es in Hm.
  destruct (m s) as [[a|e|] s1]; simpl in *; [by apply Hk|..]; by apply socket_quiet.
Qed.

Lemma get_run {B} (k : Daemon D → M B) s : (get ≫= k) s = k s s.
Proof. done. Qed.

(** A socket is bound only where nothing is. *)
Lemma bind_socket_cases path s :
  (dm_sock (bind_socket path s).2 = dm_sock s ∧ (bind_socket path s).1 ≠ Ret tt) ∨
  (dm_sock s !! path = None ∧
   (∀ q, q ≠ path → dm_sock (bind_socket path s).2 !! q = dm_sock s !! q) ∧
   ((bind_socket path s).1 = Ret tt → dm_sock (bind_socket path s).2 !! path = Some (Sock true 384))).
Proof.
  unfold bind_socket, mbind, M_bind. pose proof (inner_sock syscall s) as E1.
  destruct (inner syscall s) as [[u|e|] s1]; cbn [fst snd] in *; [|by left..].
  unfold get. rewrite E1. destruct (dm_sock s !! path) eqn:Ep; [by left|]. right. split; [done|].
  unfold put_sock, modify. set (s2 := mkDaemon (dm_world s1) _).
  assert (E2 : ∀ q, q ≠ path → dm_sock s2 !! q = dm_sock s !! q).
  { intros q Hne. simpl. rewrite lookup_partial_alter_ne by done. by rewrite E1. }
  pose proof (try_inner_sock syscall s2) as E3.
  destruct (try (inner syscall) s2) as [[[u'|e]|e|] s3]; cbn [fst snd dm_sock fail] in *; unfold fail; cbn [fst snd dm_sock];
    (split; [intros q Hne; rewrite ?lookup_partial_alter_ne by done; rewrite E3; auto|]); try done.
  intros _. by rewrite lookup_partial_alter_eq.
Qed.

Lemma bind_socket_step path s0 s :
  dm_sock s = dm_sock s0 → socket_step path s0 (bind_socket path s).1 (bind_socket path s).2.
Proof.
  intros Es. destruct (bind_socket_cases path s) as [[E Ho]|(Hn & Hq & Hp)].
  - apply socket_quiet; [congruence|done].
  - rewrite Es in *. split; [done|]. split; [|done]. by rewrite Hn.
Qed.

Lemma ListenUnix_step path s : socket_step path s (ListenUnix path s).1 (ListenUnix path s).2.
Proof.
  unfold ListenUnix. apply socket_after; [done|apply inner_sock|]. intros u s1 E1.
  apply socket_after; [done|apply try_inner_sock|]. intros st s2 E2. rewrite get_run, E2.
  destruct st as [v|e]; [|destruct (is_not_exist e); [by apply bind_socket_step|by apply socket_quiet]].
  destruct (dm_sock s !! path) as [[live mode|]|] eqn:Ep; [|by apply socket_quiet|by apply bind_socket_step].
  apply socket_after; [done|apply try_inner_sock|]. intros dialed s3 E3.
  destruct (is_ok dialed && live); [by apply socket_quiet|].
  apply socket_after; [done|apply inner_sock|]. intros x s4 E4.
  unfold mbind, M_bind, put_sock, modify. set (s5 := mkDaemon (dm_world s4) _).
  assert (E5 : ∀ q, q ≠ path → dm_sock s5 !! q = dm_sock s !! q).
  { intros q Hne. simpl. rewrite lookup_partial_alter_ne by done. by rewrite E4. }
  destruct (bind_socket_cases path s5) as [[E Ho]|(Hn & Hq & Hp)].
  - split; [intros q Hne; rewrite E; auto|]. split; [by rewrite Ep|done].
  - split; [intros q Hne; rewrite Hq; auto|]. split; [by rewrite Ep|done].
Qed.

Lemma syscall_outcome (w : World D) :
  (∀ n, env_io n = None) → (syscall w).1 = Ret tt ∨ (syscall w).1 = Died.
Proof.
  intros Hio. unfold syscall, tick, mbind, M_bind. destruct (env_crash _); [by right|]. simpl. rewrite Hio. by left.
Qed.

(** On a machine where no call fails the socket of a running agent is not
    taken from it. *)
Lemma ListenUnix_live path mode s :
  (∀ n, env_io n = None) → dm_sock s !! path = Some (Sock true mode) →
  dm_sock (ListenUnix path s).2 = dm_sock s ∧ (ListenUnix path s).1 ≠ Ret tt.
Proof.
  intros Hio Hp. set (P := fun (r : outcome unit * Daemon D) => dm_sock r.2 = dm_sock s ∧ r.1 ≠ Ret tt).
  assert (Hsys : ∀ A (m : M A) (k : A → M unit) s1, same_sock m → dm_sock s1 = dm_sock s →
    (∀ a s2, m s1 = (Ret a, s2) → dm_sock s2 = dm_sock s → P (k a s2)) → P ((m ≫= k) s1)).
  { intros A m k s1 Hm E Hk. unfold mbind, M_bind. specialize (Hm s1). rewrite E in Hm.
    destruct (m s1) as [[a|e|] s2]; simpl in *; [by apply Hk|done..]. }
  change (P (ListenUnix path s)). unfold ListenUnix.
  apply Hsys; [apply inner_sock|done|]. intros u s1 _ E1.
  apply Hsys; [apply try_inner_sock|done|]. intros st s2 Hst E2. rewrite get_run, E2, Hp.
  assert (Htry : ∀ s1 s2 r, try (inner syscall) s1 = (Ret r, s2) → is_ok r = true).
  { clear -Hio. intros s1 s2 r. unfold try, inner. destruct (syscall_outcome (dm_world s1) Hio) as [Eo|Eo];
      destruct (syscall (dm_world s1)) as [o w1]; simpl in Eo; subst o; [|done]. by intros [= <- _]. }
  pose proof (Htry _ _ _ Hst) as Hok. destruct st as [v|e]; [|done].
  apply Hsys; [apply try_inner_sock|done|]. intros dialed s3 Hd E3. rewrite (Htry _ _ _ Hd). simpl. done.
Qed.

(** ** Start-up and the system *)

(** Only the device, the files and the clock have moved. *)
Definition outside (w w' : World D) : Prop := ∃ dev fs n, w' = set_w_dev dev (set_w_fs fs (set_w_tick n w)).

Global Instance outside_preorder : PreOrder outside.
Proof.
  split.
  - intros w. exists (w_dev w), (w_fs w), (w_tick w). by destruct w.
  - intros w1 w2 w3 (d1 & f1 & n1 & ->) (d2 & f2 & n2 & ->). by exists d2, f2, n2.
Qed.

Lemma tick_outside : keeps outside (tick (D := D)).
Proof.
  intros w. unfold tick. exists (w_dev w), (w_fs w), (S (w_tick w)). by destruct (env_crash _), w.
Qed.
Local Hint Resolve tick_outside : keeps.
Lemma syscall_outside : keeps outside (syscall (D := D)).
Proof. unfold syscall. keeps_auto. Qed.
Local Hint Resolve syscall_outside : keeps.
Lemma ReadFile_outside p : keeps outside (ReadFile (D := D) p).
Proof. unfold ReadFile, view_fs. keeps_auto. Qed.
Local Hint Resolve ReadFile_outside : keeps.
Lemma openDevice_outside c : keeps outside (openDevice c).
Proof.
  unfold openDevice. apply keeps_bind; [apply _|keeps_auto|]. intros n w. unfold device.
  destruct (open_device c (w_dev w)) as [r d]. exists d, (w_fs w), (w_tick w). by destruct w.
Qed.
Lemma NewOTLPExporter_outside c : keeps outside (NewOTLPExporter c).
Proof. unfold NewOTLPExporter. keeps_auto. Qed.
Lemma NewFleet_outside c : keeps outside (NewFleet (D := D) c).
Proof. unfold NewFleet. keeps_auto. Qed.

Lemma outside_reachable c w w' : reachable c w → outside w w' → reachable c w'.
Proof. intros Hr (dev & fs & n & ->). eapply reach_step; [exact Hr|]. constructor. Qed.

(** What start-up keeps, however it ends: an execution stays one, and neither
    the journal nor the device has been acted upon. *)
Definition booted c s s' : Prop :=
  reachable c (dm_world s) →
  reachable c (dm_world s') ∧ w_disk (dm_world s') = w_disk (dm_world s) ∧
  w_trace (dm_world s') = w_trace (dm_world s).

Global Instance booted_preorder c : PreOrder (booted c).
Proof.
  split; [by intros s|]. intros s1 s2 s3 Hb1 Hb2 Hr. destruct (Hb1 Hr) as (Hr2 & E1 & E2).
  destruct (Hb2 Hr2) as (Hr3 & E3 & E4). split; [done|]. by rewrite E3, E4.
Qed.

Lemma inner_booted {A} c (m : Prelude.M (World D) A) : keeps outside m → keeps (booted c) (inner m).
Proof.
  intros Hm s Hr. specialize (Hm (dm_world s)). unfold inner. destruct (m (dm_world s)) as [o w].
  simpl in *. split; [by eapply outside_reachable|]. by destruct Hm as (? & ? & ? & ->).
Qed.

Lemma restart_booted c dirSafe lockFree : keeps (booted c) (inner (Restart dirSafe lockFree)).
Proof.
  intros s Hr. unfold inner. destruct (reachable_consistent c _ Hr) as (sp & Hrun & Hd & _).
  destruct (Restart_consistent c dirSafe lockFree _ sp Hrun Hd) as (E1 & E2 & _).
  assert (Hs : reachable c (Restart dirSafe lockFree (dm_world s)).2)
    by (eapply reach_step; [exact Hr|constructor]).
  destruct (Restart dirSafe lockFree (dm_world s)) as [o w]. simpl in *. done.
Qed.

Lemma put_sock_booted c path n : keeps (booted c) (put_sock path n).
Proof. intros s Hr. done. Qed.

Local Hint Resolve syscall_outside openDevice_outside NewOTLPExporter_outside NewFleet_outside : keeps.
Local Hint Resolve inner_booted restart_booted put_sock_booted : keeps.

Lemma bind_socket_booted c path : keeps (booted c) (bind_socket path).
Proof. unfold bind_socket. keeps_auto. Qed.
Local Hint Resolve bind_socket_booted : keeps.
Lemma ListenUnix_booted c path : keeps (booted c) (ListenUnix path).
Proof. unfold ListenUnix. keeps_auto. Qed.
Local Hint Resolve ListenUnix_booted : keeps.
Lemma start_booted c dirSafe lockFree config simListen : keeps (booted c) (start dirSafe lockFree config simListen).
Proof. unfold start, listen. keeps_auto. Qed.

Lemma serve_reachable r l w : reachable (rn_config r) w → reachable (rn_config r) (serve_moments r l w).
Proof.
  revert w. induction l as [|m l IH]; intros w Hr; simpl; [done|]. destruct (w_mu w) eqn:E; [done|].
  apply IH. destruct (command_of r m) as [cmd|]; [|done]. eapply reach_step; [exact Hr|]. by apply sys_command.
Qed.

(** What holds when [run] is ready to serve. *)
Definition listening (c : Config) (simListen : string) s : Prop :=
  if eqs simListen "" then dm_sock s !! c_Socket c = Some (Sock true 384)
  else c_Backend c = "simulator" ∧ ∃ port, SplitHostPort simListen = Some ("127.0.0.1", port).

Lemma listen_listening c simListen s u s' : listen c simListen s = (Ret u, s') → listening c simListen s'.
Proof.
  unfold listen, listening. destruct u, (eqs simListen "") eqn:E; cbn [negb].
  - intros Hl. pose proof (ListenUnix_step (c_Socket c) s) as (_ & _ & Hp). rewrite Hl in Hp. by apply Hp.
  - destruct (eqs (c_Backend c) "simulator") eqn:Eb; [|done]. simpl.
    destruct (SplitHostPort simListen) as [[host port]|]; [|done]. destruct (eqs host "127.0.0.1") eqn:Eh; [|done].
    intros _. apply eqs_true in Eb, Eh. subst host. split; [done|]. by exists port.
Qed.

Lemma start_returns dirSafe lockFree config simListen s r s' :
  start dirSafe lockFree config simListen s = (Ret r, s') →
  Validate (rn_config r) = Ok tt ∧ listening (rn_config r) simListen s'.
Proof.
  unfold start. intros Hs. apply bind_returns in Hs as (b & s1 & _ & Hs).
  apply bind_returns in Hs as (c & s2 & _ & Hs). apply bind_returns in Hs as (v & s3 & Hv & Hs).
  do 4 apply bind_returns in Hs as (? & ? & _ & Hs). apply bind_returns in Hs as (u & s4 & Hl & Hs).
  injection Hs as <- <-. simpl. split; [|by eapply listen_listening].
  unfold lift in Hv. destruct (Validate c) as [[]|]; [done|done].
Qed.
End daemon.
