(* ===== verification/Host.v ===== *)
(** * The agent's processes on one machine (cmd/zyvor-otad/main.go)

    Processes of the agent are launched on one state directory, serve, are
    killed or shut down, and are launched again, in any order.  The lock of
    [OpenStore] is held from start-up until [store.Close], the first deferred
    call of [run] and so its last: between the end of serving and the release
    of the lock the socket is removed, and no other process can have bound it. *)
From stdpp Require Import base tactics gmap strings list.
From Stdlib Require Import ZArith Lia.
From S2P Require Import Prelude Model Config Crypto Fmt Files Backend Metrics Trace Topo Verify World Store TrustMeta MetricsText Payload Download SiteLink Engine EngineFrame EngineSpec Refine RefineEngine Fleet API System Daemon.
Local Open Scope Z_scope.

Global Instance sockNode_eq_dec : EqDecision sockNode.
Proof. solve_decision. Defined.

(** ** A process *)

(** How far [run] has come once it is ready. *)
Inductive stage :=
  | Ready       (* the server accepts connections, the tickers run *)
  | Draining    (* the listener is closed; requests and workers finish *)
  | Joined      (* [workers.Wait] has returned, the spans are flushed *)
  | Unlinked.   (* the deferred [os.Remove(c.Socket)] has run *)

Global Instance stage_eq_dec : EqDecision stage.
Proof. solve_decision. Defined.

Record Process := mkProcess {
  pr_running : Running;
  pr_listen : string;       (* -simulation-listen *)
  pr_unlinked : bool;       (* the listener's [unlinkOnce] has been used *)
  pr_stage : stage;
}.

(** The machine; the lock of the state directory is held by the owner. *)
Record Host `{Codec} (D : Type) := mkHost {
  ho_daemon : Daemon D;
  ho_owner : option Process;
}.
Arguments mkHost {_ _}.
Arguments ho_daemon {_ _}.
Arguments ho_owner {_ _}.

(** The sockets after a process has died: those it bound have no one who
    accepts connections. *)
Definition hang_up (before after : gmap string sockNode) : gmap string sockNode :=
  map_imap (fun path n => Some (match n with
                                | Sock true mode => if decide (before !! path = Some n) then n else Sock false mode
                                | _ => n
                                end)) after.

Definition dead_socket (path : string) (socks : gmap string sockNode) : Prop :=
  ∀ mode, socks !! path ≠ Some (Sock true mode).

(** [UnixClient] and [otaclient.Unix]: a connection is made to the process
    that accepts on the socket at [path]. *)
Definition dialUnix (path : string) (socks : gmap string sockNode) : bool :=
  match socks !! path with Some (Sock live _) => live | _ => false end.

Lemma dialUnix_dead path socks : dead_socket path socks ↔ dialUnix path socks = false.
Proof.
  unfold dead_socket, dialUnix. destruct (socks !! path) as [[[] m|]|]; try by split.
  split; [intros Hd; by destruct (Hd m)|done].
Qed.

Section host.
Context `{MapRange, Limits, LocalZone, NetURL, Net, Ed25519, LineJSON, Unicode}.
Context `{JSONDecode Release, JSONEncode Assignment, JSONDecode multiSigned, JSONDecode rootMeta,
          JSONDecode snapshotMeta, JSONDecode timestampMeta, JSONDecode targetsMeta}.
Context `{JSONDecode Assignment, JSONEncode (list Event), JSONDecode ackBody, JSONDecode backupBody, FleetNet}.
Context `{JSONDecode Config, PEM}.
Context `{Codec, Env} {D : Type} `{Backend D, OpenDevice D}.
Abbreviation DM := (Prelude.M (Daemon D)).
Implicit Types (h : Host D) (p : Process) (s : Daemon D) (w : World D).

(** The owner's memory on what the machine has become. *)
Definition resume w w' : World D :=
  mkWorld (w_tick w') (w_mu w) (w_data w) (w_poisoned w) (w_disk w') (w_dev w') (w_fs w')
    (w_healthySince w) (w_stats w) (w_spans w) (w_trace w').

(** A process is launched: [run] up to "Zyvor OTA ready". *)
Definition launch (dirSafe : bool) (config simListen : string) h : outcome Running * Host D :=
  let s := ho_daemon h in
  match ho_owner h with
  | Some p =>
      let '(o, s') := start dirSafe false config simListen s in
      (o, mkHost (mkDaemon (resume (dm_world s) (dm_world s')) (dm_sock s')) (Some p))
  | None =>
      let '(o, s') := start dirSafe true config simListen s in
      match o with
      | Ret r => (o, mkHost s' (Some (mkProcess r simListen false Ready)))
      | _ => (o, mkHost (mkDaemon (dm_world s') (hang_up (dm_sock s) (dm_sock s'))) None)
      end
  end.

(** ** The end of [run] *)

Definition end_stage (st : stage) (unlinked : bool) p : Process := mkProcess (pr_running p) (pr_listen p) unlinked st.

(** Closing the listener: a Unix listener removes its socket once, and
    accepts no connection afterwards even where that fails. *)
Definition closeListener p : DM Process :=
  if negb (eqs (pr_listen p) "") || pr_unlinked p then mret p
  else
    r ← try (inner syscall);
    s ← get;
    let path := c_Socket (rn_config (pr_running p)) in
    _ ← put_sock path (match r, dm_sock s !! path with
                       | Ok _, _ => None
                       | Err _, Some (Sock _ mode) => Some (Sock false mode)
                       | Err _, n => n
                       end);
    mret (end_stage (pr_stage p) true p).

(** [server.Shutdown], or [Serve] returning: the listener is closed. *)
Definition endServing p : DM Process := p ← closeListener p; mret (end_stage Draining (pr_unlinked p) p).

(** [cancel], [workers.Wait] and [traces.Shutdown]. *)
Definition joinWorkers p : DM Process :=
  _ ← inner tick; mret (end_stage Joined (pr_unlinked p) p).

(** [defer os.Remove(c.Socket)], of a socket only; its error is dropped. *)
Definition removeSocket p : DM Process :=
  if negb (eqs (pr_listen p) "") then mret (end_stage Unlinked (pr_unlinked p) p)
  else
    r ← try (inner syscall);
    _ ← (if is_ok r then put_sock (c_Socket (rn_config (pr_running p))) None else mret tt);
    mret (end_stage Unlinked (pr_unlinked p) p).

(** [Store.Close]: the database, then the lock, whatever the first says; the
    first error is returned. *)
Definition storeClose : DM unit :=
  err ← try (inner syscall);   (* db.Close *)
  e ← try (inner syscall);     (* lock.Close *)
  lift (match err with Err e => Err e | Ok _ => e end).

(** The deferred call of each stage, from "Zyvor OTA ready" on: [Some p'] is
    the process after it, [None] that [store.Close] has released the lock. *)
Definition unwind p : DM (option Process) :=
  match pr_stage p with
  | Ready => p ← endServing p; mret (Some p)
  | Draining => p ← joinWorkers p; mret (Some p)
  | Joined => p ← removeSocket p; mret (Some p)
  | Unlinked => _ ← closeListener p; _ ← ignore storeClose; mret None   (* l.Close, store.Close *)
  end.

(** The process is gone, wherever it was. *)
Definition kill h : Host D :=
  match ho_owner h with
  | None => h
  | Some p =>
      let s := ho_daemon h in
      if eqs (pr_listen p) ""
      then mkHost (mkDaemon (dm_world s) (partial_alter (fun n =>
                    match n with Some (Sock _ mode) => Some (Sock false mode) | _ => n end)
                    (c_Socket (rn_config (pr_running p))) (dm_sock s))) None
      else mkHost s None
  end.

(** One stage further on the way out. *)
Definition shut h : Host D :=
  match ho_owner h with
  | None => h
  | Some p =>
      let '(o, s') := unwind p (ho_daemon h) in
      match o with
      | Ret next => mkHost s' next
      | _ => kill (mkHost s' (Some p))
      end
  end.

(** The process serves one moment. *)
Definition serveOne (m : moment) h : Host D :=
  match ho_owner h with
  | None => h
  | Some p =>
      let s := ho_daemon h in
      mkHost (mkDaemon (serve_moments (pr_running p) [m] (dm_world s)) (dm_sock s)) (Some p)
  end.

(** Requests already accepted may outlast [Shutdown]'s five seconds; the
    tickers may fire until the workers have been waited for. *)
Definition may_serve (st : stage) (m : moment) : bool :=
  match st, m with
  | (Ready | Draining), _ => true
  | _, Requested _ => true
  | _, _ => false
  end.

(** ** Executions *)

Inductive host_step (c : Config) h : Host D → Prop :=
  (** someone launches the agent; its configuration has not been edited *)
  | hs_launch dirSafe config simListen :
      (∀ r, (launch dirSafe config simListen h).1 = Ret r → rn_config r = c) →
      host_step c h (launch dirSafe config simListen h).2
  | hs_serve m p : ho_owner h = Some p → may_serve (pr_stage p) m = true → host_step c h (serveOne m h)
  | hs_shut : w_mu (dm_world (ho_daemon h)) = false → host_step c h (shut h)
  | hs_kill : host_step c h (kill h)
  (** the device, the files, the clock and other sockets; what a reboot
      clears of the agent's own *)
  | hs_outside w socks :
      outside (dm_world (ho_daemon h)) w →
      socks !! c_Socket c = dm_sock (ho_daemon h) !! c_Socket c ∨
        ho_owner h = None ∧ dead_socket (c_Socket c) socks →
      host_step c h (mkHost (mkDaemon w socks) (ho_owner h)).

Inductive host_reachable (c : Config) : Host D → Prop :=
  | host_fresh h : fresh (dm_world (ho_daemon h)) → ho_owner h = None →
      dead_socket (c_Socket c) (dm_sock (ho_daemon h)) → host_reachable c h
  | host_next h h' : host_reachable c h → host_step c h h' → host_reachable c h'.

(** ** A launch beside the owner *)

(** Only the memory of the process that runs this, and the clock. *)
Definition aside w w' : Prop :=
  w_disk w' = w_disk w ∧ w_dev w' = w_dev w ∧ w_fs w' = w_fs w ∧ w_trace w' = w_trace w.
Global Instance aside_preorder : PreOrder aside.
Proof. split; [by intros w|]. intros w1 w2 w3 (E1&E2&E3&E4) (F1&F2&F3&F4). repeat split; congruence. Qed.

Lemma resume_aside w w' : aside w w' → resume w w' = set_w_tick (w_tick w') w.
Proof. intros (E1&E2&E3&E4). unfold resume. rewrite E1, E2, E3, E4. by destruct w. Qed.

Lemma tick_aside : keeps aside (tick (D := D)).
Proof. intros w. unfold tick. by destruct (env_crash _). Qed.
Lemma modify_aside f : (∀ w, aside w (f w)) → keeps aside (modify f).
Proof. intros Hf w. apply Hf. Qed.
Local Hint Resolve tick_aside : keeps.
Local Hint Extern 1 (keeps aside (modify _)) => (by apply modify_aside) : keeps.
Lemma syscall_aside : keeps aside (syscall (D := D)).
Proof. unfold syscall. keeps_auto. Qed.
Local Hint Resolve syscall_aside : keeps.
Lemma ReadFile_aside path : keeps aside (ReadFile (D := D) path).
Proof. unfold ReadFile, view_fs. keeps_auto. Qed.

(** [m] does not return. *)
Definition never {W A} (m : Prelude.M W A) : Prop := ∀ (x : W) a x', m x ≠ (Ret a, x').

Lemma never_here {W A B} (m : Prelude.M W A) (k : A → Prelude.M W B) : never m → never (m ≫= k).
Proof. intros Hm w b w' (a & w1 & E & _)%bind_returns. by eapply Hm. Qed.
Lemma never_later {W A B} (m : Prelude.M W A) (k : A → Prelude.M W B) : (∀ a, never (k a)) → never (m ≫= k).
Proof. intros Hk w b w' (a & w1 & _ & E)%bind_returns. by eapply Hk. Qed.
Lemma never_inner {A} (m : Prelude.M (World D) A) : never m → never (inner m).
Proof.
  intros Hm s a s'. unfold inner. destruct (m (dm_world s)) as [o w'] eqn:E. intros [= -> <-]. by eapply Hm.
Qed.
Lemma keeps_stop {W A B} (R : W → W → Prop) (m : Prelude.M W A) (k : A → Prelude.M W B) :
  keeps R m → never m → keeps R (m ≫= k).
Proof.
  intros Hm Hn w. specialize (Hm w). specialize (Hn w). unfold mbind, M_bind.
  destruct (m w) as [[a|e|] w']; [by destruct (Hn a w')|done..].
Qed.

(** [OpenStore] stops at the lock. *)
Lemma Restart_never dirSafe : never (Restart (D := D) dirSafe false).
Proof.
  apply never_later. intros _. apply never_here. unfold OpenStore. cbn [negb].
  do 2 (apply never_later; intros _). destruct (negb dirSafe); [done|]. by apply never_later.
Qed.

Lemma Restart_aside dirSafe lockFree : keeps aside (Restart (D := D) dirSafe lockFree).
Proof.
  assert (Hl : keeps aside (load (D := D) None)).
  { intros w. rewrite load_none. revert w. change (keeps aside load_snapshot). unfold load_snapshot. keeps_auto. }
  unfold Restart, OpenStore. keeps_auto.
Qed.

(** The sockets stay, and the machine of [aside]. *)
Definition unnoticed s s' : Prop := dm_sock s' = dm_sock s ∧ aside (dm_world s) (dm_world s').
Global Instance unnoticed_preorder : PreOrder unnoticed.
Proof.
  split; [by intros s|]. intros s1 s2 s3 [E Ha] [F Hb]. split; [congruence|]. by etrans.
Qed.

Lemma inner_unnoticed {A} (m : Prelude.M (World D) A) : keeps aside m → keeps unnoticed (inner m).
Proof.
  intros Hm s. split; [apply inner_sock|]. specialize (Hm (dm_world s)). unfold inner.
  by destruct (m (dm_world s)).
Qed.

Local Hint Resolve inner_unnoticed ReadFile_aside Restart_aside : keeps.

Lemma start_locked dirSafe config simListen :
  keeps unnoticed (start dirSafe false config simListen) ∧ never (start dirSafe false config simListen).
Proof.
  assert (Hn : never (inner (Restart (D := D) dirSafe false))) by apply never_inner, Restart_never.
  unfold start. split.
  - do 3 (apply keeps_bind; [apply _|keeps_auto|intros ?]). apply keeps_stop; [keeps_auto|done].
  - do 3 (apply never_later; intros ?). by apply never_here.
Qed.

(** A second agent on a directory that has an owner fails, and the owner does
    not notice. *)
Lemma launch_locked dirSafe config simListen h p :
  ho_owner h = Some p →
  let '(o, h') := launch dirSafe config simListen h in
  (∀ r, o ≠ Ret r) ∧
  ∃ n, h' = mkHost (mkDaemon (set_w_tick n (dm_world (ho_daemon h))) (dm_sock (ho_daemon h))) (Some p).
Proof.
  intros Hp. destruct (start_locked dirSafe config simListen) as [Hk Hn]. unfold launch. rewrite Hp.
  specialize (Hk (ho_daemon h)). specialize (Hn (ho_daemon h)).
  destruct (start dirSafe false config simListen (ho_daemon h)) as [o s']. destruct Hk as [Es Ha]. simpl in *.
  split; [intros r ->; by eapply Hn|]. exists (w_tick (dm_world s')). by rewrite Es, resume_aside.
Qed.

(** ** The socket *)

(** The sockets are left alone. *)
Definition sock_kept s s' : Prop := dm_sock s' = dm_sock s.
Global Instance sock_kept_preorder : PreOrder sock_kept.
Proof. split; unfold sock_kept; [done|]. intros s1 s2 s3. congruence. Qed.
Lemma inner_kept {A} (m : Prelude.M (World D) A) : keeps sock_kept (inner m).
Proof. intros s. apply inner_sock. Qed.
Local Hint Resolve inner_kept : keeps.
Lemma storeClose_kept : keeps sock_kept storeClose.
Proof. unfold storeClose. keeps_auto. Qed.

Lemma hang_up_dead path before after : dead_socket path before → dead_socket path (hang_up before after).
Proof.
  intros Hd mode. unfold hang_up. rewrite map_lookup_imap. destruct (after !! path) as [n|]; [|done]. simpl.
  destruct n as [[] m|]; [destruct (decide _) as [E|_]; [by destruct (Hd m)|done]|done..].
Qed.

Lemma put_dead path n s :
  (∀ mode, n ≠ Some (Sock true mode)) → dead_socket path (dm_sock (put_sock path n s).2).
Proof. intros Hn mode. simpl. by rewrite lookup_partial_alter_eq. Qed.

(** What the owner keeps: its configuration, a socket only it answers on
    while it serves, and none afterwards. *)
Record owner_ok (c : Config) s p : Prop := {
  ow_config : rn_config (pr_running p) = c;
  ow_valid : Validate c = Ok tt;
  ow_serving : pr_stage p = Ready → pr_unlinked p = false ∧ listening c (pr_listen p) s;
  ow_dead : pr_stage p ≠ Ready ∨ pr_listen p ≠ "" → dead_socket (c_Socket c) (dm_sock s);
}.

Definition host_ok (c : Config) h : Prop :=
  reachable c (dm_world (ho_daemon h)) ∧
  match ho_owner h with
  | Some p => owner_ok c (ho_daemon h) p
  | None => dead_socket (c_Socket c) (dm_sock (ho_daemon h))
  end.

Lemma try_inner_run {A} (m : Prelude.M (World D) A) s :
  ∃ o w, try (inner m) s = (o, mkDaemon w (dm_sock s)).
Proof. unfold try, inner. destruct (m (dm_world s)) as [[a|e|] w]; eauto. Qed.

(** Closing the listener: afterwards no one answers. *)
Lemma closeListener_spec c p s :
  rn_config (pr_running p) = c →
  (pr_listen p ≠ "" ∨ pr_unlinked p = true → dead_socket (c_Socket c) (dm_sock s)) →
  match closeListener p s with
  | (Ret p', s') => (∃ u, p' = end_stage (pr_stage p) u p) ∧ dead_socket (c_Socket c) (dm_sock s')
  | (_, s') => dm_sock s' = dm_sock s
  end.
Proof.
  intros <- Hd. unfold closeListener. destruct (negb _ || pr_unlinked p) eqn:E.
  - split; [exists (pr_unlinked p); by destruct p|]. apply Hd. apply orb_true_iff in E as [E|E]; [left|by right].
    apply eqs_false. by destruct (eqs _ _).
  - destruct (try_inner_run syscall s) as (o & w & Er). unfold mbind at 1, M_bind at 1. rewrite Er.
    destruct o as [r|e|]; [|done..]. rewrite get_run. split; [by eexists|]. apply put_dead. intros mode.
    destruct r; [done|]. simpl. by destruct (dm_sock s !! _) as [[]|].
Qed.

Lemma removeSocket_spec p s path :
  dead_socket path (dm_sock s) →
  match removeSocket p s with
  | (Ret p', s') => (∃ u, p' = end_stage Unlinked u p) ∧ dead_socket path (dm_sock s')
  | (_, s') => dm_sock s' = dm_sock s
  end.
Proof.
  intros Hd. unfold removeSocket. destruct (negb _); [split; [by eexists|done]|].
  destruct (try_inner_run syscall s) as (o & w & Er). unfold mbind at 1, M_bind at 1. rewrite Er.
  destruct o as [r|e|]; [|done..]. destruct (is_ok r); (split; [by eexists|]); [|done].
  intros mode. simpl. destruct (decide (path = c_Socket (rn_config (pr_running p)))) as [->|Hne].
  - by rewrite lookup_partial_alter_eq.
  - rewrite lookup_partial_alter_ne by done. apply Hd.
Qed.

Lemma owner_ended c s p st u s' :
  owner_ok c s p → st ≠ Ready → dead_socket (c_Socket c) (dm_sock s') → owner_ok c s' (end_stage st u p).
Proof. intros [Hc Hv _ _] Hst Hd. by split. Qed.

(** The way out keeps the owner's promise at each stage. *)
Lemma unwind_spec c p s :
  owner_ok c s p →
  match unwind p s with
  | (Ret (Some p'), s') => owner_ok c s' p'
  | (Ret None, s') => dead_socket (c_Socket c) (dm_sock s')
  | (_, s') => pr_listen p ≠ "" → dead_socket (c_Socket c) (dm_sock s')
  end.
Proof.
  intros Ho. pose proof Ho as [Hc Hv Hs Hd].
  assert (Hclose : pr_listen p ≠ "" ∨ pr_unlinked p = true → dead_socket (c_Socket c) (dm_sock s)).
  { intros [Hl|Hu]; [by apply Hd; right|]. apply Hd. left. intros E. destruct (Hs E). congruence. }
  pose proof (closeListener_spec c p s Hc Hclose) as Hcl. unfold unwind. destruct (pr_stage p) eqn:Est.
  - unfold endServing, mbind, M_bind. destruct (closeListener p s) as [[p'|e|] s'].
    + destruct Hcl as [[u ->] Hdead]. simpl. by apply owner_ended with (s := s) (p := p).
    + intros Hl. rewrite Hcl. apply Hd. by right.
    + intros Hl. rewrite Hcl. apply Hd. by right.
  - unfold joinWorkers, inner, mbind, M_bind.
    destruct (tick (dm_world s)) as [[n|e|] w']; [apply owner_ended with (s := s); [done..|]|intros _|intros _];
      apply Hd; by left.
  - pose proof (removeSocket_spec p s (c_Socket c)) as Hrm. unfold mbind, M_bind.
    assert (Hdead : dead_socket (c_Socket c) (dm_sock s)) by (apply Hd; by left). specialize (Hrm Hdead).
    destruct (removeSocket p s) as [[p'|e|] s']; [|intros _; by rewrite Hrm..].
    destruct Hrm as [[u ->] Hdead']. by apply owner_ended with (s := s).
  - unfold mbind, M_bind. assert (Hdead : dead_socket (c_Socket c) (dm_sock s)) by (apply Hd; by left).
    destruct (closeListener p s) as [[p'|e|] s']; [|intros _; by rewrite Hcl..].
    destruct Hcl as [_ Hdead']. pose proof (storeClose_kept s') as Ek. unfold sock_kept in Ek. unfold ignore, try, mbind, M_bind.
    destruct (storeClose s') as [[u|e|] s2]; simpl in *; intros; by rewrite Ek.
Qed.

Local Hint Resolve syscall_outside tick_outside inner_booted put_sock_booted : keeps.

Lemma closeListener_booted c p : keeps (booted c) (closeListener p).
Proof. unfold closeListener. keeps_auto. Qed.
Local Hint Resolve closeListener_booted : keeps.
Lemma unwind_booted c p : keeps (booted c) (unwind p).
Proof. unfold unwind, endServing, joinWorkers, removeSocket, storeClose, ignore. keeps_auto. Qed.

Lemma kill_ok c h p :
  ho_owner h = Some p → reachable c (dm_world (ho_daemon h)) → rn_config (pr_running p) = c →
  (pr_listen p ≠ "" → dead_socket (c_Socket c) (dm_sock (ho_daemon h))) → host_ok c (kill h).
Proof.
  intros Hp Hr Hc Hd. unfold kill, host_ok. rewrite Hp, Hc. destruct (eqs (pr_listen p) "") eqn:El; simpl.
  - split; [done|]. intros mode. rewrite lookup_partial_alter_eq. by destruct (dm_sock _ !! _) as [[]|].
  - split; [done|]. by apply Hd, eqs_false.
Qed.

Lemma host_ok_kill c h : host_ok c h → host_ok c (kill h).
Proof.
  intros [Hr Ho]. destruct (ho_owner h) as [p|] eqn:Ep; [|unfold kill, host_ok; by rewrite !Ep].
  destruct Ho as [Hc _ _ Hd]. apply kill_ok with (p := p); auto.
Qed.

Lemma host_ok_shut c h : host_ok c h → host_ok c (shut h).
Proof.
  intros [Hr Ho]. unfold shut. destruct (ho_owner h) as [p|] eqn:Ep; [|unfold host_ok; by rewrite Ep].
  pose proof (unwind_spec c p _ Ho) as Hsp. pose proof (unwind_booted c p _ Hr) as (Hr' & _ & _).
  destruct (unwind p (ho_daemon h)) as [o s']. simpl in Hr'.
  destruct o as [[p'|]|e|]; [done|done|..]; by apply kill_ok with (p := p); [..|apply (ow_config c _ p Ho)|].
Qed.

Lemma host_ok_serve c h m : host_ok c h → host_ok c (serveOne m h).
Proof.
  intros [Hr Ho]. unfold serveOne, host_ok. destruct (ho_owner h) as [p|] eqn:Ep; [|by rewrite Ep]. cbn [ho_daemon ho_owner dm_world].
  pose proof Ho as [Hc Hv Hs Hd]. split; [|by split].
  rewrite <- Hc. apply serve_reachable. by rewrite Hc.
Qed.

(** A launch on a loopback address touches no socket. *)
Lemma start_loopback dirSafe lockFree config simListen :
  simListen ≠ "" → keeps sock_kept (start dirSafe lockFree config simListen).
Proof. intros Hl%eqs_false. unfold start, listen. rewrite Hl. cbn [negb]. keeps_auto. Qed.

(** What a launch does where no one owns the directory. *)
Lemma launch_free c dirSafe config simListen h :
  ho_owner h = None → host_ok c h →
  let '(o, h') := launch dirSafe config simListen h in
  w_disk (dm_world (ho_daemon h')) = w_disk (dm_world (ho_daemon h)) ∧
  w_trace (dm_world (ho_daemon h')) = w_trace (dm_world (ho_daemon h)) ∧
  ((∀ r, o = Ret r → rn_config r = c) → host_ok c h').
Proof.
  intros Hp [Hr Hd]. unfold launch, host_ok. rewrite Hp in *.
  pose proof (start_booted c dirSafe true config simListen _ Hr) as (Hr' & E1 & E2).
  destruct (start dirSafe true config simListen (ho_daemon h)) as [o s'] eqn:Es. simpl in *.
  destruct o as [r|e|]; simpl; (split; [done|]; split; [done|]; intros Hrc; split; [done|]); [|by apply hang_up_dead..].
  specialize (Hrc r eq_refl). pose proof (start_returns _ _ _ _ _ _ _ Es) as [Hv Hl]. rewrite Hrc in Hv, Hl.
  split; [done|done|done|]. intros [Hne|Hl']; [done|]. simpl in Hl'.
  pose proof (start_loopback dirSafe true config simListen Hl' (ho_daemon h)) as Ek. rewrite Es in Ek.
  unfold sock_kept in Ek. simpl in Ek. by rewrite Ek.
Qed.

Lemma host_ok_step c h h' : host_ok c h → host_step c h h' → host_ok c h'.
Proof.
  intros Hok [dirSafe config simListen Hrc|m p _ _|_| |w socks Hw Hs].
  - destruct (ho_owner h) as [p|] eqn:Ep.
    + pose proof (launch_locked dirSafe config simListen h p Ep) as Hl.
      destruct (launch dirSafe config simListen h) as [o h2]. destruct Hl as (_ & n & ->).
      destruct Hok as [Hr Ho]. rewrite Ep in Ho. split; [|by destruct Ho; split].
      apply (outside_reachable c _ _ Hr). exists (w_dev (dm_world (ho_daemon h))), (w_fs (dm_world (ho_daemon h))), n.
      simpl. by destruct (dm_world (ho_daemon h)).
    + pose proof (launch_free c dirSafe config simListen h Ep Hok) as Hl.
      destruct (launch dirSafe config simListen h) as [o h2]. by apply Hl.
  - by apply host_ok_serve.
  - by apply host_ok_shut.
  - by apply host_ok_kill.
  - destruct Hok as [Hr Ho]. split; [by eapply outside_reachable|]. cbn [ho_owner ho_daemon dm_sock].
    destruct (ho_owner h) as [p|]; [|destruct Hs as [Hs|[_ Hs]]; [|done]; intros mode; rewrite Hs; apply Ho].
    destruct Hs as [Hs|[? _]]; [|done]. destruct Ho as [Hc Hv Hsv Hd]. split; [done|done| |].
    + intros Est. destruct (Hsv Est) as [Hu Hl]. split; [done|]. unfold listening in *. simpl in *. by rewrite Hs.
    + intros Hx mode. simpl. rewrite Hs. by apply Hd.
Qed.

Lemma host_reachable_ok c h : host_reachable c h → host_ok c h.
Proof.
  induction 1 as [h Hf Hp Hd|h h' _ IH Hst]; [|by eapply host_ok_step].
  split; [by apply reach_fresh|]. by rewrite Hp.
Qed.

(** Who answers at the path. *)
Lemma host_dials c h :
  host_ok c h →
  dialUnix (c_Socket c) (dm_sock (ho_daemon h)) = true ↔
  ∃ p, ho_owner h = Some p ∧ pr_stage p = Ready ∧ pr_listen p = "".
Proof.
  intros [_ Ho]. destruct (ho_owner h) as [p|] eqn:Ep.
  - destruct Ho as [_ _ Hs Hd]. destruct (decide (pr_stage p = Ready ∧ pr_listen p = "")) as [[Est El]|Hno].
    + split; [by exists p|]. intros _. destruct (Hs Est) as [_ Hl]. unfold listening in Hl. rewrite El in Hl. simpl in Hl.
      unfold dialUnix. by rewrite Hl.
    + assert (Hdead : dead_socket (c_Socket c) (dm_sock (ho_daemon h))).
      { apply Hd. destruct (decide (pr_stage p = Ready)); [right|by left]. intros El. by apply Hno. }
      apply dialUnix_dead in Hdead. rewrite Hdead. split; [done|]. intros (q & [= <-] & Hq). by destruct Hno.
  - apply dialUnix_dead in Ho. rewrite Ho. split; [done|]. by intros (q & ? & _).
Qed.

(** C22: one agent serves.  In every execution of launches, ticks, requests,
    shutdowns and kills in any order, what the processes did is an execution
    of System.  A process that serves has a validated configuration and the
    only private, answering socket at its path, or a loopback address for the
    simulator, and a client that dials the path reaches it and nothing else: a
    process on its way out, or a machine without one, does not answer.  Beside an owner a launch fails and changes
    nothing but the clock: no journal, no device, no file, no socket and none
    of the owner's memory.  Without one a launch, however it ends, has not
    changed the journal or acted on the device. *)
Theorem one_agent_serves c h :
  host_reachable c h →
  reachable c (dm_world (ho_daemon h)) ∧
  (dialUnix (c_Socket c) (dm_sock (ho_daemon h)) = true ↔
   ∃ p, ho_owner h = Some p ∧ pr_stage p = Ready ∧ pr_listen p = "") ∧
  match ho_owner h with
  | Some p =>
      Validate c = Ok tt ∧ (pr_stage p = Ready → listening c (pr_listen p) (ho_daemon h)) ∧
      ∀ dirSafe config simListen, let '(o, h') := launch dirSafe config simListen h in
        (∀ r, o ≠ Ret r) ∧
        ∃ n, h' = mkHost (mkDaemon (set_w_tick n (dm_world (ho_daemon h))) (dm_sock (ho_daemon h))) (Some p)
  | None =>
      ∀ dirSafe config simListen, let '(_, h') := launch dirSafe config simListen h in
        w_disk (dm_world (ho_daemon h')) = w_disk (dm_world (ho_daemon h)) ∧
        w_trace (dm_world (ho_daemon h')) = w_trace (dm_world (ho_daemon h))
  end.
Proof.
  intros Hh%host_reachable_ok. pose proof Hh as [Hr Ho]. split; [done|]. split; [by apply host_dials|].
  destruct (ho_owner h) as [p|] eqn:Ep.
  - split; [apply Ho|]. split; [by intros Est; apply (ow_serving _ _ _ Ho)|].
    intros dirSafe config simListen. by apply launch_locked.
  - intros dirSafe config simListen. pose proof (launch_free c dirSafe config simListen h Ep Hh) as Hl.
    destruct (launch dirSafe config simListen h) as [o h']. by destruct Hl as (? & ? & _).
Qed.

(** ** The machine works *)

(** The code returns, and only time has passed. *)
Definition passes {A} (m : Prelude.M (World D) A) w : Prop := ∃ a n, m w = (Ret a, set_w_tick n w).

Lemma passes_ret {A} (a : A) w : passes (mret a) w.
Proof. exists a, (w_tick w). by destruct w. Qed.
Lemma passes_bind {A B} (m : Prelude.M (World D) A) (k : A → Prelude.M (World D) B) w :
  passes m w → (∀ a n, m w = (Ret a, set_w_tick n w) → passes (k a) (set_w_tick n w)) → passes (m ≫= k) w.
Proof.
  intros (a & n & Hm) Hk. unfold passes, mbind, M_bind. rewrite Hm. destruct (Hk a n Hm) as (b & n' & ->).
  by exists b, n'.
Qed.

(** A file that is read when it is named. *)
Definition readable (fs : FS) (name : string) (good : bytes → bool) : Prop :=
  name ≠ "" → ∃ b, fs !! components name = Some (File b) ∧ good b = true.
Definition hasToken (b : bytes) : bool := negb (eqs (TrimSpace b) "").

Lemma passes_read {B} name b (k : bytes → Prelude.M (World D) B) w :
  disk_works → w_fs w !! components name = Some (File b) →
  (∀ n, passes (k b) (set_w_tick n w)) → passes (ReadFile (components name) ≫= k) w.
Proof.
  intros Hd Hb Hk. apply passes_bind; [by exists b, (S (w_tick w)); apply ReadFile_works|].
  intros b' n. rewrite (ReadFile_works _ b) by done. by intros [= <- _].
Qed.

(** The files [run] reads for a configuration [c], and its device. *)
Record provisioned (c : Config) (config : string) w : Prop := {
  pv_valid : Validate c = Ok tt;
  pv_config : ∃ b, w_fs w !! components config = Some (File b) ∧ StrictJSON b = Ok c;
  pv_device : is_ok (open_device c (w_dev w)).1 = true;
  pv_otlp : readable (w_fs w) (c_OTLPTokenFile c) hasToken;
  pv_ca : readable (w_fs w) (c_FleetCA c) pem_AppendCerts;
  pv_pair : c_FleetCert c ≠ "" ∨ c_FleetKey c ≠ "" →
    ∃ cert key, w_fs w !! components (c_FleetCert c) = Some (File cert) ∧
      w_fs w !! components (c_FleetKey c) = Some (File key) ∧ pem_X509KeyPair cert key = None;
  pv_token : readable (w_fs w) (c_FleetTokenFile c) hasToken;
}.

Lemma Validate_otlp c : Validate c = Ok tt → validateOTLP c = Ok tt.
Proof. unfold Validate. intros Hv. destruct_result Hv. by destruct (validateOTLP c) as [[]|]. Qed.

Lemma NewOTLPExporter_passes c config w0 w :
  disk_works → provisioned c config w0 → w_fs w = w_fs w0 → c_OTLPEndpoint c ≠ "" → passes (NewOTLPExporter c) w.
Proof.
  intros Hd Hp Ef He. unfold NewOTLPExporter, lift. rewrite (Validate_otlp c (pv_valid _ _ _ Hp)).
  apply passes_bind; [apply passes_ret|]. intros [] m _. rewrite (proj2 (eqs_false _ _) He).
  destruct (eqs (c_OTLPTokenFile c) "") eqn:Et; cbn [negb]; [apply passes_ret|].
  apply eqs_false in Et. destruct (pv_otlp _ _ _ Hp Et) as (b & Hb & Hg). apply passes_read with (b := b); [done|by simpl; rewrite Ef|].
  intros n'. apply negb_true_iff in Hg. rewrite Hg. apply passes_ret.
Qed.

Lemma NewFleet_passes c config w0 w :
  disk_works → provisioned c config w0 → w_fs w = w_fs w0 → passes (NewFleet c) w.
Proof.
  intros Hd Hp Ef. unfold NewFleet. apply passes_bind; [|intros ca m1 _; apply passes_bind; [|intros pair m2 _; apply passes_bind]].
  - destruct (eqs (c_FleetCA c) "") eqn:E; cbn [negb]; [apply passes_ret|]. apply eqs_false in E.
    destruct (pv_ca _ _ _ Hp E) as (b & Hb & Hg). apply passes_read with (b := b); [done|by simpl; rewrite Ef|]. intros m.
    rewrite Hg. apply passes_ret.
  - destruct (negb _ || negb _) eqn:E; [|apply passes_ret].
    destruct (pv_pair _ _ _ Hp) as (cert & key & Hc & Hk & Hx).
    { apply orb_true_iff in E as [E|E]; apply negb_true_iff, eqs_false in E; auto. }
    apply passes_read with (b := cert); [done|by simpl; rewrite Ef|]. intros m. apply passes_read with (b := key); [done|by simpl; rewrite Ef|]. intros m'.
    rewrite Hx. apply passes_ret.
  - destruct (eqs (c_FleetTokenFile c) "") eqn:E; cbn [negb]; [apply passes_ret|]. apply eqs_false in E.
    destruct (pv_token _ _ _ Hp E) as (b & Hb & Hg). apply passes_read with (b := b); [done|by simpl; rewrite Ef|]. intros m.
    apply negb_true_iff in Hg. rewrite Hg. apply passes_ret.
  - intros token m3 _. apply passes_ret.
Qed.

(** A dead socket is replaced, a free path is bound. *)
Lemma syscall_runs {B} (k : () → DM B) s :
  disk_works → (inner syscall ≫= k) s = k tt (mkDaemon (set_w_tick (S (w_tick (dm_world s))) (dm_world s)) (dm_sock s)).
Proof. intros Hd. unfold mbind, M_bind, inner. by rewrite syscall_works. Qed.
Lemma try_syscall_runs {B} (k : result () → DM B) s :
  disk_works → (try (inner syscall) ≫= k) s = k (Ok tt) (mkDaemon (set_w_tick (S (w_tick (dm_world s))) (dm_world s)) (dm_sock s)).
Proof. intros Hd. unfold mbind, M_bind, try, inner. by rewrite syscall_works. Qed.
Lemma put_sock_runs {B} path n (k : () → DM B) s :
  (put_sock path n ≫= k) s = k tt (mkDaemon (dm_world s) (partial_alter (fun _ => n) path (dm_sock s))).
Proof. done. Qed.

Lemma bind_socket_works path s :
  disk_works → dm_sock s !! path = None → ∃ n socks, bind_socket path s = (Ret tt, mkDaemon (set_w_tick n (dm_world s)) socks).
Proof.
  intros Hd Hp. unfold bind_socket. rewrite syscall_runs by done. rewrite get_run. cbn [dm_sock]. rewrite Hp.
  rewrite put_sock_runs, try_syscall_runs by done. by eexists _, _.
Qed.

Lemma ListenUnix_works path s :
  disk_works → dead_socket path (dm_sock s) → dm_sock s !! path ≠ Some NotSock →
  ∃ n socks, ListenUnix path s = (Ret tt, mkDaemon (set_w_tick n (dm_world s)) socks).
Proof.
  intros Hd Hdead Hns. unfold ListenUnix. rewrite syscall_runs, try_syscall_runs, get_run by done. cbn [dm_sock].
  destruct (dm_sock s !! path) as [[[] mode|]|] eqn:Ep; [by destruct (Hdead mode)| |done|].
  - rewrite try_syscall_runs by done. rewrite andb_false_r, syscall_runs, put_sock_runs by done.
    edestruct (bind_socket_works path) as (n & socks & ->); [done|apply lookup_partial_alter_eq|]. by eexists _, _.
  - edestruct (bind_socket_works path) as (n & socks & ->); [done..|]. by eexists _, _.
Qed.

Lemma Restart_starts c w :
  disk_works → reachable c w → ∃ w', Restart true true w = (Ret false, w') ∧ aside w w' ∧ w_mu w' = false.
Proof.
  intros Hd Hr. destruct (reachable_consistent c _ Hr) as (sp & Hrun & Hdur & _).
  pose proof (Restart_works c w sp Hd Hrun Hdur) as Ho. pose proof (Restart_aside true true w) as Ha.
  destruct (Restart_consistent c true true w sp Hrun Hdur) as (_ & _ & _ & [(_ & _ & _ & Hmu)|[Hne _]]); [|by destruct (Hne false)].
  destruct (Restart true true w) as [o w']. simpl in *. subst o. eauto.
Qed.

Lemma provisioned_aside c config w w' : aside w w' → provisioned c config w → provisioned c config w'.
Proof. intros (_ & Ed & Ef & _) []. by split; rewrite ?Ed, ?Ef. Qed.

Lemma step_run {A B} (m : DM A) (k : A → DM B) s a s' : m s = (Ret a, s') → (m ≫= k) s = k a s'.
Proof. intros Hm. unfold mbind, M_bind. by rewrite Hm. Qed.
Lemma inner_run {A} (m : Prelude.M (World D) A) s o w' :
  m (dm_world s) = (o, w') → inner m s = (o, mkDaemon w' (dm_sock s)).
Proof. intros Hm. unfold inner. by rewrite Hm. Qed.
Lemma lift_run {A B} (a : A) (k : A → DM B) s : (lift (Ok a) ≫= k) s = k a s.
Proof. done. Qed.

Lemma openDevice_works c config w :
  disk_works → provisioned c config w → ∃ d n, openDevice c w = (Ret tt, set_w_dev d (set_w_tick n w)).
Proof.
  intros Hd Hp. unfold openDevice, tick, device, mbind, M_bind. destruct (Hd (w_tick w)) as [-> _].
  pose proof (pv_device _ _ _ Hp) as Ho. simpl. destruct (open_device c (w_dev w)) as [[[]|e] d]; [|done]. by eexists _, _.
Qed.

(** The same for the process. *)
Definition stands {A} (m : DM A) s : Prop := ∃ a n, m s = (Ret a, mkDaemon (set_w_tick n (dm_world s)) (dm_sock s)).
Lemma stands_inner {A} (m : Prelude.M (World D) A) s : passes m (dm_world s) → stands (inner m) s.
Proof. intros (a & n & Hm). exists a, n. by apply inner_run. Qed.
Lemma stands_ret {A} (a : A) s : stands (mret a) s.
Proof. exists a, (w_tick (dm_world s)). by destruct s as [[] ?]. Qed.
Lemma stands_option {A} (m : DM A) s : stands m s → stands (a ← m; mret (Some a)) s.
Proof. intros (a & n & Hm). exists (Some a), n. by rewrite (step_run _ _ _ _ _ Hm). Qed.

Lemma start_works c config s :
  disk_works → reachable c (dm_world s) → provisioned c config (dm_world s) →
  dead_socket (c_Socket c) (dm_sock s) → dm_sock s !! c_Socket c ≠ Some NotSock →
  ∃ r s', start true true config "" s = (Ret r, s') ∧ rn_config r = c ∧ w_mu (dm_world s') = false.
Proof.
  intros Hd Hr Hp Hdead Hns. destruct s as [w socks]. simpl in *. destruct (pv_config _ _ _ Hp) as (b & Hb & Hj).
  unfold start. rewrite (step_run _ _ _ _ _ (inner_run _ (mkDaemon w socks) _ _ (ReadFile_works _ b w Hd Hb))).
  rewrite Hj, lift_run, (pv_valid _ _ _ Hp), lift_run. cbn [dm_sock].
  set (w1 := set_w_tick _ w). assert (Hp1 : provisioned c config w1) by (by apply (provisioned_aside _ _ w)).
  assert (Hr1 : reachable c w1).
  { apply (outside_reachable c _ _ Hr). exists (w_dev w), (w_fs w), (S (w_tick w)). by destruct w. }
  destruct (Restart_starts c w1 Hd Hr1) as (w2 & E2 & Ha & Hmu). apply (provisioned_aside _ _ _ _ Ha) in Hp1.
  rewrite (step_run _ _ _ _ _ (inner_run _ (mkDaemon w1 socks) _ _ E2)). cbn [dm_sock].
  destruct (openDevice_works c config w2 Hd Hp1) as (d & n3 & E3).
  rewrite (step_run _ _ _ _ _ (inner_run _ (mkDaemon w2 socks) _ _ E3)). cbn [dm_sock].
  set (s3 := mkDaemon (set_w_dev d _) socks).
  assert (Hotlp : stands (if negb (eqs (c_OTLPEndpoint c) "") then inner (NewOTLPExporter c) else mret "") s3).
  { destruct (eqs (c_OTLPEndpoint c) "") eqn:E; [apply stands_ret|]. apply eqs_false in E.
    by apply stands_inner, (NewOTLPExporter_passes c config w2). }
  destruct Hotlp as (token & n4 & E4). rewrite (step_run _ _ _ _ _ E4). set (s4 := mkDaemon (set_w_tick n4 _) _).
  assert (Hfleet : stands (if negb (eqs (c_FleetURL c) "") then f ← inner (NewFleet c); mret (Some f) else mret None) s4).
  { destruct (eqs (c_FleetURL c) ""); [apply stands_ret|].
    by apply stands_option, stands_inner, (NewFleet_passes c config w2). }
  destruct Hfleet as (fleet & n5 & E5). rewrite (step_run _ _ _ _ _ E5). set (s5 := mkDaemon (set_w_tick n5 _) _).
  destruct (ListenUnix_works (c_Socket c) s5 Hd Hdead Hns) as (n6 & socks' & E6).
  rewrite (step_run _ _ _ _ _ E6). by eexists _, _.
Qed.

(** ** An orderly shutdown *)

(** How many calls of [run] a process still has to make. *)
Definition remaining (st : stage) : nat :=
  match st with Ready => 4 | Draining => 3 | Joined => 2 | Unlinked => 1 end.

Lemma closeListener_works p s :
  disk_works → ∃ p' s', closeListener p s = (Ret p', s') ∧ pr_running p' = pr_running p ∧ pr_listen p' = pr_listen p ∧
    ∀ path, dm_sock s !! path = None → dm_sock s' !! path = None.
Proof.
  intros Hd. unfold closeListener. destruct (negb _ || _); [by eexists _, _|].
  rewrite try_syscall_runs, get_run, put_sock_runs by done. eexists _, _. split; [done|]. split; [done|]. split; [done|].
  intros path Hn. simpl. destruct (decide (path = c_Socket (rn_config (pr_running p)))) as [->|Hne].
  - by rewrite lookup_partial_alter_eq.
  - by rewrite lookup_partial_alter_ne.
Qed.

Definition unlinked_socket p s : Prop := pr_listen p = "" → dm_sock s !! c_Socket (rn_config (pr_running p)) = None.

Lemma unwind_works p s :
  disk_works → (pr_stage p = Unlinked → unlinked_socket p s) →
  match unwind p s with
  | (Ret (Some p'), s') => S (remaining (pr_stage p')) = remaining (pr_stage p) ∧
      pr_running p' = pr_running p ∧ pr_listen p' = pr_listen p ∧ (pr_stage p' = Unlinked → unlinked_socket p' s')
  | (Ret None, s') => remaining (pr_stage p) = 1%nat ∧ unlinked_socket p s'
  | _ => False
  end.
Proof.
  intros Hd Hu. unfold unwind. destruct (closeListener_works p s Hd) as (p' & s' & E & Er & El & Hn).
  destruct (pr_stage p) eqn:Est.
  - unfold endServing, mbind, M_bind. rewrite E. by simpl.
  - unfold joinWorkers, inner, tick, mbind, M_bind. by destruct (Hd (w_tick (dm_world s))) as [-> _].
  - unfold removeSocket, unlinked_socket. destruct (eqs (pr_listen p) "") eqn:Eq; cbn [negb].
    + unfold mbind at 1, M_bind at 1. rewrite try_syscall_runs by done. unfold mbind, M_bind. simpl.
      repeat (split; [done|]). intros _ _. by rewrite lookup_partial_alter_eq.
    + apply eqs_false in Eq. repeat (split; [done|]). intros _ ?. done.
  - rewrite (step_run _ _ _ _ _ E). unfold ignore, storeClose, mbind, M_bind, try, inner. rewrite !syscall_works by done. simpl.
    split; [done|]. intros Hl. apply Hn. by apply Hu.
Qed.

Lemma shut_down n h p :
  disk_works → ho_owner h = Some p → remaining (pr_stage p) = n →
  (pr_stage p = Unlinked → unlinked_socket p (ho_daemon h)) →
  ho_owner (Nat.iter n shut h) = None ∧ unlinked_socket p (ho_daemon (Nat.iter n shut h)).
Proof.
  intros Hd. revert h p. induction n as [|n IH]; intros h p Hp Hn Hu; [by destruct (pr_stage p)|].
  rewrite Nat.iter_succ_r. pose proof (unwind_works p (ho_daemon h) Hd Hu) as Ha. unfold shut at 2 4. rewrite Hp.
  destruct (unwind p (ho_daemon h)) as [[[p'|]|e|] s']; [|..|done|done].
  - destruct Ha as (Hrem & Er & El & Hu'). rewrite Hn in Hrem. injection Hrem as Hrem.
    destruct (IH (mkHost s' (Some p')) p' eq_refl Hrem Hu') as [Ho Hs]. split; [done|].
    unfold unlinked_socket in *. by rewrite <- Er, <- El.
  - destruct Ha as [Hrem Hs]. rewrite Hn in Hrem. by injection Hrem as ->.
Qed.

(** C40: the agent can always be started again.  On a machine where no call
    fails, the way out of a process that serves ends within its four calls
    with the lock released and its socket removed; and a machine without an
    agent, however its last process ended (shut down, or killed or crashed
    anywhere, its socket left behind), can be given one: with the files its
    configuration names in place, [run] reaches "ready" and serves on its
    private socket. *)
Theorem agent_restarts c config h :
  disk_works → host_reachable c h →
  match ho_owner h with
  | Some p => pr_stage p = Ready → w_mu (dm_world (ho_daemon h)) = false →
      let h' := Nat.iter 4 shut h in
      ho_owner h' = None ∧ (pr_listen p = "" → dm_sock (ho_daemon h') !! c_Socket c = None)
  | None =>
      provisioned c config (dm_world (ho_daemon h)) → dm_sock (ho_daemon h) !! c_Socket c ≠ Some NotSock →
      ∃ r h', launch true config "" h = (Ret r, h') ∧ rn_config r = c ∧
        ho_owner h' = Some (mkProcess r "" false Ready) ∧ listening c "" (ho_daemon h') ∧
        w_mu (dm_world (ho_daemon h')) = false
  end.
Proof.
  intros Hd [Hr Ho]%host_reachable_ok. destruct (ho_owner h) as [p|] eqn:Ep.
  - intros Est _. destruct (shut_down 4 h p Hd Ep) as [Hn Hs]; [by rewrite Est|by rewrite Est|].
    split; [done|]. intros Hl. rewrite <- (ow_config _ _ _ Ho). by apply Hs.
  - intros Hp Hns. destruct (start_works c config (ho_daemon h) Hd Hr Hp Ho Hns) as (r & s' & Es & Hc & Hmu).
    exists r, (mkHost s' (Some (mkProcess r "" false Ready))). unfold launch. rewrite Ep, Es.
    repeat (split; [done|]). split; [|done]. apply start_returns in Es as [_ Hl]. by rewrite Hc in Hl.
Qed.
End host.
