(* ===== verification/Scenario.v ===== *)
(** * A concrete device

    One instance of everything the model abstracts over: a simulator with
    two slots, an origin that serves the bundle, a clock that advances one
    second per reading, a disk that works.  A complete update is executed in
    it, and the claims of the library are applied to it. *)
From stdpp Require Import base tactics gmap strings list sorting.
From Stdlib Require Import ZArith Lia.
From S2P Require Import Prelude Model Config Crypto Fmt Files Backend Metrics Trace Topo Verify World Store TrustMeta MetricsText Payload Download Engine EngineFrame EngineSpec Refine RefineEngine FleetRef Fleet API System Commands Outcomes.
Local Open Scope Z_scope.

Definition demo_bundle : bytes := to_bytes "bundle".
Definition demo_artifact : Artifact :=
  Eval vm_compute in mkArtifact "https://updates.example/os.raucb" (digest demo_bundle) 6.
Definition demo_start : time := 946800 * Second.  (* 23:00 *)
Definition demo_release : Release :=
  mkRelease 1 "rel-7" 7 "board" "simulator" "2.0.0" (2000000 * Second) demo_artifact "" zeroArtifact
    [] false false "" [].
Definition demo_config : Config :=
  mkConfig "device-1" "board" "/var/lib/zyvor" "/run/zyvor/ota.sock" "simulator" false
    {["key-1" := "AAAAAAAAAAAAAAAAAAAAAAAAAAAAAAAAAAAAAAAAAAA="]} ["updates.example"]
    1048576 0 60 10 [mkCheck "http" "http://127.0.0.1:8080/health" "app"] [] 0 0 "22:00" "06:00" ""
    false "" "" "" "" "" "" false "" "" "" "" "".

Local Instance demo_limits : Limits := productionLimits.
Local Instance demo_range : MapRange := sorted_range.
Local Instance demo_unicode : Unicode := {| wide_print := fun _ => false |}.
Local Instance demo_zone : LocalZone := {| zone_offset := fun _ => 0 |}.
Local Instance demo_urls : NetURL := {| url_Parse := fun s =>
  if eqs s "https://updates.example/os.raucb"
  then Some (mkURL "https" "updates.example" "updates.example" false "/os.raucb" "" "")
  else if eqs s "http://127.0.0.1:8080/health"
  then Some (mkURL "http" "127.0.0.1:8080" "127.0.0.1" false "/health" "" "") else None |}.
Local Instance demo_net : Net := {| net_Do := fun _ _ =>
  Ok (mkResponse [] 200 "" "" 6 demo_bundle false) |}.
Local Instance demo_signatures : Ed25519 := {| ed25519_Verify := fun _ _ _ => true |}.
Local Instance demo_lines : LineJSON := {|
  marshal_line := fun l => to_bytes (tl_Prev l); unmarshal_line := fun b => None |}.
Local Instance demo_decode : JSONDecode Release := {| json_Decode := fun _ => Ok (demo_release, []) |}.
Local Instance demo_encode : JSONEncode Assignment := {| json_Marshal := fun a => to_bytes (asg_JobID a) |}.
Local Instance demo_none {A} : JSONDecode A | 100 := {| json_Decode := fun _ => errorf "no document" |}.
Local Instance demo_events : JSONEncode (list Event) := {| json_Marshal := fun _ => [] |}.
Local Instance demo_fleet : FleetNet := {| fleet_Do := fun _ _ => errorf "unreachable" |}.
Local Instance demo_codec : Codec := {|
  Blob := Database + Job;
  marshalDB := inl;
  strictDB := fun b => match b with inl d => Ok d | inr _ => errorf "not a database" end;
  marshalJob := inr;
  strict_marshal := fun d => eq_refl |}.

(** The oracle: one second per reading; the process dies at reading [crash];
    the health endpoint answers 200 or 500. *)
Definition demo_env (healthy : bool) (crash : Z) : Env := {|
  env_now := fun n => demo_start + Z.of_nat n * Second;
  env_elapsed := fun _ => 0;
  env_crash := fun n => Z.of_nat n =? crash;
  env_io := fun _ => None;
  env_short := fun _ => 0%nat;
  env_free := fun _ => 2 ^ 40;
  env_tx := fun _ => TxOk;
  env_ctx := fun _ => None;
  env_probe := fun _ _ => Ok (if healthy then 200 else 500);
  env_rand := fun _ => Ok "0123456789abcdef";
  env_spans := false;
  env_measured := None;
  env_health := None |}.

Definition demo_world : World Simulator :=
  mkWorld 0 false initialDatabase false (mkDisk _ None ∅)
    (mkSim (Ok (factoryStatus "board")) None false false) ∅ 0 zeroStats [] [].

Definition demo_assignment : Assignment :=
  mkAssignment "job-1" "device-1" (mkEnvelope "key-1" (to_bytes "release") []) 0
    (1900000 * Second) true "".

(** Commands, [None] being a restart of the process; a command needs an idle
    process. *)
Fixpoint run_script `{Env} (l : list (option command)) (w : World Simulator) : option (World Simulator) :=
  match l with
  | [] => Some w
  | None :: l => run_script l (Restart true true w).2
  | Some cmd :: l => if w_mu w then None else run_script l (execute demo_config cmd w)
  end.

Definition demo_after `{Env} (l : list (option command)) : World Simulator :=
  default demo_world (run_script l demo_world).

Lemma run_script_reachable `{Env} l w w' :
  reachable demo_config w → run_script l w = Some w' → reachable demo_config w'.
Proof.
  revert w. induction l as [|[cmd|] l IH]; intros w Hr; simpl; [by intros [= <-]| |].
  - destruct (w_mu w) eqn:E; [done|]. apply IH. eapply reach_step; [done|]. by apply sys_command.
  - apply IH. eapply reach_step; [done|]. apply sys_restart.
Qed.

Lemma demo_reachable `{Env} l : reachable demo_config (demo_after l).
Proof.
  unfold demo_after. assert (Hw : reachable demo_config demo_world) by (by apply reach_fresh).
  destruct (run_script l demo_world) eqn:E; [by eapply run_script_reachable|done].
Qed.

(** Accept, download, verify, install and ask for the reboot. *)
Definition demo_install : list (option command) :=
  [Some (CSubmit demo_assignment); Some CStep; Some CStep; Some CStep; Some CStep].
(** After the reboot: health checks until the job is closed. *)
Definition demo_update (steps : nat) : list (option command) :=
  demo_install ++ None :: replicate steps (Some CStep).

Definition demo_states (w : World Simulator) : list State :=
  map (fun p => j_State p.2) (map_to_list (db_Jobs (w_data w))).
