(* ===== verification/Witness.v ===== *)
(** * The claims at work

    Every claim with hypotheses, applied to the concrete device of Scenario
    or to a small concrete input. *)
From stdpp Require Import base tactics gmap strings list sorting.
From Stdlib Require Import ZArith Lia Ascii.
From S2P Require Import Prelude Model Config Crypto Fmt Files Backend Metrics Trace Topo Verify World Store TrustMeta MetricsText Payload Migration Throttle Download Engine EngineFrame EngineSpec Refine RefineEngine FleetRef Fleet API System Typed Commands Outcomes Sweep Stability Justified Scenario.
Local Open Scope Z_scope.
Local Existing Instances demo_unicode demo_limits demo_range demo_zone demo_urls demo_net demo_signatures
  demo_lines demo_decode demo_encode demo_events demo_fleet demo_codec.
Local Instance no_document {A} : JSONDecode A | 100 := demo_none.

(** Evaluate each part of a conjunction of equations. *)
Ltac vm_facts := repeat match goal with |- _ ∧ _ => split end; vm_compute; reflexivity.

(** A run is its outcome and the world it leaves. *)
Lemma run_is {A W} (p : outcome A * W) o : p.1 = o → p = (o, p.2).
Proof. destruct p. by intros <-. Qed.

Module Healthy.
Local Instance healthy_env : Env := demo_env true (-1).

(** On the simulator with a healthy application the update runs to its
    end: installed once, booted into the other slot, marked good, committed,
    with the outbox holding one event per transition. *)
Theorem demo_update_commits :
  let w := demo_after (demo_update 8) in
  demo_states w = [Committed] ∧ installs (w_trace w) = [7] ∧ db_Active (w_data w) = "" ∧
  map e_State (db_Events (w_data w)) =
    [Accepted; Downloading; Verified; Installing; AwaitingReboot; AwaitingReboot;
     CheckingHealth; Committing; Committed] ∧
  match sim_file (w_dev w) with
  | Ok v => ds_Booted v = "rootfs.1" ∧ VersionOf v "rootfs.1" = "2.0.0" ∧ GoodOf v "rootfs.1" = true
  | Err _ => False
  end.
Proof. vm_compute. repeat match goal with |- _ ∧ _ => split end; reflexivity. Qed.

Abbreviation w_done := (demo_after (demo_update 8)).

Lemma refines_witness :
  ∃ s, spec_run demo_config (w_trace w_done) s ∧ durable w_done = Ok (sp_durable s).
Proof. apply engine_refines_spec, demo_reachable. Defined.

Lemma installs_witness :
  StronglySorted Z.lt (installs (w_trace w_done)) ∧ installs (w_trace w_done) = [7].
Proof.
  split; [apply (installs_strictly_increase demo_config), demo_reachable|vm_compute; reflexivity].
Defined.

(** The first installation of a trace. *)
Fixpoint first_install (t : list Action) : FS * path * Release :=
  match t with
  | [] => (∅, [], zeroRelease)
  | AInstall fs p r :: _ => (fs, p, r)
  | _ :: t => first_install t
  end.

Definition is_install (a : Action) : bool := match a with AInstall _ _ _ => true | _ => false end.

Lemma first_install_elem t :
  existsb is_install t = true →
  AInstall (first_install t).1.1 (first_install t).1.2 (first_install t).2 ∈ t.
Proof. induction t as [|[] t IH]; simpl; intros H; try done; [right; auto|left|right; auto..]. Qed.

Lemma demo_installs : existsb is_install (w_trace w_done) = true.
Proof. vm_compute. reflexivity. Qed.

Lemma install_witness :
  holds_artifact (first_install (w_trace w_done)).1.1 (first_install (w_trace w_done)).1.2
    (r_Artifact (first_install (w_trace w_done)).2).
Proof.
  exact (proj1 (proj2 (install_only_verified demo_config w_done _ _ _ (demo_reachable _)
           (first_install_elem _ demo_installs)))).
Defined.

(** The step that commits marks the new slot first. *)
Abbreviation w_commit := (demo_after (demo_update 6)).
Lemma commit_marks :
  w_mu w_commit = false ∧
  w_trace (execute demo_config CStep w_commit) = w_trace w_commit ++ [] ++ AMark "good" "rootfs.1" ::
    drop (S (length (w_trace w_commit))) (w_trace (execute demo_config CStep w_commit)).
Proof. split; vm_compute; reflexivity. Qed.

Lemma marks_witness : mark_reason demo_config CStep w_commit [] "good" "rootfs.1".
Proof.
  destruct commit_marks as [Hmu Ht].
  exact (proj2 (proj1 (marks_justified demo_config w_commit (demo_reachable _)) CStep [] "good" "rootfs.1" _ Hmu Ht)).
Defined.

(** The step that reboots has written the request. *)
Abbreviation w_awaiting := (demo_after (take 4 demo_install)).
Definition reboot_trace : list Action := drop (length (w_trace w_awaiting)) (w_trace (execute demo_config CStep w_awaiting)).
Lemma awaiting_reboots :
  w_mu w_awaiting = false ∧
  w_trace (execute demo_config CStep w_awaiting) =
    w_trace w_awaiting ++ take 1 reboot_trace ++ AReboot :: drop 2 reboot_trace.
Proof. split; vm_compute; reflexivity. Qed.

Lemma reboots_witness : reboot_reason demo_config CStep w_awaiting (take 1 reboot_trace).
Proof.
  destruct awaiting_reboots as [Hmu Ht].
  exact (proj2 (reboots_justified demo_config CStep w_awaiting _ _ (demo_reachable _) Hmu Ht)).
Defined.

Lemma history_witness :
  history demo_config initialDatabase (journal (w_trace w_done)) ∧ length (journal (w_trace w_done)) = 10%nat.
Proof.
  split; [exact (proj1 (journal_is_a_history demo_config w_done (demo_reachable _)))|].
  vm_compute. reflexivity.
Defined.

Lemma typed_witness : well_typed demo_config (w_data w_done).
Proof.
  refine (proj2 (journal_well_typed demo_config _ w_done (demo_reachable _)) _ _); [|vm_compute; reflexivity].
  intros b r rest E. injection E as <- _. by vm_compute.
Defined.

Lemma healthy_disk : disk_works.
Proof. intros n. split; [|done]. apply Z.eqb_neq. lia. Qed.

Lemma restart_witness : (Restart true true w_done).1 = Ret false.
Proof.
  exact (proj2 (proj2 (proj2 (restart_recovers demo_config true true w_done (demo_reachable _))))
           healthy_disk eq_refl eq_refl).
Defined.

(** The snapshots in order, and two neighbours of them. *)
Definition snapshot (k : nat) : Database :=
  default initialDatabase ((initialDatabase :: journal (w_trace w_done)) !! k).

Lemma neighbours k d d' :
  (initialDatabase :: journal (w_trace w_done)) !! k = Some d →
  (initialDatabase :: journal (w_trace w_done)) !! S k = Some d' →
  initialDatabase :: journal (w_trace w_done) =
    take k (initialDatabase :: journal (w_trace w_done)) ++ d :: d' ::
    drop (S (S k)) (initialDatabase :: journal (w_trace w_done)).
Proof.
  intros H1 H2. rewrite <- (take_drop_middle _ _ _ H1) at 1. f_equal. f_equal.
  by apply drop_S.
Qed.

Lemma demo_neighbours k :
  (k < 10)%nat →
  initialDatabase :: journal (w_trace w_done) =
    take k (initialDatabase :: journal (w_trace w_done)) ++ snapshot k :: snapshot (S k) ::
    drop (S (S k)) (initialDatabase :: journal (w_trace w_done)).
Proof.
  intros Hk. assert (Hlen : length (journal (w_trace w_done)) = 10%nat) by (vm_compute; reflexivity).
  unfold snapshot.
  destruct (lookup_lt_is_Some_2 (initialDatabase :: journal (w_trace w_done)) k) as [d Hd]; [simpl; lia|].
  destruct (lookup_lt_is_Some_2 (initialDatabase :: journal (w_trace w_done)) (S k)) as [d' Hd']; [simpl; lia|].
  rewrite Hd, Hd'. by apply neighbours.
Qed.

Definition demo_job (d : Database) : Job := default zeroJob (db_Jobs d !! "job-1").

Lemma jobs_witness :
  job_step demo_config (snapshot 3) (snapshot 4) "job-1" (demo_job (snapshot 3)) ∧
  j_State (demo_job (snapshot 3)) = Verified ∧ j_State (demo_job (snapshot 4)) = Installing.
Proof.
  assert (Hj : db_Jobs (snapshot 3) !! "job-1" = Some (demo_job (snapshot 3))) by (vm_compute; reflexivity).
  split; [|split; vm_compute; reflexivity].
  exact (jobs_follow_state_machine demo_config w_done _ _ _ _ _ _ (demo_reachable _)
           (demo_neighbours 3 ltac:(lia)) Hj).
Defined.

Lemma outbox_witness : event_step (snapshot 3) (snapshot 4).
Proof.
  exact (outbox_is_reliable demo_config w_done _ _ _ _ (demo_reachable _) (demo_neighbours 3 ltac:(lia))).
Defined.

Lemma sequences_witness :
  db_HighSequence (snapshot 0) ≤ db_HighSequence (snapshot 1) ∧ db_HighSequence (snapshot 1) = 7.
Proof.
  split; [|vm_compute; reflexivity].
  exact (proj1 (sequences_never_decrease demo_config w_done _ _ _ _ (demo_reachable _)
           (demo_neighbours 0 ltac:(lia)))).
Defined.

End Healthy.

(** ** Commands *)
Module Calls.
Local Instance healthy_env : Env := demo_env true (-1).

(** Right after the assignment was accepted. *)
Definition w_accepted : World Simulator := demo_after (take 1 demo_install).
Definition j_accepted : Job := default zeroJob (db_Jobs (w_data w_accepted) !! "job-1").

Lemma accepted_facts :
  w_mu w_accepted = false ∧ db_Jobs (w_data w_accepted) !! "job-1" = Some j_accepted ∧
  eqs (j_Fingerprint j_accepted) (Fingerprint demo_assignment) = true.
Proof. vm_facts. Qed.

Lemma known_witness :
  Submit demo_config demo_assignment w_accepted =
    (if eqs (j_Fingerprint j_accepted) (Fingerprint demo_assignment) then Ret j_accepted
     else Fail (errors_New "job ID reused with different assignment"), w_accepted).
Proof.
  exact (Submit_known_job demo_config demo_assignment j_accepted w_accepted
           (proj1 accepted_facts) eq_refl eq_refl (proj1 (proj2 accepted_facts))).
Defined.

Definition other_assignment : Assignment :=
  mkAssignment "job-2" "device-1" (mkEnvelope "key-1" (to_bytes "release") []) 0
    (1900000 * Second) true "".

Lemma accepted_active :
  db_Jobs (w_data w_accepted) !! asg_JobID other_assignment = None ∧ db_Active (w_data w_accepted) ≠ "".
Proof. split; vm_compute; [reflexivity|discriminate]. Qed.

Lemma refused_witness : quiet w_accepted (Submit demo_config other_assignment w_accepted).2.
Proof.
  exact (proj2 (Submit_refused demo_config other_assignment w_accepted
           (proj1 accepted_active) (or_introl (proj2 accepted_active)))).
Defined.

(** A journal whose only job is closed, without slots: a payload-only release. *)
Definition payload_job : Job :=
  mkJob demo_assignment demo_release "" Committed "" "" "" "" "" 0 false false 0 true "" "" 0.
Definition w_payload : World Simulator :=
  set_w_data (set_db_Jobs {["job-1" := payload_job]} initialDatabase) demo_world.

Lemma payload_boot_facts :
  db_Jobs (w_data w_payload) ≠ ∅ ∧ latestCompleted (db_Jobs (w_data w_payload)) = payload_job.
Proof. split; [by apply insert_non_empty|vm_compute; reflexivity]. Qed.

Lemma payload_boot_witness :
  (confirmNormalBoot demo_config w_payload).1
  = Fail (errors_New "unrecognized normal boot; refusing mark-good").
Proof.
  destruct payload_boot_facts as [Hne Hj].
  apply (payload_only_boot_refused demo_config w_payload (factoryStatus "board")
           (mkSim (Ok (factoryStatus "board")) None false false)); rewrite ?Hj; try reflexivity;
    try exact Hne; discriminate.
Defined.

(** The window in which the job may commit. *)
Definition w_healthy : World Simulator := demo_after (demo_update 5).
Definition j_healthy : Job := default zeroJob (activeJob (w_data w_healthy)).
Definition w_committing : World Simulator := (Step demo_config w_healthy).2.
Definition j_committing : Job := default zeroJob (activeJob (w_data w_committing)).

Lemma healthy_facts :
  w_mu w_healthy = false ∧ activeJob (w_data w_healthy) = Some j_healthy ∧
  j_State j_healthy = CheckingHealth ∧ (Step demo_config w_healthy).1 = Ret tt ∧
  activeJob (w_data (Step demo_config w_healthy).2) = Some j_committing ∧
  j_State j_committing = Committing.
Proof. vm_facts. Qed.

End Calls.

(** ** Checks that fail at first *)
Module Flaky.
Local Instance flaky_env : Env := {|
  env_now := fun n => demo_start + Z.of_nat n * Second; env_elapsed := fun _ => 0; env_crash := fun _ => false;
  env_io := fun _ => None; env_short := fun _ => 0%nat; env_free := fun _ => 2 ^ 40; env_tx := fun _ => TxOk;
  env_ctx := fun _ => None; env_probe := fun n _ => Ok (if (n <? 70)%nat then 500 else 200);
  env_rand := fun _ => Ok "0123456789abcdef"; env_spans := false; env_measured := None; env_health := None |}.

(** A step whose check fails, and the step that commits. *)
Definition w_failing : World Simulator := demo_after (demo_update 2).
Definition w_ready : World Simulator := demo_after (demo_update 8).
Definition j_ready : Job := default zeroJob (activeJob (w_data w_ready)).
Definition j_committing : Job := default zeroJob (activeJob (w_data (Step demo_config w_ready).2)).

Lemma ready_facts :
  w_mu w_ready = false ∧ activeJob (w_data w_ready) = Some j_ready ∧ j_State j_ready = CheckingHealth ∧
  (Step demo_config w_ready).1 = Ret tt ∧ activeJob (w_data (Step demo_config w_ready).2) = Some j_committing ∧
  j_State j_committing = Committing.
Proof. vm_facts. Qed.

Lemma probe_fails : check_failed demo_config w_failing.
Proof.
  split; [vm_compute; reflexivity|vm_compute; reflexivity| |].
  - unfold healthy_at. cbn [env_health flaky_env]. intros Hall.
    specialize (Hall 0%nat (mkCheck "http" "http://127.0.0.1:8080/health" "app") eq_refl).
    destruct Hall as [[_ E]|[[E|E] _]]; vm_compute in E; discriminate E.
  - left. eexists _, _. vm_facts.
Qed.

(** Steps of a process that serves, one after the other. *)
Fixpoint steps_on (n : nat) (w : World Simulator) : option (World Simulator) :=
  match n with
  | O => Some w
  | S n => let w' := execute demo_config CStep w in
           if negb (w_mu w) && (w_tick w <=? w_tick w')%nat then steps_on n w' else None
  end.

Lemma steps_on_forward n w w' : steps_on n w = Some w' → rtc (forward demo_config) w w'.
Proof.
  revert w. induction n as [|n IH]; intros w; simpl; [intros [= <-]; apply rtc_refl|].
  destruct (w_mu w) eqn:Emu; [done|]. destruct (Nat.leb_spec (w_tick w) (w_tick (Step demo_config w).2)) as [Hle|]; [|done].
  intros Hr. eapply rtc_l; [split; [exact (sys_command demo_config w CStep Emu)|exact Hle]|by apply IH].
Qed.

Lemma ready_later : steps_on 5 (Step demo_config w_failing).2 = Some w_ready.
Proof. vm_compute. reflexivity. Qed.

Lemma health_witness :
  healthy_window demo_config j_ready (env_now (w_tick w_ready)) (w_tick w_ready + 2) w_ready ∧
  ∃ n, (w_tick (Step demo_config w_failing).2 ≤ n < w_tick w_ready)%nat ∧
    env_now n + 10 * Second ≤ env_now (w_tick w_ready).
Proof.
  destruct ready_facts as (Hmu & Hj & Hst & Hret & Hj' & Hst').
  destruct (commit_needs_stable_health demo_config j_ready w_ready (demo_reachable _) Hmu Hj Hst Hret
              j_committing Hj' Hst') as [Hw Hs].
  split; [exact Hw|].
  exact (Hs ltac:(split; [reflexivity|discriminate]) w_failing (demo_reachable _) probe_fails
           (steps_on_forward _ _ _ ready_later)).
Defined.
End Flaky.

(** ** A crash during the installation *)
Module Crash.
Local Instance crash_env : Env := demo_env true 38.

(** Power is lost after [Installing] was journalled; the process restarts. *)
Definition w_crashed : World Simulator := demo_after (take 4 demo_install ++ [None]).
Definition j_crashed : Job := default zeroJob (activeJob (w_data w_crashed)).

Lemma crashed_facts :
  w_mu w_crashed = false ∧ activeJob (w_data w_crashed) = Some j_crashed ∧
  j_State j_crashed = Installing.
Proof. vm_facts. Qed.

Lemma crash_witness : calm w_crashed (Step demo_config w_crashed).2.
Proof.
  destruct crashed_facts as (Hmu & Hj & Hst).
  exact (proj1 (interrupted_install_not_retried demo_config j_crashed w_crashed (demo_reachable _) Hmu Hj Hst)).
Defined.

(** The next step asks for an operator. *)
Definition w_recovery : World Simulator := demo_after (take 4 demo_install ++ [None; Some CStep]).
Definition j_recovery : Job := default zeroJob (activeJob (w_data w_recovery)).

Lemma recovery_facts :
  w_mu w_recovery = false ∧ activeJob (w_data w_recovery) = Some j_recovery ∧
  j_State j_recovery = NeedsRecovery ∧ (RecoverAbort demo_config w_recovery).1 = Ret tt.
Proof. vm_facts. Qed.

Lemma recovery_witness : quiet w_recovery (Step demo_config w_recovery).2.
Proof.
  destruct recovery_facts as (_ & Hj & Hst & _).
  exact (needs_recovery_blocks demo_config j_recovery w_recovery Hj Hst).
Defined.

Lemma abort_witness : ∃ j s, activeJob (w_data w_recovery) = Some j ∧ j_State j = NeedsRecovery ∧
    (bk_Status (w_dev w_recovery)).1 = Ok s ∧ ds_Operation s = "idle" ∧ ds_Booted s = j_OldSlot j ∧
    (∃ l, w_trace (RecoverAbort demo_config w_recovery).2 = w_trace w_recovery ++
       [AMark "bad" (j_TargetSlot j); AMark "active" (j_OldSlot j)] ++ map AJournal l) ∧
    activeJob (w_data (RecoverAbort demo_config w_recovery).2) = None ∧
    durable (RecoverAbort demo_config w_recovery).2 = Ok (w_data (RecoverAbort demo_config w_recovery).2).
Proof.
  destruct recovery_facts as (Hmu & _ & _ & Hret).
  exact (recover_abort_restores demo_config w_recovery (demo_reachable _) Hmu Hret).
Defined.

End Crash.

(** ** An unhealthy release *)
Module Unhealthy.
Local Instance unhealthy_env : Env := demo_env false (-1).

(** On the simulator with an application whose health endpoint fails, the
    update is undone: after the health timeout the device is switched back
    to the old slot, the new one is marked bad, and the job is closed as
    rolled back. *)
Theorem demo_unhealthy_rolls_back :
  let w := demo_after (demo_update 23) in
  demo_states w = [RolledBack] ∧ db_Active (w_data w) = "" ∧ installs (w_trace w) = [7] ∧
  match sim_file (w_dev w) with
  | Ok v => ds_Booted v = "rootfs.0" ∧ ds_Primary v = "rootfs.0" ∧ GoodOf v "rootfs.1" = false
  | Err _ => False
  end.
Proof. vm_compute. repeat match goal with |- _ ∧ _ => split end; reflexivity. Qed.

End Unhealthy.

(** ** Single functions *)
Module Inputs.
Local Instance healthy_env : Env := demo_env true (-1).

(** *** Configuration *)
Lemma clock_witness : parseClock (renderClock 6 30) = Ok (6, 30).
Proof. apply parseClock_render; lia. Defined.

Lemma config_valid : Validate demo_config = Ok tt.
Proof. vm_compute. reflexivity. Qed.

Lemma bounds_witness :
  1 ≤ c_HealthTimeoutSeconds demo_config ≤ 3600 ∧
  0 ≤ c_HealthStableSeconds demo_config < c_HealthTimeoutSeconds demo_config.
Proof. exact (proj1 (Validate_bounds demo_config tt config_valid)). Defined.

Definition jitter_config : Config :=
  mkConfig "device-1" "board" "/var/lib/zyvor" "/run/zyvor/ota.sock" "simulator" false ∅ [] 1 0 60 10
    [] [] 0 300 "" "" "" false "" "" "" "" "" "" false "" "" "" "" "".
Lemma jitter_witness : 0 ≤ DownloadJitter jitter_config ≤ 300 * Second.
Proof. apply (DownloadJitter_range jitter_config). simpl. lia. Defined.

Lemma window_witness : DownloadAllowed demo_config demo_start =
  if (Hour demo_start * 60 + Minute demo_start - (22 * 60 + 0)) mod 1440
     <? (6 * 60 + 0 - (22 * 60 + 0)) mod 1440 then Ok tt else Err ErrDeferred.
Proof.
  apply (DownloadAllowed_cyclic demo_config demo_start 22 0 6 0); [discriminate| |];
    vm_compute; reflexivity.
Defined.

(** *** Journal *)
Definition two_jobs : Database :=
  let job id t := mkJob (mkAssignment id "device-1" (mkEnvelope "" [] []) 0 0 false "") demo_release ""
    Failed "" "" "" "" "" 0 false false 0 false "" "" t in
  set_db_Jobs {["a" := job "a" 1; "b" := job "b" 2]} initialDatabase.

(** With room for one job, the older of two closed jobs is archived. *)
Definition one_job : Limits :=
  {| hotJobLimit := 1; hotEventLimit := 9000; hotJobLimit_nonneg := ltac:(lia) |}.

Lemma compact_example :
  @compactHot demo_range one_job two_jobs =
    Ok (set_db_Jobs (delete "a" (db_Jobs two_jobs)) two_jobs,
        [default zeroJob (db_Jobs two_jobs !! "a")]).
Proof. vm_compute. reflexivity. Qed.

Lemma compact_witness :
  compacted two_jobs (set_db_Jobs (delete "a" (db_Jobs two_jobs)) two_jobs)
    [default zeroJob (db_Jobs two_jobs !! "a")].
Proof.
  pose proof (@compactHot_correct demo_range one_job two_jobs eq_refl) as Hc.
  rewrite compact_example in Hc. exact (proj1 Hc).
Defined.

Lemma initial_filed (w1 : World Simulator) next :
  (mret initialDatabase : M (World Simulator) Database) demo_world = (Ret next, w1) → filed next.
Proof. intros [= <- <-] id j Hj. done. Qed.

Lemma update_succeeds : (Update (fun d => mret d) demo_world).1 = Ret tt.
Proof. vm_compute. reflexivity. Qed.

Lemma update_witness :
  ∃ next, db_ok next ∧
    dk_snapshot (w_disk (Update (fun d => mret d) demo_world).2) = Some (marshalDB next).
Proof.
  destruct (Update_atomic (fun d => mret d) demo_world (fun d => keeps_ret _ d)
              (fun next w1 => initial_filed w1 next)) as [(_ & _ & Hne)|(n0 & n & w1 & _ & _ & Hok & Hs & _)].
  - destruct (Hne update_succeeds).
  - exact (ex_intro _ n (conj Hok Hs)).
Defined.

(** *** Releases *)
Lemma envelope_valid :
  VerifyEnvelope (asg_Release demo_assignment) demo_config demo_start = Ok demo_release.
Proof. vm_compute. reflexivity. Qed.

Lemma envelope_witness :
  ∃ r0, release_fit demo_config demo_start r0 ∧ demo_release = with_os r0.
Proof.
  destruct (proj1 (VerifyEnvelope_exact _ _ _ _) envelope_valid) as (_ & _ & r0 & _ & _ & _ & _ & _ & Hr).
  exact (ex_intro _ r0 Hr).
Defined.

Lemma artifacts_valid : releaseArtifacts demo_release = Ok [demo_artifact].
Proof. vm_compute. reflexivity. Qed.

Lemma artifacts_witness : [demo_artifact] ≠ [] ∧ artifacts_wf [demo_artifact].
Proof.
  destruct (releaseArtifacts_sound demo_release _ artifacts_valid) as (Hne & Hwf & _).
  exact (conj Hne Hwf).
Defined.

Local Instance encode_release : JSONEncode Release := {| json_Marshal := fun _ => to_bytes "release" |}.
Definition demo_key : bytes := replicate 64 Byte.x00.
Definition demo_public : bytes := replicate 32 Byte.x00.
Definition demo_sign (key b : bytes) : bytes := [].

Lemma signing_valid :
  c_TrustKeys demo_config !! "key-1" = Some "AAAAAAAAAAAAAAAAAAAAAAAAAAAAAAAAAAAAAAAAAAA=" ∧
  decodeKey "AAAAAAAAAAAAAAAAAAAAAAAAAAAAAAAAAAAAAAAAAAA=" = Ok demo_public ∧
  checkMetadata demo_release demo_config demo_start = Ok tt ∧
  checkContents demo_release demo_config = Ok demo_release ∧
  SignRelease demo_sign demo_release "key-1" demo_key = Ok (asg_Release demo_assignment).
Proof. vm_facts. Qed.

Lemma signing_witness :
  VerifyEnvelope (asg_Release demo_assignment) demo_config demo_start = Ok demo_release.
Proof.
  destruct signing_valid as (Hk & Hd & Hm & Hc & Hs).
  exact (sign_then_verify demo_sign demo_key demo_public _ demo_release demo_release "key-1" demo_config
           demo_start _ (fun b => eq_refl) eq_refl ltac:(vm_compute; discriminate) Hk Hd Hm Hc Hs).
Defined.

(** *** Supply chain *)
Definition root_key : string := "AAAAAAAAAAAAAAAAAAAAAAAAAAAAAAAAAAAAAAAAAAA=".
Definition demo_root : rootMeta :=
  mkRootMeta 1 1 (2000000 * Second) {["r1" := root_key]} {["root" := mkRole 1 ["r1"]]} [].
Definition root_doc : multiSigned := mkMultiSigned (to_bytes "root") [mkKeySig "r1" []].
Local Instance decode_root : JSONDecode rootMeta := {| json_Decode := fun _ => Ok (demo_root, []) |}.

Lemma threshold_valid :
  verifyThreshold (to_bytes "root") (ms_Signatures root_doc) (rm_Keys demo_root) (mkRole 1 ["r1"]) = Ok tt.
Proof. vm_compute. reflexivity. Qed.

Lemma threshold_witness :
  1 ≤ 1 ∧ ∃ seen, signers (to_bytes "root") (rm_Keys demo_root) (mkRole 1 ["r1"]) seen ∧
    1 ≤ Z.of_nat (length seen).
Proof. exact (verifyThreshold_sound _ _ _ _ _ threshold_valid). Defined.

Lemma root_valid :
  checkRoot (digest (to_bytes "root")) [] (to_bytes "root") root_doc demo_start
  = Ok (demo_root, to_bytes "root").
Proof. vm_compute. reflexivity. Qed.

Lemma root_witness : StrictJSON (to_bytes "root") = Ok demo_root.
Proof. exact (proj1 (checkRoot_sound _ _ _ _ _ _ _ root_valid)). Defined.

Lemma log_valid :
  plan_append [] "rel-7" "abc" = Ok (Some (marshal_line (mkLine zeroDigest "rel-7" "abc") ++ [newline])).
Proof. vm_compute. reflexivity. Qed.

Lemma log_witness :
  ∃ prev, scan_log "rel-7" "abc" zeroDigest (split_lines (trim_newline []) []) = Ok (Some prev).
Proof.
  destruct (transparency_append [] "rel-7" "abc" _ log_valid) as (prev & _ & Hs & _).
  exact (ex_intro _ prev Hs).
Defined.

(** *** Downloads *)
Abbreviation fetch_run := (fetch demo_config demo_artifact demo_world).
Definition fetch_result : fetched := match fetch_run.1 with Ret f => f | _ => badm 0 false "" end.

Lemma fetch_valid : fetch_run.1 = Ret fetch_result ∧ ft_err fetch_result = None.
Proof. vm_facts. Qed.

Lemma fetch_witness :
  ft_path fetch_result = Some (finalPath demo_config demo_artifact) ∧
  holds_artifact (w_fs fetch_run.2) (finalPath demo_config demo_artifact) demo_artifact.
Proof. exact (fetch_integrity demo_config _ demo_world _ _ (run_is fetch_run _ (proj1 fetch_valid)) (proj2 fetch_valid)). Defined.

(** *** Payloads *)
Definition demo_target (health : string) : Target :=
  mkTarget "app" "container.oci" demo_artifact "" health "" [] "" 0.
Definition payload_world : World Simulator :=
  set_w_fs {[ cachePath "/s" (a_SHA256 demo_artifact) := File demo_bundle;
              currentPath "/s" "app" := File (to_bytes "old") ]} demo_world.
Definition rel_ok : Release := releaseOf [demo_target ""].
Definition rel_bad : Release := releaseOf [demo_target "missing"].

Lemma one_target t : NoDup (ids [t]).
Proof. apply NoDup_singleton. Qed.

Lemma disk_is_fine : disk_works.
Proof. intros n. split; [|done]. apply Z.eqb_neq. lia. Qed.

Abbreviation payload_run := (applySidePayloads "/s" rel_ok [] payload_world).
Lemma payload_valid : payload_run.1 = Ret tt.
Proof. vm_compute. reflexivity. Qed.

Lemma payload_witness :
  holds_artifact (w_fs payload_run.2) (currentPath "/s" "app") demo_artifact.
Proof.
  exact (payloads_installed "/s" rel_ok [] payload_world _ (demo_target "") (one_target _)
           (run_is payload_run _ payload_valid)
           (proj2 (list_elem_of_singleton _ _) eq_refl) ltac:(discriminate)).
Defined.

Abbreviation failed_run := (applySidePayloads "/s" rel_bad [] payload_world).
Lemma failed_valid : failed_run.1 = Fail (errors_New "payload health check not configured: missing").
Proof. vm_compute. reflexivity. Qed.

Lemma failed_witness :
  w_fs failed_run.2 !! currentPath "/s" "app" = w_fs payload_world !! currentPath "/s" "app".
Proof.
  destruct (failed_payloads_restored disk_is_fine "/s" rel_bad [] payload_world _ _ (demo_target "missing")
           (one_target _) (run_is failed_run _ failed_valid)
           (proj2 (list_elem_of_singleton _ _) eq_refl) ltac:(discriminate)) as [He|[He1 He2]];
    [exact He|exact (eq_trans He2 (eq_trans eq_refl (eq_sym He1)))].
Defined.

(** An updated payload, rolled back twice. *)
Definition rolled_world : World Simulator :=
  set_w_fs {[ currentPath "/s" "app" := File demo_bundle;
              previousPath "/s" "app" := File (to_bytes "old") ]} demo_world.
Abbreviation roll := (rollbackSidePayloads (D := Simulator) "/s" [demo_target ""]).
Lemma rolled_valid : (roll rolled_world).1 = Ret tt ∧ (roll (roll rolled_world).2).1 = Ret tt.
Proof. vm_facts. Qed.

Lemma rolled_witness :
  w_fs (roll rolled_world).2 !! currentPath "/s" "app" = w_fs rolled_world !! previousPath "/s" "app" ∧
  w_fs (roll (roll rolled_world).2).2 !! currentPath "/s" "app" = None.
Proof.
  exact (second_rollback_deletes disk_is_fine "/s" (demo_target "") _ _ _ ltac:(discriminate)
           (run_is (roll rolled_world) _ (proj1 rolled_valid))
           (run_is (roll (roll rolled_world).2) _ (proj2 rolled_valid))).
Defined.

(** *** Downloads *)

(** Three bytes a second, in a connection that breaks after the sixth. *)
Definition slow : throttled :=
  mkThrottled (mkBps (mkBody demo_bundle (Some (errors_New "connection reset")) (fun _ => 7%nat) 0) 3 0 0) 0 0.

Lemma throttle_witness :
  io_copy (H := throttled_Reader (fun n => demo_start + Z.of_nat n)) 4 11 10 slow =
    (demo_bundle, Some (errors_New "connection reset")).
Proof.
  exact (proj2 (throttle_transparent (fun n => demo_start + Z.of_nat n) 4 11 10 slow ltac:(lia) ltac:(lia))).
Defined.

(** *** Metrics *)

(** A slot whose name tries to write a line of its own. *)
Definition forged : string := from_chars (quote_char :: chars "} 1" ++ line_feed :: chars "zyvor_ota_commits_total 99").
Definition w_forged : World Simulator :=
  set_w_stats (healthFailure forged (setSlot forged "2.0.0" (observeState demo_start Committed zeroStats))) demo_world.
Definition page := WriteMetrics demo_config 0 7 w_forged.

Lemma page_written : ∃ text, page.1 = Ret text.
Proof. eexists. vm_compute. reflexivity. Qed.

Lemma forged_printable : labels_printable (w_stats w_forged).
Proof.
  split; [vm_compute; reflexivity|vm_compute; reflexivity|intros name f Hf; vm_compute in Hf; discriminate Hf|].
  intros name n Hn. change (<[forged := s64 (default 0 ((∅ : gmap string Z) !! forged) + 1)]> (∅ : gmap string Z) !! name = Some n) in Hn.
  apply lookup_insert_Some in Hn as [[<- _]|[_ Hn]]; [vm_compute; reflexivity|]. by rewrite lookup_empty in Hn.
Qed.


(** A check whose name has a tab: [%q] writes an escape the announced format
    does not have, and a reader of that format rejects the page. *)
Definition tabbed : string := from_chars (chars "disk" ++ [ascii_of_nat 9] ++ chars "root").
Definition w_tabbed : World Simulator := set_w_stats (healthFailure tabbed zeroStats) demo_world.
Theorem control_label_unreadable :
  ∃ text, (WriteMetrics demo_config 0 7 w_tabbed).1 = Ret text ∧ read_metrics text = None.
Proof. eexists. split; vm_compute; reflexivity. Qed.

(** *** Backend *)
Definition sim_fs : FS := {[ ["bundle"] := File demo_bundle ]}.
Definition sim0 : Simulator := mkSim (Ok (factoryStatus "board")) None false false.
Definition sim1 : Simulator := (sim_Install sim_fs None ["bundle"] demo_release sim0).2.

Lemma sim_valid : sim_Install sim_fs None ["bundle"] demo_release sim0 = (Ok tt, sim1).
Proof. vm_compute. reflexivity. Qed.

Lemma sim_witness : holds_artifact sim_fs ["bundle"] (r_Artifact demo_release).
Proof.
  destruct (sim_install_evidence _ _ _ _ _ _ sim_valid) as (v & v' & t & _ & _ & _ & Hh & _).
  exact Hh.
Defined.

End Inputs.

(** ** A journal of an earlier agent *)
Module ImportRun.
Local Instance healthy_env : Env := demo_env true (-1).
Definition old_journal : Database :=
  Eval vm_compute in w_data (demo_after (demo_update 3)).

Lemma old_valid : validateDatabase old_journal = Ok tt.
Proof. vm_compute. reflexivity. Qed.

(** The first start finds the lock taken, the second imports. *)
Definition refused_start := importStart true false (Some (marshalDB old_journal)) demo_world.
Definition second_start := importStart true true refused_start.2 refused_start.1.2.

Lemma import_witness :
  second_start.1.1 = Ret true ∧ second_start.2 = None ∧ w_data second_start.1.2 = old_journal.
Proof.
  destruct (import_never_loses old_journal (marshalDB old_journal) (strict_marshal _) old_valid refused_start.1.2 refused_start.2
    true true second_start.1.1 second_start.1.2 second_start.2) as (_ & Hret & Hworks).
  - eapply (imp_start _ _ true false demo_world (Some (marshalDB old_journal)) refused_start.1.1).
    + by apply imp_before.
    + unfold refused_start. by destruct (importStart _ _ _ _) as [[??]?].
  - unfold second_start. by destruct (importStart _ _ _ _) as [[??]?].
  - destruct Hworks as [Ho Hf]; [exact Healthy.healthy_disk|done|done|done|].
    assert (Hs : second_start.1.1 = Ret true).
    { rewrite Ho. reflexivity. }
    split; [done|]. split; [done|]. by apply (Hret true).
Defined.
End ImportRun.
