(* ===== verification/Peers.v ===== *)
(** * The agent's peers at work

    The claims about the API, Fleet, the relay, campaign media, RAUC, the
    client and the command line, applied to concrete peers of the device of
    Scenario. *)
From stdpp Require Import base tactics gmap strings list sorting.
From Stdlib Require Import ZArith Lia.
From S2P Require Import Prelude Model Config Crypto Fmt Files Backend Dependable Metrics Trace Topo Verify World Store TrustMeta MetricsText Payload Download Relay RelayPool Campaign SiteLink Rauc Engine EngineFrame EngineSpec Refine RefineEngine FleetRef Fleet LabServer API Client Cli System Commands Progress Accept Measure Outcomes Remote Daemon Host Scenario.
Local Open Scope Z_scope.
Local Existing Instances demo_unicode demo_limits demo_range demo_zone demo_urls demo_net demo_signatures
  demo_lines demo_decode demo_encode demo_events demo_codec.
Local Instance peer_env : Env := demo_env true (-1).
Local Instance no_document {A} : JSONDecode A | 100 := demo_none.

(** A run is its outcome and the world it leaves. *)
Lemma outcome_is {A W} (p : outcome A * W) o : p.1 = o → p = (o, p.2).
Proof. destruct p. by intros <-. Qed.

(** ** Fleet *)
Module FleetLink.
(** Fleet answers an upload with the acknowledgement of event 1, and has no
    assignment. *)
Local Instance link_net : FleetNet := {| fleet_Do := fun _ call =>
  if eqs (fc_method call) "POST" then Ok (mkAnswer 200 [] None) else Ok (mkAnswer 204 [] None) |}.
Local Instance link_ack : JSONDecode ackBody := {| json_Decode := fun _ => Ok (mkAckBody 1, []) |}.

Definition fleet : Fleet := mkFleet None None "secret".
Definition w_reporting : World Simulator := execute demo_config (CSubmit demo_assignment) demo_world.
Definition first_events : list Event := Eval vm_compute in batch (w_data w_reporting).
Local Instance link_events : JSONDecode (list Event) := {| json_Decode := fun _ => Ok (first_events, []) |}.

Definition server : Server := (RegisterDevice "device-1" "secret" New).2.
Lemma server_is_reachable : server_reachable server.
Proof. eapply srv_step; [apply srv_new|]. apply srv_register. Qed.

Lemma events_u64 b (evs : list Event) :
  StrictJSON b = Ok evs → Forall (fun e => 0 ≤ e_Sequence e < 2 ^ 64) evs.
Proof. intros [= <-]. unfold first_events. constructor; [simpl; lia|constructor]. Qed.

Lemma reporting_reachable : reachable demo_config w_reporting.
Proof.
  apply reach_step with demo_world; [by apply reach_fresh|]. by apply (sys_command demo_config demo_world (CSubmit demo_assignment)).
Qed.

Lemma fleet_witness : ∃ n : nat, recorded (events_of
    (serve (upload_request demo_config fleet (batch (w_data w_reporting))) server).2 "device-1")
    (default (mkEvent 0 "" Accepted "" 0) (head first_events)).
Proof.
  apply (outbox_reaches_fleet demo_config (fun _ => server) fleet (fun _ => server_is_reachable) events_u64)
    with (w := w_reporting).
  - intros n evs ans _ _. exists 1. vm_compute. reflexivity.
  - apply reporting_reachable.
  - vm_compute. reflexivity.
  - vm_compute. discriminate.
  - vm_compute. reflexivity.
  - vm_compute. left.
  - assert (E : db_Events (w_data (Sync demo_config fleet w_reporting).2) = []) by (vm_compute; reflexivity).
    rewrite E. apply not_elem_of_nil.
Defined.

Definition upload : fleetRq := mkFleetRq "POST" ["v1"; "devices"; "device-1"; "events"] "Bearer secret" [] false.

Lemma server_witness : server_ok server ∧ server_ok (serve upload server).2 ∧ events_kept server (serve upload server).2.
Proof.
  apply (fleetref_invariant events_u64 server (serve upload server).2 server_is_reachable). apply srv_request.
Defined.

Lemma ack_witness : ∃ dev evs, fq_path upload = ["v1"; "devices"; dev; "events"] ∧
  authorize (fq_auth upload) dev server = true ∧ StrictJSON (limit_read 524288 (fq_body upload)) = Ok evs ∧
  AckedSequence dev (serve upload server).2 = 1 ∧ 1 ≤ last_sequence evs ∧
  contiguous (events_of (serve upload server).2 dev) 1 ∧
  ∀ e, e ∈ evs → recorded (events_of (serve upload server).2 dev) e.
Proof.
  apply (fleetref_ack_sound events_u64 server upload 1 (serve upload server).2 server_is_reachable).
  vm_compute. reflexivity.
Defined.

Definition one_event : gmap Z Event := {[1 := mkEvent 1 "" Accepted "" 0]}.
Lemma terminates_witness : ∃ n k, advance (size one_event) one_event 0 = Some n ∧ next_ack one_event 0 = n ∧
  0 ≤ k ≤ Z.of_nat (size one_event) ∧ u64 n = u64 (0 + k) ∧
  (∀ i, 1 ≤ i ≤ k → is_Some (one_event !! u64 (0 + i))) ∧ one_event !! u64 (n + 1) = None.
Proof. apply (fleetref_ack_terminates one_event 0). vm_compute. reflexivity. Defined.
End FleetLink.

(** ** The local API *)
Module Api.
Local Instance api_assignment : JSONDecode Assignment := {| json_Decode := fun _ => Ok (demo_assignment, []) |}.
Local Instance api_fleet : FleetNet := demo_fleet.

Definition submission : apiRequest := mkApiRq "POST" ["v1"; "assignments"] [] false.
Definition submission_run := Handler demo_config submission demo_world.
Definition accepted_job : Job := default zeroJob (db_Jobs (w_data submission_run.2) !! "job-1").

Lemma submission_accepted : submission_run.1 = Ret (mkApiRs _ 202 (ApiJob accepted_job)).
Proof. vm_compute. reflexivity. Qed.

Lemma durable_witness : ∃ d, durable submission_run.2 = Ok d ∧ db_Jobs d !! j_JobID accepted_job = Some accepted_job.
Proof.
  apply (api_accepted_is_durable demo_config submission accepted_job demo_world submission_run.2).
  - by apply reach_fresh.
  - reflexivity.
  - reflexivity.
  - apply outcome_is, submission_accepted.
Defined.
End Api.

(** ** The site relay *)
Module RelayRun.
Local Instance relay_env : RelayEnv := {|
  re_crash := fun _ => false; re_io := fun _ => None; re_short := fun _ => 0%nat;
  re_Do := fun _ _ => Ok (200, (demo_bundle, false)); re_Upstream := None |}.
Definition relay : RelayServer := mkRelay "secret" ["updates.example"].
Definition empty_relay : RelayWorld := mkRelayWorld 0 ∅ 0 [].
Definition ask : relayRq :=
  mkRelayRq "GET" ["artifacts"; a_SHA256 demo_artifact] "Bearer secret" "https://updates.example/os.raucb".
Definition ask_run := relay_Handler relay ask empty_relay.

Lemma ask_answered : ask_run.1 = Ret (mkRelayRs 200 demo_bundle).
Proof. vm_compute. reflexivity. Qed.

Lemma digest_witness : relay_authorize relay (ry_auth ask) = true ∧ digest demo_bundle = a_SHA256 demo_artifact ∧
  ry_files ask_run.2 !! a_SHA256 demo_artifact = Some demo_bundle.
Proof.
  apply (relay_serves_digest relay empty_relay ask (a_SHA256 demo_artifact) (mkRelayRs 200 demo_bundle) ask_run.2).
  - apply relay_fresh.
  - reflexivity.
  - reflexivity.
  - apply outcome_is, ask_answered.
  - reflexivity.
Defined.

Lemma origin_witness : ry_contacts ask_run.2 = ["https://updates.example/os.raucb"] ∧
  ((∀ raw, raw ∈ ry_contacts ask_run.2 →
    ∃ u, url_Parse raw = Some u ∧ u_User u = false ∧ u_RawQuery u = "" ∧ u_Fragment u = "" ∧
      (u_Scheme u = "https" ∨ u_Scheme u = "http" ∧ loopback u = true) ∧
      ∃ h, h ∈ rl_OriginHosts relay ∧ EqualFold (TrimSpace (to_bytes h)) (u_Host u) = true) ∧
   ∀ rq, relay_authorize relay (ry_auth rq) = false → (relay_Handler relay rq ask_run.2).2 = ask_run.2).
Proof.
  split; [vm_compute; reflexivity|]. apply (relay_origin_policy relay ask_run.2).
  apply (relay_request relay ask empty_relay), relay_fresh.
Defined.

(** Two agents ask for the artifact together, and both miss. *)
Definition together : Pool :=
  arrive ask (a_SHA256 demo_artifact) (arrive ask (a_SHA256 demo_artifact) (mkPool empty_relay None [])).
Definition interleaving : list nat := [0; 1; 0; 0; 0; 0; 0; 1; 1; 1]%nat.
Definition served : Pool := default together (turns relay interleaving together).

Lemma served_turns : turns relay interleaving together = Some served.
Proof. vm_compute. reflexivity. Qed.

Lemma ask_honest : honest relay ask (a_SHA256 demo_artifact).
Proof. intros n raw body _ Hd. injection Hd as <-. split; [reflexivity|]. vm_compute. reflexivity. Qed.

Lemma together_run from : from ask (a_SHA256 demo_artifact) → pool_run relay from empty_relay together.
Proof. intros Hf. do 2 (eapply pool_next; [|by apply pool_arrive]). apply pool_start. Qed.

Definition answer : thread := mkThread ask (a_SHA256 demo_artifact) (Answered (mkRelayRs 200 demo_bundle)).

Lemma served_answers : po_threads served = [answer; answer] ∧ ry_fetches (po_world served) = 1.
Proof. vm_compute. done. Qed.

Lemma pool_digest_witness : digest demo_bundle = a_SHA256 demo_artifact.
Proof.
  refine (proj1 (proj2 (proj1 (pool_serves_digest relay (fun _ _ => True) empty_relay served (relay_fresh _ _)
    (turns_run _ _ _ _ _ _ (together_run _ I) served_turns)) 0%nat answer (mkRelayRs 200 demo_bundle) _ _ _)));
    [rewrite (proj1 served_answers); reflexivity|reflexivity|reflexivity].
Defined.

Lemma pool_answers_witness : (length interleaving ≤ 6 * length (po_threads together))%nat ∧
  ((∀ i, schedule relay i served = None) →
   ∀ i t, po_threads served !! i = Some t → ∃ rs, th_phase t = Answered rs).
Proof.
  apply (pool_answers relay (fun _ _ => True) empty_relay together interleaving served).
  - apply relay_fresh.
  - by apply together_run.
  - apply served_turns.
Defined.

Lemma pool_once_witness : ∃ fetched, NoDup fetched ∧
  ry_fetches (po_world served) = s64 (Z.of_nat (length fetched)) ∧
  ∀ s, s ∈ fetched → ∃ t, t ∈ po_threads served ∧ th_sum t = s.
Proof.
  apply (pool_fetches_once relay) with (w := empty_relay).
  - reflexivity.
  - reflexivity.
  - apply relay_fresh.
  - reflexivity.
  - eapply turns_run; [apply together_run, ask_honest|apply served_turns].
Defined.
End RelayRun.

(** ** An agent behind the relay, cut off from the origin *)
Module SiteRun.
Import RelayRun.
Local Existing Instance relay_env.
Definition site : URL := mkURL "https" "relay.site" "relay.site" false "" "" "".
Definition site_base : string := "https://relay.site/artifacts/".
Definition full_relay : RelayWorld := mkRelayWorld 0 {[a_SHA256 demo_artifact := demo_bundle]} 0 [].
Local Instance site_urls : NetURL := {| url_Parse := fun s =>
  if eqs s "https://relay.site" then Some site else url_Parse (NetURL := demo_urls) s |}.
Local Instance site_net : Net := {| net_Do := fun _ rq =>
  match CutPrefix (rq_URL rq) site_base with
  | None => errorf "unreachable"
  | Some sum => match relay_Handler relay (toRelay rq sum) full_relay with
                | (Ret rs, _) => Ok (fromRelay rs)
                | _ => errorf "unreachable"
                end
  end |}.
Definition site_config : Config :=
  mkConfig "device-1" "board" "/var/lib/zyvor" "/run/zyvor/ota.sock" "simulator" false
    (c_TrustKeys demo_config) ["updates.example"] 1048576 0 60 10 [] [] 0 0 "" "" ""
    false "" "" "https://relay.site" "/etc/zyvor/relay.token" "" "" false "" "" "" "" "".
Definition w_site : World Simulator :=
  set_w_fs {[components "/etc/zyvor/relay.token" := File (to_bytes "secret")]} demo_world.

Lemma site_link : relay_link relay site (fun _ => full_relay).
Proof.
  intros n rq sum rs rw' Hu Hh. unfold net_Do, site_net. rewrite Hu.
  change (u_Scheme site +:+ "://" +:+ u_Host site +:+ "/artifacts/" +:+ sum) with (site_base +:+ sum).
  rewrite CutPrefix_append. by rewrite Hh.
Qed.

Lemma site_disk : disk_works.
Proof. intros n. split; [|done]. apply Z.eqb_neq. lia. Qed.

Lemma site_witness : ∃ w', fetch site_config demo_artifact w_site =
    (Ret (mkFetched (Some (finalPath site_config demo_artifact)) 6 false None), w') ∧
  holds_artifact (w_fs w') (finalPath site_config demo_artifact) demo_artifact.
Proof.
  apply (relay_supplies_agent site_config relay site (fun _ => full_relay) demo_artifact w_site site_disk).
  - reflexivity.
  - reflexivity.
  - apply site_link.
  - split; [by split|exists (to_bytes "secret"); split; vm_compute; reflexivity|done].
  - split; [reflexivity| |vm_compute; reflexivity|by vm_compute|by vm_compute].
    eexists. split; [vm_compute; reflexivity|]. split; [done|vm_compute; reflexivity].
  - intros n. exists demo_bundle. split; [reflexivity|]. split; vm_compute; reflexivity.
Defined.

(** An update of that agent, from the assignment to its end. *)
Lemma site_possible `{Env} : disk_works → (∀ m n, (m ≤ n)%nat → env_now m ≤ env_now n) →
  update_possible (D := Simulator) site_config demo_assignment demo_release (w_fs w_site) 10.
Proof.
  intros Hdisk Hmono. split; try done.
  - exists demo_start. vm_compute. reflexivity.
  - intros w Hfs.
    destruct (fetch_by_relay site_config relay site (fun _ => full_relay) demo_artifact w) as (w' & Hf & _ & Ht);
      [exact Hdisk|done|done|exact site_link|..].
    + split; [by split|exists (to_bytes "secret"); rewrite Hfs; split; vm_compute; reflexivity|done].
    + split; [reflexivity| |vm_compute; reflexivity|by vm_compute|rewrite Hfs; by vm_compute].
      eexists. split; [vm_compute; reflexivity|]. split; [done|vm_compute; reflexivity].
    + intros n. exists demo_bundle. split; [reflexivity|]. split; vm_compute; reflexivity.
    + by eapply gives_eq.
Qed.

Lemma clock_runs m n : (m ≤ n)%nat → env_now (Env := peer_env) m ≤ env_now (Env := peer_env) n.
Proof. intros. simpl. unfold Second. lia. Qed.

Lemma site_fits : device_fits site_config demo_release (factoryStatus "board") "rootfs.1".
Proof. by split; vm_compute. Qed.

Lemma site_assignable : assignable site_config demo_assignment demo_release.
Proof. by split; vm_compute. Qed.

Lemma site_idle : idle_device demo_assignment demo_release (w_fs w_site) (factoryStatus "board") w_site.
Proof. by split. Qed.

(** The window covers the calls up to the reboot. *)
Lemma site_window : window_holds demo_assignment demo_release 43 w_site.
Proof.
  intros n Hn. unfold w_site in Hn. simpl in Hn.
  assert (Hf : Forall (fun n => in_window demo_assignment demo_release n) (seq 0 43)).
  { repeat (apply Forall_cons; split; [by vm_compute|]). apply Forall_nil. done. }
  rewrite Forall_forall in Hf. apply Hf, elem_of_seq. lia.
Qed.

Lemma commit_witness : gives (Submit site_config demo_assignment) w_site (fun _ w' =>
  ∃ n, gives (Steps site_config n) w' (fun _ w2 => committed_on demo_assignment demo_release "rootfs.1" w2)).
Proof.
  eapply (assignment_commits site_config demo_assignment demo_release) with (checkCalls := 0%nat) (pace := 7 * Second).
  - split; [exact site_disk|done|intros n; by eexists|done].
  - apply site_possible; [exact site_disk|exact clock_runs].
  - apply site_fits.
  - apply site_assignable.
  - apply site_idle.
  - exact site_window.
  - split.
    + intros w. eapply gives_eq; [reflexivity|]. split; [reflexivity|simpl; lia].
    + intros m. exists (m + 10)%nat. intros n Hn.
      change (seconds (c_HealthStableSeconds site_config)) with (10 * Second). simpl. unfold Sub, Second. lia.
    + intros n. simpl. unfold demo_start, Second. lia.
    + intros n. simpl. unfold Second. lia.
    + by vm_compute.
    + by vm_compute.
Defined.

(** Executed: the twelfth step commits. *)
Lemma commit_executed :
  (j_State <$> db_Jobs (w_data (Steps site_config 12 (Submit site_config demo_assignment w_site).2).2) !! "job-1") =
    Some Committed.
Proof. vm_compute. reflexivity. Qed.

(** The same device with checks that fail. *)
Module Sick.
Local Instance sick_env : Env := {|
  env_now := env_now (Env := peer_env); env_elapsed := fun _ => 0; env_crash := fun _ => false; env_io := fun _ => None;
  env_short := fun _ => 0%nat; env_free := fun _ => 2 ^ 40; env_tx := fun _ => TxOk; env_ctx := fun _ => None;
  env_probe := fun _ _ => Ok 500; env_rand := fun _ => Ok "0123456789abcdef"; env_spans := false; env_measured := None;
  env_health := Some (fun _ => Some (errors_New "device unhealthy")) |}.

Lemma rollback_witness : gives (Submit site_config demo_assignment) w_site (fun _ w' =>
  ∃ n, gives (Steps site_config n) w' (fun _ w2 =>
    rolled_back_on demo_assignment (factoryStatus "board") "rootfs.1" w2)).
Proof.
  eapply (assignment_rolls_back site_config demo_assignment demo_release).
  - split; [by split|done|intros n; by eexists|done].
  - apply site_possible; [by split|exact clock_runs].
  - apply site_fits.
  - apply site_assignable.
  - apply site_idle.
  - exact site_window.
  - split.
    + intros w. eexists _, _. split; [reflexivity|]. split; simpl; try done; lia.
    + intros m. exists (m + 60)%nat. intros n Hn.
      change (seconds (c_HealthTimeoutSeconds site_config)) with (60 * Second). simpl. unfold Second. lia.
Defined.
End Sick.
End SiteRun.

(** ** The measurements *)
Module MeasureRun.
(** A device that waits for an update nobody assigned. *)
Lemma until_witness : ∃ fuel0, ∀ fuel, (fuel0 ≤ fuel)%nat →
  until_ended Committed (until demo_config fuel Committed (30 * Second) demo_world).1
    (until demo_config fuel Committed (30 * Second) demo_world).2.
Proof.
  apply (until_ends demo_config). intros t. exists (Z.to_nat t). intros n Hn. simpl. unfold demo_start, Second. lia.
Defined.

(** The first client fetches, then the others are served. *)
Definition small_body : bytes := to_bytes "z".
Local Instance small_env : RelayEnv := measureRelayEnv small_body.
Definition one_by_one : list nat := repeat 0%nat 6 ++ flat_map (fun i => [i; i]) (seq 1 99).
Definition all_served : Pool :=
  default (started (digest small_body)) (turns measureServer one_by_one (started (digest small_body))).

Lemma all_turns : turns measureServer one_by_one (started (digest small_body)) = Some all_served.
Proof. vm_compute. reflexivity. Qed.

(** A pool of answered requests has no turn to give. *)
Definition answered (t : thread) : bool := match th_phase t with Answered _ => true | _ => false end.
Lemma answered_stuck p : forallb answered (po_threads p) = true → ∀ i, schedule measureServer i p = None.
Proof.
  intros Hall i. unfold schedule. destruct (po_threads p !! i) as [t|] eqn:Hi; [|done].
  rewrite forallb_forall in Hall. specialize (Hall t (proj1 (list_elem_of_In _ _) (list_elem_of_lookup_2 _ _ _ Hi))).
  unfold answered, turn_of in *. simpl. by destruct (th_phase t).
Qed.

Lemma all_answered : forallb answered (po_threads all_served) = true.
Proof. vm_compute. reflexivity. Qed.

Lemma relay_report_witness :
  measureRelay (countedBytes 512 small_body) all_served = Ok (mkRelayReport 100 1 1 100 99).
Proof.
  apply (measureRelay_reports small_body 512 one_by_one all_served).
  - lia.
  - done.
  - exact all_turns.
  - apply answered_stuck, all_answered.
Defined.
End MeasureRun.

(** ** RAUC *)
Module RaucRun.
Definition rootfs (name state : string) : raucSlot :=
  mkRaucSlot name (<["class" := VString "rootfs"]> (<["bootname" := VString name]> (<["state" := VString state]> ∅))).
Local Instance two_slots : Bus unit := {|
  bus_Get := fun name d => (Ok (VString (if eqs name "Operation" then "idle" else "board")), d);
  bus_GetPrimary := fun d => (Ok "rootfs.0", d);
  bus_GetSlotStatus := fun d => (Ok [rootfs "rootfs.0" "booted"; rootfs "rootfs.1" "inactive"], d);
  bus_AddMatch := fun d => (Ok tt, d);
  bus_InstallBundle := fun _ d => (Ok tt, d);
  bus_Signals := fun _ => [];
  bus_Mark := fun _ slot d => (Ok (slot, ""), d);
  bus_Reboot := fun d => (Ok tt, d);
  bus_BootID := fun d => (Ok (to_bytes "boot"), d) |}.
Definition rauc_state : DeviceStatus :=
  match (rauc_Status tt).1 with Ok s => s | Err _ => factoryStatus "" end.

Lemma target_witness : ∃ slots d1 a b, bus_GetSlotStatus d1 = (Ok slots, tt) ∧
  base.filter (fun x => bootable x = true) slots ≡ₚ [a; b] ∧
  stringOf (rs_Properties a) "state" = "booted" ∧ rs_Name a = ds_Booted rauc_state ∧
  rs_Name b = "rootfs.1" ∧ "rootfs.1" ≠ ds_Booted rauc_state.
Proof. apply (rauc_target_is_other_rootfs tt rauc_state tt "rootfs.1"); vm_compute; reflexivity. Defined.
End RaucRun.

(** ** Campaign media *)
Module CampaignRun.
Local Instance media_assignment : JSONDecode Assignment := {| json_Decode := fun _ => Ok (demo_assignment, []) |}.
Local Instance media_indent : JSONIndent Assignment := {| json_MarshalIndent := fun _ => to_bytes "assignment" |}.

Definition w_media : World Simulator := set_w_fs {[artifactFile "/in" demo_artifact := File demo_bundle]} demo_world.
Definition export_run := ExportCampaign "/out" demo_assignment "/in" w_media.

Lemma peer_disk : disk_works.
Proof. intros n. split; [|done]. apply Z.eqb_neq. lia. Qed.

Lemma export_ok : export_run.1 = Ret tt.
Proof. vm_compute. reflexivity. Qed.

Lemma export_witness : ∃ w'', ImportCampaign "/out" export_run.2 = (Ret demo_assignment, w'').
Proof.
  apply (campaign_roundtrip "/out" "/in" demo_assignment w_media export_run.2).
  - apply peer_disk.
  - vm_compute. discriminate.
  - reflexivity.
  - apply outcome_is, export_ok.
Defined.

Definition written : path := ["etc"; "agent.json"].
Definition atomic_run := AtomicWrite written (to_bytes "new") (set_w_fs {[written := File (to_bytes "old")]} demo_world).

Lemma written_plain : ¬ temporary written written.
Proof. intros [suffix E]. unfold tempPath, written in E. simpl in E. by injection E. Qed.

Lemma atomic_witness :
  (w_fs atomic_run.2 !! written = Some (File (to_bytes "old")) ∧ atomic_run.1 ≠ Ret tt) ∨
  w_fs atomic_run.2 !! written = Some (File (to_bytes "new")).
Proof.
  exact (AtomicWrite_atomic written (to_bytes "new") (set_w_fs {[written := File (to_bytes "old")]} demo_world)
           written_plain).
Defined.
End CampaignRun.

(** ** The command line *)
Module CliRun.
Definition zeros (n : nat) : bytes := repeat Byte.x00 n.
Local Instance zero_keys : KeyGen := {|
  ed25519_GenerateKey := fun _ => Ok (zeros 32, zeros 64); ed25519_Sign := fun _ _ => [] |}.
Local Instance release_text : JSONEncode Release := {| json_Marshal := fun _ => to_bytes "release" |}.
Local Instance envelope_text : JSONIndent Envelope := {| json_MarshalIndent := env_Signature |}.
Local Instance envelope_read : JSONDecode Envelope :=
  {| json_Decode := fun b => Ok (mkEnvelope "key-1" (to_bytes "release") b, []) |}.

Definition w_desk : World Simulator := set_w_fs {[["release.json"] := File (to_bytes "release")]} demo_world.
Definition keygen_run := keygen "keys" w_desk.
Definition sign_run := cli_sign "release.json" "keys/release.key" "key-1" "envelope.json" keygen_run.2.

Lemma desk_ok : keygen_run.1 = Ret tt ∧ sign_run.1 = Ret tt.
Proof. split; vm_compute; reflexivity. Qed.

Lemma envelope_plain : ¬ temporary (components "envelope.json") (components "envelope.json").
Proof. intros [suffix E]. vm_compute in E. by injection E. Qed.

Definition signed_release : Release :=
  match checkContents demo_release demo_config with Ok r => r | Err _ => demo_release end.

Lemma signing_chain_witness : ∃ file env, w_fs sign_run.2 !! components "envelope.json" = Some (File file) ∧
  StrictJSON file = Ok env ∧ VerifyEnvelope env demo_config demo_start = Ok signed_release.
Proof.
  apply (keygen_sign_verify "keys" "keys/release.key" "release.json" "key-1" "envelope.json" demo_config demo_start
    (to_bytes "release") demo_release signed_release (keyText (zeros 32)) w_desk keygen_run.2 sign_run.2).
  - apply outcome_is, desk_ok.
  - apply outcome_is, desk_ok.
  - vm_compute. reflexivity.
  - apply envelope_plain.
  - intros n pub priv [= <- <-]. by split.
  - vm_compute. reflexivity.
  - vm_compute. reflexivity.
  - vm_compute. reflexivity.
  - reflexivity.
  - reflexivity.
  - vm_compute. discriminate.
  - intros sig. reflexivity.
  - vm_compute. reflexivity.
  - vm_compute. reflexivity.
Defined.
End CliRun.

(** ** The client *)
Module ClientRun.
Local Instance client_urls : NetURL := {| url_Parse := fun s =>
  if eqs s "http://unix/v1/gc" then Some (mkURL "http" "unix" "unix" false "/v1/gc" "" "") else None |}.
Local Instance error_text : JSONUnmarshal ErrorBody := {| json_Unmarshal := fun _ => errorf "no document" |}.
Local Instance demo_wire : Wire := {|
  wire_body := fun b => match b with ApiError msg => json_error msg | _ => [] end;
  wire_error := fun msg _ => eq_refl |}.

(** The engine is held by a step that ends while the client sleeps. *)
Definition w_held : World Simulator := set_w_mu true demo_world.
Definition release_lock (w : World Simulator) : World Simulator := set_w_mu false w.
Definition gc_request : apiRequest := mkApiRq "POST" ["v1"; "gc"] [] false.
Definition gc_run := Handler demo_config gc_request (release_lock w_held).

Lemma gc_ok : gc_run.1 = Ret (mkApiRs _ 200 ApiOk).
Proof. vm_compute. reflexivity. Qed.

Lemma waits_witness :
  client_do (H := agent demo_config release_lock) "" "POST" "/v1/gc" None 200 w_held =
    (Ret (limit_read 1048576 (wire_body ApiOk)), gc_run.2).
Proof.
  apply (client_waits_for_engine demo_config "" release_lock "/v1/gc" None
    (mkURL "http" "unix" "unix" false "/v1/gc" "" "") 200 1 (mkApiRs _ 200 ApiOk) w_held gc_run.2).
  - vm_compute. reflexivity.
  - split; [reflexivity|]. left. right. right. reflexivity.
  - lia.
  - lia.
  - intros i Hi. assert (i = 0%nat) as -> by lia. reflexivity.
  - apply outcome_is, gc_ok.
  - reflexivity.
Defined.
End ClientRun.

(** ** The lab server *)
Module LabRun.
Local Instance lab_x509 : X509 := {|
  ecdsa_GenerateKey := fun _ => Ok (to_bytes "key");
  x509_CreateCertificate := fun _ _ _ => Ok (to_bytes "certificate");
  x509_MarshalECPrivateKey := fun k => Ok k |}.
Local Instance lab_pem : PEM := {| pem_AppendCerts := fun _ => true; pem_X509KeyPair := fun _ _ => None |}.
Local Instance lab_assignment : JSONDecode Assignment := {| json_Decode := fun _ => Ok (demo_assignment, []) |}.

Definition lab_flags : labFlags := mkLabFlags "secret" "device-0, device-1" "/lab/assignment.json" "" "" "/lab/ca.pem".
Definition lab_config : Config :=
  mkConfig "device-1" "board" "/var/lib/zyvor" "/run/zyvor/ota.sock" "simulator" false ∅ [] 1048576 0 60 10 [] [] 0 0
    "" "" "" false "" "" "" "" "" "" false "https://127.0.0.1:8443" "/etc/token" "/lab/ca.pem" "" "".
Definition lab_world : World Simulator :=
  set_w_fs {[["lab"; "assignment.json"] := File []; ["etc"; "token"] := File (to_bytes "secret")]} demo_world.
Abbreviation lab_run := (lab_main lab_flags lab_world).

Lemma lab_disk : disk_works.
Proof. intros n. split; [|done]. apply Z.eqb_neq. lia. Qed.

Lemma lab_ready : ∃ s cert w', lab_run = (Ret (s, cert), w').
Proof. vm_compute. eauto. Qed.

Lemma lab_set_up (w' : World Simulator) :
  w_fs w' !! ["etc"; "token"] = Some (File (to_bytes "secret")) → lab_device lab_flags lab_config w'.
Proof.
  intros Hf. split; [done|done| |by vm_compute|].
  - split; [done|]. exists (to_bytes "secret"). split; [exact Hf|by vm_compute].
  - exists " device-1". split; [vm_compute; right; left|by vm_compute].
Qed.

Lemma lab_token_kept : w_fs lab_run.2 !! ["etc"; "token"] = Some (File (to_bytes "secret")).
Proof. vm_compute. reflexivity. Qed.

Lemma lab_witness : ∃ fl n, NewFleet lab_config lab_run.2 = (Ret fl, set_w_tick n lab_run.2).
Proof.
  destruct lab_ready as (s & cert & w' & E). pose proof lab_token_kept as Ht. rewrite E in Ht |- *.
  destruct (lab_serves_device lab_flags lab_config demo_assignment [] lab_world s cert w' lab_disk) as (fl & n & Hf & _).
  all: try done.
  - apply lab_set_up, Ht.
  - by exists fl, n.
Defined.
End LabRun.

(** ** The agent process *)
Module DaemonRun.
Local Instance daemon_fleet : FleetNet := demo_fleet.
Local Instance daemon_config : JSONDecode Config := {| json_Decode := fun _ => Ok (demo_config, []) |}.
Local Instance daemon_pem : PEM := {| pem_AppendCerts := fun _ => true; pem_X509KeyPair := fun _ _ => None |}.

(** A provisioned device on which a previous agent left its socket behind. *)
Definition process : Daemon Simulator :=
  mkDaemon (set_w_fs {[["etc"; "agent.json"] := File []]} demo_world) {["/run/zyvor/ota.sock" := Sock false 384]}.

Definition idle : Host Simulator := mkHost process None.
Definition ready : Running := mkRunning demo_config "" None.
Definition busy_host : Host Simulator := (launch true "/etc/agent.json" "" idle).2.

Lemma idle_reachable : host_reachable demo_config idle.
Proof. apply host_fresh; [done|done|]. intros mode. vm_compute. discriminate. Qed.

Lemma launched : (launch true "/etc/agent.json" "" idle).1 = Ret ready.
Proof. vm_compute. reflexivity. Qed.

Lemma busy_owner : ho_owner busy_host = Some (mkProcess ready "" false Ready).
Proof. vm_compute. reflexivity. Qed.

Lemma busy_reachable : host_reachable demo_config busy_host.
Proof. eapply host_next; [exact idle_reachable|]. apply hs_launch. rewrite launched. by intros r [= <-]. Qed.

(** The agent serves on its socket, and a second one is refused. *)
Lemma host_witness :
  listening demo_config "" (ho_daemon busy_host) ∧
  ∀ r, (launch true "/etc/agent.json" "" busy_host).1 ≠ Ret r.
Proof.
  pose proof (one_agent_serves demo_config busy_host busy_reachable) as (_ & _ & Hs). rewrite busy_owner in Hs.
  destruct Hs as (_ & Hl & Hlaunch). split; [exact (Hl eq_refl)|]. intros r.
  specialize (Hlaunch true "/etc/agent.json" ""). destruct (launch true "/etc/agent.json" "" busy_host) as [o h'].
  apply Hlaunch.
Defined.

Lemma daemon_disk : disk_works.
Proof. intros n. split; [|done]. apply Z.eqb_neq. lia. Qed.

Lemma idle_provisioned : provisioned demo_config "/etc/agent.json" (dm_world (ho_daemon idle)).
Proof.
  split; [vm_compute; reflexivity|exists []; split; vm_compute; reflexivity|vm_compute; reflexivity|..];
    unfold readable; simpl; try done. by intros [].
Qed.

(** The left-over socket is replaced; the agent then shuts down cleanly. *)
Lemma restarts_witness :
  (∃ r h', launch true "/etc/agent.json" "" idle = (Ret r, h') ∧ rn_config r = demo_config) ∧
  ho_owner (Nat.iter 4 shut busy_host) = None ∧
  dm_sock (ho_daemon (Nat.iter 4 shut busy_host)) !! "/run/zyvor/ota.sock" = None.
Proof.
  split.
  - destruct (agent_restarts demo_config "/etc/agent.json" idle daemon_disk idle_reachable idle_provisioned)
      as (r & h' & E & Hc & _); [vm_compute; discriminate|]. exists r, h'. split; [exact E|exact Hc].
  - pose proof (agent_restarts demo_config "/etc/agent.json" busy_host daemon_disk busy_reachable) as Hs.
    rewrite busy_owner in Hs. destruct (Hs eq_refl) as [Ho Hsock]; [vm_compute; reflexivity|].
    split; [exact Ho|]. exact (Hsock eq_refl).
Defined.
End DaemonRun.
